(** * avecta-survey: query understanding, filtering, analysis and arbitration

    A shallow embedding of the decision logic of the municipal survey
    assistant:

    - [ResidentFilterService]   (services/ResidentFilterService.js)
    - [ScopeClassifier]         (services/ScopeClassifier.js)
    - [QueryAnalyzer]           (services/QueryAnalyzer.js)
    - [Orchestrator]            (orchestrator.js)
    - [MunicipalAnalysisEngine] (services/MunicipalAnalysisEngine.js)
    - [MunicipalPromptEngine]   (services/MunicipalPromptEngine.js)
    - [KnowledgeAgent], [NotificationAgent]
                                (agents/knowledgeAgent.js, agents/notificationAgent.js)
    - [QueryProcessor]          (public/js: QueryProcessor.js, queryTemplates.js)

    Conventions of the embedding.

    - A JavaScript string is the list of its UTF-16 code units ([jsstring]);
      [List.length] is then the [.length] of the source.
    - The Unicode services of the runtime ([String.prototype.normalize],
      [toLowerCase], [JSON.parse]) are the fields of the class [JsRuntime];
      every theorem is proved for an arbitrary runtime.  [Latin1_runtime] is
      an executable runtime for Basic Latin, Latin-1 Supplement and the
      combining diacritical marks, on which the examples run.
    - Numbers are IEEE 754 binary64 numbers, as in the source.  The
      confidence values of the classifier and the orchestrator are primitive
      floats ([float]).  The numbers of the analysis engine ([number]) are
      binary64 numbers given by their exact rational value, with the rounding
      of every operation written out ([round64]: to the nearest, ties to
      even, 53 bits of mantissa), so that a rate or a mean can be compared
      with the exact quotient it stands for; [Binary64] compares [round64]
      with the primitive floats.
    - [Number.prototype.toString], which [toFixed] calls for magnitudes of
      10^21 and more, is the field of the class [NumberPrinter];
      [Decimal_printer] is an executable printer.
    - Calls that leave the process or the modelled components (HTTP requests,
      the context builder, the agents, the LLM enhancement) are the nodes of a
      [Program]; running a program against a [World] gives its result and the
      trace of the calls made.
    - An object that the source uses as a counter is the list of its own
      properties in the order of their creation ([Counter]); a key that names
      a member that objects inherit reads that member, as in the source
      ([inheritedKeys]), and [Object_entries] lists the properties as the
      runtime does. *)

From Stdlib Require Import List String Ascii Bool NArith ZArith QArith Qround Qabs Qpower.
From Stdlib Require Import Permutation Morphisms Setoid Lia Lqa Floats.
Import ListNotations.

Set Warnings "-inexact-float,-register-all".
Set Implicit Arguments.

Open Scope string_scope.
Open Scope list_scope.

(* ================================================================== *)
(** * JavaScript strings *)
(* ================================================================== *)

Definition jsstring := list N.

(** Decoding of a UTF-8 literal of this file into code units.  The literals
    used here stay inside the Basic Multilingual Plane, where a code point is
    one code unit. *)
Fixpoint utf8_decode (bytes : list N) : jsstring :=
  match bytes with
  | [] => []
  | b :: rest =>
      if (b <? 128)%N then b :: utf8_decode rest
      else if (b <? 224)%N then
        match rest with
        | c :: rest' => ((b - 192) * 64 + (c - 128))%N :: utf8_decode rest'
        | [] => [b]
        end
      else
        match rest with
        | c :: d :: rest' =>
            ((b - 224) * 4096 + (c - 128) * 64 + (d - 128))%N :: utf8_decode rest'
        | _ => [b]
        end
  end.

Definition js (s : string) : jsstring :=
  utf8_decode (map N_of_ascii (list_ascii_of_string s)).

Fixpoint jseqb (a b : jsstring) : bool :=
  match a, b with
  | [], [] => true
  | x :: a', y :: b' => (x =? y)%N && jseqb a' b'
  | _, _ => false
  end.

(** [Array.prototype.includes] on an array of strings. *)
Definition mem (x : jsstring) (l : list jsstring) : bool := existsb (jseqb x) l.

(** [s.startsWith(p)] and [s.includes(p)]. *)
Fixpoint startsWith (s p : jsstring) : bool :=
  match p, s with
  | [], _ => true
  | _ :: _, [] => false
  | a :: p', b :: s' => (a =? b)%N && startsWith s' p'
  end.

Fixpoint includes (s p : jsstring) : bool :=
  startsWith s p ||
  match s with
  | [] => false
  | _ :: s' => includes s' p
  end.

(** [list.some(t => s.includes(t))]. *)
Definition includesAny (s : jsstring) (l : list jsstring) : bool :=
  existsb (includes s) l.

(** The WhiteSpace and LineTerminator code units: the class [\s] of regular
    expressions, which is also what [trim] strips. *)
Definition isSpace (c : N) : bool :=
  ((9 <=? c) && (c <=? 13) || (c =? 32) || (c =? 160) || (c =? 5760)
   || (8192 <=? c) && (c <=? 8202) || (c =? 8232) || (c =? 8233)
   || (c =? 8239) || (c =? 8287) || (c =? 12288) || (c =? 65279))%N.

(** [s.split(/\s+/)]: the pieces between the maximal runs of white space; a
    string that starts or ends with white space yields an empty first or last
    piece, and the empty string yields one empty piece. *)
Fixpoint split_ws_from (cur : jsstring) (in_ws : bool) (s : jsstring) : list jsstring :=
  match s with
  | [] => [rev cur]
  | c :: s' =>
      if isSpace c then
        if in_ws then split_ws_from cur true s'
        else rev cur :: split_ws_from [] true s'
      else split_ws_from (c :: cur) false s'
  end.

Definition split_ws (s : jsstring) : list jsstring := split_ws_from [] false s.

(** [s.trim().length > 0]. *)
Definition trim_nonempty (s : jsstring) : bool := existsb (fun c => negb (isSpace c)) s.

(** JavaScript truthiness of a string and of a possibly undefined string. *)
Definition truthy (s : jsstring) : bool :=
  match s with [] => false | _ => true end.

Definition truthy_opt (s : option jsstring) : bool :=
  match s with Some s => truthy s | None => false end.

(** [a || d] on a possibly undefined string. *)
Definition or_default (a : option jsstring) (d : jsstring) : jsstring :=
  match a with
  | Some s => if truthy s then s else d
  | None => d
  end.

(* ------------------------------------------------------------------ *)
(** ** Regular expressions *)
(* ------------------------------------------------------------------ *)

(** The patterns of the source use character classes, concatenation,
    alternation, [?] and [+] only; matching is by Brzozowski derivatives. *)
Inductive regex : Type :=
| RNone
| REps
| RClass (p : N -> bool)
| RSeq (r1 r2 : regex)
| RAlt (r1 r2 : regex)
| RStar (r : regex).

Fixpoint nullable (r : regex) : bool :=
  match r with
  | RNone => false
  | REps => true
  | RClass _ => false
  | RSeq r1 r2 => nullable r1 && nullable r2
  | RAlt r1 r2 => nullable r1 || nullable r2
  | RStar _ => true
  end.

Fixpoint deriv (c : N) (r : regex) : regex :=
  match r with
  | RNone => RNone
  | REps => RNone
  | RClass p => if p c then REps else RNone
  | RSeq r1 r2 =>
      if nullable r1 then RAlt (RSeq (deriv c r1) r2) (deriv c r2)
      else RSeq (deriv c r1) r2
  | RAlt r1 r2 => RAlt (deriv c r1) (deriv c r2)
  | RStar r' => RSeq (deriv c r') (RStar r')
  end.

Fixpoint matches (r : regex) (s : jsstring) : bool :=
  match s with
  | [] => nullable r
  | c :: s' => matches (deriv c r) s'
  end.

Definition RAny : regex := RClass (fun _ => true).
Definition ROpt (r : regex) : regex := RAlt REps r.
Definition RPlus (r : regex) : regex := RSeq r (RStar r).

(** [r.test(s)]: some substring of [s] matches [r]. *)
Definition test (r : regex) (s : jsstring) : bool :=
  matches (RSeq (RStar RAny) (RSeq r (RStar RAny))) s.

(** An ASCII letter of a pattern with the [i] flag.  Without the [u] flag a
    code unit above 127 never folds onto an ASCII letter, so the letter
    matches its two ASCII cases only. *)
Definition asciiUpper (c : N) : N :=
  if ((97 <=? c) && (c <=? 122))%N then (c - 32)%N else c.

Definition RChar_i (c : N) : regex :=
  RClass (fun x => (x =? c)%N || (x =? asciiUpper c)%N).

Definition RChar (c : N) : regex := RClass (fun x => (x =? c)%N).

Fixpoint RLit_i (s : jsstring) : regex :=
  match s with
  | [] => REps
  | c :: s' => RSeq (RChar_i c) (RLit_i s')
  end.

Definition RWs : regex := RClass isSpace.

(** The class [[a-záàâãéèêíìîóòôõúùûç]] with the [i] flag, equally the class
    [[a-záàâãéèêíìîóòôõúùûçA-ZÁÀÂÃÉÈÊÍÌÎÓÒÔÕÚÙÛÇ]]: the ASCII letters and
    the listed accented letters in both cases. *)
Definition accentedLower : jsstring := js "áàâãéèêíìîóòôõúùûç".

Definition isNameLetter (c : N) : bool :=
  ((97 <=? c) && (c <=? 122) || (65 <=? c) && (c <=? 90))%N
  || existsb (fun a => (c =? a)%N || (c =? a - 32)%N) accentedLower.

Definition hasNameLetter (w : jsstring) : bool := test (RClass isNameLetter) w.

(* ------------------------------------------------------------------ *)
(** ** Trimming, joining and replacing *)
(* ------------------------------------------------------------------ *)

(** [a || null] on a possibly undefined string. *)
Definition or_null (a : option jsstring) : option jsstring :=
  match a with
  | Some s => if truthy s then Some s else None
  | None => None
  end.

(** [s.trim()]. *)
Fixpoint trimStart (s : jsstring) : jsstring :=
  match s with
  | [] => []
  | c :: s' => if isSpace c then trimStart s' else s
  end.

Definition trim (s : jsstring) : jsstring := rev (trimStart (rev (trimStart s))).

(** [parts.join(sep)]. *)
Fixpoint join (sep : jsstring) (parts : list jsstring) : jsstring :=
  match parts with
  | [] => []
  | p :: rest =>
      match rest with
      | [] => p
      | _ :: _ => p ++ sep ++ join sep rest
      end
  end.

(** [s] starts with the literal [p], read with the [i] flag: [p] is made of
    lower-case ASCII letters and spaces, and a unit of [s] matches a letter
    in its two ASCII cases. *)
Fixpoint startsWith_i (s p : jsstring) : bool :=
  match p, s with
  | [], _ => true
  | _ :: _, [] => false
  | a :: p', b :: s' => ((b =? a) || (b =? asciiUpper a))%N && startsWith_i s' p'
  end.

(** [s.replace(new RegExp(pat, 'gi'), '')] for such a literal: the
    occurrences are found from left to right and do not overlap; [skip] is
    the number of units of the current occurrence still to drop.  The empty
    pattern matches the empty string everywhere and removes nothing. *)
Fixpoint removeAll_from (pat : jsstring) (skip : nat) (s : jsstring) : jsstring :=
  match s with
  | [] => []
  | c :: s' =>
      match skip with
      | S k => removeAll_from pat k s'
      | O =>
          if truthy pat && startsWith_i s pat
          then removeAll_from pat (List.length pat - 1) s'
          else c :: removeAll_from pat 0 s'
      end
  end.

Definition removeAll_i (pat s : jsstring) : jsstring := removeAll_from pat 0 s.

(* ------------------------------------------------------------------ *)
(** ** The runtime *)
(* ------------------------------------------------------------------ *)

(** The values [JSON.parse] can return. *)
Inductive Json : Type :=
| JNull
| JBool (b : bool)
| JNum (x : float)
| JStr (s : jsstring)
| JArr (items : list Json)
| JObj (fields : list (jsstring * Json)).

Class JsRuntime : Type := {
  (** [(s || '').toString().normalize('NFD').replace(/\p{Diacritic}/gu, '').toLowerCase()],
      the helper every service of the source defines under the name
      [normalize]. *)
  normalize : jsstring -> jsstring;
  (** [s.toLowerCase()]. *)
  toLowerCase : jsstring -> jsstring;
  (** [JSON.parse(s)]; [None] when it throws. *)
  JSON_parse : jsstring -> option Json
}.

(* ------------------------------------------------------------------ *)
(** ** An executable runtime for Latin-1 text *)
(* ------------------------------------------------------------------ *)

Module Latin1.

(** Canonical decomposition (NFD) of the precomposed letters of the Latin-1
    Supplement: the base letter followed by its combining mark. *)
Definition decompose (c : N) : jsstring :=
  let grave := 768%N in let acute := 769%N in let circ := 770%N in
  let tilde := 771%N in let diaer := 776%N in let ring := 778%N in
  let cedil := 807%N in
  let upper (o : N) : jsstring :=
    match o with
    | 0 => [65; grave] | 1 => [65; acute] | 2 => [65; circ] | 3 => [65; tilde]
    | 4 => [65; diaer] | 5 => [65; ring] | 7 => [67; cedil]
    | 8 => [69; grave] | 9 => [69; acute] | 10 => [69; circ] | 11 => [69; diaer]
    | 12 => [73; grave] | 13 => [73; acute] | 14 => [73; circ] | 15 => [73; diaer]
    | 17 => [78; tilde]
    | 18 => [79; grave] | 19 => [79; acute] | 20 => [79; circ] | 21 => [79; tilde]
    | 22 => [79; diaer]
    | 25 => [85; grave] | 26 => [85; acute] | 27 => [85; circ] | 28 => [85; diaer]
    | 29 => [89; acute]
    | _ => []
    end%N in
  if ((192 <=? c) && (c <=? 222))%N then
    match upper (c - 192)%N with [] => [c] | d => d end
  else if (c =? 255)%N then [121; diaer]%N
  else if ((224 <=? c) && (c <=? 254))%N then
    match upper (c - 224)%N with
    | b :: marks => (b + 32)%N :: marks
    | [] => [c]
    end
  else [c].

(** The code units with the Unicode property [Diacritic], up to U+036F. *)
Definition isDiacritic (c : N) : bool :=
  ((c =? 94) || (c =? 96) || (c =? 168) || (c =? 175) || (c =? 180)
   || (c =? 183) || (c =? 184)
   || (688 <=? c) && (c <=? 846) || (848 <=? c) && (c <=? 855)
   || (861 <=? c) && (c <=? 866))%N.

Definition lowerUnit (c : N) : N :=
  if ((65 <=? c) && (c <=? 90))%N then (c + 32)%N
  else if ((192 <=? c) && (c <=? 222) && negb (c =? 215))%N then (c + 32)%N
  else c.

Definition toLowerCase (s : jsstring) : jsstring := map lowerUnit s.

Definition normalize (s : jsstring) : jsstring :=
  toLowerCase (filter (fun c => negb (isDiacritic c)) (flat_map decompose s)).

End Latin1.

(* ================================================================== *)
(** * The data model *)
(* ================================================================== *)

(** The survey answer of a citizen record.  A field that is absent
    ([undefined]) is [None]. *)
Record Survey : Type := {
  issue : option jsstring;
  satisfaction : option jsstring;
  participate : option jsstring;
  answeredAt : option jsstring
}.

Record Contact : Type := {
  name : option jsstring;
  neighborhood : option jsstring;
  whatsapp : option jsstring;
  survey : option Survey
}.

Inductive Priority : Type :=
| HIGH | MEDIUM | ADVOCATE | POSITIVE | ENGAGED | NOT_WILLING.

(** The projection of a record that the filters return. *)
Record Resident : Type := {
  r_name : option jsstring;
  r_neighborhood : option jsstring;
  r_whatsapp : option jsstring;
  r_satisfaction : option jsstring;
  r_issue : option jsstring;
  r_participateInterest : option jsstring;
  r_priority : option Priority
}.

(** A record of data.json as a whole: the fields the segment filters read
    ([contact]) and the ones the name search copies besides.  Ages are whole
    numbers of years. *)
Record Citizen : Type := {
  c_id : option jsstring;
  c_age : option N;
  c_contact : Contact;
  c_whatsappSentAt : option jsstring;
  c_clickedAt : option jsstring;
  c_createdAt : option jsstring;
  c_updatedAt : option jsstring
}.

(** What the name search returns for a record. *)
Record NameMatch : Type := {
  m_name : option jsstring;
  m_age : option N;
  m_neighborhood : option jsstring;
  m_whatsapp : option jsstring;
  m_satisfaction : option jsstring;
  m_issue : option jsstring;
  m_participate : option jsstring;
  m_answeredAt : option jsstring;
  m_whatsappSentAt : option jsstring;
  m_clickedAt : option jsstring;
  m_id : option jsstring;
  m_createdAt : option jsstring;
  m_updatedAt : option jsstring
}.

(** A row of [filterResidents]: the shape depends on the filter. *)
Inductive Row : Type :=
| NameRow (m : NameMatch)
| SegmentRow (r : Resident).

(* ================================================================== *)
(** * services/ResidentFilterService.js *)
(* ================================================================== *)

Module ResidentFilterService.

Inductive FilterType : Type :=
| name_search
| dissatisfied
| satisfied
| participation_interested
| participation_not_interested
| all_with_survey.

Definition analysisKeywords : list jsstring := map js
  [ "análise"; "analysis"; "relatório"; "report"; "estatística"; "statistics";
    "satisfação"; "satisfaction"; "engajamento"; "engagement";
    "bairro"; "neighborhood"; "bairros"; "neighborhoods";
    "resumo"; "summary"; "overview"; "visão"; "view"; "visao";
    "problema"; "problem"; "problemas"; "problems";
    "questão"; "questao"; "question"; "questões"; "questoes"; "questions";
    "participação"; "participacao"; "participation";
    "idade"; "age"; "faixa etária"; "faixa etaria"; "age bracket" ]%string.

Definition searchVerbs : list jsstring := map js
  [ "encontre"; "encontrar"; "encontra"; "busque"; "buscar"; "busca";
    "find"; "search"; "procure"; "procurar"; "procura";
    "mostre"; "mostrar"; "mostra"; "show"; "exiba"; "exibir";
    "traga"; "trazer"; "quem e"; "quem eh"; "quem e o"; "quem eh o" ]%string.

Definition commonWords : list jsstring := map js
  [ "o"; "a"; "os"; "as"; "de"; "do"; "da"; "dos"; "das"; "em"; "no"; "na";
    "the"; "a"; "an"; "me"; "meu"; "minha"; "meus"; "minhas";
    "um"; "uma"; "uns"; "umas"; "que"; "qual"; "quais" ]%string.

Section Service.
Context `{JsRuntime}.

(** [isNameSearchQuery(query)]. *)
Definition isNameSearchQuery (query : jsstring) : bool :=
  let qn := normalize query in
  if includesAny qn analysisKeywords then false
  else
    let hasSearchVerb := includesAny qn searchVerbs in
    let words :=
      filter (fun w =>
                let normalized := normalize w in
                negb (mem normalized commonWords)
                && negb (mem normalized searchVerbs)
                && negb (existsb (fun kw => includes normalized kw || includes kw normalized)
                                 analysisKeywords))
             (split_ws query) in
    if hasSearchVerb && (1 <=? List.length words)%nat then
      let nameLikeWords :=
        filter (fun w => (2 <=? List.length w)%nat && hasNameLetter w) words in
      (1 <=? List.length nameLikeWords)%nat
    else false.

(** The conditions of [determineFilterType], one per branch and in the
    order of the source; [qn] is the normalized query. *)
Definition negationMarker (qn : jsstring) : bool :=
  includes qn (js "nao") || includes qn (js "não") || includes qn (js "not")
  || includes qn (js "sem interesse") || includes qn (js "nao interessados")
  || includes qn (js "nao querem participar") || includes qn (js "nao participaria")
  || includes qn (js "não querem participar") || includes qn (js "não quer participar")
  || includes qn (js "não participaria").

Definition notInterestedPattern (qn : jsstring) : bool :=
  includes qn (js "particip") && negationMarker qn.

Definition interestedPattern (qn : jsstring) : bool :=
  (includes qn (js "particip") || includes qn (js "interested")
   || includes qn (js "interessad") || includes qn (js "event"))
  && negb (includes qn (js "nao") || includes qn (js "não") || includes qn (js "not")
           || includes qn (js "sem interesse") || includes qn (js "nao interessados")).

Definition dissatisfiedPattern (qn : jsstring) : bool :=
  includes qn (js "dissatisfied") || includes qn (js "unsatisfied")
  || includes qn (js "insatisfied") || includes qn (js "unhappy")
  || includes qn (js "insatisf") || includes qn (js "insatisfeito")
  || includes qn (js "insatisfeitos").

Definition satisfiedPattern (qn : jsstring) : bool :=
  (includes qn (js "satisfied") || includes qn (js "satisfeito")
   || includes qn (js "satisfeitos"))
  && negb (includes qn (js "dissatisfied") || includes qn (js "unsatisfied")
           || includes qn (js "insatisfied") || includes qn (js "unhappy")
           || includes qn (js "insatisfeito") || includes qn (js "insatisfeitos")).

Definition listingPattern (qn : jsstring) : bool :=
  includes qn (js "list") || includes qn (js "show") || includes qn (js "names")
  || includes qn (js "listar") || includes qn (js "mostre") || includes qn (js "mostrar")
  || includes qn (js "exibir").

(** [determineFilterType(query)]; [None] is the [null] of the source. *)
Definition determineFilterType (query : jsstring) : option FilterType :=
  let qn := normalize query in
  if notInterestedPattern qn then Some participation_not_interested
  else if interestedPattern qn then Some participation_interested
  else if isNameSearchQuery query then Some name_search
  else if dissatisfiedPattern qn then Some dissatisfied
  else if satisfiedPattern qn then Some satisfied
  else if listingPattern qn then Some all_with_survey
  else None.

(** The record the participation filters build from a contact and its
    survey. *)
Definition participationResident (c : Contact) (s : Survey) (p : Priority) : Resident :=
  {| r_name := name c;
     r_neighborhood := neighborhood c;
     r_whatsapp := whatsapp c;
     r_satisfaction := satisfaction s;
     r_issue := issue s;
     r_participateInterest := participate s;
     r_priority := Some p |}.

(** [contacts.filter(p).map(f)] when [f] reads [contact.survey], which
    the predicate has checked. *)
Definition filter_map_survey (keep : Contact -> bool) (p : Priority)
           (contacts : list Contact) : list Resident :=
  flat_map (fun c =>
              if keep c then
                match survey c with
                | Some s => [participationResident c s p]
                | None => []
                end
              else [])
           contacts.

(** [filterParticipationInterested(contacts)]: the predicate is
    [contact.survey && contact.survey.participate === 'Sim']. *)
Definition interestedContact (c : Contact) : bool :=
  match survey c with
  | Some s =>
      match participate s with
      | Some p => jseqb p (js "Sim")
      | None => false
      end
  | None => false
  end.

Definition filterParticipationInterested (contacts : list Contact) : list Resident :=
  filter_map_survey interestedContact ENGAGED contacts.

(** [filterParticipationNotInterested(contacts)]. *)
Definition notInterestedContact (c : Contact) : bool :=
  match survey c with
  | Some s =>
      match participate s with
      | Some p =>
          if negb (truthy p) then false
          else
            let normalized := normalize p in
            jseqb normalized (js "nao") || jseqb normalized (js "no")
      | None => false
      end
  | None => false
  end.

Definition filterParticipationNotInterested (contacts : list Contact) : list Resident :=
  filter_map_survey notInterestedContact NOT_WILLING contacts.

(** [extractNameFromQuery(query)]; [None] is [null]. *)
Definition nameWord (w : jsstring) : bool :=
  let normalized := normalize w in
  (0 <? List.length w)%nat
  && negb (mem normalized commonWords)
  && negb (existsb (fun kw => includes normalized kw || includes kw normalized)
                   analysisKeywords)
  && (2 <=? List.length w)%nat
  && hasNameLetter w.

Definition extractNameFromQuery (query : jsstring) : option jsstring :=
  let qn := normalize query in
  if includesAny qn analysisKeywords then None
  else
    let cleaned := fold_left (fun cleaned verb => removeAll_i verb cleaned) searchVerbs query in
    let words := filter nameWord (map trim (split_ws cleaned)) in
    if (0 <? List.length words)%nat then Some (trim (join (js " ") words)) else None.

(** [filterByName(contacts, query)]. *)
Definition nameMatch (c : Citizen) : NameMatch :=
  let survey_field (f : Survey -> option jsstring) :=
    match survey (c_contact c) with
    | Some s => or_null (f s)
    | None => None
    end in
  {| m_name := name (c_contact c);
     m_age := c_age c;
     m_neighborhood := neighborhood (c_contact c);
     m_whatsapp := whatsapp (c_contact c);
     m_satisfaction := survey_field satisfaction;
     m_issue := survey_field issue;
     m_participate := survey_field participate;
     m_answeredAt := survey_field answeredAt;
     m_whatsappSentAt := or_null (c_whatsappSentAt c);
     m_clickedAt := or_null (c_clickedAt c);
     m_id := c_id c;
     m_createdAt := c_createdAt c;
     m_updatedAt := c_updatedAt c |}.

Definition searchWordsOf (searchName : jsstring) : list jsstring :=
  filter (fun w => (0 <? List.length w)%nat) (split_ws searchName).

Definition nameMatches (searchName : jsstring) (searchWords : list jsstring)
           (c : Citizen) : bool :=
  match name (c_contact c) with
  | None => false
  | Some n =>
      if negb (truthy n) then false
      else
        let contactName := normalize n in
        includes contactName searchName
        || forallb (fun word => includes contactName word) searchWords
  end.

Definition filterByName (contacts : list Citizen) (query : jsstring) : list NameMatch :=
  match extractNameFromQuery query with
  | None => []
  | Some extractedName =>
      if negb (truthy extractedName) then []
      else
        let searchName := normalize extractedName in
        let searchWords := searchWordsOf searchName in
        if (List.length searchWords =? 0)%nat then []
        else map nameMatch (filter (nameMatches searchName searchWords) contacts)
  end.

(** [levels.includes(contact.survey.satisfaction)] behind [contact.survey &&]. *)
Definition satisfactionIn (levels : list jsstring) (c : Contact) : bool :=
  match survey c with
  | Some s =>
      match satisfaction s with
      | Some v => mem v levels
      | None => false
      end
  | None => false
  end.

(** [contact.survey.satisfaction === level ? yes : no]. *)
Definition priorityBy (level : string) (yes no : Priority) (s : Survey) : Priority :=
  match satisfaction s with
  | Some v => if jseqb v (js level) then yes else no
  | None => no
  end.

(** The record the segment filters build from a contact and its survey;
    [priority] is absent from the rows of [filterAllWithSurvey], which carry
    the constant [responded: true] in its place. *)
Definition segmentResident (c : Contact) (s : Survey) (p : option Priority) : Resident :=
  {| r_name := name c;
     r_neighborhood := neighborhood c;
     r_whatsapp := whatsapp c;
     r_satisfaction := satisfaction s;
     r_issue := issue s;
     r_participateInterest := participate s;
     r_priority := p |}.

Definition segment (keep : Contact -> bool) (p : Survey -> option Priority)
           (contacts : list Contact) : list Resident :=
  flat_map (fun c =>
              if keep c then
                match survey c with
                | Some s => [segmentResident c s (p s)]
                | None => []
                end
              else [])
           contacts.

(** [filterDissatisfied(contacts)] and [filterSatisfied(contacts)]. *)
Definition dissatisfiedLevels : list jsstring := [js "Muito insatisfeito"; js "Insatisfeito"].
Definition satisfiedLevels : list jsstring := [js "Muito satisfeito"; js "Satisfeito"].

Definition filterDissatisfied (contacts : list Contact) : list Resident :=
  segment (satisfactionIn dissatisfiedLevels)
          (fun s => Some (priorityBy "Muito insatisfeito" HIGH MEDIUM s)) contacts.

Definition filterSatisfied (contacts : list Contact) : list Resident :=
  segment (satisfactionIn satisfiedLevels)
          (fun s => Some (priorityBy "Muito satisfeito" ADVOCATE POSITIVE s)) contacts.

(** [filterAllWithSurvey(contacts)]. *)
Definition hasSurvey (c : Contact) : bool :=
  match survey c with Some _ => true | None => false end.

Definition filterAllWithSurvey (contacts : list Contact) : list Resident :=
  segment hasSurvey (fun _ => None) contacts.

(** [filterResidents(contacts, criteria)]: [type] is the kind
    [determineFilterType] returned, [None] for any other value, and [query]
    is [criteria.query]. *)
Definition filterResidents (contacts : list Citizen) (type : option FilterType)
           (query : option jsstring) : list Row :=
  match contacts with
  | [] => []
  | _ :: _ =>
      let segmentOf (f : list Contact -> list Resident) :=
        map SegmentRow (f (map c_contact contacts)) in
      match type with
      | Some name_search => map NameRow (filterByName contacts (or_default query []))
      | Some dissatisfied => segmentOf filterDissatisfied
      | Some satisfied => segmentOf filterSatisfied
      | Some participation_interested => segmentOf filterParticipationInterested
      | Some participation_not_interested => segmentOf filterParticipationNotInterested
      | Some all_with_survey => segmentOf filterAllWithSurvey
      | None => []
      end
  end.

End Service.

End ResidentFilterService.

(* ------------------------------------------------------------------ *)
(** ** An executable [JSON.parse] *)
(* ------------------------------------------------------------------ *)

Module JsonParser.

Definition Z2float (z : Z) : float :=
  SF2Prim (binary_normalize prec emax z 0 false).

(** The binary64 value of the decimal [m * 10^e]; correctly rounded when
    [m] is below [2^53] and [e] is at most 22 in magnitude. *)
Definition decimal2float (negative : bool) (m e : Z) : float :=
  let x := Z2float m in
  let y := if (0 <=? e)%Z then (x * Z2float (10 ^ e))%float
           else (x / Z2float (10 ^ (- e)))%float in
  if negative then (- y)%float else y.

Definition isJsonWs (c : N) : bool :=
  ((c =? 32) || (c =? 9) || (c =? 10) || (c =? 13))%N.

Fixpoint skip_ws (s : jsstring) : jsstring :=
  match s with
  | c :: s' => if isJsonWs c then skip_ws s' else s
  | [] => []
  end.

Definition isDigit (c : N) : bool := ((48 <=? c) && (c <=? 57))%N.

Definition hexval (c : N) : option N :=
  if isDigit c then Some (c - 48)%N
  else if ((97 <=? c) && (c <=? 102))%N then Some (c - 87)%N
  else if ((65 <=? c) && (c <=? 70))%N then Some (c - 55)%N
  else None.

(** The characters of a string literal after its opening quote. *)
Fixpoint string_body (acc : jsstring) (s : jsstring) : option (jsstring * jsstring) :=
  match s with
  | [] => None
  | c :: s' =>
      if (c =? 34)%N then Some (rev acc, s')
      else if (c <? 32)%N then None
      else if (c =? 92)%N then
        match s' with
        | e :: s'' =>
            if (e =? 117)%N then
              match s'' with
              | h1 :: h2 :: h3 :: h4 :: s3 =>
                  match hexval h1, hexval h2, hexval h3, hexval h4 with
                  | Some a, Some b, Some c', Some d =>
                      string_body ((a * 4096 + b * 256 + c' * 16 + d)%N :: acc) s3
                  | _, _, _, _ => None
                  end
              | _ => None
              end
            else
              let simple (u : N) := string_body (u :: acc) s'' in
              if ((e =? 34) || (e =? 92) || (e =? 47))%N then simple e
              else if (e =? 98)%N then simple 8%N
              else if (e =? 102)%N then simple 12%N
              else if (e =? 110)%N then simple 10%N
              else if (e =? 114)%N then simple 13%N
              else if (e =? 116)%N then simple 9%N
              else None
        | [] => None
        end
      else string_body (c :: acc) s'
  end.

(** A run of digits: its value, the number of digits, and the rest. *)
Fixpoint digits (acc : Z) (n : Z) (s : jsstring) : Z * Z * jsstring :=
  match s with
  | c :: s' => if isDigit c then digits (acc * 10 + Z.of_N (c - 48)) (n + 1) s'
               else (acc, n, s)
  | [] => (acc, n, [])
  end.

Definition number (s : jsstring) : option (float * jsstring) :=
  let '(negative, s1) :=
    match s with
    | c :: s' => if (c =? 45)%N then (true, s') else (false, s)
    | [] => (false, s)
    end in
  let '(ip, n_int, s2) := digits 0 0 s1 in
  let leading_zero := match s1 with c :: _ => (c =? 48)%N | [] => false end in
  if (n_int =? 0)%Z || (leading_zero && (1 <? n_int)%Z) then None
  else
    let frac :=
      match s2 with
      | c :: s' =>
          if (c =? 46)%N then
            let '(m, n_frac, s3) := digits ip 0 s' in
            if (n_frac =? 0)%Z then None else Some (m, n_frac, s3)
          else Some (ip, 0%Z, s2)
      | [] => Some (ip, 0%Z, s2)
      end in
    match frac with
    | None => None
    | Some (m, n_frac, s3) =>
        let expo :=
          match s3 with
          | c :: s' =>
              if ((c =? 101) || (c =? 69))%N then
                let '(eneg, s4) :=
                  match s' with
                  | d :: s'' => if (d =? 45)%N then (true, s'')
                                else if (d =? 43)%N then (false, s'')
                                else (false, s')
                  | [] => (false, s')
                  end in
                let '(ev, n_e, s5) := digits 0 0 s4 in
                if (n_e =? 0)%Z then None
                else Some ((if eneg then - ev else ev)%Z, s5)
              else Some (0%Z, s3)
          | [] => Some (0%Z, s3)
          end in
        match expo with
        | None => None
        | Some (ev, s5) => Some (decimal2float negative m (ev - n_frac), s5)
        end
    end.

Definition literal (word : string) (v : Json) (s : jsstring) : option (Json * jsstring) :=
  let w := js word in
  if startsWith s w then Some (v, skipn (List.length w) s) else None.

Fixpoint value (fuel : nat) (s : jsstring) {struct fuel} : option (Json * jsstring) :=
  match fuel with
  | O => None
  | S fuel' =>
      match skip_ws s with
      | [] => None
      | c :: s' =>
          if (c =? 123)%N then
            match skip_ws s' with
            | d :: s'' =>
                if (d =? 125)%N then Some (JObj [], s'')
                else
                  match members fuel' [] (d :: s'') with
                  | Some (fs, rest) => Some (JObj fs, rest)
                  | None => None
                  end
            | [] => None
            end
          else if (c =? 91)%N then
            match skip_ws s' with
            | d :: s'' =>
                if (d =? 93)%N then Some (JArr [], s'')
                else
                  match elements fuel' [] (d :: s'') with
                  | Some (xs, rest) => Some (JArr xs, rest)
                  | None => None
                  end
            | [] => None
            end
          else if (c =? 34)%N then
            match string_body [] s' with
            | Some (str, rest) => Some (JStr str, rest)
            | None => None
            end
          else if (c =? 116)%N then literal "true" (JBool true) (c :: s')
          else if (c =? 102)%N then literal "false" (JBool false) (c :: s')
          else if (c =? 110)%N then literal "null" JNull (c :: s')
          else
            match number (c :: s') with
            | Some (x, rest) => Some (JNum x, rest)
            | None => None
            end
      end
  end
with elements (fuel : nat) (acc : list Json) (s : jsstring) {struct fuel}
     : option (list Json * jsstring) :=
  match fuel with
  | O => None
  | S fuel' =>
      match value fuel' s with
      | Some (v, rest) =>
          match skip_ws rest with
          | c :: rest' =>
              if (c =? 44)%N then elements fuel' (v :: acc) rest'
              else if (c =? 93)%N then Some (rev (v :: acc), rest')
              else None
          | [] => None
          end
      | None => None
      end
  end
with members (fuel : nat) (acc : list (jsstring * Json)) (s : jsstring) {struct fuel}
     : option (list (jsstring * Json) * jsstring) :=
  match fuel with
  | O => None
  | S fuel' =>
      match skip_ws s with
      | q :: s1 =>
          if (q =? 34)%N then
            match string_body [] s1 with
            | Some (key, s2) =>
                match skip_ws s2 with
                | colon :: s3 =>
                    if (colon =? 58)%N then
                      match value fuel' s3 with
                      | Some (v, rest) =>
                          match skip_ws rest with
                          | c :: rest' =>
                              if (c =? 44)%N then members fuel' ((key, v) :: acc) rest'
                              else if (c =? 125)%N then Some (rev ((key, v) :: acc), rest')
                              else None
                          | [] => None
                          end
                      | None => None
                      end
                    else None
                | [] => None
                end
            | None => None
            end
          else None
      | [] => None
      end
  end.

(** [JSON.parse(text)]: one value, white space around it, nothing else. *)
Definition parse (text : jsstring) : option Json :=
  match value (S (List.length text)) text with
  | Some (v, rest) => match skip_ws rest with [] => Some v | _ => None end
  | None => None
  end.

End JsonParser.

Definition Latin1_runtime : JsRuntime :=
  {| normalize := Latin1.normalize;
     toLowerCase := Latin1.toLowerCase;
     JSON_parse := JsonParser.parse |}.


(** JavaScript truthiness of a parsed value. *)
Definition json_truthy (v : Json) : bool :=
  match v with
  | JNull => false
  | JBool b => b
  | JNum x => negb (PrimFloat.is_nan x || PrimFloat.is_zero x)
  | JStr s => truthy s
  | JArr _ => true
  | JObj _ => true
  end.

(** [v.key]: the property of an object, the last one when the key is
    repeated, and [undefined] on every other parsed value. *)
Fixpoint lookup_last (key : jsstring) (fields : list (jsstring * Json)) : option Json :=
  match fields with
  | [] => None
  | (k, v) :: rest =>
      match lookup_last key rest with
      | Some v' => Some v'
      | None => if jseqb k key then Some v else None
      end
  end.

Definition prop (v : Json) (key : string) : option Json :=
  match v with
  | JObj fields => lookup_last (js key) fields
  | _ => None
  end.

(** [Math.min] and [Math.max] on binary64 numbers: [NaN] is contagious and
    [-0] is below [+0]. *)
Definition Math_min (a b : float) : float :=
  if PrimFloat.is_nan a || PrimFloat.is_nan b then PrimFloat.nan
  else if (a <? b)%float then a
  else if (b <? a)%float then b
  else if PrimFloat.get_sign a then a else b.

Definition Math_max (a b : float) : float :=
  if PrimFloat.is_nan a || PrimFloat.is_nan b then PrimFloat.nan
  else if (a <? b)%float then b
  else if (b <? a)%float then a
  else if PrimFloat.get_sign a then b else a.

(** [s.indexOf(c)] and [s.lastIndexOf(c)] for a one-unit pattern;
    [None] is [-1]. *)
Fixpoint indexOf (c : N) (s : jsstring) : option nat :=
  match s with
  | [] => None
  | x :: s' => if (x =? c)%N then Some O
               else match indexOf c s' with Some i => Some (S i) | None => None end
  end.

Fixpoint lastIndexOf (c : N) (s : jsstring) : option nat :=
  match s with
  | [] => None
  | x :: s' =>
      match lastIndexOf c s' with
      | Some i => Some (S i)
      | None => if (x =? c)%N then Some O else None
      end
  end.

(** [s.slice(i, j)] for [0 <= i <= j]. *)
Definition slice (i j : nat) (s : jsstring) : jsstring := firstn (j - i) (skipn i s).

(* ================================================================== *)
(** * Results that flow between the components *)
(* ================================================================== *)

(** What [ScopeClassifier.classify] returns. *)
Record ScopeResult : Type := {
  sr_inScope : bool;
  sr_confidence : float;
  sr_categories : list Json;
  sr_reason : Json;
  sr_raw : option jsstring;
  sr_error : option jsstring
}.

(** The [scope] member of a query analysis. *)
Record ScopeInfo : Type := {
  inScope : bool;
  confidence : float;
  categories : option (list Json);
  canonicalIntent : option jsstring;
  reason : Json
}.

Record QueryAnalysis : Type := {
  scope : ScopeInfo;
  intent : jsstring;
  queryType : jsstring;
  dataNeeds : list jsstring;
  urgency : jsstring;
  blocked : bool
}.

(** What the context builder returns, as far as the orchestrator reads it:
    [statisticalProfile.population.total], [.population.responseRate] and
    [.satisfaction.averageScore]. *)
Record Context : Type := {
  population_total : option float;
  population_responseRate : option float;
  satisfaction_averageScore : option float
}.

(** [agentResult.analysis]. *)
Record Analysis : Type := {
  summary : option jsstring;
  a_type : option jsstring;
  residents : option (list Resident);
  insights : option (list jsstring);
  recommendations : option (list jsstring)
}.

Record AgentResult : Type := {
  agent : option jsstring;
  analysis : option Analysis
}.

(** What the LLM enhancement returns: the processed text and
    [quality.level]. *)
Record LlmResult : Type := {
  response : jsstring;
  quality_level : option jsstring
}.

(* ================================================================== *)
(** * Programs with external calls *)
(* ================================================================== *)

Inductive Outcome (A : Type) : Type :=
| Returned (a : A)
| Thrown (message : jsstring).

Arguments Returned {A} a.
Arguments Thrown {A} message.

Inductive Agent : Type := notificationAgent | knowledgeAgent | ticketAgent.

(** The calls a request can make. *)
Inductive Call : Type :=
| ClassifierRequest (query : jsstring)
| GenerateContext (qa : QueryAnalysis)
| RunAgent (a : Agent) (query : jsstring) (qa : QueryAnalysis) (ctx : Context)
| EnhanceWithLLM (query : jsstring) (qa : QueryAnalysis) (ctx : Context) (ar : AgentResult).

(** What each call answers: the text of the classifier's reply
    ([response.data.content?.[0]?.text || '']), the context, the agent's
    result, the processed LLM result; or the exception it raises. *)
Definition answer (c : Call) : Type :=
  match c with
  | ClassifierRequest _ => Outcome jsstring
  | GenerateContext _ => Outcome Context
  | RunAgent _ _ _ _ => Outcome AgentResult
  | EnhanceWithLLM _ _ _ _ => Outcome LlmResult
  end.

Inductive Program (R : Type) : Type :=
| Done (r : R)
| Ask (c : Call) (k : answer c -> Program R).

Arguments Done {R} r.
Arguments Ask {R} c k.

Fixpoint bind {A B : Type} (p : Program A) (f : A -> Program B) : Program B :=
  match p with
  | Done a => f a
  | Ask c k => Ask c (fun x => bind (k x) f)
  end.

Notation "x <- p ;; q" := (bind p (fun x => q))
  (at level 61, p at next level, right associativity).

(** The world outside: an answer to every call. *)
Definition World : Type := forall c : Call, answer c.

(** [run w p]: the result of [p] in the world [w] and the calls made, in
    order. *)
Fixpoint run {R : Type} (w : World) (p : Program R) : R * list Call :=
  match p with
  | Done r => (r, [])
  | Ask c k => let '(r, t) := run w (k (w c)) in (r, c :: t)
  end.

(** The components downstream of the classification. *)
Definition downstream (c : Call) : bool :=
  match c with
  | ClassifierRequest _ => false
  | _ => true
  end.

(* ================================================================== *)
(** * services/ScopeClassifier.js *)
(* ================================================================== *)

Module ScopeClassifier.

Definition municipalTokens : list jsstring := map js
  [ "satisfacao"; "satisfação"; "engajamento"; "participacao"; "participação";
    "bairro"; "equidade"; "municip"; "cidada"; "cidadã"; "cidadão";
    "governanca"; "governança"; "resposta"; "taxa"; "survey"; "residente";
    "morador" ]%string.

(** The pattern [/in[-_]?scope/i]. *)
Definition inScopePattern : regex :=
  RSeq (RLit_i (js "in"))
       (RSeq (ROpt (RClass (fun c => (c =? 45)%N || (c =? 95)%N)))
             (RLit_i (js "scope"))).

(** [/in[-_]?scope/i.test(status)] for a parsed [status].  [test] converts
    its argument to a string: a string is itself, an array is its elements
    joined by commas, and the text of a number, of a boolean or of an object
    has no match; a match never contains a comma, so it lies inside one
    element of an array. *)
Fixpoint statusInScope (status : Json) : bool :=
  match status with
  | JStr s => test inScopePattern s
  | JArr items => existsb statusInScope items
  | _ => false
  end.

Section Service.
Context `{JsRuntime}.

(** [process.env.CLAUDE_API_KEY]. *)
Variable CLAUDE_API_KEY : option jsstring.

(** [this.enabled], set by the constructor. *)
Definition enabled : bool :=
  match CLAUDE_API_KEY with
  | Some key => truthy key && trim_nonempty key
  | None => false
  end.

(** [safeParseJson(text)]; [JNull] is [null]. *)
Definition safeParseJson (text : jsstring) : Json :=
  if negb (truthy text) then JNull
  else
    match JSON_parse text with
    | Some v => v
    | None =>
        match indexOf 123 text, lastIndexOf 125 text with
        | Some firstBrace, Some lastBrace =>
            if (firstBrace <? lastBrace)%nat then
              match JSON_parse (slice firstBrace (lastBrace + 1) text) with
              | Some v => v
              | None => JNull
              end
            else JNull
        | _, _ => JNull
        end
    end.

(** The fields [classify] reads off the parsed reply. *)
Definition parsedInScope (parsed : Json) : bool :=
  match prop parsed "in_scope" with Some (JBool true) => true | _ => false end
  || match prop parsed "inScope" with Some (JBool true) => true | _ => false end
  || match prop parsed "status" with
     | Some status => json_truthy status && statusInScope status
     | None => false
     end.

Definition parsedConfidence (parsed : Json) : float :=
  match prop parsed "confidence" with
  | Some (JNum c) => c
  | _ => match prop parsed "score" with
         | Some (JNum c) => c
         | _ => 0.5%float
         end
  end.

Definition parsedCategories (parsed : Json) : list Json :=
  match prop parsed "categories" with
  | Some (JArr items) => items
  | _ => []
  end.

Definition parsedReason (parsed : Json) : Json :=
  match prop parsed "reason" with
  | Some r => if json_truthy r then r else
      match prop parsed "explanation" with
      | Some e => if json_truthy e then e else JStr (js "No reason provided")
      | None => JStr (js "No reason provided")
      end
  | None =>
      match prop parsed "explanation" with
      | Some e => if json_truthy e then e else JStr (js "No reason provided")
      | None => JStr (js "No reason provided")
      end
  end.

(** The number of anchor tokens in the query:
    [municipalTokens.filter(t => ql.includes(t)).length]. *)
Definition anchorMatches (query : jsstring) : nat :=
  let ql := toLowerCase query in
  List.length (filter (fun t => includes ql t) municipalTokens).

(** The part of [classify] that follows the reply of the provider. *)
Definition verdict (query raw : jsstring) : ScopeResult :=
  let parsed := safeParseJson raw in
  if negb (json_truthy parsed) then
    {| sr_inScope := true; sr_confidence := 0.4;
       sr_categories := [JStr (js "unparsed")];
       sr_reason := JStr (js "Could not parse classifier JSON");
       sr_raw := Some raw; sr_error := None |}
  else
    let inScope := parsedInScope parsed in
    let confidence := parsedConfidence parsed in
    let categories := parsedCategories parsed in
    let reason := parsedReason parsed in
    let flip :=
      inScope && ((confidence <? 0.65)%float && (anchorMatches query =? 0)%nat) in
    let finalInScope := if flip then false else inScope in
    let finalReason :=
      if flip then JStr (js "Low confidence and no municipal domain tokens detected")
      else reason in
    {| sr_inScope := finalInScope;
       sr_confidence := Math_max 0 (Math_min 1 confidence);
       sr_categories := categories;
       sr_reason := finalReason;
       sr_raw := Some raw; sr_error := None |}.

(** [classify(query)]. *)
Definition classify (query : jsstring) : Program ScopeResult :=
  if negb (truthy query) || negb (trim_nonempty query) then
    Done {| sr_inScope := false; sr_confidence := 0; sr_categories := [];
            sr_reason := JStr (js "Empty query"); sr_raw := None; sr_error := None |}
  else if negb enabled then
    Done {| sr_inScope := true; sr_confidence := 0.5;
            sr_categories := [JStr (js "unknown")];
            sr_reason := JStr (js "LLM scope classifier disabled (no API key)");
            sr_raw := None; sr_error := None |}
  else
    Ask (ClassifierRequest query) (fun reply =>
      match reply with
      | Returned raw => Done (verdict query raw)
      | Thrown message =>
          Done {| sr_inScope := true; sr_confidence := 0.5;
                  sr_categories := [JStr (js "error-fallback")];
                  sr_reason := JStr (js "Classifier call failed");
                  sr_raw := None; sr_error := Some message |}
      end).

End Service.

End ScopeClassifier.

(* ================================================================== *)
(** * services/QueryAnalyzer.js *)
(* ================================================================== *)

Module QueryAnalyzer.

(** The record [analyzeQueryHeuristically] builds. *)
Record Heuristic : Type := {
  primaryIntent : jsstring;
  h_queryType : jsstring;
  h_dataNeeds : list jsstring;
  h_urgency : jsstring
}.

(** [xs.push(x)], and [if (!xs.includes(x)) xs.push(x)]. *)
Definition push (xs : list jsstring) (x : jsstring) : list jsstring := xs ++ [x].

Definition push_new (xs : list jsstring) (x : jsstring) : list jsstring :=
  if mem x xs then xs else push xs x.

(** [i = xs.indexOf(x); if (i > -1) xs.splice(i, 1)]: the first occurrence
    is removed. *)
Fixpoint remove_first (x : jsstring) (xs : list jsstring) : list jsstring :=
  match xs with
  | [] => []
  | y :: xs' => if jseqb y x then xs' else y :: remove_first x xs'
  end.

Fixpoint RSeqs (rs : list regex) : regex :=
  match rs with
  | [] => REps
  | r :: rs' => RSeq r (RSeqs rs')
  end.

Fixpoint RAlts (rs : list regex) : regex :=
  match rs with
  | [] => RNone
  | r :: rs' => RAlt r (RAlts rs')
  end.

Definition RWord (w : string) : regex := RLit_i (js w).

(** [/total\s+(de|dos|das)?/i],
    [/quantos?\s+(cadastros?|registros?|contatos?|pessoas?)/i] and
    [/how\s+many/i]. *)
Definition totalPattern : regex :=
  RSeqs [RWord "total"; RPlus RWs; ROpt (RAlts [RWord "de"; RWord "dos"; RWord "das"])].

Definition quantosPattern : regex :=
  RSeqs [RWord "quanto"; ROpt (RWord "s"); RPlus RWs;
         RAlts [RSeq (RWord "cadastro") (ROpt (RWord "s"));
                RSeq (RWord "registro") (ROpt (RWord "s"));
                RSeq (RWord "contato") (ROpt (RWord "s"));
                RSeq (RWord "pessoa") (ROpt (RWord "s"))]].

Definition howManyPattern : regex :=
  RSeqs [RWord "how"; RPlus RWs; RWord "many"].

Definition statisticalTerms : list jsstring := map js
  [ "total"; "quantos"; "quantas"; "how many"; "how much"; "count";
    "numero"; "número"; "registros"; "registro"; "cadastros"; "cadastro";
    "contagem"; "estatistica"; "estatística"; "dados"; "database";
    "atualmente"; "atual"; "currently"; "hoje"; "today" ]%string.

Definition databaseTerms : list jsstring := map js
  [ "cadastro"; "cadastros"; "registro"; "registros"; "contato"; "contatos";
    "contact"; "contacts"; "pessoa"; "pessoas"; "cidad"; "citizen";
    "resident"; "residente"; "morador"; "moradores" ]%string.

Definition municipalTokens : list jsstring := map js
  [ "satisfacao"; "satisfação"; "engajamento"; "participacao"; "participação";
    "bairro"; "equidade"; "municip"; "cidada"; "cidadã"; "cidadão";
    "governanca"; "governança"; "resposta"; "taxa"; "survey";
    "residente"; "morador"; "cadastro"; "cadastros"; "registro"; "registros";
    "total"; "quantos"; "quantas"; "contagem"; "estatistica"; "estatística" ]%string.

Definition analysisKeywords : list jsstring := ResidentFilterService.analysisKeywords.

Definition displayVerbs : list jsstring := map js
  [ "mostrar"; "mostre"; "exibir"; "exiba"; "show"; "display";
    "listar"; "lista"; "list"; "trazer"; "traga"; "bring";
    "apresentar"; "apresente"; "present" ]%string.

Definition residentFilterKeywords : list jsstring := map js
  [ "insatisfeito"; "insatisfeitos"; "dissatisfied"; "unsatisfied";
    "nao querem participar"; "nao quer participar"; "not interested";
    "nao interessados"; "nao interessado"; "sem interesse";
    "satisfeito"; "satisfeitos"; "satisfied";
    "interessado"; "interessados"; "interested"; "querem participar" ]%string.

Definition filterVerbs : list jsstring := map js
  [ "encontrar"; "encontre"; "encontra"; "find"; "buscar"; "busque";
    "listar"; "lista"; "list"; "mostrar"; "mostre"; "show";
    "exibir"; "exiba"; "display"; "trazer"; "traga" ]%string.

(** The verbs of [analyzeQueryHeuristically] and of [detectNameSearch]. *)
Definition heuristicNameSearchVerbs : list jsstring := map js
  [ "encontre"; "encontrar"; "encontra"; "busque"; "buscar"; "busca"; "find";
    "search"; "procure"; "procurar"; "procura"; "mostre"; "mostrar"; "mostra";
    "show"; "exiba"; "exibir"; "traga"; "trazer"; "quem e"; "quem eh" ]%string.

Definition nameSearchVerbs : list jsstring := map js
  [ "encontre"; "encontrar"; "encontra"; "busque"; "buscar"; "busca";
    "find"; "search"; "procure"; "procurar"; "procura";
    "mostre"; "mostrar"; "mostra"; "show"; "exiba"; "exibir";
    "traga"; "trazer"; "quem e"; "quem eh"; "quem é"; "localize"; "localizar" ]%string.

Definition heuristicCommonWords : list jsstring := map js
  [ "o"; "a"; "os"; "as"; "de"; "do"; "da"; "dos"; "das"; "em"; "no"; "na";
    "the"; "a"; "an" ]%string.

Definition commonWords : list jsstring := ResidentFilterService.commonWords.

Definition listVerbs : list jsstring := map js
  [ "list"; "show"; "names"; "display"; "listar"; "lista"; "mostre"; "mostrar";
    "exibir"; "exiba"; "traga"; "me mostre"; "me traga" ]%string.

Definition residentNouns : list jsstring := map js
  [ "resident"; "citizen"; "residente"; "morador"; "moradores"; "cidadao";
    "cidadaos"; "cidadas" ]%string.

Definition satisfiedTokens : list jsstring := map js
  [ "dissatisfied"; "unsatisfied"; "insatisfied"; "unhappy"; "satisfied";
    "insatisfeito"; "insatisfeitos"; "insatisfacao"; "satisfeito"; "satisfeitos" ]%string.

Definition participationTokens : list jsstring := map js
  [ "interested"; "interessado"; "interessados"; "participated"; "participar";
    "participantes"; "participacao"; "participaria" ]%string.

Definition intentMap : list (jsstring * jsstring) :=
  map (fun p => (js (fst p), js (snd p)))
  [ ("satisfaction", "knowledge"); ("engagement", "notification");
    ("geographic", "knowledge"); ("operational", "ticket");
    ("benchmarking", "knowledge"); ("survey", "knowledge") ]%string.

(** [mapCanonicalIntent(canonicalIntent)]; [None] is [null]. *)
Definition mapCanonicalIntent (canonicalIntent : jsstring) : option jsstring :=
  match find (fun p => jseqb (fst p) canonicalIntent) intentMap with
  | Some (_, mapped) => Some mapped
  | None => None
  end.

(** [scope.canonical_intent]: no object that [classify] returns has this
    property, so reading it gives [undefined]. *)
Definition canonical_intent (scope : ScopeResult) : option jsstring := None.

(** [createDefaultAnalysis(reason)]. *)
Definition createDefaultAnalysis (reason : jsstring) : QueryAnalysis :=
  {| scope := {| inScope := false; confidence := 0; categories := None;
                 canonicalIntent := None; reason := JStr reason |};
     intent := js "knowledge";
     queryType := js "analysis";
     dataNeeds := [];
     urgency := js "normal";
     blocked := jseqb reason (js "Empty query") |}.

Section Service.
Context `{JsRuntime}.
Variable CLAUDE_API_KEY : option jsstring.

(** [isStatisticalOrOperationalQuery(query)], as a truth value. *)
Definition isStatisticalOrOperationalQuery (query : jsstring) : bool :=
  let qn := normalize query in
  let hasStatisticalTerm := includesAny qn statisticalTerms in
  let hasDatabaseTerm := includesAny qn databaseTerms in
  let hasTotalQuery :=
    test totalPattern qn || test quantosPattern qn || test howManyPattern qn in
  (hasStatisticalTerm && hasDatabaseTerm) || hasTotalQuery
  || (hasStatisticalTerm && (includes qn (js "cadastr") || includes qn (js "registr"))).

(** [hasMunicipalDomainTokens(query)]. *)
Definition hasMunicipalDomainTokens (query : jsstring) : bool :=
  let ql := toLowerCase query in
  includesAny ql municipalTokens.

(** [detectNameSearch(query).isNameSearch]. *)
Definition detectNameSearch (query : jsstring) : bool :=
  let qn := normalize query in
  let hasNameSearchVerb := includesAny qn nameSearchVerbs in
  if negb hasNameSearchVerb then false
  else
    let words :=
      filter (fun w =>
                let normalized := normalize w in
                negb (mem normalized commonWords) && negb (mem normalized nameSearchVerbs))
             (split_ws query) in
    let nameLikeWords :=
      filter (fun w => (2 <=? List.length w)%nat && hasNameLetter w) words in
    (1 <=? List.length nameLikeWords)%nat.

(** [analyzeQueryHeuristically(query)]. *)
Definition analyzeQueryHeuristically (query : jsstring) : Heuristic :=
  let qn := normalize query in
  let has (t : string) := includes qn (js t) in
  let hasNameSearchVerb := includesAny qn heuristicNameSearchVerbs in
  let nameLikeWords :=
    filter (fun w => (2 <=? List.length w)%nat && hasNameLetter w)
      (filter (fun w =>
                 let normalized := normalize w in
                 negb (mem normalized heuristicCommonWords)
                 && negb (mem normalized heuristicNameSearchVerbs))
              (split_ws query)) in
  if hasNameSearchVerb && (1 <=? List.length nameLikeWords)%nat then
    {| primaryIntent := js "knowledge"; h_queryType := js "listing";
       h_dataNeeds := [js "name_search"]; h_urgency := js "normal" |}
  else
    let hasListVerb := includesAny qn listVerbs in
    let hasResidentNoun := includesAny qn residentNouns in
    let hasSatisfiedToken := includesAny qn satisfiedTokens in
    let hasParticipationToken := includesAny qn participationTokens in
    if hasListVerb && (hasResidentNoun || hasSatisfiedToken || hasParticipationToken) then
      {| primaryIntent := js "notification"; h_queryType := js "listing";
         h_dataNeeds := []; h_urgency := js "normal" |}
    else if (has "clicked" || has "abandoned")
            && (has "didn" || has "not" || has "survey") then
      {| primaryIntent := js "notification"; h_queryType := js "abandonment";
         h_dataNeeds := [js "abandonment"]; h_urgency := js "normal" |}
    else
      let needs0 : list jsstring :=
        if has "total" || has "quantos" || has "quantas" || has "cadastros"
           || has "registros" || has "how many" || has "count"
        then [js "total_count"] else [] in
      let intent1 :=
        if has "send" || has "message" || has "notify" || has "contact"
        then js "notification"
        else if has "system" || has "health" || has "status" || has "export"
        then js "ticket"
        else js "knowledge" in
      let needs1 :=
        if has "dissatisfied" || has "insatisf" || has "insatisfeito"
        then push needs0 (js "dissatisfied") else needs0 in
      let needs2 :=
        if (has "satisfied" || has "satisfeito")
           && negb (has "dissatisfied" || has "insatisfeito")
        then push needs1 (js "satisfied") else needs1 in
      let needs3 :=
        if has "particip" || has "interested" || has "interessad"
        then push needs2 (js "participation") else needs2 in
      let needs4 :=
        if has "neighborhood" || has "equity" || has "bairro"
        then push needs3 (js "geographic") else needs3 in
      {| primaryIntent := intent1; h_queryType := js "analysis";
         h_dataNeeds := needs4; h_urgency := js "normal" |}.

(** The results of [analyzeQuery], one per [return] of the source. *)
Definition inScopeAnalysis (conf : float) (cats : list string) (canonical : string)
           (why : string) (intent queryType : jsstring) (needs : list jsstring)
           (urgency : jsstring) : QueryAnalysis :=
  {| scope := {| inScope := true; confidence := conf;
                 categories := Some (map (fun c => JStr (js c)) cats);
                 canonicalIntent := Some (js canonical);
                 reason := JStr (js why) |};
     intent := intent; queryType := queryType; dataNeeds := needs;
     urgency := urgency; blocked := false |}.

Definition blockedAnalysis (why : Json) (conf : float) : QueryAnalysis :=
  {| scope := {| inScope := false; confidence := conf; categories := None;
                 canonicalIntent := None; reason := why |};
     intent := js "out_of_scope"; queryType := js "blocked"; dataNeeds := [];
     urgency := js "normal"; blocked := true |}.

(** Step 0: the statistical pre-check. *)
Definition statisticalAnalysis (query : jsstring) : QueryAnalysis :=
  let h := analyzeQueryHeuristically query in
  let '(i, t) := if negb (truthy (primaryIntent h))
                 then (js "knowledge", js "analysis")
                 else (primaryIntent h, h_queryType h) in
  inScopeAnalysis 0.9 ["operational"] "operational"
    "Statistical/operational query about municipal database"
    i t (h_dataNeeds h) (h_urgency h).

(** Step 0.25: an analysis keyword with a display verb. *)
Definition hasAnalysisKeyword (qn : jsstring) : bool :=
  existsb (fun kw => includes qn kw) (map normalize analysisKeywords).

Definition hasDisplayVerb (qn : jsstring) : bool :=
  existsb (fun v => includes qn v) (map normalize displayVerbs).

Definition displayedAnalysis (query : jsstring) : QueryAnalysis :=
  let qn := normalize query in
  let h := analyzeQueryHeuristically query in
  let needs0 := remove_first (js "name_search") (h_dataNeeds h) in
  let needs1 :=
    if includes qn (js "satisf") || includes qn (js "satisfação")
       || includes qn (js "satisfaction")
    then push_new needs0 (js "satisfaction_analysis") else needs0 in
  let needs2 :=
    if includes qn (js "bairro") || includes qn (js "neighborhood")
    then push_new needs1 (js "geographic") else needs1 in
  let needs3 :=
    if includes qn (js "idade") || includes qn (js "age") || includes qn (js "faixa")
    then push_new needs2 (js "age_analysis") else needs2 in
  inScopeAnalysis 0.95 ["survey"; "analysis"] "satisfaction"
    "Analysis/report query detected - requesting data analysis, not name search"
    (js "knowledge") (js "analysis") needs3 (js "normal").

(** Step 0.25, second form: an analysis keyword with a preposition. *)
Definition prepositionAnalysis (query : jsstring) : QueryAnalysis :=
  let h := analyzeQueryHeuristically query in
  inScopeAnalysis 0.9 ["survey"; "analysis"] "satisfaction"
    "Analysis query pattern detected (analysis keyword + preposition)"
    (js "knowledge") (js "analysis") (h_dataNeeds h) (js "normal").

(** Step 0.4: the resident-segment filters. *)
Definition hasFilterKeyword (qn : jsstring) : bool := includesAny qn residentFilterKeywords.
Definition hasFilterVerb (qn : jsstring) : bool := includesAny qn filterVerbs.
Definition hasResidentNoun (qn : jsstring) : bool :=
  includes qn (js "morador") || includes qn (js "moradores")
  || includes qn (js "resident") || includes qn (js "residents")
  || includes qn (js "cidadao") || includes qn (js "cidadaos")
  || includes qn (js "cidadas").

Definition filterAnalysis (query : jsstring) : QueryAnalysis :=
  let qn := normalize query in
  let h := analyzeQueryHeuristically query in
  let needs0 := remove_first (js "name_search") (h_dataNeeds h) in
  let '(i, t, needs) :=
    if includes qn (js "insatisf") || includes qn (js "dissatisfied") then
      if hasFilterVerb qn
         && (includes qn (js "listar") || includes qn (js "mostrar")
             || includes qn (js "list") || includes qn (js "show"))
      then (js "notification", js "listing", push_new needs0 (js "dissatisfied"))
      else (js "knowledge", js "analysis", push_new needs0 (js "dissatisfied"))
    else if includes qn (js "particip") || includes qn (js "interessad") then
      if includes qn (js "nao") || includes qn (js "not")
         || includes qn (js "sem interesse")
      then (js "notification", js "listing",
            push_new needs0 (js "participation_not_interested"))
      else (js "notification", js "listing",
            push_new needs0 (js "participation_interested"))
    else (primaryIntent h, h_queryType h, needs0) in
  inScopeAnalysis 0.95 ["survey"; "engagement"] "survey"
    "Resident filter query detected - requesting filtered resident list, not name search"
    i t needs (h_urgency h).

(** Step 0.5: the name-search pre-check. *)
Definition nameSearchAnalysis (query : jsstring) : QueryAnalysis :=
  let h := analyzeQueryHeuristically query in
  let i := if negb (truthy (primaryIntent h))
              || negb (jseqb (primaryIntent h) (js "knowledge"))
           then js "knowledge" else primaryIntent h in
  inScopeAnalysis 0.95 ["survey"; "engagement"] "survey"
    "Name/resident search query - core municipal intelligence capability"
    i (or_default (Some (h_queryType h)) (js "listing"))
    (push_new (h_dataNeeds h) (js "name_search")) (h_urgency h).

(** Steps 2 to 5: what follows the classifier's result. *)
Definition afterClassification (query : jsstring) (scope : ScopeResult) : QueryAnalysis :=
  let h0 := analyzeQueryHeuristically query in
  let intent0 :=
    match canonical_intent scope with
    | Some ci =>
        if sr_inScope scope && truthy ci then
          match mapCanonicalIntent ci with
          | Some mapped => if truthy mapped then mapped else primaryIntent h0
          | None => primaryIntent h0
          end
        else primaryIntent h0
    | None => primaryIntent h0
    end in
  if negb (sr_inScope scope) then
    if isStatisticalOrOperationalQuery query then
      let h := analyzeQueryHeuristically query in
      inScopeAnalysis 0.85 ["operational"; "survey"] "operational"
        "Statistical query about municipal database (heuristic override)"
        (or_default (Some (primaryIntent h)) (js "knowledge"))
        (or_default (Some (h_queryType h)) (js "analysis"))
        (h_dataNeeds h) (h_urgency h)
    else if detectNameSearch query then
      let h := analyzeQueryHeuristically query in
      inScopeAnalysis 0.9 ["survey"; "engagement"] "survey"
        "Name/resident search query (heuristic override)"
        (js "knowledge")
        (or_default (Some (h_queryType h)) (js "listing"))
        (push_new (h_dataNeeds h) (js "name_search")) (h_urgency h)
    else blockedAnalysis (sr_reason scope) (sr_confidence scope)
  else if (sr_confidence scope <? 0.65)%float && negb (hasMunicipalDomainTokens query) then
    blockedAnalysis
      (JStr (js "Low-confidence classification and no municipal domain tokens detected"))
      (sr_confidence scope)
  else
    {| scope := {| inScope := true; confidence := sr_confidence scope;
                   categories := Some (sr_categories scope);
                   canonicalIntent :=
                     match canonical_intent scope with
                     | Some ci => if truthy ci then Some ci else None
                     | None => None
                     end;
                   reason := sr_reason scope |};
       intent := intent0; queryType := h_queryType h0;
       dataNeeds := h_dataNeeds h0; urgency := h_urgency h0; blocked := false |}.

(** [analyzeQuery(query)]. *)
Definition analyzeQuery (query : jsstring) : Program QueryAnalysis :=
  if negb (truthy query) || negb (trim_nonempty query) then
    Done (createDefaultAnalysis (js "Empty query"))
  else if isStatisticalOrOperationalQuery query then Done (statisticalAnalysis query)
  else
    let qn := normalize query in
    if hasAnalysisKeyword qn && hasDisplayVerb qn then Done (displayedAnalysis query)
    else if hasAnalysisKeyword qn
            && (includes qn (js "de") || includes qn (js "do") || includes qn (js "da"))
    then Done (prepositionAnalysis query)
    else if hasFilterKeyword qn && (hasFilterVerb qn || hasResidentNoun qn)
    then Done (filterAnalysis query)
    else if detectNameSearch query then Done (nameSearchAnalysis query)
    else
      scope <- ScopeClassifier.classify CLAUDE_API_KEY query ;;
      Done (afterClassification query scope).

End Service.

End QueryAnalyzer.

(* ================================================================== *)
(** * services/MunicipalPromptEngine.js *)
(* ================================================================== *)

Module MunicipalPromptEngine.

(** [context.statisticalProfile], as far as [validateResponseQuality] reads
    it. *)
Record Population : Type := {
  p_total : option float;
  p_responseRate : option float
}.

Record SatisfactionSummary : Type := {
  s_averageScore : option float
}.

Record StatisticalProfile : Type := {
  sp_population : option Population;
  sp_satisfaction : option SatisfactionSummary
}.

(** The object [validateResponseQuality] returns. *)
Record Quality : Type := {
  q_score : N;
  q_issues : list jsstring;
  q_strengths : list jsstring;
  q_level : jsstring
}.

Definition actionWords : list jsstring := map js
  [ "implement"; "establish"; "contact"; "develop"; "create"; "schedule"; "organize" ]%string.

Definition timeWords : list jsstring := map js
  [ "immediate"; "within"; "days"; "weeks"; "months"; "timeline" ]%string.

Definition statWords : list jsstring := map js
  [ "confidence"; "significance"; "sample"; "reliability"; "margin"; "%"; "interval" ]%string.

Definition structureWords : list jsstring := map js
  [ "summary"; "analysis"; "recommendations"; "metrics"; "findings" ]%string.

Definition municipalTerms : list jsstring := map js
  [ "municipal"; "citizen"; "civic"; "community"; "service delivery"; "governance" ]%string.

Section Service.
Context `{JsRuntime}.

(** [String(num)] for a number. *)
Variable Number_toString : float -> jsstring.

(** [String(num)] for a number that may be [undefined]. *)
Definition String_ (num : option float) : jsstring :=
  match num with
  | Some x => Number_toString x
  | None => js "undefined"
  end.

(** [containsSpecificNumbers(response, context)].  The profile is [None]
    when the context or its [statisticalProfile] is missing; the result is
    [None] when reading the key numbers throws a [TypeError], for want of
    [population] or of [satisfaction]. *)
Definition containsSpecificNumbers (response : jsstring)
           (profile : option StatisticalProfile) : option bool :=
  match profile with
  | None => Some false
  | Some sp =>
      match sp_population sp, sp_satisfaction sp with
      | Some population, Some satisfaction =>
          let keyNumbers :=
            [ p_total population; p_responseRate population;
              s_averageScore satisfaction ] in
          Some (existsb (fun num => includes response (String_ num)) keyNumbers)
      | _, _ => None
      end
  end.

Definition containsActionableRecommendations (response : jsstring) : bool :=
  existsb (fun word => includes (toLowerCase response) word) actionWords
  && existsb (fun word => includes (toLowerCase response) word) timeWords.

Definition containsStatisticalContext (response : jsstring) : bool :=
  existsb (fun word => includes (toLowerCase response) word) statWords.

Definition followsStructuredFormat (response : jsstring) : bool :=
  (3 <=? List.length (filter (fun word => includes (toLowerCase response) word)
                             structureWords))%nat.

Definition demonstratesMunicipalExpertise (response : jsstring) : bool :=
  (2 <=? List.length (filter (fun term => includes (toLowerCase response) term)
                             municipalTerms))%nat.

(** One check of [validateResponseQuality]: its points and its strength
    when it passes, its issue when it fails. *)
Definition check (quality : N * list jsstring * list jsstring)
           (passed : bool) (points : N) (strength issue : string)
  : N * list jsstring * list jsstring :=
  let '(score, issues, strengths) := quality in
  if passed then ((score + points)%N, issues, strengths ++ [js strength])
  else (score, issues ++ [js issue], strengths).

(** [validateResponseQuality(response, intelligentContext)]; [None] when
    the first check throws. *)
Definition validateResponseQuality (response : jsstring)
           (profile : option StatisticalProfile) : option Quality :=
  match containsSpecificNumbers response profile with
  | None => None
  | Some grounded =>
      let quality := (0%N, [], []) in
      let quality := check quality grounded 25
                       "Contains specific data points"
                       "Missing specific data references" in
      let quality := check quality (containsActionableRecommendations response) 25
                       "Includes actionable recommendations"
                       "Lacks specific actionable recommendations" in
      let quality := check quality (containsStatisticalContext response) 20
                       "Includes statistical context"
                       "Missing statistical confidence information" in
      let quality := check quality (followsStructuredFormat response) 20
                       "Follows structured format"
                       "Does not follow requested structure" in
      let quality := check quality (demonstratesMunicipalExpertise response) 10
                       "Demonstrates municipal domain knowledge"
                       "Generic response lacking municipal expertise" in
      let '(score, issues, strengths) := quality in
      Some {| q_score := score; q_issues := issues; q_strengths := strengths;
              q_level := if (80 <=? score)%N then js "excellent"
                         else if (60 <=? score)%N then js "good"
                         else if (40 <=? score)%N then js "fair"
                         else js "poor" |}
  end.

End Service.

End MunicipalPromptEngine.

(* ================================================================== *)
(** * orchestrator.js *)
(* ================================================================== *)

Module Orchestrator.

(** The object [constructFinalResponse] returns.  Of its metadata the
    embedding keeps what is computed from the candidates; the clock readings
    ([processingTime], [timestamp]), the constant tags and the provider names
    are left out. *)
Record FinalResponse : Type := {
  f_query : jsstring;
  f_intent : jsstring;
  f_response : option jsstring;
  f_residents : list Resident;
  f_insights : list jsstring;
  f_recommendations : list jsstring;
  f_success : bool;
  f_confidence : float;
  f_responseQuality : jsstring;
  f_llmEnhanced : bool;
  f_totalContacts : float;
  f_responseRate : float;
  f_satisfactionScore : float;
  f_llmUsed : bool
}.

(** The three shapes of what [orchestrate] returns. *)
Inductive Result : Type :=
| OutOfScope (query intent response : jsstring) (success : bool)
             (scope : ScopeInfo) (residents : list Resident)
| Final (f : FinalResponse)
| Failed (query error response : jsstring) (residents : list Resident) (success : bool).

Definition redirection : jsstring :=
  js "Consulta fora do escopo da Inteligência Municipal. Reformule dentro de: satisfação cidadã, engajamento, equidade geográfica, desempenho operacional, benchmarking ou análise de pesquisa.".

(** [x || 0] on a possibly undefined number. *)
Definition number_or_zero (x : option float) : float :=
  match x with
  | Some v => if PrimFloat.is_nan v || PrimFloat.is_zero v then 0%float else v
  | None => 0%float
  end.

(** The text of a resident's name when it is used as a string:
    [undefined] reads ["undefined"]. *)
Definition nameText (r : Resident) : jsstring :=
  match r_name r with
  | Some n => n
  | None => js "undefined"
  end.

(** [agentResult.analysis?.field]. *)
Definition analysisField {A : Type} (f : Analysis -> option A) (ar : AgentResult) : option A :=
  match analysis ar with
  | Some a => f a
  | None => None
  end.

(** [agentResult.analysis?.residents || []] and the like. *)
Definition list_or_empty {A : Type} (l : option (list A)) : list A :=
  match l with Some l => l | None => [] end.

Definition levelIs (llmResult : option LlmResult) (level : string) : bool :=
  match llmResult with
  | Some l => match quality_level l with
              | Some v => jseqb v (js level)
              | None => false
              end
  | None => false
  end.

(** [calculateConfidence(agentResult, llmResult)]. *)
Definition calculateConfidence (agentResult : AgentResult) (llmResult : option LlmResult) : float :=
  let confidence := 0.7%float in
  let confidence :=
    if (0 <? List.length (list_or_empty (analysisField residents agentResult)))%nat
    then (confidence + 0.15)%float else confidence in
  let confidence :=
    if levelIs llmResult "excellent" then (confidence + 0.1)%float
    else if levelIs llmResult "good" then (confidence + 0.05)%float
    else confidence in
  Math_min confidence 0.95.

(** [query.dataNeeds?.includes('name_search') || false]. *)
Definition isNameSearch (qa : QueryAnalysis) : bool := mem (js "name_search") (dataNeeds qa).

(** The deterministic candidate: [agentResult.analysis?.summary || 'Analysis completed']. *)
Definition deterministicText (agentResult : AgentResult) : jsstring :=
  or_default (analysisField summary agentResult) (js "Analysis completed").

(** [agentResult.analysis?.type === 'name_search_result']. *)
Definition hasNameSearchMarker (agentResult : AgentResult) : bool :=
  match analysisField a_type agentResult with
  | Some t => jseqb t (js "name_search_result")
  | None => false
  end.

(** [agentResult.analysis?.residents?.some(r => text.includes(r.name))];
    an absent list gives [undefined], which is falsy. *)
Definition hasRealData (agentResult : AgentResult) (text : jsstring) : bool :=
  match analysisField residents agentResult with
  | Some rs => existsb (fun r => includes text (nameText r)) rs
  | None => false
  end.

(** [a.length > b.length * 1.5]. *)
Definition longerThanOneAndAHalf (a b : jsstring) : bool :=
  negb (Qle_bool (inject_Z (Z.of_nat (List.length a)))
                 (inject_Z (Z.of_nat (List.length b)) * 1.5)%Q).

(** The arbitration of [constructFinalResponse]: the text that is returned
    and the [responseQuality] tag. *)
Definition arbitrate (qa : QueryAnalysis) (agentResult : AgentResult)
           (llmResult : option LlmResult) : option jsstring * jsstring :=
  let primaryResponse := deterministicText agentResult in
  if isNameSearch qa && hasNameSearchMarker agentResult then
    (analysisField summary agentResult, js "focused_search")
  else if levelIs llmResult "excellent" || levelIs llmResult "good" then
    match llmResult with
    | Some llm =>
        let real := hasRealData agentResult (response llm) in
        if isNameSearch qa then
          if real && (List.length (response llm) <? 500)%nat
          then (Some (response llm), js "llm-enhanced")
          else (Some (or_default (analysisField summary agentResult) primaryResponse),
                js "focused_search")
        else
          if real || longerThanOneAndAHalf (response llm) primaryResponse
          then (Some (response llm), js "llm-enhanced")
          else (Some primaryResponse, js "data-driven")
    | None => (Some primaryResponse, js "data-driven")
    end
  else
    match llmResult with
    | Some llm =>
        if isNameSearch qa
           && (truthy (response llm) && trim_nonempty (response llm)
               && (List.length (response llm) <? 500)%nat)
        then (Some (response llm), js "llm-enhanced")
        else (Some primaryResponse, js "data-driven")
    | None => (Some primaryResponse, js "data-driven")
    end.

(** [constructFinalResponse(query, queryAnalysis, intelligentContext,
    agentResult, llmResult, startTime)]. *)
Definition constructFinalResponse (query : jsstring) (qa : QueryAnalysis)
           (ctx : Context) (agentResult : AgentResult)
           (llmResult : option LlmResult) : FinalResponse :=
  let '(primaryResponse, responseQuality) := arbitrate qa agentResult llmResult in
  let enhanced := jseqb responseQuality (js "llm-enhanced") in
  {| f_query := query;
     f_intent := intent qa;
     f_response := primaryResponse;
     f_residents := list_or_empty (analysisField residents agentResult);
     f_insights :=
       if isNameSearch qa then [] else list_or_empty (analysisField insights agentResult);
     f_recommendations :=
       if isNameSearch qa then []
       else list_or_empty (analysisField recommendations agentResult);
     f_success := true;
     f_confidence := calculateConfidence agentResult llmResult;
     f_responseQuality := responseQuality;
     f_llmEnhanced := enhanced;
     f_totalContacts := number_or_zero (population_total ctx);
     f_responseRate := number_or_zero (population_responseRate ctx);
     f_satisfactionScore := number_or_zero (satisfaction_averageScore ctx);
     f_llmUsed := match llmResult with Some _ => enhanced | None => false end |}.

(** [createErrorResponse(query, error, startTime)]. *)
Definition createErrorResponse (query message : jsstring) : Result :=
  Failed query message
         (js "Error processing query: " ++ message ++ js ". Please try again.")
         [] false.

(** The agent [routeToAgent] calls for an intent. *)
Definition agentFor (intent : jsstring) : Agent :=
  if jseqb intent (js "notification") then notificationAgent
  else if jseqb intent (js "knowledge") then knowledgeAgent
  else if jseqb intent (js "ticket") then ticketAgent
  else knowledgeAgent.

Section Service.
Context `{JsRuntime}.
Variable CLAUDE_API_KEY : option jsstring.

(** [validateApiKey()], kept in [this.hasValidApiKey]. *)
Definition hasValidApiKey : bool :=
  match CLAUDE_API_KEY with
  | Some apiKey => truthy apiKey && trim_nonempty apiKey
  | None => false
  end.

(** [orchestrate(query)].  An exception of the context builder or of the
    agent reaches the outer [catch]; one of the LLM enhancement is caught
    where it is raised and leaves [llmResult] at [null]. *)
Definition orchestrate (query : jsstring) : Program Result :=
  queryAnalysis <- QueryAnalyzer.analyzeQuery CLAUDE_API_KEY query ;;
  if blocked queryAnalysis then
    Done (OutOfScope query (js "out_of_scope") redirection true (scope queryAnalysis) [])
  else
    Ask (GenerateContext queryAnalysis) (fun built =>
      match built with
      | Thrown message => Done (createErrorResponse query message)
      | Returned intelligentContext =>
          Ask (RunAgent (agentFor (intent queryAnalysis)) query queryAnalysis intelligentContext)
              (fun routed =>
            match routed with
            | Thrown message => Done (createErrorResponse query message)
            | Returned agentResult =>
                if hasValidApiKey && negb (jseqb (intent queryAnalysis) (js "ticket")) then
                  Ask (EnhanceWithLLM query queryAnalysis intelligentContext agentResult)
                      (fun enhanced =>
                    let llmResult :=
                      match enhanced with
                      | Returned r => Some r
                      | Thrown _ => None
                      end in
                    Done (Final (constructFinalResponse query queryAnalysis
                                   intelligentContext agentResult llmResult)))
                else
                  Done (Final (constructFinalResponse query queryAnalysis
                                 intelligentContext agentResult None))
            end)
      end).

End Service.

End Orchestrator.

(* ================================================================== *)
(** * Numbers of the analysis engine *)
(* ================================================================== *)

(** The engine divides counts and compares the quotients with constants.
    Its numbers are the binary64 numbers of the runtime, embedded by their
    exact rational value, with the rounding of every operation written
    out: an operation on finite numbers is the exact operation on the
    rationals followed by [round64], the rounding to the nearest binary64
    number, ties to the even mantissa.  Counts are natural numbers.

    There is one zero: the engine starts from counts and forms sums,
    quotients, products and the one difference [avgResponse - 10], none of
    which is a negative zero. *)
Open Scope Q_scope.

Inductive number : Type :=
| NaN
| Infinity (negative : bool)
| Finite (q : Q).

Definition Qlt_bool (x y : Q) : bool := negb (Qle_bool y x).

(** [2^e], for an exponent of either sign. *)
Definition pow2 (e : Z) : Q := 2 ^ e.

(** The [e] with [2^e <= x < 2^(e+1)], for [0 < x]. *)
Definition floorLog2 (x : Q) : Z :=
  let e := (Z.log2 (Qnum x) - Z.log2 (Zpos (Qden x)))%Z in
  if Qle_bool (pow2 e) x then e else (e - 1)%Z.

(** The nearest integer, the even one of two. *)
Definition roundHalfEven (y : Q) : Z :=
  let f := Qfloor y in
  match Qcompare (y - inject_Z f) (1 # 2) with
  | Lt => f
  | Gt => (f + 1)%Z
  | Eq => if Z.even f then f else (f + 1)%Z
  end.

(** The exponent of the last mantissa bit of the binary64 numbers around
    [x]: 53 bits of mantissa, and no exponent below -1074. *)
Definition exponentOf (x : Q) : Z := Z.max (floorLog2 (Qabs x) - 52) (-1074).

(** The magnitude of the binary64 number nearest to [x], were there no
    largest one. *)
Definition nearest64 (x : Q) : Q :=
  let e := exponentOf x in
  inject_Z (roundHalfEven (Qabs x / pow2 e)) * pow2 e.

(** The binary64 number nearest to [x]; beyond the largest one,
    infinity. *)
Definition round64 (x : Q) : number :=
  if Qeq_bool x 0 then Finite 0
  else
    let magnitude := nearest64 x in
    if Qle_bool (pow2 1024) magnitude then Infinity (Qlt_bool x 0)
    else Finite (Qred (if Qlt_bool x 0 then - magnitude else magnitude)).

(** The value of a numeric literal of the source. *)
Definition literal (x : Q) : number := round64 x.

(** The number that holds a count: whole numbers are binary64 numbers up to
    2^53, beyond what a count reaches. *)
Definition num (n : N) : number := Finite (inject_Z (Z.of_N n)).

(** [l.length], a number. *)
Definition lengthOf {A : Type} (l : list A) : number := num (N.of_nat (List.length l)).

Declare Scope number_scope.
Delimit Scope number_scope with num.
Bind Scope number_scope with number.

(** [-x]. *)
Definition opp (x : number) : number :=
  match x with
  | NaN => NaN
  | Infinity s => Infinity (negb s)
  | Finite q => Finite (Qred (- q))
  end.

(** [x + y]. *)
Definition add (x y : number) : number :=
  match x, y with
  | NaN, _ | _, NaN => NaN
  | Infinity s, Infinity s' => if Bool.eqb s s' then Infinity s else NaN
  | Infinity s, Finite _ | Finite _, Infinity s => Infinity s
  | Finite a, Finite b => round64 (a + b)
  end.

(** [x - y]. *)
Definition sub (x y : number) : number :=
  match x, y with
  | NaN, _ | _, NaN => NaN
  | Infinity s, Infinity s' => if Bool.eqb s s' then NaN else Infinity s
  | Infinity s, Finite _ => Infinity s
  | Finite _, Infinity s => Infinity (negb s)
  | Finite a, Finite b => round64 (a - b)
  end.

(** [x * y]. *)
Definition mul (x y : number) : number :=
  match x, y with
  | NaN, _ | _, NaN => NaN
  | Infinity s, Infinity s' => Infinity (xorb s s')
  | Infinity s, Finite q | Finite q, Infinity s =>
      if Qeq_bool q 0 then NaN else Infinity (xorb s (Qlt_bool q 0))
  | Finite a, Finite b => round64 (a * b)
  end.

(** [x / y]. *)
Definition div (x y : number) : number :=
  match x, y with
  | NaN, _ | _, NaN => NaN
  | Infinity _, Infinity _ => NaN
  | Infinity s, Finite q => Infinity (xorb s (Qlt_bool q 0))
  | Finite _, Infinity _ => Finite 0
  | Finite a, Finite b =>
      if Qeq_bool b 0 then
        if Qeq_bool a 0 then NaN else Infinity (Qlt_bool a 0)
      else round64 (a / b)
  end.

(** [x < y]; a comparison with [NaN] is false. *)
Definition ltb (x y : number) : bool :=
  match x, y with
  | NaN, _ | _, NaN => false
  | Infinity s, Infinity s' => s && negb s'
  | Infinity s, Finite _ => s
  | Finite _, Infinity s => negb s
  | Finite a, Finite b => Qlt_bool a b
  end.

(** [x <= y]. *)
Definition leb (x y : number) : bool :=
  match x, y with
  | NaN, _ | _, NaN => false
  | Infinity s, Infinity s' => s || negb s'
  | Infinity s, Finite _ => s
  | Finite _, Infinity s => negb s
  | Finite a, Finite b => Qle_bool a b
  end.

(** [x > y] and [x >= y]. *)
Definition gtb (x y : number) : bool := ltb y x.
Definition geb (x y : number) : bool := leb y x.

(** [x === y] on numbers. *)
Definition eqb (x y : number) : bool :=
  match x, y with
  | Infinity s, Infinity s' => Bool.eqb s s'
  | Finite a, Finite b => Qeq_bool a b
  | _, _ => false
  end.

(** [Math.max(x, y)]. *)
Definition Math_max_number (x y : number) : number :=
  match x, y with
  | NaN, _ | _, NaN => NaN
  | _, _ => if ltb x y then y else x
  end.

Notation "x + y" := (add x y) : number_scope.
Notation "x - y" := (sub x y) : number_scope.
Notation "x * y" := (mul x y) : number_scope.
Notation "x / y" := (div x y) : number_scope.
Notation "x <? y" := (ltb x y) : number_scope.
Notation "x <=? y" := (leb x y) : number_scope.
Notation "x >? y" := (gtb x y) (at level 70) : number_scope.
Notation "x >=? y" := (geb x y) (at level 70) : number_scope.

(** The integer [n] that [x.toFixed(digits)] prints, scaled by
    [10^digits]: the nearest one, the larger in magnitude on a tie. *)
Definition toFixed_scaled (digits : nat) (x : Q) : Z :=
  let scale := (10 ^ Z.of_nat digits)%Z in
  let magnitude := Qfloor (Qabs x * inject_Z scale + (1 # 2)) in
  if Qlt_bool x 0 then (- magnitude)%Z else magnitude.

Fixpoint digitUnits (d : Decimal.uint) : jsstring :=
  match d with
  | Decimal.Nil => []
  | Decimal.D0 d' => 48%N :: digitUnits d'
  | Decimal.D1 d' => 49%N :: digitUnits d'
  | Decimal.D2 d' => 50%N :: digitUnits d'
  | Decimal.D3 d' => 51%N :: digitUnits d'
  | Decimal.D4 d' => 52%N :: digitUnits d'
  | Decimal.D5 d' => 53%N :: digitUnits d'
  | Decimal.D6 d' => 54%N :: digitUnits d'
  | Decimal.D7 d' => 55%N :: digitUnits d'
  | Decimal.D8 d' => 56%N :: digitUnits d'
  | Decimal.D9 d' => 57%N :: digitUnits d'
  end.

(** The digits that [toFixed(digits)] prints for a magnitude [x] below
    10^21. *)
Definition fixedDigits (digits : nat) (x : Q) : jsstring :=
  let n := toFixed_scaled digits x in
  let ds := digitUnits (N.to_uint (Z.to_N n)) in
  let ds := repeat 48%N (S digits - List.length ds) ++ ds in
  let whole := firstn (List.length ds - digits) ds in
  let frac := skipn (List.length ds - digits) ds in
  whole ++ (match digits with O => [] | _ => 46%N :: frac end).

(** [Number.prototype.toString], to which [toFixed] hands the magnitudes
    of 10^21 and more. *)
Class NumberPrinter : Type := {
  Number_toString : number -> jsstring
}.

(** [x.toFixed(digits)], the string. *)
Definition toFixed `{NumberPrinter} (digits : nat) (x : number) : jsstring :=
  match x with
  | NaN => js "NaN"
  | Infinity negative => if negative then js "-Infinity" else js "Infinity"
  | Finite q =>
      (if Qlt_bool q 0 then js "-" else [])
      ++ (if Qle_bool (inject_Z (10 ^ 21)) (Qabs q) then Number_toString (Finite (Qabs q))
          else fixedDigits digits (Qabs q))
  end.

(** [Number(x.toFixed(digits))] and [parseFloat(x.toFixed(digits))]: the
    number nearest to the decimal printed. *)
Definition Number_toFixed (digits : nat) (x : number) : number :=
  match x with
  | Finite q =>
      if Qle_bool (inject_Z (10 ^ 21)) (Qabs q) then x
      else round64 (inject_Z (toFixed_scaled digits q) / inject_Z (10 ^ Z.of_nat digits))
  | _ => x
  end.

(** [xs.reduce((s, x) => s + f(x), 0)]. *)
Definition sumOf {A : Type} (f : A -> number) (xs : list A) : number :=
  fold_left (fun s x => (s + f x)%num) xs (Finite 0).

(** [[...xs].sort((a, b) => key(b) - key(a))]: [a] goes before [b] when
    [key(b) - key(a)] is negative, and a difference that is [NaN] counts as
    zero.  The sort is stable.  (With a key that is [NaN] the order would be
    left to the implementation; the keys of the engine are counts and
    rates, which are never [NaN].) *)
Fixpoint insertDesc {A : Type} (key : A -> number) (x : A) (l : list A) : list A :=
  match l with
  | [] => [x]
  | y :: l' => if (key x - key y <? Finite 0)%num then y :: insertDesc key x l'
               else x :: y :: l'
  end.

Definition sortDesc {A : Type} (key : A -> number) (l : list A) : list A :=
  fold_right (insertDesc key) [] l.

(** The properties that every object inherits from [Object.prototype]. *)
Definition inheritedKeys : list jsstring :=
  map js [ "constructor"; "__defineGetter__"; "__defineSetter__"; "hasOwnProperty";
           "__lookupGetter__"; "__lookupSetter__"; "isPrototypeOf";
           "propertyIsEnumerable"; "toString"; "valueOf"; "__proto__";
           "toLocaleString" ]%string.

(* ------------------------------------------------------------------ *)
(** ** An executable [Number.prototype.toString] for large numbers *)
(* ------------------------------------------------------------------ *)

Module Printer.

Definition decimal (z : Z) : jsstring := digitUnits (N.to_uint (Z.to_N z)).

(** The [k]-digit decimals next to [x / 10^(d - k)] that read back as the
    number [x], the closer one first. *)
Definition candidates (x : Q) (d k : nat) : list Z :=
  let p := inject_Z (10 ^ Z.of_nat (d - k)) in
  let lo := Qfloor (x / p) in
  let hi := (lo + 1)%Z in
  let back := fun c => eqb (round64 (inject_Z c * p)) (Finite x) in
  let nearer :=
    match Qcompare (x - inject_Z lo * p) (inject_Z hi * p - x) with
    | Lt => [lo; hi]
    | Gt => [hi; lo]
    | Eq => if Z.even lo then [lo; hi] else [hi; lo]
    end in
  filter back nearer.

Fixpoint stripZeros (rev : jsstring) : jsstring :=
  match rev with
  | 48%N :: rest => stripZeros rest
  | _ => rev
  end.

(** The shortest decimal that reads back as [x], for a whole [x] of [d]
    digits: its digits without the zeros at the end, and the number of
    digits of the whole number it stands for. *)
Fixpoint shortest (x : Q) (d : nat) (k fuel : nat) : jsstring * nat :=
  match fuel with
  | O => (decimal (Qfloor x), d)
  | S fuel' =>
      match candidates x d k with
      | c :: _ =>
          (List.rev (stripZeros (List.rev (decimal c))),
           List.length (decimal (c * 10 ^ Z.of_nat (d - k))))
      | [] => shortest x d (S k) fuel'
      end
  end.

(** [String(x)] for a finite [x] of 10^21 or more: the shortest digits,
    a point after the first, and the exponent. *)
Definition toString (x : number) : jsstring :=
  match x with
  | NaN => js "NaN"
  | Infinity negative => if negative then js "-Infinity" else js "Infinity"
  | Finite q =>
      let sign := if Qlt_bool q 0 then js "-" else [] in
      let a := Qabs q in
      let '(ds, whole) := shortest a (List.length (decimal (Qfloor a))) 1 17 in
      sign
      ++ match ds with
         | [] => []
         | first :: [] => [first]
         | first :: rest => first :: 46%N :: rest
         end
      ++ js "e+" ++ decimal (Z.of_nat (whole - 1))
  end.

End Printer.

(** An executable printer, on which the examples run; it is exact for the
    numbers [toFixed] hands over, which are whole. *)
#[export] Instance Decimal_printer : NumberPrinter := {|
  Number_toString := Printer.toString
|}.

(* ================================================================== *)
(** * services/MunicipalAnalysisEngine.js *)
(* ================================================================== *)

Module MunicipalAnalysisEngine.

(** What the data layer hands to [analyzeSatisfaction]: the number of
    responses and the count of each answer, in the order of
    [Object.entries]. *)
Record SatisfactionRawData : Type := {
  total : N;
  breakdown : list (jsstring * N)
}.

Record BreakdownEntry : Type := {
  level : jsstring;
  count : N;
  percentage : jsstring
}.

Record DissatisfactionStats : Type := {
  dissatisfiedCount : number;
  dissatisfiedPercent : number;
  dissatisfactionTier : jsstring
}.

(** The report of [analyzeSatisfaction]; the texts of [insights] and
    [recommendations] are not modelled.  The report of an empty data set has
    no dissatisfaction statistics and no trend. *)
Record SatisfactionReport : Type := {
  s_total : N;
  averageScore : number;
  maxScore : number;
  s_breakdown : list BreakdownEntry;
  analysisQuality : jsstring;
  dissatisfaction : option DissatisfactionStats;
  satisfactionTrend : option jsstring
}.

(** What the data layer hands to [analyzeNeighborhoods], per neighborhood. *)
Record NeighborhoodStats : Type := {
  n_total : N;
  n_sent : N;
  n_clicked : N;
  n_answered : N
}.

Record NeighborhoodRow : Type := {
  neighborhood : jsstring;
  row_total : N;
  sent : N;
  clicked : N;
  answered : N;
  responseRate : number;
  engagementRate : number
}.

(** A row as the report prints it: the rates are [toFixed(1)] strings. *)
Record PrintedRow : Type := {
  p_neighborhood : jsstring;
  p_total : N;
  p_sent : N;
  p_clicked : N;
  p_answered : N;
  p_responseRate : jsstring;
  p_engagementRate : jsstring
}.

Record Flagged : Type := {
  flagged_neighborhood : jsstring;
  flagged_responseRate : jsstring
}.

(** The report of [analyzeNeighborhoods]; the texts of [insights] and
    [recommendations] are not modelled. *)
Record NeighborhoodReport : Type := {
  neighborhoods : list PrintedRow;
  equityAssessment : jsstring;
  totalNeighborhoods : nat;
  bestPerforming : option Flagged;
  needsAttention : list Flagged;
  meta_avgResponseRate : jsstring;
  meta_attentionCutoff : jsstring
}.

(** The brackets of [analyzeSatisfactionByAge] while the responses are
    counted. *)
Record Bucket : Type := {
  b_key : jsstring;
  b_min : N;
  b_max : N;
  b_count : N;
  b_totalScore : number
}.

Record AgeBracket : Type := {
  a_key : jsstring;
  a_label : jsstring;
  a_count : N;
  a_averageScore : number
}.

(** The report of [analyzeSatisfactionByAge]; the texts of [insightSummary]
    and [recommendations] are not modelled. *)
Record AgeReport : Type := {
  a_totalResponses : nat;
  a_brackets : list AgeBracket;
  a_analysisQuality : jsstring
}.

(** What the data layer hands to [analyzeIssues]. *)
Record IssuesRawData : Type := {
  issues_total : N;
  issues_breakdown : list (jsstring * N)
}.

Record IssueEntry : Type := {
  i_issue : jsstring;
  i_count : N;
  i_percentage : jsstring
}.

(** The report of [analyzeIssues]; the texts of [insights] and
    [recommendations] and the [diversityIndex], a Shannon index computed
    with [Math.log2], are not modelled.  The report of an empty data set has
    no [priorityIssues]. *)
Record IssuesReport : Type := {
  i_total : N;
  i_breakdown : list IssueEntry;
  priorityIssues : option (list IssueEntry)
}.

(** What the data layer hands to [analyzeEngagement]. *)
Record EngagementRawData : Type := {
  e_total : N;
  e_sent : N;
  e_clicked : N;
  e_answered : N
}.

Record Rates : Type := {
  rate_response : jsstring;
  rate_engagement : jsstring;
  rate_completion : jsstring
}.

Record Funnel : Type := {
  registered : N;
  contacted : N;
  engaged : N;
  responded : N;
  contactToEngage : jsstring;
  engageToRespond : jsstring
}.

(** The report of [analyzeEngagement]; the texts of [insights] and
    [recommendations] are not modelled. *)
Record EngagementReport : Type := {
  g_total : N;
  g_sent : N;
  g_clicked : N;
  g_answered : N;
  rates : Rates;
  performanceLevel : jsstring;
  engagementFunnel : Funnel
}.

#[local] Open Scope number_scope.

Definition weights : list (jsstring * number) :=
  [ (js "Muito satisfeito", Finite 5); (js "Satisfeito", Finite 4);
    (js "Neutro", Finite 3); (js "Insatisfeito", Finite 2);
    (js "Muito insatisfeito", Finite 1) ].

(** [weights[level] || 3] and [weights[level] ?? 3], as the operand of the
    arithmetic that follows: one of the five weights, and 3 for a label
    that [weights] does not have.  For a label that names a member
    inherited from [Object.prototype] the property read gives that member
    (a function, or for [__proto__] the prototype itself), which is kept by
    [||] and by [??]: in a product it is [NaN], and a sum with it is a
    string that is no numeral, which stays one under further sums and
    divides as [NaN]. *)
Definition weightOf (level : jsstring) : number :=
  match find (fun p => jseqb (fst p) level) weights with
  | Some (_, w) => w
  | None => if mem level inheritedKeys then NaN else Finite 3
  end.

Definition dissLevels : list jsstring := [js "Muito insatisfeito"; js "Insatisfeito"].

(** [assessSatisfactionTrend(averageScore)]. *)
Definition assessSatisfactionTrend (score : number) : jsstring :=
  if score >=? Finite 4 then js "positive"
  else if score >=? Finite 3 then js "neutral"
  else js "concerning".

(** The [quality] of [generateSatisfactionInsights]. *)
Definition sampleQuality (total : N) : jsstring :=
  if (total <? 30)%N then js "limited"
  else if (100 <=? total)%N then js "excellent"
  else js "good".

(** [calculateDissatisfactionStats(breakdown)]. *)
Definition calculateDissatisfactionStats (breakdown : list BreakdownEntry) : DissatisfactionStats :=
  let '(dissCount, total) :=
    fold_left (fun '(dissCount, total) b =>
                 let c := num (count b) in
                 (if mem (level b) dissLevels then dissCount + c else dissCount, total + c))
              breakdown (Finite 0, Finite 0) in
  let percent := if total >? Finite 0 then (dissCount / total) * Finite 100 else Finite 0 in
  let tier := if percent >=? Finite 40 then js "critical"
              else if percent >=? Finite 25 then js "elevated"
              else js "low" in
  {| dissatisfiedCount := dissCount; dissatisfiedPercent := percent;
     dissatisfactionTier := tier |}.

(** The weighted score of [analyzeSatisfaction]: the sums its loop
    accumulates and their quotient. *)
Definition scoreSums (breakdown : list (jsstring * N)) : number * number :=
  fold_left (fun '(totalScore, totalResponses) '(level, count) =>
               (totalScore + weightOf level * num count,
                totalResponses + num count))
            breakdown (Finite 0, Finite 0).

Definition averageScoreNumeric (rawData : SatisfactionRawData) : number :=
  let '(totalScore, totalResponses) := scoreSums (breakdown rawData) in
  if totalResponses >? Finite 0 then totalScore / totalResponses else Finite 0.

Definition neighborhoodRow (entry : jsstring * NeighborhoodStats) : NeighborhoodRow :=
  let '(name, stats) := entry in
  {| neighborhood := name;
     row_total := n_total stats;
     sent := n_sent stats;
     clicked := n_clicked stats;
     answered := n_answered stats;
     responseRate :=
       if (0 <? n_total stats)%N
       then (num (n_answered stats) / num (n_total stats)) * Finite 100 else Finite 0;
     engagementRate :=
       if (0 <? n_sent stats)%N
       then (num (n_clicked stats) / num (n_sent stats)) * Finite 100 else Finite 0 |}.

(** The mean response rate:
    [rows.reduce((s, n) => s + n.responseRate, 0) / rows.length]. *)
Definition meanResponseRate (rows : list NeighborhoodRow) : number :=
  sumOf responseRate rows / lengthOf rows.

(** The [lowPerforming] list of [generateNeighborhoodInsights]. *)
Definition lowPerforming (sorted : list NeighborhoodRow) : list NeighborhoodRow :=
  filter (fun n => responseRate n <? meanResponseRate sorted - Finite 10) sorted.

(** The [equityAssessment] that [generateNeighborhoodInsights] returns for
    the rows sorted by response rate. *)
Definition generateNeighborhoodInsights (sorted : list NeighborhoodRow) : jsstring :=
  match sorted with
  | [] => js "unknown"
  | _ :: _ =>
      let low := lowPerforming sorted in
      if (0 <? List.length low)%nat then
        if lengthOf low >? lengthOf sorted * literal 0.4%Q%Q
        then js "concern" else js "moderate"
      else js "excellent"
  end.

(** The constants [avgResponse] and [attentionCutoff] of
    [analyzeNeighborhoods], as functions of the rows. *)
Definition avgResponse (neighborhoodsRaw : list NeighborhoodRow) : number :=
  let byResponse := sortDesc responseRate neighborhoodsRaw in
  match byResponse with
  | [] => Finite 0
  | _ :: _ => meanResponseRate byResponse
  end.

Definition attentionCutoff (neighborhoodsRaw : list NeighborhoodRow) : number :=
  Math_max_number (Finite 0) (avgResponse neighborhoodsRaw - Finite 10).

Definition bracketsDef : list (jsstring * N * N) :=
  [ (js "15-24", 15, 24); (js "25-34", 25, 34); (js "35-44", 35, 44);
    (js "45-54", 45, 54); (js "55-64", 55, 64); (js "65+", 65, 150) ]%N.

(** [r.age && r.survey && r.survey.satisfaction]. *)
Definition hasAgeAndSatisfaction (r : Citizen) : bool :=
  match c_age r with
  | Some age => negb (age =? 0)%N
  | None => false
  end
  && match survey (c_contact r) with
     | Some s => truthy_opt (satisfaction s)
     | None => false
     end.

(** [weights[r.survey.satisfaction] ?? 3]. *)
Definition scoreOf (r : Citizen) : number :=
  match survey (c_contact r) with
  | Some s => match satisfaction s with
              | Some level => weightOf level
              | None => Finite 3
              end
  | None => Finite 3
  end.

(** [buckets.find(b => ageNum >= b.min && ageNum <= b.max)], then
    [bracket.count++] and [bracket.totalScore += score] on the bucket
    found. *)
Definition holds (b : Bucket) (ageNum : N) : bool :=
  (b_min b <=? ageNum)%N && (ageNum <=? b_max b)%N.

Fixpoint addToBracket (ageNum : N) (score : number) (buckets : list Bucket) : list Bucket :=
  match buckets with
  | [] => []
  | b :: rest =>
      if holds b ageNum then
        {| b_key := b_key b; b_min := b_min b; b_max := b_max b;
           b_count := (b_count b + 1)%N; b_totalScore := b_totalScore b + score |} :: rest
      else b :: addToBracket ageNum score rest
  end.

(** One turn of the loop over [withAge]; an age that is not a number is
    skipped. *)
Definition countResponse (buckets : list Bucket) (r : Citizen) : list Bucket :=
  match c_age r with
  | Some ageNum => addToBracket ageNum (scoreOf r) buckets
  | None => buckets
  end.

(** The [performanceLevel] of [generateEngagementInsights(rawData, rates)],
    for [responseRate = parseFloat(rates.response)]. *)
Definition generateEngagementInsights (responseRate : number) : jsstring :=
  if responseRate >=? Finite 70 then js "excellent"
  else if responseRate >=? Finite 50 then js "good"
  else if responseRate >=? Finite 30 then js "fair"
  else js "poor".

(** [whole > 0 ? ((part / whole) * 100).toFixed(1) : '0'], as the number
    that [parseFloat] reads off that text. *)
Definition rateNumber (part whole : N) : number :=
  if (0 <? whole)%N then Number_toFixed 1 ((num part / num whole) * Finite 100)
  else Finite 0.

Section Service.
Context `{NumberPrinter}.

(** [analyzeSatisfaction()], on the raw data the data layer returns. *)
Definition analyzeSatisfaction (rawData : SatisfactionRawData) : SatisfactionReport :=
  if (total rawData =? 0)%N then
    {| s_total := 0; averageScore := Finite 0; maxScore := Finite 5; s_breakdown := [];
       analysisQuality := js "insufficient_data";
       dissatisfaction := None; satisfactionTrend := None |}
  else
    let average := averageScoreNumeric rawData in
    let entries :=
      map (fun '(l, c) =>
             {| level := l; count := c;
                percentage := toFixed 1 ((num c / num (total rawData)) * Finite 100) |})
          (breakdown rawData) in
    {| s_total := total rawData;
       averageScore := Number_toFixed 2 average;
       maxScore := Finite 5;
       s_breakdown := entries;
       analysisQuality := sampleQuality (total rawData);
       dissatisfaction := Some (calculateDissatisfactionStats entries);
       satisfactionTrend := Some (assessSatisfactionTrend average) |}.

Definition printRow (n : NeighborhoodRow) : PrintedRow :=
  {| p_neighborhood := neighborhood n;
     p_total := row_total n;
     p_sent := sent n;
     p_clicked := clicked n;
     p_answered := answered n;
     p_responseRate := toFixed 1 (responseRate n);
     p_engagementRate := toFixed 1 (engagementRate n) |}.

Definition flag (n : NeighborhoodRow) : Flagged :=
  {| flagged_neighborhood := neighborhood n;
     flagged_responseRate := toFixed 1 (responseRate n) |}.

(** [analyzeNeighborhoods()], on the raw data the data layer returns. *)
Definition analyzeNeighborhoods (rawData : list (jsstring * NeighborhoodStats)) : NeighborhoodReport :=
  let neighborhoodsRaw := map neighborhoodRow rawData in
  let byResponse := sortDesc responseRate neighborhoodsRaw in
  {| neighborhoods :=
       sortDesc (fun n => num (p_total n)) (map printRow neighborhoodsRaw);
     equityAssessment := generateNeighborhoodInsights byResponse;
     totalNeighborhoods := List.length neighborhoodsRaw;
     bestPerforming := match byResponse with n :: _ => Some (flag n) | [] => None end;
     needsAttention :=
       map flag (filter (fun n => responseRate n <? attentionCutoff neighborhoodsRaw)
                        neighborhoodsRaw);
     meta_avgResponseRate := toFixed 1 (avgResponse neighborhoodsRaw);
     meta_attentionCutoff := toFixed 1 (attentionCutoff neighborhoodsRaw) |}.

(** [analyzeIssues()], on the raw data the data layer returns. *)
Definition analyzeIssues (rawData : IssuesRawData) : IssuesReport :=
  if (issues_total rawData =? 0)%N then
    {| i_total := 0; i_breakdown := []; priorityIssues := None |}
  else
    let breakdown :=
      map (fun '(issue, count) =>
             {| i_issue := issue; i_count := count;
                i_percentage :=
                  toFixed 1 ((num count / num (issues_total rawData)) * Finite 100) |})
          (sortDesc (fun e => num (snd e)) (issues_breakdown rawData)) in
    {| i_total := issues_total rawData;
       i_breakdown := breakdown;
       priorityIssues := Some (firstn 3 breakdown) |}.

(** [whole > 0 ? ((part / whole) * 100).toFixed(1) : '0']. *)
Definition rateText (part whole : N) : jsstring :=
  if (0 <? whole)%N then toFixed 1 ((num part / num whole) * Finite 100) else js "0".

(** [analyzeEngagementFunnel(rawData)]. *)
Definition analyzeEngagementFunnel (rawData : EngagementRawData) : Funnel :=
  {| registered := e_total rawData;
     contacted := e_sent rawData;
     engaged := e_clicked rawData;
     responded := e_answered rawData;
     contactToEngage := rateText (e_clicked rawData) (e_sent rawData);
     engageToRespond := rateText (e_answered rawData) (e_clicked rawData) |}.

(** [analyzeEngagement()], on the raw data the data layer returns. *)
Definition analyzeEngagement (rawData : EngagementRawData) : EngagementReport :=
  {| g_total := e_total rawData;
     g_sent := e_sent rawData;
     g_clicked := e_clicked rawData;
     g_answered := e_answered rawData;
     rates := {| rate_response := rateText (e_answered rawData) (e_total rawData);
                 rate_engagement := rateText (e_clicked rawData) (e_sent rawData);
                 rate_completion := rateText (e_answered rawData) (e_clicked rawData) |};
     performanceLevel :=
       generateEngagementInsights (rateNumber (e_answered rawData) (e_total rawData));
     engagementFunnel := analyzeEngagementFunnel rawData |}.

End Service.

(** [analyzeSatisfactionByAge()], on the responses the data layer
    returns. *)
Definition analyzeSatisfactionByAge (responses : list Citizen) : AgeReport :=
  let withAge := filter hasAgeAndSatisfaction responses in
  if (List.length withAge =? 0)%nat then
    {| a_totalResponses := 0; a_brackets := [];
       a_analysisQuality := js "insufficient_data" |}
  else
    let buckets :=
      map (fun '(key, min, max) =>
             {| b_key := key; b_min := min; b_max := max; b_count := 0;
                b_totalScore := Finite 0 |})
          bracketsDef in
    let buckets := fold_left countResponse withAge buckets in
    {| a_totalResponses := List.length withAge;
       a_brackets :=
         map (fun b => {| a_key := b_key b; a_label := b_key b; a_count := b_count b;
                          a_averageScore :=
                            Number_toFixed 2 (b_totalScore b / num (b_count b)) |})
             (filter (fun b => (0 <? b_count b)%N) buckets);
       a_analysisQuality :=
         if (List.length withAge <? 30)%nat then js "limited" else js "good" |}.

End MunicipalAnalysisEngine.

(* ================================================================== *)
(** * agents/knowledgeAgent.js and agents/notificationAgent.js *)
(* ================================================================== *)

Module KnowledgeAgent.

Section Service.
Context `{JsRuntime}.

(** [extractResidentData(query, preloadedContext)], the same function in
    both agents, on the raw contacts of the context
    ([intelligentContext.rawData], else [statisticalProfile.rawContacts],
    else the empty list). *)
Definition extractResidentData (query : jsstring) (rawContacts : list Citizen) : list Row :=
  if (List.length rawContacts =? 0)%nat then []
  else
    match ResidentFilterService.determineFilterType query with
    | None => []
    | Some filterType =>
        ResidentFilterService.filterResidents rawContacts (Some filterType) (Some query)
    end.

End Service.

End KnowledgeAgent.

(* ================================================================== *)
(** * public/js: shared/queryTemplates.js and QueryProcessor.js *)
(* ================================================================== *)

Module QueryProcessor.

Record QueryTemplate : Type := {
  t_key : jsstring;
  t_label : jsstring;
  t_query : jsstring;
  t_handler : option jsstring;
  t_category : jsstring
}.

Definition QUERY_TEMPLATES : list QueryTemplate :=
  [ {| t_key := js "satisfaction-analysis"; t_label := js "Análise de Satisfação";
       t_query := js "Mostrar análise de satisfação"; t_handler := None;
       t_category := js "knowledge" |};
    {| t_key := js "dissatisfied-residents"; t_label := js "Análise de Insatisfação";
       t_query := js "Encontrar moradores insatisfeitos"; t_handler := None;
       t_category := js "knowledge" |};
    {| t_key := js "neighborhoods-followup"; t_label := js "Análise de Bairros";
       t_query := js "Quais bairros precisam de acompanhamento"; t_handler := None;
       t_category := js "knowledge" |};
    {| t_key := js "interested-participation"; t_label := js "Participação: interessados";
       t_query := js "Listar moradores interessados em participar"; t_handler := None;
       t_category := js "notification" |};
    {| t_key := js "not-interested-participation";
       t_label := js "Participação: não interessados";
       t_query := js "Mostrar moradores que não querem participar"; t_handler := None;
       t_category := js "notification" |};
    {| t_key := js "age-satisfaction-report"; t_label := js "Relatório: Satisfação por idade";
       t_query := js "Relatório: Satisfação por idade"; t_handler := Some (js "age_report");
       t_category := js "knowledge" |} ].

(** [getQueryTemplateByQuery(query)]. *)
Definition getQueryTemplateByQuery (query : jsstring) : option QueryTemplate :=
  find (fun template => jseqb (t_query template) query) QUERY_TEMPLATES.

(** [hasSpecialHandler(query)]: [template && !!template.handler], which is
    [undefined] when no template has the query. *)
Definition hasSpecialHandler (query : jsstring) : option bool :=
  match getQueryTemplateByQuery query with
  | Some template => Some (truthy_opt (t_handler template))
  | None => None
  end.

(** [getSpecialHandler(query)]: [template?.handler]. *)
Definition getSpecialHandler (query : jsstring) : option jsstring :=
  match getQueryTemplateByQuery query with
  | Some template => t_handler template
  | None => None
  end.

(** [s.replace(/\s+/g, ' ')]: every maximal run of white space becomes one
    space; [in_ws] tells that the run has begun. *)
Fixpoint collapse_from (in_ws : bool) (s : jsstring) : jsstring :=
  match s with
  | [] => []
  | c :: s' =>
      if isSpace c then
        if in_ws then collapse_from true s' else 32%N :: collapse_from true s'
      else c :: collapse_from false s'
  end.

(** [normalize(query)], for a string. *)
Definition normalize (query : jsstring) : jsstring :=
  if negb (truthy query) then []
  else collapse_from false (trim query).

Record Validation : Type := {
  valid : bool;
  v_error : option jsstring
}.

(** [validate(query)]. *)
Definition validate (query : jsstring) : Validation :=
  let normalized := normalize query in
  if negb (truthy normalized) || (List.length normalized =? 0)%nat then
    {| valid := false; v_error := Some (js "Query cannot be empty") |}
  else if (500 <? List.length normalized)%nat then
    {| valid := false; v_error := Some (js "Query is too long (max 500 characters)") |}
  else {| valid := true; v_error := None |}.

Record Processed : Type := {
  p_query : jsstring;
  p_normalized : jsstring;
  p_hasSpecialHandler : option bool;
  p_handlerType : option jsstring;
  p_error : option jsstring
}.

(** [process(query)]. *)
Definition process (query : jsstring) : Processed :=
  let normalized := normalize query in
  let validation := validate normalized in
  if negb (valid validation) then
    {| p_query := query; p_normalized := normalized;
       p_hasSpecialHandler := Some false; p_handlerType := None;
       p_error := v_error validation |}
  else
    let hasHandler := hasSpecialHandler normalized in
    let handlerType :=
      match hasHandler with
      | Some true => getSpecialHandler normalized
      | _ => None
      end in
    {| p_query := query; p_normalized := normalized;
       p_hasSpecialHandler := hasHandler; p_handlerType := handlerType;
       p_error := None |}.

End QueryProcessor.

(* ================================================================== *)
(** * JavaScript objects as counters *)
(* ================================================================== *)

(** What a property of [byNeighborhood] and the like holds: a count, or
    the text that [+ 1] makes of a value that is not a number. *)
Inductive CounterValue : Type :=
| Count (n : nat)
| Text.

(** A plain object [{}] that maps keys to such values: its own properties
    in the order of their creation. *)
Definition Counter : Type := list (jsstring * CounterValue).

(** [v + 1] for the value [v] of an own property: a text stays a text. *)
Definition plusOne (v : CounterValue) : CounterValue :=
  match v with
  | Count n => Count (S n)
  | Text => Text
  end.

(** [m[k] = (m[k] || 0) + 1] for a key other than [__proto__].  Where [m]
    has no own property [k], [m[k]] reads the member that objects inherit, a
    function, if [k] names one: it is truthy, and [+ 1] makes a text of
    it. *)
Fixpoint store (k : jsstring) (m : Counter) : Counter :=
  match m with
  | [] => [(k, if mem k inheritedKeys then Text else Count 1)]
  | (k', v) :: rest =>
      if jseqb k' k then (k', plusOne v) :: rest else (k', v) :: store k rest
  end.

(** [m[k] = (m[k] || 0) + 1].  Under the key [__proto__] the assignment
    of a text, which is what [+ 1] makes of the prototype, does nothing. *)
Definition increment (k : jsstring) (m : Counter) : Counter :=
  if jseqb k (js "__proto__") then m else store k m.

(** The value of the decimal digits [s], after [acc]. *)
Fixpoint digitsValue (acc : N) (s : jsstring) : option N :=
  match s with
  | [] => Some acc
  | c :: s' =>
      if ((48 <=? c) && (c <=? 57))%N then digitsValue (acc * 10 + (c - 48))%N s'
      else None
  end.

(** The array index a property key stands for: a canonical numeric string
    below 2^32 - 1. *)
Definition arrayIndex (k : jsstring) : option N :=
  match k with
  | [] => None
  | c :: rest =>
      if (c =? 48)%N && truthy rest then None
      else
        match digitsValue 0 k with
        | Some n => if (n <? 4294967295)%N then Some n else None
        | None => None
        end
  end.

Fixpoint insertIndexed {V : Type} (e : N * (jsstring * V)) (l : list (N * (jsstring * V)))
  : list (N * (jsstring * V)) :=
  match l with
  | [] => [e]
  | e' :: l' => if (fst e <=? fst e')%N then e :: l else e' :: insertIndexed e l'
  end.

(** [Object.entries(m)]: the array indices in ascending order, then the
    other keys in the order of their creation. *)
Definition Object_entries {V : Type} (m : list (jsstring * V)) : list (jsstring * V) :=
  let indexed :=
    flat_map (fun e => match arrayIndex (fst e) with
                       | Some i => [(i, e)]
                       | None => []
                       end) m in
  let named :=
    filter (fun e => match arrayIndex (fst e) with Some _ => false | None => true end) m in
  map snd (fold_right insertIndexed [] indexed) ++ named.

(** The entries as pairs of a key and a count, if every value is a
    count. *)
Fixpoint counts (entries : list (jsstring * CounterValue)) : option (list (jsstring * nat)) :=
  match entries with
  | [] => Some []
  | (k, Count n) :: rest => option_map (cons (k, n)) (counts rest)
  | (_, Text) :: _ => None
  end.

(** [Object.entries(m).sort((a, b) => b[1] - a[1])].  With counts for
    values the comparator is consistent and the sort, which is stable, has
    one result.  With a text for some value the differences with it are
    [NaN]: the comparator is not consistent, and the order is left to the
    implementation; [None] stands for that case. *)
Definition byCount (m : Counter) : option (list (jsstring * nat)) :=
  option_map (sortDesc (fun e => num (N.of_nat (snd e)))) (counts (Object_entries m)).

(* ================================================================== *)
(** * agents/notificationAgent.js: the segment report *)
(* ================================================================== *)

Module NotificationAgent.

(** [metrics] of the segment report. *)
Record Metrics : Type := {
  total : nat;
  withWhatsApp : nat;
  contactabilityRate : jsstring;
  priorities_high : nat;
  priorities_medium : nat;
  satisfaction_advocates : nat;
  satisfaction_positives : nat;
  participationInterested : nat;
  topNeighborhoods : option (list (jsstring * nat));
  topIssues : option (list (jsstring * nat));
  satisfactionBreakdown : option (list (jsstring * nat))
}.

(** The report of [buildSegmentReport]; [text] and [actionableSteps], which
    print the metrics, are not modelled. *)
Record SegmentReport : Type := {
  metrics : Metrics;
  whatsappTemplates : list jsstring
}.

(** The fields of a row that the report reads; a field the row does not
    have is [undefined]. *)
Definition row_neighborhood (r : Row) : option jsstring :=
  match r with NameRow m => m_neighborhood m | SegmentRow r => r_neighborhood r end.

Definition row_issue (r : Row) : option jsstring :=
  match r with NameRow m => m_issue m | SegmentRow r => r_issue r end.

Definition row_satisfaction (r : Row) : option jsstring :=
  match r with NameRow m => m_satisfaction m | SegmentRow r => r_satisfaction r end.

Definition row_priority (r : Row) : option Priority :=
  match r with NameRow _ => None | SegmentRow r => r_priority r end.

Definition row_whatsapp (r : Row) : option jsstring :=
  match r with NameRow m => m_whatsapp m | SegmentRow r => r_whatsapp r end.

(** [r.participateInterest === 'Sim' || r.participationInterest === true
    || r.participate === 'Sim']. *)
Definition row_participates (r : Row) : bool :=
  match r with
  | NameRow m =>
      match m_participate m with Some v => jseqb v (js "Sim") | None => false end
  | SegmentRow r =>
      match r_participateInterest r with Some v => jseqb v (js "Sim") | None => false end
  end.

Definition hasPriority (p : Priority) (r : Row) : bool :=
  match row_priority r, p with
  | Some HIGH, HIGH | Some MEDIUM, MEDIUM | Some ADVOCATE, ADVOCATE
  | Some POSITIVE, POSITIVE | Some ENGAGED, ENGAGED | Some NOT_WILLING, NOT_WILLING => true
  | _, _ => false
  end.

(** The keys under which a row is counted. *)
Definition neighborhoodKey (r : Row) : jsstring :=
  or_default (row_neighborhood r) (js "Desconhecido").

Definition issueKey (r : Row) : jsstring := or_default (row_issue r) (js "—").

Definition satisfactionKey (r : Row) : jsstring := or_default (row_satisfaction r) (js "—").

(** What the loop of [buildSegmentReport] keeps count of. *)
Record Tally : Type := {
  byNeighborhood : Counter;
  byIssue : Counter;
  bySatisfaction : Counter;
  advocates : nat;
  positives : nat;
  high : nat;
  medium : nat;
  participateYes : nat;
  tally_withWhatsApp : nat
}.

Definition bump (condition : bool) (n : nat) : nat := if condition then S n else n.

(** One turn of [residents.forEach]. *)
Definition tallyResident (t : Tally) (r : Row) : Tally :=
  {| byNeighborhood := increment (neighborhoodKey r) (byNeighborhood t);
     byIssue := increment (issueKey r) (byIssue t);
     bySatisfaction := increment (satisfactionKey r) (bySatisfaction t);
     advocates := bump (hasPriority ADVOCATE r) (advocates t);
     positives := bump (hasPriority POSITIVE r) (positives t);
     high := bump (hasPriority HIGH r) (high t);
     medium := bump (hasPriority MEDIUM r) (medium t);
     participateYes := bump (row_participates r) (participateYes t);
     tally_withWhatsApp := bump (truthy_opt (row_whatsapp r)) (tally_withWhatsApp t) |}.

Definition emptyTally : Tally :=
  {| byNeighborhood := []; byIssue := []; bySatisfaction := [];
     advocates := 0; positives := 0; high := 0; medium := 0;
     participateYes := 0; tally_withWhatsApp := 0 |}.

Definition templatesFor (segment : jsstring) : list jsstring :=
  if jseqb segment (js "dissatisfied") then
    [ js "Olá {NOME}, aqui é da Prefeitura. Vimos sua insatisfação com {ASSUNTO}. Podemos conversar e encaminhar sua demanda? Responda com um horário preferido.";
      js "Bom dia {NOME}. Sua opinião é muito importante. Sobre {ASSUNTO}, registramos seu relato e queremos agir. Você toparia uma conversa rápida esta semana?" ]
  else if jseqb segment (js "satisfied") then
    [ js "Olá {NOME}! Obrigado pelo retorno positivo sobre {ASSUNTO}. Podemos usar seu depoimento (anônimo) para inspirar outras ações no bairro?";
      js "Oi {NOME}, que bom saber que está satisfeito com {ASSUNTO}. Podemos convidar você para um grupo consultivo do bairro?" ]
  else if jseqb segment (js "participation_interested") then
    [ js "Olá {NOME}! Vimos seu interesse em participar. Gostaríamos de convidá-lo para nosso próximo evento comunitário. Data e horário a confirmar.";
      js "Oi {NOME}, que bom saber do seu interesse! Podemos criar um grupo de trabalho no seu bairro. Você topa?" ]
  else
    [ js "Olá {NOME}, tudo bem? Gostaríamos de entender melhor suas necessidades no bairro sobre {ASSUNTO}. Podemos conversar?" ].

Section Service.
Context `{NumberPrinter}.

(** [buildSegmentReport(residents, segment)]; [None] is [null].  The three
    sorted lists are [None] where the order of the sort is left to the
    implementation. *)
Definition buildSegmentReport (residents : list Row) (segment : jsstring)
  : option SegmentReport :=
  match residents with
  | [] => None
  | _ :: _ =>
      let total := List.length residents in
      let t := fold_left tallyResident residents emptyTally in
      Some {| metrics :=
                {| total := total;
                   withWhatsApp := tally_withWhatsApp t;
                   contactabilityRate :=
                     toFixed 1 ((num (N.of_nat (tally_withWhatsApp t))
                                 / num (N.of_nat total)) * Finite 100)%num;
                   priorities_high := high t;
                   priorities_medium := medium t;
                   satisfaction_advocates := advocates t;
                   satisfaction_positives := positives t;
                   participationInterested := participateYes t;
                   topNeighborhoods := option_map (firstn 5) (byCount (byNeighborhood t));
                   topIssues := option_map (firstn 5) (byCount (byIssue t));
                   satisfactionBreakdown := byCount (bySatisfaction t) |};
              whatsappTemplates := templatesFor segment |}
  end.

End Service.

End NotificationAgent.

(* ================================================================== *)
(** * The rounding and the primitive floats *)
(* ================================================================== *)

(** [round64] is written out from the definition of the binary64 format.
    The primitive floats are binary64 numbers with the arithmetic of the
    processor; [Binary64] holds what it takes to compare the two on given
    counts. *)
Module Binary64.

(** The exact value of a primitive binary64 number. *)
Definition ofFloat (x : float) : number :=
  match Prim2SF x with
  | S754_zero _ => Finite 0
  | S754_infinity s => Infinity s
  | S754_nan => NaN
  | S754_finite s m e =>
      Finite (Qred ((if s then - inject_Z (Zpos m) else inject_Z (Zpos m)) * pow2 e))
  end.

(** The same number, with the same reduced fraction. *)
Definition sameNumber (x y : number) : bool :=
  match x, y with
  | NaN, NaN => true
  | Infinity s, Infinity s' => Bool.eqb s s'
  | Finite a, Finite b => (Qnum a =? Qnum b)%Z && (Qden a =? Qden b)%positive
  | _, _ => false
  end.

Definition ofCount64 (n : N) : float := JsonParser.Z2float (Z.of_N n).

(** The quotient of two counts, the percentage, a sum of two quotients and
    the percentage less 10, computed both ways. *)
Definition agree (a b : N) : bool :=
  let q := (num a / num b)%num in
  let q64 := (ofCount64 a / ofCount64 b)%float in
  sameNumber q (ofFloat q64)
  && sameNumber (q * Finite 100)%num (ofFloat (q64 * 100)%float)
  && sameNumber (q + num b / num a)%num (ofFloat (q64 + ofCount64 b / ofCount64 a)%float)
  && sameNumber (q * Finite 100 - Finite 10)%num (ofFloat (q64 * 100 - 10)%float).

(** The counts from 1 to [n]. *)
Definition upTo (n : nat) : list N := map N.of_nat (seq 1 n).

End Binary64.

(* ================================================================== *)
(** * The vocabulary of the properties and the sample data *)
(* ================================================================== *)

Close Scope Q_scope.

Section FilterRules.
Context `{JsRuntime}.
Import ResidentFilterService.

(** The order of the specification, as an explicit rule list: each kind with
    the condition under which it applies to a query. *)
Definition priorityRules : list ((jsstring -> bool) * FilterType) :=
  [ (fun q => notInterestedPattern (normalize q), participation_not_interested);
    (fun q => interestedPattern (normalize q), participation_interested);
    (isNameSearchQuery, name_search);
    (fun q => dissatisfiedPattern (normalize q), dissatisfied);
    (fun q => satisfiedPattern (normalize q), satisfied);
    (fun q => listingPattern (normalize q), all_with_survey) ].

(** First match wins; [None] when no rule applies. *)
Fixpoint firstMatch (rules : list ((jsstring -> bool) * FilterType)) (q : jsstring)
  : option FilterType :=
  match rules with
  | [] => None
  | (applies, kind) :: rest => if applies q then Some kind else firstMatch rest q
  end.

End FilterRules.

(** A record whose survey answers the participation question with [p]. *)
Definition answering (p : string) : Contact :=
  {| name := Some (js "Ana Lima");
     neighborhood := Some (js "Centro");
     whatsapp := Some (js "5511999990000");
     survey := Some {| issue := Some (js "Transporte");
                       satisfaction := Some (js "Neutro");
                       participate := Some (js p);
                       answeredAt := Some (js "2025-01-10T12:00:00.000Z") |} |}.

(** A JSON text, written with apostrophes in the place of its double
    quotes. *)
Definition jsonText (s : string) : jsstring :=
  map (fun c => if (c =? 39)%N then 34%N else c) (js s).

Definition uncertainVerdict : jsstring :=
  jsonText "{'inScope': true, 'confidence': 0.5, 'categories': [], 'reason': 'unsure'}".

(** A world in which the provider answers every query with an uncertain
    in-scope verdict, and every other component fails. *)
Definition uncertainWorld : World := fun c =>
  match c with
  | ClassifierRequest _ => Returned uncertainVerdict
  | GenerateContext _ => Thrown (js "unreachable")
  | RunAgent _ _ _ _ => Thrown (js "unreachable")
  | EnhanceWithLLM _ _ _ _ => Thrown (js "unreachable")
  end.

Definition testKey : option jsstring := Some (js "sk-ant-test").

(** A request to display something that is no municipal matter. *)
Definition pizzaRequest : jsstring := js "Mostre uma pizza".

Section Candidates.
Import Orchestrator.

(** The LLM text names a resident of the deterministic candidate. *)
Definition grounded (ar : AgentResult) (text : jsstring) : Prop :=
  exists rs r,
    analysisField residents ar = Some rs /\ In r rs
    /\ includes text (nameText r) = true.

(** The quality of the LLM candidate is [excellent] or [good]. *)
Definition goodQuality (llm : LlmResult) : Prop :=
  quality_level llm = Some (js "excellent") \/ quality_level llm = Some (js "good").

(** The agent result has at least one resident. *)
Definition hasResidents (ar : AgentResult) : bool :=
  (0 <? List.length (list_or_empty (analysisField residents ar)))%nat.

(** The score as the specification words it: base 0.70, plus 0.15 for a
    resident, plus 0.10 for an excellent and 0.05 for a good LLM quality,
    capped at 0.95; the sums are binary64 sums, taken from left to right. *)
Definition residentBonus (ar : AgentResult) : float :=
  if hasResidents ar then 0.15%float else 0%float.

Definition qualityBonus (llm : option LlmResult) : float :=
  if levelIs llm "excellent" then 0.1%float
  else if levelIs llm "good" then 0.05%float
  else 0%float.

Definition confidenceFormula (ar : AgentResult) (llm : option LlmResult) : float :=
  Math_min (0.7 + residentBonus ar + qualityBonus llm)%float 0.95%float.

(** The order of the qualities that earn a bonus. *)
Definition qualityRank (llm : option LlmResult) : nat :=
  if levelIs llm "excellent" then 2
  else if levelIs llm "good" then 1
  else 0.

End Candidates.

(** The analysis of a name search and of a general query, and sample
    candidates. *)
Definition analysisWith (needs : list string) : QueryAnalysis :=
  {| scope := {| inScope := true; confidence := 0.95; categories := Some [];
                 canonicalIntent := Some (js "survey"); reason := JStr (js "sample") |};
     intent := js "knowledge"; queryType := js "listing";
     dataNeeds := map js needs; urgency := js "normal"; blocked := false |}.

Definition emptyContext : Context :=
  {| population_total := None; population_responseRate := None;
     satisfaction_averageScore := None |}.

Definition residentNamed (n : string) : Resident :=
  {| r_name := Some (js n); r_neighborhood := Some (js "Centro");
     r_whatsapp := None; r_satisfaction := None; r_issue := None;
     r_participateInterest := None; r_priority := None |}.

Definition agentSaying (text : string) (rs : list Resident) : AgentResult :=
  {| agent := Some (js "knowledge");
     analysis := Some {| summary := Some (js text); a_type := Some (js "analysis");
                         residents := Some rs; insights := Some [];
                         recommendations := Some [] |} |}.

(** An LLM text of 600 units that names "Maria Souza". *)
Definition verboseText : jsstring := js "Maria Souza" ++ repeat 46%N 589.

Open Scope Q_scope.

(** The exact value of a count. *)
Definition ofCount (n : N) : Q := inject_Z (Z.of_N n).

(** The sum of [f] over a list. *)
Fixpoint total_of {A : Type} (f : A -> Q) (xs : list A) : Q :=
  match xs with
  | [] => 0
  | x :: xs' => f x + total_of f xs'
  end.

(** Keys in decreasing order. *)
Inductive decreasing {A : Type} (key : A -> Q) : list A -> Prop :=
| decreasing_nil : decreasing key []
| decreasing_one x : decreasing key [x]
| decreasing_cons x y l :
    key y <= key x -> decreasing key (y :: l) -> decreasing key (x :: y :: l).

(** The number is finite and lies between the two rationals. *)
Definition between (lo hi : Q) (x : number) : Prop :=
  match x with
  | Finite v => lo <= v /\ v <= hi
  | _ => False
  end.

Section EngineQuantities.
Import MunicipalAnalysisEngine.

(** The label does not name a member that objects inherit. *)
Definition ownLabel (level : jsstring) : bool := negb (mem level inheritedKeys).

(** The weight of a label as a rational; 0 where [weightOf] has no
    number. *)
Definition weightValue (level : jsstring) : Q :=
  match weightOf level with
  | Finite w => w
  | _ => 0
  end.

(** The quantities of the specification, over the raw breakdown, in exact
    arithmetic: the weighted total, the number of responses, the number of
    dissatisfied responses, and the two quotients. *)
Definition weightedTotal (bd : list (jsstring * N)) : Q :=
  total_of (fun e => weightValue (fst e) * ofCount (snd e)) bd.

Definition responseCount (bd : list (jsstring * N)) : N :=
  fold_right (fun e acc => (snd e + acc)%N) 0%N bd.


Definition weightedMean (bd : list (jsstring * N)) : Q :=
  if (0 <? responseCount bd)%N then weightedTotal bd / ofCount (responseCount bd) else 0.



(** A breakdown with the weighted mean 151/40 = 3.775, and one with a
    label that names an inherited member. *)
Definition tiedSatisfaction : SatisfactionRawData :=
  {| total := 40;
     breakdown := [ (js "Muito satisfeito", 9%N); (js "Satisfeito", 20%N);
                    (js "Neutro", 6%N); (js "Insatisfeito", 3%N);
                    (js "Muito insatisfeito", 2%N) ] |}.

Definition inheritedSatisfaction : SatisfactionRawData :=
  {| total := 30;
     breakdown := [ (js "constructor", 10%N); (js "Satisfeito", 20%N) ] |}.

(** The rows whose response rate is below the mean response rate less 10,
    with the mean that [analyzeNeighborhoods] computes. *)
Definition belowMean (rows : list NeighborhoodRow) : list NeighborhoodRow :=
  filter (fun n => (responseRate n <? avgResponse rows - Finite 10)%num) rows.

(** The exact response rate, in percent. *)
Definition exactRate (part whole : N) : Q := (ofCount part / ofCount whole) * 100.

(** The exact mean of the exact response rates. *)
Definition exactMean (raw : list (jsstring * NeighborhoodStats)) : Q :=
  total_of (fun e => exactRate (n_answered (snd e)) (n_total (snd e))) raw
  / inject_Z (Z.of_nat (List.length raw)).

Definition withRate (answered : N) : NeighborhoodStats :=
  {| n_total := 100; n_sent := 100; n_clicked := answered; n_answered := answered |}.

Definition answeredOf (answered total : N) : NeighborhoodStats :=
  {| n_total := total; n_sent := total; n_clicked := answered; n_answered := answered |}.

(** Four neighborhoods with the response rates 90, 85, 40 and 38. *)
Definition sampleNeighborhoods : list (jsstring * NeighborhoodStats) :=
  [ (js "Centro", withRate 90); (js "Jardim", withRate 85);
    (js "Vila Nova", withRate 40); (js "Lagoa", withRate 38) ].

(** Four neighborhoods with a mean response rate of 5. *)
Definition quietNeighborhoods : list (jsstring * NeighborhoodStats) :=
  [ (js "Centro", withRate 20); (js "Jardim", withRate 0);
    (js "Vila Nova", withRate 0); (js "Lagoa", withRate 0) ].

(** Two neighborhoods with the response rates 1/15 and 4/15: the first
    rate is the exact mean less 10. *)
Definition tiedNeighborhoods : list (jsstring * NeighborhoodStats) :=
  [ (js "Centro", answeredOf 1 15); (js "Jardim", answeredOf 4 15) ].

(** Six neighborhoods with the response rates 5, 55, 0, 0, 0 and 0, of
    exact mean 10. *)
Definition meanTenNeighborhoods : list (jsstring * NeighborhoodStats) :=
  [ (js "Centro", answeredOf 1 20); (js "Jardim", answeredOf 11 20);
    (js "Vila Nova", answeredOf 0 20); (js "Lagoa", answeredOf 0 20);
    (js "Horto", answeredOf 0 20); (js "Porto", answeredOf 0 20) ].

(** Contacts of which 599 in 2000 answered: 29.95 percent. *)
Definition tiedEngagement : EngagementRawData :=
  {| e_total := 2000; e_sent := 2000; e_clicked := 1000; e_answered := 599 |}.

(** The rank of a performance level. *)
Definition levelRank (l : jsstring) : nat :=
  if jseqb l (js "excellent") then 3
  else if jseqb l (js "good") then 2
  else if jseqb l (js "fair") then 1
  else 0.

(** The responses with an age from [lo] to [hi]. *)
Definition aged (lo hi : N) (rs : list Citizen) : list Citizen :=
  filter (fun r => match c_age r with
                   | Some a => (lo <=? a)%N && (a <=? hi)%N
                   | None => false
                   end) rs.

(** The sum of the counts of the brackets. *)
Definition bracketTotal (bs : list AgeBracket) : N :=
  fold_right (fun b acc => (a_count b + acc)%N) 0%N bs.

(** Two brackets that no age falls in together. *)
Definition apart (b b' : Bucket) : Prop :=
  forall ageNum, holds b ageNum = true -> holds b' ageNum = false.

(** The scores of the responses, added one after the other to [start]. *)
Definition addScores (start : number) (rs : list Citizen) : number :=
  fold_left (fun s r => (s + scoreOf r)%num) rs start.

(** What counting the responses [rs] makes of a bracket. *)
Definition counted (rs : list Citizen) (b b' : Bucket) : Prop :=
  b_key b' = b_key b /\ b_min b' = b_min b /\ b_max b' = b_max b
  /\ b_count b' = (b_count b + N.of_nat (List.length (aged (b_min b) (b_max b) rs)))%N
  /\ b_totalScore b' = addScores (b_totalScore b) (aged (b_min b) (b_max b) rs).

(** The answer of a response names no inherited member. *)
Definition ownAnswer (r : Citizen) : bool :=
  match survey (c_contact r) with
  | Some s => match satisfaction s with
              | Some level => ownLabel level
              | None => true
              end
  | None => true
  end.

End EngineQuantities.

(** A response of a citizen of the given age and answer. *)
Definition respondent (age : N) (level : string) : Citizen :=
  {| c_id := None;
     c_age := Some age;
     c_contact :=
       {| name := Some (js "Ana Lima");
          neighborhood := Some (js "Centro");
          whatsapp := None;
          survey := Some {| issue := None;
                            satisfaction := Some (js level);
                            participate := None;
                            answeredAt := None |} |};
     c_whatsappSentAt := None;
     c_clickedAt := None;
     c_createdAt := None;
     c_updatedAt := None |}.

Close Scope Q_scope.


(** A string without white space, and a word: such a string that is not
    empty. *)
Definition spaceFree (w : jsstring) : bool := forallb (fun c => negb (isSpace c)) w.

Definition word (w : jsstring) : Prop := w <> [] /\ spaceFree w = true.

(** The fields every row of [filterResidents] has, whatever its shape. *)
Definition rowName (r : Row) : option jsstring :=
  match r with NameRow m => m_name m | SegmentRow r => r_name r end.

Definition rowNeighborhood (r : Row) : option jsstring :=
  match r with NameRow m => m_neighborhood m | SegmentRow r => r_neighborhood r end.

Definition rowWhatsapp (r : Row) : option jsstring :=
  match r with NameRow m => m_whatsapp m | SegmentRow r => r_whatsapp r end.

(** The row was built from the record [c]. *)
Definition fromCitizen (row : Row) (c : Citizen) : Prop :=
  rowName row = name (c_contact c)
  /\ rowNeighborhood row = neighborhood (c_contact c)
  /\ rowWhatsapp row = whatsapp (c_contact c).

(** A record of data.json with a name and a survey answer. *)
Definition citizenNamed (n : string) (level : string) : Citizen :=
  {| c_id := Some (js n);
     c_age := Some 41%N;
     c_contact :=
       {| name := Some (js n);
          neighborhood := Some (js "Centro");
          whatsapp := Some (js "5511999990000");
          survey := Some {| issue := Some (js "Transporte");
                            satisfaction := Some (js level);
                            participate := Some (js "Sim");
                            answeredAt := Some (js "2025-01-10T12:00:00.000Z") |} |};
     c_whatsappSentAt := None;
     c_clickedAt := None;
     c_createdAt := Some (js "2025-01-01T09:00:00.000Z");
     c_updatedAt := Some (js "2025-01-10T12:00:00.000Z") |}.

(** The clamp [Math.max(0, Math.min(1, c))] that [classify] applies to the
    confidence of the reply. *)
Definition clamp01 (c : float) : float := Math_max 0 (Math_min 1 c).

(** The query is neither empty nor blank: [!query || !query.trim()] is
    false. *)
Definition nonblank (query : jsstring) : bool := truthy query && trim_nonempty query.

Section AnalyzerVocabulary.
Context `{JsRuntime}.
Import QueryAnalyzer.

(** The pre-checks of [analyzeQuery], steps 0 to 0.5, and the analysis
    they return. *)
Definition analysisRequest (qn : jsstring) : bool :=
  hasAnalysisKeyword qn && hasDisplayVerb qn.

Definition analysisPhrase (qn : jsstring) : bool :=
  hasAnalysisKeyword qn
  && (includes qn (js "de") || includes qn (js "do") || includes qn (js "da")).

Definition segmentRequest (qn : jsstring) : bool :=
  hasFilterKeyword qn && (hasFilterVerb qn || hasResidentNoun qn).

Definition prechecked (query : jsstring) : bool :=
  let qn := normalize query in
  isStatisticalOrOperationalQuery query
  || analysisRequest qn || analysisPhrase qn || segmentRequest qn
  || detectNameSearch query.

Definition precheckAnalysis (query : jsstring) : QueryAnalysis :=
  let qn := normalize query in
  if isStatisticalOrOperationalQuery query then statisticalAnalysis query
  else if analysisRequest qn then displayedAnalysis query
  else if analysisPhrase qn then prepositionAnalysis query
  else if segmentRequest qn then filterAnalysis query
  else nameSearchAnalysis query.

End AnalyzerVocabulary.

(** The intents that name an agent. *)
Definition agentIntents : list jsstring := [js "knowledge"; js "notification"; js "ticket"].

(** What every analysis satisfies; [nb] tells whether the query was not
    blank. *)
Definition coherent (nb : bool) (a : QueryAnalysis) : Prop :=
  blocked a = negb (inScope (scope a))
  /\ urgency a = js "normal"
  /\ In (intent a) (js "out_of_scope" :: agentIntents)
  /\ (blocked a = true -> dataNeeds a = [])
  /\ (intent a = js "out_of_scope" <-> blocked a = true /\ nb = true)
  /\ (blocked a = false -> In (intent a) agentIntents).

Section OrchestratorVocabulary.
Import Orchestrator.

(** The three tags of [responseQuality]. *)
Definition qualityTags : list jsstring :=
  [js "focused_search"; js "llm-enhanced"; js "data-driven"].

(** A call of the LLM enhancement. *)
Definition isEnhancement (c : Call) : bool :=
  match c with EnhanceWithLLM _ _ _ _ => true | _ => false end.

(** The request failed: the object of [createErrorResponse]. *)
Definition failed (r : Result) : bool :=
  match r with Failed _ _ _ _ _ => true | _ => false end.

(** The [success] member of a result. *)
Definition succeeded (r : Result) : bool :=
  match r with
  | OutOfScope _ _ _ success _ _ => success
  | Final f => f_success f
  | Failed _ _ _ _ success => success
  end.

End OrchestratorVocabulary.

(** A world in which the context builder and the agents answer and the LLM
    enhancement times out. *)
Definition servingWorld : World := fun c =>
  match c with
  | ClassifierRequest _ => Returned uncertainVerdict
  | GenerateContext _ => Returned emptyContext
  | RunAgent _ _ _ _ =>
      Returned (agentSaying "Encontrado: Maria Souza, Centro." [residentNamed "Maria Souza"])
  | EnhanceWithLLM _ _ _ _ => Thrown (js "timeout of 30000ms exceeded")
  end.


(** The number of true values. *)
Definition passes (checks : list bool) : nat := List.length (filter (fun b => b) checks).

(** The verbs that only the analyzer lists. *)
Definition analyzerOnlyVerbs : list jsstring := map js ["quem é"; "localize"; "localizar"]%string.

(** The string does not begin with white space. *)
Definition startsClean (s : jsstring) : bool :=
  match s with
  | c :: _ => negb (isSpace c)
  | [] => true
  end.

(** Every white space of the string is one U+0020 between two other
    units. *)
Fixpoint singleSpaced (s : jsstring) : bool :=
  match s with
  | [] => true
  | c :: s' =>
      (if isSpace c
       then (c =? 32)%N && match s' with c' :: _ => negb (isSpace c') | [] => false end
       else true)
      && singleSpaced s'
  end.

Definition tidy (s : jsstring) : bool := startsClean s && singleSpaced s.

(** The number of rows counted under the key [k]. *)
Definition occurrences (key : Row -> jsstring) (k : jsstring) (rs : list Row) : nat :=
  List.length (filter (fun r => jseqb (key r) k) rs).

(** The sum of the counts of a list of entries. *)
Definition countTotal (entries : list (jsstring * nat)) : nat :=
  fold_right (fun e acc => (snd e + acc)%nat) 0%nat entries.

(** The key names a function that objects inherit. *)
Definition inheritedMethod (k : jsstring) : bool :=
  mem k inheritedKeys && negb (jseqb k (js "__proto__")).

(** The counter after the keys [ks], from the empty object. *)
Definition countKeys (ks : list jsstring) : Counter :=
  fold_left (fun m k => increment k m) ks [].

(** How often the key [k] is among [ks]. *)
Definition times (k : jsstring) (ks : list jsstring) : nat :=
  List.length (filter (fun k' => jseqb k' k) ks).

(** The sum of the counts that a counter holds. *)
Definition valueTotal (m : Counter) : nat :=
  fold_right (fun e acc => match snd e with Count n => (n + acc)%nat | Text => acc end)
             0%nat m.

(** The rows counted under a key other than [__proto__]. *)
Definition keyed (key : Row -> jsstring) (rs : list Row) : list Row :=
  filter (fun r => negb (jseqb (key r) (js "__proto__"))) rs.

(** What a sorted list of the report says of the rows, for the key it
    counts: there is a list exactly when no row has a key that names an
    inherited function; it has every key once, with the number of its rows,
    in decreasing order of count; and its counts add up to the number of rows
    with a key other than [__proto__]. *)
Definition countsRows (key : Row -> jsstring) (rs : list Row)
           (sorted : option (list (jsstring * nat))) : Prop :=
  (sorted = None <-> exists r, In r rs /\ inheritedMethod (key r) = true)
  /\ forall entries, sorted = Some entries ->
       NoDup (map fst entries)
       /\ (forall k n, In (k, n) entries ->
             n = occurrences key k rs /\ (1 <= n)%nat)
       /\ (forall r, In r (keyed key rs) -> In (key r) (map fst entries))
       /\ countTotal entries = List.length (keyed key rs)
       /\ decreasing (fun e => ofCount (N.of_nat (snd e))) entries.

(** What the priority of a row of a satisfaction segment tells. *)
Definition tells (p : Priority) (level : string) (row : Row) : Prop :=
  NotificationAgent.hasPriority p row = true
  /\ NotificationAgent.satisfactionKey row = js level.

(* ================================================================== *)
(** * Facts about strings and programs *)
(* ================================================================== *)

Close Scope Q_scope.
Unset Implicit Arguments.

Lemma jseqb_eq (a b : jsstring) : jseqb a b = true <-> a = b.
Proof.
  revert b; induction a as [|x a IH]; intros [|y b]; simpl; split;
    try congruence; try reflexivity.
  - intros E. apply andb_true_iff in E as [Ex Eab].
    apply N.eqb_eq in Ex. apply IH in Eab. congruence.
  - intros E. injection E as -> ->. rewrite N.eqb_refl. simpl. now apply IH.
Qed.

Lemma jseqb_refl (a : jsstring) : jseqb a a = true.
Proof. now apply jseqb_eq. Qed.

Lemma jseqb_neq (a b : jsstring) : jseqb a b = false <-> a <> b.
Proof.
  split.
  - intros E Eq. apply jseqb_eq in Eq. congruence.
  - intros Ne. destruct (jseqb a b) eqn:E; [|reflexivity].
    apply jseqb_eq in E. contradiction.
Qed.

(** Running a sequence: the second program runs on the result of the first,
    and the traces follow each other. *)
Lemma run_bind {A B : Type} (w : World) (p : Program A) (f : A -> Program B) :
  run w (bind p f) =
  (fst (run w (f (fst (run w p)))), snd (run w p) ++ snd (run w (f (fst (run w p))))).
Proof.
  induction p as [a|c k IH]; simpl.
  - now destruct (run w (f a)).
  - rewrite IH. destruct (run w (k (w c))) as [a t]. reflexivity.
Qed.

Lemma run_Ask {R : Type} (w : World) (c : Call) (k : answer c -> Program R) :
  run w (Ask c k) = (fst (run w (k (w c))), c :: snd (run w (k (w c)))).
Proof. simpl. now destruct (run w (k (w c))). Qed.

(* ================================================================== *)
(** * ResidentFilterService: the order of the filter kinds *)
(* ================================================================== *)

Section FilterPriority.
Context `{JsRuntime}.
Import ResidentFilterService.

(** A kind is returned exactly when its rule applies and no earlier one
    does. *)
Lemma firstMatch_spec rules q kind :
  NoDup (map snd rules) ->
  firstMatch rules q = Some kind <->
  exists before applies after,
    rules = before ++ (applies, kind) :: after
    /\ applies q = true
    /\ Forall (fun r => fst r q = false) before.
Proof.
  induction rules as [|[a k] rest IH]; simpl; intros ND.
  - split; [discriminate|]. intros (b & ap & af & E & _). now destruct b.
  - inversion ND as [|? ? Hnotin ND']; subst.
    destruct (a q) eqn:Ea.
    + split.
      * intros [= <-]. exists [], a, rest. repeat split; auto.
      * intros (b & ap & af & E & Hap & Hb).
        destruct b as [|[a0 k0] b]; simpl in E.
        -- congruence.
        -- injection E as -> -> E. inversion Hb; subst. simpl in *. congruence.
    + rewrite (IH ND'). split.
      * intros (b & ap & af & -> & Hap & Hb).
        exists ((a, k) :: b), ap, af. repeat split; auto.
      * intros (b & ap & af & E & Hap & Hb).
        destruct b as [|[a0 k0] b]; simpl in E.
        -- injection E as -> -> ->. congruence.
        -- injection E as -> -> ->. inversion Hb; subst.
           exists b, ap, af. repeat split; auto.
Qed.

Lemma firstMatch_none rules q :
  firstMatch rules q = None <-> Forall (fun r => fst r q = false) rules.
Proof.
  induction rules as [|[a k] rest IH]; simpl.
  - split; auto.
  - destruct (a q) eqn:Ea.
    + split; [discriminate|]. intros F. inversion F; subst. simpl in *. congruence.
    + rewrite IH. split.
      * intros F. constructor; auto.
      * intros F. now inversion F.
Qed.

Lemma priorityRules_kinds :
  map snd priorityRules =
  [ participation_not_interested; participation_interested; name_search;
    dissatisfied; satisfied; all_with_survey ].
Proof. reflexivity. Qed.

Lemma priorityRules_NoDup : NoDup (map snd priorityRules).
Proof.
  rewrite priorityRules_kinds.
  repeat (constructor; [simpl; intuition discriminate|]). constructor.
Qed.

Lemma determineFilterType_firstMatch (q : jsstring) :
  determineFilterType q = firstMatch priorityRules q.
Proof. reflexivity. Qed.

(** C5.  [determineFilterType] evaluates the kinds in the order
    participation-not-interested, participation-interested, name-search,
    dissatisfied, satisfied, all-with-survey, first match wins: a kind is
    returned exactly when its condition holds and the condition of no
    earlier kind does, and [null] exactly when no condition holds.  In
    particular a query with a "not interested in participating" pattern
    resolves to [participation_not_interested], never to [name_search],
    whether or not it also is a name search. *)
Theorem determineFilterType_priority (q : jsstring) :
  map snd priorityRules =
    [ participation_not_interested; participation_interested; name_search;
      dissatisfied; satisfied; all_with_survey ]
  /\ (forall kind,
         determineFilterType q = Some kind <->
         exists before applies after,
           priorityRules = before ++ (applies, kind) :: after
           /\ applies q = true
           /\ Forall (fun r => fst r q = false) before)
  /\ (determineFilterType q = None <->
      Forall (fun r => fst r q = false) priorityRules)
  /\ (notInterestedPattern (normalize q) = true ->
      determineFilterType q = Some participation_not_interested
      /\ determineFilterType q <> Some name_search).
Proof.
  split; [exact priorityRules_kinds|].
  split; [|split].
  - intros kind. rewrite determineFilterType_firstMatch.
    apply firstMatch_spec, priorityRules_NoDup.
  - rewrite determineFilterType_firstMatch. apply firstMatch_none.
  - intros Hpat. unfold determineFilterType. rewrite Hpat.
    split; [reflexivity | discriminate].
Qed.

End FilterPriority.

(** A query that has both the pattern and a name search: the witness of C5. *)
Lemma determineFilterType_priority_witness :
  let q := js "Encontre João que não quer participar" in
  ResidentFilterService.notInterestedPattern (Latin1.normalize q) = true
  /\ @ResidentFilterService.isNameSearchQuery Latin1_runtime q = true
  /\ @ResidentFilterService.determineFilterType Latin1_runtime q
     = Some ResidentFilterService.participation_not_interested.
Proof.
  split; [vm_compute; reflexivity|].
  split; [vm_compute; reflexivity|].
  apply (proj2 (proj2 (proj2 (@determineFilterType_priority Latin1_runtime
                                (js "Encontre João que não quer participar"))))).
  vm_compute; reflexivity.
Defined.

(* ================================================================== *)
(** * ResidentFilterService: the participation filters *)
(* ================================================================== *)

Section ParticipationFilters.
Context `{JsRuntime}.
Import ResidentFilterService.

Lemma in_filter_map_survey keep p contacts r :
  In r (filter_map_survey keep p contacts) <->
  exists c s, In c contacts /\ keep c = true /\ survey c = Some s
              /\ r = participationResident c s p.
Proof.
  unfold filter_map_survey. rewrite in_flat_map. split.
  - intros (c & Hin & Hr). destruct (keep c) eqn:Ek; [|contradiction].
    destruct (survey c) as [s|] eqn:Es; [|contradiction].
    destruct Hr as [<-|[]]. now exists c, s.
  - intros (c & s & Hin & Ek & Es & ->). exists c. split; [assumption|].
    rewrite Ek, Es. now left.
Qed.

(** The not-interested filter keeps the records whose answer, once
    normalized, is "nao" or "no". *)
Lemma filterParticipationNotInterested_spec contacts r :
  In r (filterParticipationNotInterested contacts) <->
  exists c s p,
    In c contacts /\ survey c = Some s /\ participate s = Some p /\ p <> []
    /\ (normalize p = js "nao" \/ normalize p = js "no")
    /\ r = participationResident c s NOT_WILLING.
Proof.
  unfold filterParticipationNotInterested. rewrite in_filter_map_survey. split.
  - intros (c & s & Hin & Hk & Es & ->). unfold notInterestedContact in Hk.
    rewrite Es in Hk. destruct (participate s) as [p|] eqn:Ep; [|discriminate].
    destruct p as [|u p]; [discriminate|]. simpl in Hk.
    exists c, s, (u :: p). repeat split; auto; [discriminate|].
    apply orb_true_iff in Hk as [E|E]; apply jseqb_eq in E; auto.
  - intros (c & s & p & Hin & Es & Ep & Hne & Hn & ->).
    exists c, s. repeat split; auto. unfold notInterestedContact.
    rewrite Es, Ep. destruct p as [|u p]; [contradiction|]. simpl.
    apply orb_true_iff. destruct Hn as [E|E]; rewrite E; [left|right]; apply jseqb_refl.
Qed.

(** The interested filter keeps the records whose answer is the literal
    "Sim"; the answer is not normalized. *)
Lemma filterParticipationInterested_spec contacts r :
  In r (filterParticipationInterested contacts) <->
  exists c s,
    In c contacts /\ survey c = Some s /\ participate s = Some (js "Sim")
    /\ r = participationResident c s ENGAGED.
Proof.
  unfold filterParticipationInterested. rewrite in_filter_map_survey. split.
  - intros (c & s & Hin & Hk & Es & ->). unfold interestedContact in Hk.
    rewrite Es in Hk. destruct (participate s) as [p|] eqn:Ep; [|discriminate].
    apply jseqb_eq in Hk. subst p. now exists c, s.
  - intros (c & s & Hin & Es & Ep & ->). exists c, s. repeat split; auto.
    unfold interestedContact. rewrite Es, Ep. apply jseqb_refl.
Qed.

(** C8.  The not-interested filter keeps exactly the records whose answer
    normalizes to "nao" or "no", with priority NOT_WILLING, so "Não" and
    "nao" are treated alike.  The interested filter keeps exactly the
    records whose answer is the literal "Sim", with priority ENGAGED: it does
    not normalize, and drops "sim", which normalizes to the same text as
    "Sim". *)
Theorem participation_filters_on_variants :
  (forall contacts r,
      In r (filterParticipationNotInterested contacts) <->
      exists c s p,
        In c contacts /\ survey c = Some s /\ participate s = Some p /\ p <> []
        /\ (normalize p = js "nao" \/ normalize p = js "no")
        /\ r = participationResident c s NOT_WILLING)
  /\ (forall contacts r,
         In r (filterParticipationInterested contacts) <->
         exists c s,
           In c contacts /\ survey c = Some s /\ participate s = Some (js "Sim")
           /\ r = participationResident c s ENGAGED)
  /\ (Latin1.normalize (js "sim") = Latin1.normalize (js "Sim")
      /\ Latin1.normalize (js "Não") = Latin1.normalize (js "nao")
      /\ map r_priority
             (@filterParticipationNotInterested Latin1_runtime [answering "Não"])
         = [Some NOT_WILLING]
      /\ map r_priority
             (@filterParticipationNotInterested Latin1_runtime [answering "nao"])
         = [Some NOT_WILLING]
      /\ map r_priority (filterParticipationInterested [answering "Sim"])
         = [Some ENGAGED]
      /\ filterParticipationInterested [answering "sim"] = []).
Proof.
  split; [exact filterParticipationNotInterested_spec|].
  split; [exact filterParticipationInterested_spec|].
  repeat split; vm_compute; reflexivity.
Qed.

End ParticipationFilters.

(* ================================================================== *)
(** * ScopeClassifier, QueryAnalyzer and the orchestrator: blocked queries *)
(* ================================================================== *)

Section Classification.
Context `{JsRuntime}.
Variable key : option jsstring.
Variable w : World.
Import ScopeClassifier QueryAnalyzer Orchestrator.

(** [classify] makes at most one call, the request to the provider. *)
Lemma classify_trace query :
  snd (run w (classify key query)) = []
  \/ snd (run w (classify key query)) = [ClassifierRequest query].
Proof.
  unfold classify.
  destruct (negb (truthy query) || negb (trim_nonempty query)); [now left|].
  destruct (negb (enabled key)); [now left|].
  right. simpl. now destruct (w (ClassifierRequest query)).
Qed.

(** When the provider is consulted and replies, the result is the verdict
    read off the reply. *)
Lemma classify_consulted query raw :
  In (ClassifierRequest query) (snd (run w (classify key query))) ->
  w (ClassifierRequest query) = Returned raw ->
  fst (run w (classify key query)) = verdict query raw.
Proof.
  unfold classify.
  destruct (negb (truthy query) || negb (trim_nonempty query)); [intros []|].
  destruct (negb (enabled key)); [intros []|].
  intros _ Hw. simpl. rewrite Hw. reflexivity.
Qed.

(** The safeguard: an in-scope verdict of confidence below 0.65 on a query
    without anchor tokens is flipped. *)
Lemma verdict_flips query raw :
  json_truthy (safeParseJson raw) = true ->
  parsedInScope (safeParseJson raw) = true ->
  (parsedConfidence (safeParseJson raw) <? 0.65)%float = true ->
  anchorMatches query = 0%nat ->
  sr_inScope (verdict query raw) = false
  /\ sr_reason (verdict query raw)
     = JStr (js "Low confidence and no municipal domain tokens detected").
Proof.
  intros Ht Hin Hc Hm. unfold verdict. rewrite Ht, Hin, Hc, Hm. simpl. auto.
Qed.

(** The analyzer makes no call but the classifier's. *)
Lemma analyzeQuery_trace query :
  snd (run w (analyzeQuery key query)) = snd (run w (classify key query))
  \/ snd (run w (analyzeQuery key query)) = [].
Proof.
  unfold analyzeQuery.
  repeat match goal with
         | |- context [if ?c then Done _ else _] => destruct c; [now right|]
         end.
  left. rewrite run_bind. simpl. apply app_nil_r.
Qed.

Lemma analyzeQuery_no_downstream query :
  existsb downstream (snd (run w (analyzeQuery key query))) = false.
Proof.
  destruct (analyzeQuery_trace query) as [E|E]; rewrite E; [|reflexivity].
  destruct (classify_trace query) as [E'|E']; rewrite E'; reflexivity.
Qed.

(** When the analyzer consults the classifier, no pre-check has matched and
    the analysis is what steps 2 to 5 make of the classifier's result. *)
Lemma analyzeQuery_consulted query :
  In (ClassifierRequest query) (snd (run w (analyzeQuery key query))) ->
  isStatisticalOrOperationalQuery query = false
  /\ detectNameSearch query = false
  /\ In (ClassifierRequest query) (snd (run w (classify key query)))
  /\ fst (run w (analyzeQuery key query))
     = afterClassification query (fst (run w (classify key query))).
Proof.
  unfold analyzeQuery.
  destruct (negb (truthy query) || negb (trim_nonempty query)); [intros []|].
  destruct (isStatisticalOrOperationalQuery query) eqn:Es; [intros []|].
  destruct (hasAnalysisKeyword (normalize query) && hasDisplayVerb (normalize query));
    [intros []|].
  destruct (hasAnalysisKeyword (normalize query) && _); [intros []|].
  destruct (hasFilterKeyword (normalize query) && _); [intros []|].
  destruct (detectNameSearch query) eqn:Ed; [intros []|].
  rewrite run_bind. simpl. rewrite app_nil_r. intros Hin. auto.
Qed.

(** An out-of-scope result of the classifier on a query that no pre-check
    matches is a block: the overrides of step 4 repeat the pre-checks. *)
Lemma afterClassification_blocks query scope :
  sr_inScope scope = false ->
  isStatisticalOrOperationalQuery query = false ->
  detectNameSearch query = false ->
  afterClassification query scope = blockedAnalysis (sr_reason scope) (sr_confidence scope).
Proof.
  intros Hs Hq Hd. unfold afterClassification. rewrite Hs, Hq, Hd. reflexivity.
Qed.

(** The orchestrator on a blocked analysis. *)
Lemma orchestrate_blocked query :
  blocked (fst (run w (analyzeQuery key query))) = true ->
  run w (orchestrate key query) =
  (OutOfScope query (js "out_of_scope") redirection true
              (scope (fst (run w (analyzeQuery key query)))) [],
   snd (run w (analyzeQuery key query))).
Proof.
  intros Hb. unfold orchestrate. rewrite run_bind. rewrite Hb. simpl.
  now rewrite app_nil_r.
Qed.

(** An analysis that is not blocked goes on to the context builder: the
    trace of such a request has a downstream call. *)
Lemma orchestrate_unblocked query :
  blocked (fst (run w (analyzeQuery key query))) = false ->
  existsb downstream (snd (run w (orchestrate key query))) = true.
Proof.
  intros Hb. unfold orchestrate. rewrite run_bind. rewrite Hb.
  cbn [snd]. rewrite existsb_app. apply orb_true_iff. right.
  rewrite run_Ask. reflexivity.
Qed.

(** C9.  When the analysis of a query is blocked, the orchestrator returns at
    once: the result has intent [out_of_scope], no resident and the fixed
    redirection message, and the only calls of the request are those of the
    analysis itself; neither the context builder, nor an agent (and with it
    the analysis engine and the resident filter), nor the LLM enhancement is
    called. *)
Theorem blocked_query_returns_immediately query :
  blocked (fst (run w (analyzeQuery key query))) = true ->
  fst (run w (orchestrate key query))
  = OutOfScope query (js "out_of_scope") redirection true
               (scope (fst (run w (analyzeQuery key query)))) []
  /\ snd (run w (orchestrate key query)) = snd (run w (analyzeQuery key query))
  /\ existsb downstream (snd (run w (orchestrate key query))) = false
  /\ (forall c, In c (snd (run w (orchestrate key query))) -> c = ClassifierRequest query).
Proof.
  intros Hb. rewrite (orchestrate_blocked _ Hb). simpl.
  repeat split; try reflexivity.
  - apply analyzeQuery_no_downstream.
  - intros c Hin.
    destruct (analyzeQuery_trace query) as [E|E]; rewrite E in Hin; [|destruct Hin].
    destruct (classify_trace query) as [E'|E']; rewrite E' in Hin.
    + destruct Hin.
    + destruct Hin as [<-|[]]. reflexivity.
Qed.

End Classification.

(** The same request through the orchestrator: the witness of C9. *)
Lemma blocked_query_returns_immediately_witness :
  let q := js "Quero pedir uma pizza" in
  fst (run uncertainWorld (@Orchestrator.orchestrate Latin1_runtime testKey q))
  = Orchestrator.OutOfScope q (js "out_of_scope") Orchestrator.redirection true
      (scope (fst (run uncertainWorld (@QueryAnalyzer.analyzeQuery Latin1_runtime testKey q))))
      []
  /\ snd (run uncertainWorld (@Orchestrator.orchestrate Latin1_runtime testKey q))
     = [ClassifierRequest q].
Proof.
  destruct (@blocked_query_returns_immediately Latin1_runtime testKey uncertainWorld
              (js "Quero pedir uma pizza")) as (Hr & Ht & _).
  - vm_compute; reflexivity.
  - split; [exact Hr|]. rewrite Ht. vm_compute; reflexivity.
Defined.

(** A query that a pre-check catches obtains no verdict: the analyzer answers
    "Encontre Maria Souza" as a name search without consulting the
    classifier, although [classify], asked directly in the same world, would
    flip its verdict. *)
Lemma precheck_query_bypasses_classifier :
  let q := js "Encontre Maria Souza" in
  sr_inScope (fst (run uncertainWorld (@ScopeClassifier.classify Latin1_runtime testKey q)))
  = false
  /\ snd (run uncertainWorld (@QueryAnalyzer.analyzeQuery Latin1_runtime testKey q)) = []
  /\ blocked (fst (run uncertainWorld (@QueryAnalyzer.analyzeQuery Latin1_runtime testKey q)))
     = false.
Proof. repeat split; vm_compute; reflexivity. Qed.

(* ================================================================== *)
(** * The orchestrator: arbitration and confidence *)
(* ================================================================== *)

Section Arbitration.
Import Orchestrator.

Lemma hasRealData_grounded ar text :
  hasRealData ar text = true <-> grounded ar text.
Proof.
  unfold hasRealData, grounded.
  destruct (analysisField residents ar) as [rs|].
  - rewrite existsb_exists. split.
    + intros (r & Hin & Hr). now exists rs, r.
    + intros (rs' & r & [= <-] & Hin & Hr). now exists r.
  - split; [discriminate|]. intros (rs & r & E & _). discriminate.
Qed.

Lemma levelIs_Some llm level :
  levelIs (Some llm) level = true <-> quality_level llm = Some (js level).
Proof.
  unfold levelIs. destruct (quality_level llm) as [v|].
  - rewrite jseqb_eq. split; congruence.
  - split; discriminate.
Qed.

Lemma goodQuality_levelIs llm :
  goodQuality llm <->
  levelIs (Some llm) "excellent" || levelIs (Some llm) "good" = true.
Proof.
  unfold goodQuality. rewrite orb_true_iff, !levelIs_Some. reflexivity.
Qed.

(** [a.length > b.length * 1.5], in whole numbers. *)
Lemma longerThanOneAndAHalf_spec a b :
  longerThanOneAndAHalf a b = true
  <-> (3 * List.length b < 2 * List.length a)%nat.
Proof.
  unfold longerThanOneAndAHalf. rewrite negb_true_iff.
  destruct (Qle_bool _ _) eqn:E.
  - apply Qle_bool_iff in E. unfold Qle in E. simpl in E. split; [discriminate|]. lia.
  - split; [intros _|reflexivity].
    assert (N : ~ Qle_bool (inject_Z (Z.of_nat (List.length a)))
                           (inject_Z (Z.of_nat (List.length b)) * 1.5)%Q = true)
      by congruence.
    rewrite Qle_bool_iff in N. unfold Qle in N. simpl in N. lia.
Qed.

Lemma tag_enhanced : jseqb (js "llm-enhanced") (js "llm-enhanced") = true.
Proof. vm_compute; reflexivity. Qed.

Lemma tag_focused : jseqb (js "focused_search") (js "llm-enhanced") = false.
Proof. vm_compute; reflexivity. Qed.

Lemma tag_data_driven : jseqb (js "data-driven") (js "llm-enhanced") = false.
Proof. vm_compute; reflexivity. Qed.

Lemma arbitrate_marker qa ar llm :
  isNameSearch qa = true -> hasNameSearchMarker ar = true ->
  arbitrate qa ar llm = (analysisField summary ar, js "focused_search").
Proof. intros Hn Hm. unfold arbitrate. now rewrite Hn, Hm. Qed.

Lemma arbitrate_name_search qa ar llm :
  isNameSearch qa = true -> hasNameSearchMarker ar = false -> goodQuality llm ->
  arbitrate qa ar (Some llm) =
  if hasRealData ar (response llm) && (List.length (response llm) <? 500)%nat
  then (Some (response llm), js "llm-enhanced")
  else (Some (deterministicText ar), js "focused_search").
Proof.
  intros Hn Hm Hq. apply goodQuality_levelIs in Hq.
  unfold arbitrate. rewrite Hn, Hm, Hq. simpl.
  destruct (hasRealData ar (response llm) && _); [reflexivity|].
  unfold deterministicText, or_default.
  destruct (analysisField summary ar) as [s|]; [|reflexivity].
  destruct (truthy s); reflexivity.
Qed.

Lemma arbitrate_general qa ar llm :
  isNameSearch qa = false -> goodQuality llm ->
  arbitrate qa ar (Some llm) =
  if hasRealData ar (response llm)
     || longerThanOneAndAHalf (response llm) (deterministicText ar)
  then (Some (response llm), js "llm-enhanced")
  else (Some (deterministicText ar), js "data-driven").
Proof.
  intros Hn Hq. apply goodQuality_levelIs in Hq.
  unfold arbitrate. rewrite Hn, Hq. reflexivity.
Qed.

Lemma constructFinalResponse_arbitrate query qa ctx ar llm :
  f_response (constructFinalResponse query qa ctx ar llm) = fst (arbitrate qa ar llm)
  /\ f_llmEnhanced (constructFinalResponse query qa ctx ar llm)
     = jseqb (snd (arbitrate qa ar llm)) (js "llm-enhanced").
Proof.
  unfold constructFinalResponse. now destruct (arbitrate qa ar llm).
Qed.

Lemma name_search_choice query qa ctx ar llm :
  isNameSearch qa = true -> hasNameSearchMarker ar = false -> goodQuality llm ->
  let f := constructFinalResponse query qa ctx ar (Some llm) in
  let chosen := hasRealData ar (response llm)
                && (List.length (response llm) <? 500)%nat in
  f_response f = Some (if chosen then response llm else deterministicText ar)
  /\ f_llmEnhanced f = chosen.
Proof.
  intros Hn Hm Hq f chosen.
  destruct (constructFinalResponse_arbitrate query qa ctx ar (Some llm)) as [Er Ee].
  fold f in Er, Ee. rewrite Er, Ee, (arbitrate_name_search _ _ _ Hn Hm Hq).
  fold chosen. destruct chosen; cbn [fst snd];
    rewrite ?tag_enhanced, ?tag_focused; auto.
Qed.

Lemma general_choice query qa ctx ar llm :
  isNameSearch qa = false -> goodQuality llm ->
  let f := constructFinalResponse query qa ctx ar (Some llm) in
  let chosen := hasRealData ar (response llm)
                || longerThanOneAndAHalf (response llm) (deterministicText ar) in
  f_response f = Some (if chosen then response llm else deterministicText ar)
  /\ f_llmEnhanced f = chosen.
Proof.
  intros Hn Hq f chosen.
  destruct (constructFinalResponse_arbitrate query qa ctx ar (Some llm)) as [Er Ee].
  fold f in Er, Ee. rewrite Er, Ee, (arbitrate_general _ _ _ Hn Hq).
  fold chosen. destruct chosen; cbn [fst snd];
    rewrite ?tag_enhanced, ?tag_data_driven; auto.
Qed.

(** C1.  On a name search whose LLM candidate has quality [excellent] or
    [good] and whose deterministic candidate has no [name_search_result]
    marker, the LLM text is chosen exactly when it names a resident of the
    deterministic candidate and is shorter than 500 units; otherwise the
    deterministic text is returned, in particular for a grounded LLM text of
    600 units.  With the marker the deterministic text, [analysis.summary],
    is returned whatever the LLM candidate is. *)
Theorem name_search_arbitration query qa ctx ar :
  isNameSearch qa = true ->
  (forall llm,
      goodQuality llm -> hasNameSearchMarker ar = false ->
      let f := constructFinalResponse query qa ctx ar (Some llm) in
      (f_llmEnhanced f = true <->
       grounded ar (response llm) /\ (List.length (response llm) < 500)%nat)
      /\ (f_llmEnhanced f = true -> f_response f = Some (response llm))
      /\ (f_llmEnhanced f = false -> f_response f = Some (deterministicText ar))
      /\ (f_response f = Some (response llm) ->
          (grounded ar (response llm) /\ (List.length (response llm) < 500)%nat)
          \/ response llm = deterministicText ar)
      /\ (grounded ar (response llm) -> List.length (response llm) = 600%nat ->
          f_response f = Some (deterministicText ar) /\ f_llmEnhanced f = false))
  /\ (forall llm,
         hasNameSearchMarker ar = true ->
         let f := constructFinalResponse query qa ctx ar llm in
         f_response f = analysisField summary ar /\ f_llmEnhanced f = false).
Proof.
  intros Hn. split.
  - intros llm Hq Hm f.
    destruct (name_search_choice query qa ctx ar llm Hn Hm Hq) as [Er Ee].
    fold f in Er, Ee. rewrite Er, Ee.
    assert (Hiff : hasRealData ar (response llm)
                   && (List.length (response llm) <? 500)%nat = true
                   <-> grounded ar (response llm)
                       /\ (List.length (response llm) < 500)%nat).
    { rewrite andb_true_iff, hasRealData_grounded, Nat.ltb_lt. reflexivity. }
    destruct (hasRealData ar (response llm)
              && (List.length (response llm) <? 500)%nat).
    + split; [exact Hiff|]. split; [reflexivity|]. split; [discriminate|].
      split; [intros _; left; now apply Hiff|].
      intros _ E. destruct (proj1 Hiff eq_refl) as [_ Hlt]. lia.
    + split; [exact Hiff|]. split; [discriminate|]. split; [reflexivity|].
      split; [intros [= E]; now right|]. auto.
  - intros llm Hm f.
    destruct (constructFinalResponse_arbitrate query qa ctx ar llm) as [Er Ee].
    fold f in Er, Ee. rewrite Er, Ee, (arbitrate_marker _ _ _ Hn Hm).
    cbn [fst snd]. rewrite tag_focused. auto.
Qed.

(** C2, as the code has it.  On a query that is not a name search and whose
    LLM candidate has quality [excellent] or [good], the LLM text is chosen
    exactly when it names a resident of the deterministic candidate or is
    strictly longer than 1.5 times the deterministic text; otherwise, and so
    when the lengths are exactly in the ratio 1.5, the deterministic text is
    returned. *)
Theorem general_query_arbitration query qa ctx ar llm :
  isNameSearch qa = false -> goodQuality llm ->
  let f := constructFinalResponse query qa ctx ar (Some llm) in
  (f_llmEnhanced f = true <->
   grounded ar (response llm)
   \/ (3 * List.length (deterministicText ar) < 2 * List.length (response llm))%nat)
  /\ (f_llmEnhanced f = true -> f_response f = Some (response llm))
  /\ (f_llmEnhanced f = false -> f_response f = Some (deterministicText ar))
  /\ (~ grounded ar (response llm) ->
      (2 * List.length (response llm) = 3 * List.length (deterministicText ar))%nat ->
      f_response f = Some (deterministicText ar) /\ f_llmEnhanced f = false).
Proof.
  intros Hn Hq f.
  destruct (general_choice query qa ctx ar llm Hn Hq) as [Er Ee].
  fold f in Er, Ee. rewrite Er, Ee.
  assert (Hiff : hasRealData ar (response llm)
                 || longerThanOneAndAHalf (response llm) (deterministicText ar) = true
                 <-> grounded ar (response llm)
                     \/ (3 * List.length (deterministicText ar)
                         < 2 * List.length (response llm))%nat).
  { rewrite orb_true_iff, hasRealData_grounded, longerThanOneAndAHalf_spec.
    reflexivity. }
  destruct (hasRealData ar (response llm)
            || longerThanOneAndAHalf (response llm) (deterministicText ar)).
  - split; [exact Hiff|]. split; [reflexivity|]. split; [discriminate|].
    intros Hng E. destruct (proj1 Hiff eq_refl) as [Hg|Hlt]; [contradiction|lia].
  - split; [exact Hiff|]. split; [discriminate|]. split; [reflexivity|]. auto.
Qed.

End Arbitration.

(** The witness of C1: a grounded LLM text of 600 units loses to the
    deterministic text. *)
Lemma name_search_arbitration_witness :
  let ar := agentSaying "Encontrado: Maria Souza, Centro." [residentNamed "Maria Souza"] in
  let llm := {| response := verboseText; quality_level := Some (js "excellent") |} in
  let f := Orchestrator.constructFinalResponse (js "Encontre Maria Souza")
             (analysisWith ["name_search"]) emptyContext ar (Some llm) in
  List.length verboseText = 600%nat
  /\ Orchestrator.hasRealData ar verboseText = true
  /\ Orchestrator.deterministicText ar = js "Encontrado: Maria Souza, Centro."
  /\ Orchestrator.f_response f = Some (Orchestrator.deterministicText ar)
  /\ Orchestrator.f_llmEnhanced f = false.
Proof.
  intros ar llm f.
  split; [vm_compute; reflexivity|]. split; [vm_compute; reflexivity|].
  split; [vm_compute; reflexivity|].
  assert (Hn : Orchestrator.isNameSearch (analysisWith ["name_search"]) = true)
    by (vm_compute; reflexivity).
  assert (Hm : Orchestrator.hasNameSearchMarker ar = false) by (vm_compute; reflexivity).
  assert (Hg : grounded ar (response llm))
    by (apply hasRealData_grounded; vm_compute; reflexivity).
  assert (Hl : List.length (response llm) = 600%nat) by (vm_compute; reflexivity).
  exact (proj2 (proj2 (proj2 (proj2
           (proj1 (name_search_arbitration (js "Encontre Maria Souza")
                     (analysisWith ["name_search"]) emptyContext ar Hn)
                  llm (or_introl eq_refl) Hm)))) Hg Hl).
Defined.

(** The witness of C2: an ungrounded LLM text one unit longer than 1.5 times
    the deterministic text is chosen. *)
Lemma general_query_arbitration_witness :
  let ar := agentSaying "Sem dados." [] in
  let llm := {| response := js "Nada encontrado!"; quality_level := Some (js "good") |} in
  let f := Orchestrator.constructFinalResponse (js "Como vai a cidade?")
             (analysisWith []) emptyContext ar (Some llm) in
  Orchestrator.f_llmEnhanced f = true
  /\ Orchestrator.f_response f = Some (response llm).
Proof.
  intros ar llm f.
  assert (Hn : Orchestrator.isNameSearch (analysisWith []) = false)
    by (vm_compute; reflexivity).
  assert (Hlen : (3 * List.length (Orchestrator.deterministicText ar)
                  < 2 * List.length (response llm))%nat)
    by (vm_compute; repeat constructor).
  pose proof (general_query_arbitration (js "Como vai a cidade?")
                (analysisWith []) emptyContext ar llm Hn (or_intror eq_refl))
    as (Hiff & Hyes & _).
  assert (He : Orchestrator.f_llmEnhanced f = true)
    by (apply Hiff; right; exact Hlen).
  split; [exact He | exact (Hyes He)].
Defined.

(** The counterexample of C2 as stated: lengths 15 and 10 are exactly in the
    ratio 1.5 and the LLM text names no resident; "at least 1.5 times" would
    choose the LLM text, and the deterministic text is returned. *)
Lemma general_query_boundary_counterexample :
  let ar := agentSaying "Sem dados." [] in
  let llm := {| response := js "Nada encontrado"; quality_level := Some (js "good") |} in
  let f := Orchestrator.constructFinalResponse (js "Como vai a cidade?")
             (analysisWith []) emptyContext ar (Some llm) in
  (2 * List.length (response llm)
   >= 3 * List.length (Orchestrator.deterministicText ar))%nat
  /\ Orchestrator.hasRealData ar (response llm) = false
  /\ Orchestrator.f_response f = Some (js "Sem dados.")
  /\ Orchestrator.f_response f <> Some (response llm)
  /\ Orchestrator.f_llmEnhanced f = false.
Proof.
  intros ar llm f.
  assert (Er : Orchestrator.f_response f = Some (js "Sem dados."))
    by (vm_compute; reflexivity).
  split; [vm_compute; repeat constructor|].
  split; [vm_compute; reflexivity|].
  split; [exact Er|].
  split; [rewrite Er; vm_compute; discriminate | vm_compute; reflexivity].
Qed.

(* ================================================================== *)
(** * The orchestrator: the confidence score *)
(* ================================================================== *)

Section Confidence.
Import Orchestrator.

(** The six values the score takes.  The sum of 0.7 and 0.1 is the binary64
    number just below 0.8. *)
Lemma calculateConfidence_values ar llm :
  calculateConfidence ar llm =
  match hasResidents ar, qualityRank llm with
  | false, 0 => 0.7
  | false, 1 => 0.75
  | false, _ => 0.7999999999999999
  | true, 0 => 0.85
  | true, 1 => 0.9
  | true, _ => 0.95
  end%float.
Proof.
  unfold calculateConfidence, qualityRank, hasResidents.
  destruct (0 <? _)%nat; destruct (levelIs llm "excellent");
    destruct (levelIs llm "good"); vm_compute; reflexivity.
Qed.

(** C3.  [calculateConfidence] is the capped sum of the specification; it
    never exceeds 0.95; and it does not decrease when the agent result gains
    residents and the LLM quality does not drop in the order
    other < good < excellent. *)
Theorem calculateConfidence_monotone_capped ar llm :
  calculateConfidence ar llm = confidenceFormula ar llm
  /\ (calculateConfidence ar llm <=? 0.95)%float = true
  /\ (forall ar' llm',
         (hasResidents ar = true -> hasResidents ar' = true) ->
         qualityRank llm <= qualityRank llm' ->
         (calculateConfidence ar llm <=? calculateConfidence ar' llm')%float = true).
Proof.
  split; [|split].
  - unfold calculateConfidence, confidenceFormula, residentBonus, qualityBonus,
      hasResidents.
    destruct (0 <? _)%nat; destruct (levelIs llm "excellent");
      destruct (levelIs llm "good"); vm_compute; reflexivity.
  - rewrite calculateConfidence_values.
    destruct (hasResidents ar); destruct (qualityRank llm) as [|[|?]];
      vm_compute; reflexivity.
  - intros ar' llm' Hres Hrank. rewrite !calculateConfidence_values.
    assert (Hq : qualityRank llm <= 2 /\ qualityRank llm' <= 2).
    { unfold qualityRank.
      destruct (levelIs llm "excellent"), (levelIs llm "good"),
        (levelIs llm' "excellent"), (levelIs llm' "good"); lia. }
    destruct (hasResidents ar); [rewrite (Hres eq_refl)|destruct (hasResidents ar')];
      destruct (qualityRank llm) as [|[|[|?]]];
      destruct (qualityRank llm') as [|[|[|?]]];
      try lia; vm_compute; reflexivity.
Qed.

End Confidence.

(** The witness of C3: one more resident and a quality raised from good to
    excellent lift the score from 0.75 to 0.95. *)
Lemma calculateConfidence_monotone_capped_witness :
  let before := agentSaying "Sem dados." [] in
  let after := agentSaying "Encontrado: Maria Souza, Centro." [residentNamed "Maria Souza"] in
  let good := Some {| response := js "ok"; quality_level := Some (js "good") |} in
  let excellent := Some {| response := js "ok"; quality_level := Some (js "excellent") |} in
  (Orchestrator.calculateConfidence before good
   <=? Orchestrator.calculateConfidence after excellent)%float = true.
Proof.
  intros before after good excellent.
  apply (proj2 (proj2 (calculateConfidence_monotone_capped before good))).
  - intros _. vm_compute. reflexivity.
  - vm_compute. repeat constructor.
Defined.

(* ================================================================== *)
(** * Binary64 numbers: order and rounding *)
(* ================================================================== *)

Open Scope Q_scope.

Lemma Qlt_bool_iff (x y : Q) : Qlt_bool x y = true <-> x < y.
Proof.
  unfold Qlt_bool. rewrite negb_true_iff. split.
  - intros E. apply Qnot_le_lt. intros L. apply Qle_bool_iff in L. congruence.
  - intros L. destruct (Qle_bool y x) eqn:E; [|reflexivity].
    apply Qle_bool_iff in E. now apply Qlt_not_le in L.
Qed.

Lemma Qlt_bool_false_iff (x y : Q) : Qlt_bool x y = false <-> y <= x.
Proof.
  unfold Qlt_bool. rewrite negb_false_iff. apply Qle_bool_iff.
Qed.

#[local] Instance Qlt_bool_comp : Proper (Qeq ==> Qeq ==> eq) Qlt_bool.
Proof. intros x x' Ex y y' Ey. unfold Qlt_bool. now rewrite Ex, Ey. Qed.

Lemma Qle_bool_false_iff (x y : Q) : Qle_bool x y = false <-> y < x.
Proof.
  split.
  - intros E. apply Qnot_le_lt. intros L. apply Qle_bool_iff in L. congruence.
  - intros L. destruct (Qle_bool x y) eqn:E; [|reflexivity].
    apply Qle_bool_iff in E. now apply Qlt_not_le in L.
Qed.

Lemma Qeq_bool_false_iff (x y : Q) : Qeq_bool x y = false <-> ~ x == y.
Proof.
  split.
  - intros E L. apply Qeq_bool_iff in L. congruence.
  - intros L. destruct (Qeq_bool x y) eqn:E; [|reflexivity].
    apply Qeq_bool_iff in E. contradiction.
Qed.

(* ------------------------------------------------------------------ *)
(** ** Powers of two *)
(* ------------------------------------------------------------------ *)

Lemma pow2_pos e : 0 < pow2 e.
Proof. apply Qpower_0_lt. reflexivity. Qed.

Lemma pow2_add a b : pow2 (a + b) == pow2 a * pow2 b.
Proof. apply Qpower_plus. discriminate. Qed.

Lemma pow2_le a b : (a <= b)%Z -> pow2 a <= pow2 b.
Proof. intros L. apply Qpower_le_compat_l; [assumption|discriminate]. Qed.

Lemma pow2_lt a b : (a < b)%Z -> pow2 a < pow2 b.
Proof. intros L. apply Qpower_lt_compat_l; [assumption|reflexivity]. Qed.

Lemma pow2_Z n : (0 <= n)%Z -> pow2 n == inject_Z (2 ^ n).
Proof. intros Hn. unfold pow2. now rewrite Zpower_Qpower. Qed.

Lemma pow2_succ a : pow2 (a + 1) == 2 * pow2 a.
Proof. rewrite pow2_add. change (pow2 1) with 2. ring. Qed.

Lemma pow2_pred a : pow2 (a - 1) == pow2 a / 2.
Proof.
  replace a with ((a - 1) + 1)%Z at 2 by lia. rewrite pow2_succ. field.
Qed.

Lemma pow2_lt_inv a b : pow2 a < pow2 b -> (a < b)%Z.
Proof.
  intros L. destruct (Z.lt_ge_cases a b) as [C|C]; [assumption|].
  apply pow2_le in C. exfalso. apply (Qlt_irrefl (pow2 a)).
  now apply Qlt_le_trans with (pow2 b).
Qed.

(* ------------------------------------------------------------------ *)
(** ** The binary logarithm *)
(* ------------------------------------------------------------------ *)

Lemma floorLog2_spec x :
  0 < x -> pow2 (floorLog2 x) <= x /\ x < pow2 (floorLog2 x + 1).
Proof.
  intros Hx. unfold floorLog2.
  destruct x as [p q]. cbn [Qnum Qden].
  assert (Hp : (0 < p)%Z) by (unfold Qlt in Hx; cbn in Hx; lia).
  destruct (Z.log2_spec p Hp) as [Pa Pb].
  destruct (Z.log2_spec (Zpos q) (Pos2Z.is_pos q)) as [Qa Qb].
  set (a := Z.log2 p) in *. set (b := Z.log2 (Zpos q)) in *.
  assert (Ha : (0 <= a)%Z) by apply Z.log2_nonneg.
  assert (Hb : (0 <= b)%Z) by apply Z.log2_nonneg.
  assert (Eq : p # q == inject_Z p / inject_Z (Zpos q)) by apply Qmake_Qdiv.
  assert (Hq : 0 < inject_Z (Zpos q)) by reflexivity.
  (* the two outer bounds *)
  assert (Lo : pow2 (a - b - 1) <= p # q).
  { rewrite Eq. apply Qle_shift_div_l; [assumption|].
    apply Qle_trans with (pow2 (a - b - 1) * pow2 (b + 1)).
    - apply Qmult_le_l; [apply pow2_pos|].
      rewrite pow2_Z by lia. rewrite <- Zle_Qle. lia.
    - rewrite <- pow2_add. replace (a - b - 1 + (b + 1))%Z with a by lia.
      rewrite pow2_Z by lia. rewrite <- Zle_Qle. lia. }
  assert (Hi : p # q < pow2 (a - b + 1)).
  { rewrite Eq. apply Qlt_shift_div_r; [assumption|].
    apply Qlt_le_trans with (pow2 (a - b + 1) * pow2 b).
    - rewrite <- pow2_add. replace (a - b + 1 + b)%Z with (a + 1)%Z by lia.
      rewrite pow2_Z by lia. rewrite <- Zlt_Qlt. lia.
    - apply Qmult_le_l; [apply pow2_pos|].
      rewrite pow2_Z by lia. rewrite <- Zle_Qle. lia. }
  destruct (Qle_bool (pow2 (a - b)) (p # q)) eqn:E.
  - apply Qle_bool_iff in E. split; assumption.
  - apply Qle_bool_false_iff in E. split; [assumption|].
    replace (a - b - 1 + 1)%Z with (a - b)%Z by lia. assumption.
Qed.

Lemma floorLog2_unique x e :
  pow2 e <= x -> x < pow2 (e + 1) -> floorLog2 x = e.
Proof.
  intros Lo Hi.
  assert (Hx : 0 < x) by (apply Qlt_le_trans with (pow2 e); [apply pow2_pos|assumption]).
  destruct (floorLog2_spec x Hx) as [Lo' Hi'].
  assert (A : (floorLog2 x < e + 1)%Z).
  { apply pow2_lt_inv. now apply Qle_lt_trans with x. }
  assert (B : (e < floorLog2 x + 1)%Z).
  { apply pow2_lt_inv. now apply Qle_lt_trans with x. }
  lia.
Qed.

Lemma floorLog2_comp x y : 0 < x -> x == y -> floorLog2 x = floorLog2 y.
Proof.
  intros Hx E. destruct (floorLog2_spec x Hx) as [Lo Hi].
  symmetry. apply floorLog2_unique; now rewrite <- E.
Qed.

Lemma floorLog2_mono x y : 0 < x -> x <= y -> (floorLog2 x <= floorLog2 y)%Z.
Proof.
  intros Hx L.
  assert (Hy : 0 < y) by now apply Qlt_le_trans with x.
  destruct (floorLog2_spec x Hx) as [Lo _].
  destruct (floorLog2_spec y Hy) as [_ Hi].
  assert (A : (floorLog2 x < floorLog2 y + 1)%Z).
  { apply pow2_lt_inv. apply Qle_lt_trans with x; [assumption|].
    now apply Qle_lt_trans with y. }
  lia.
Qed.

(* ------------------------------------------------------------------ *)
(** ** Rounding to the nearest integer *)
(* ------------------------------------------------------------------ *)

Lemma roundHalfEven_cases y :
  let f := Qfloor y in
  (roundHalfEven y = f /\ y - inject_Z f <= 1 # 2)
  \/ (roundHalfEven y = (f + 1)%Z /\ (1 # 2) <= y - inject_Z f).
Proof.
  cbv zeta. unfold roundHalfEven.
  destruct (Qcompare (y - inject_Z (Qfloor y)) (1 # 2)) eqn:C.
  - apply Qeq_alt in C. destruct (Z.even (Qfloor y)); [left|right];
      (split; [reflexivity|rewrite C; apply Qle_refl]).
  - apply Qlt_alt in C. left. split; [reflexivity|now apply Qlt_le_weak].
  - apply Qgt_alt in C. right. split; [reflexivity|now apply Qlt_le_weak].
Qed.

Lemma Qfloor_bounds y : inject_Z (Qfloor y) <= y /\ y < inject_Z (Qfloor y) + 1.
Proof.
  split; [apply Qfloor_le|].
  pose proof (Qlt_floor y) as L. rewrite inject_Z_plus in L. exact L.
Qed.

(** The rounded value is within a half of the number. *)
Lemma roundHalfEven_near y :
  y - (1 # 2) <= inject_Z (roundHalfEven y) /\ inject_Z (roundHalfEven y) <= y + (1 # 2).
Proof.
  destruct (Qfloor_bounds y) as [Lo Hi].
  destruct (roundHalfEven_cases y) as [[-> L]|[-> L]].
  - split; lra.
  - rewrite inject_Z_plus. change (inject_Z 1) with 1. split; lra.
Qed.

Lemma roundHalfEven_comp x y : x == y -> roundHalfEven x = roundHalfEven y.
Proof.
  intros E. unfold roundHalfEven.
  assert (F : Qfloor x = Qfloor y) by now apply Qfloor_comp.
  rewrite F.
  assert (C : Qcompare (x - inject_Z (Qfloor y)) (1 # 2)
              = Qcompare (y - inject_Z (Qfloor y)) (1 # 2)) by now rewrite E.
  now rewrite C.
Qed.

Lemma roundHalfEven_Z z : roundHalfEven (inject_Z z) = z.
Proof.
  unfold roundHalfEven. rewrite Qfloor_Z.
  assert (C : Qcompare (inject_Z z - inject_Z z) (1 # 2) = Lt).
  { apply Qlt_alt. setoid_replace (inject_Z z - inject_Z z) with 0 by ring. reflexivity. }
  now rewrite C.
Qed.

Lemma roundHalfEven_mono x y : x <= y -> (roundHalfEven x <= roundHalfEven y)%Z.
Proof.
  intros L.
  pose proof (Qfloor_resp_le x y L) as F.
  destruct (Qfloor_bounds x) as [Lx Hx]. destruct (Qfloor_bounds y) as [Ly Hy].
  destruct (Z.eq_dec (Qfloor x) (Qfloor y)) as [E|N].
  - unfold roundHalfEven. rewrite E.
    destruct (Qcompare (x - inject_Z (Qfloor y)) (1 # 2)) eqn:Cx;
      destruct (Qcompare (y - inject_Z (Qfloor y)) (1 # 2)) eqn:Cy;
      try (destruct (Z.even (Qfloor y))); try lia; exfalso;
      repeat match goal with
             | H : Qcompare _ _ = Eq |- _ => apply Qeq_alt in H
             | H : Qcompare _ _ = Lt |- _ => apply Qlt_alt in H
             | H : Qcompare _ _ = Gt |- _ => apply Qgt_alt in H
             end; lra.
  - assert (S : (Qfloor x + 1 <= Qfloor y)%Z) by lia.
    destruct (roundHalfEven_cases x) as [[-> _]|[-> _]];
      destruct (roundHalfEven_cases y) as [[-> _]|[-> _]]; lia.
Qed.

Lemma roundHalfEven_nonneg y : 0 <= y -> (0 <= roundHalfEven y)%Z.
Proof.
  intros Hy. rewrite <- (roundHalfEven_Z 0). now apply roundHalfEven_mono.
Qed.

(* ------------------------------------------------------------------ *)
(** ** Rounding to the nearest binary64 number *)
(* ------------------------------------------------------------------ *)

Lemma Qabs_opp_eq x : Qabs (- x) = Qabs x.
Proof. destruct x as [p q]. unfold Qabs, Qopp. cbn. now rewrite Z.abs_opp. Qed.

Lemma nearest64_opp x : nearest64 (- x) = nearest64 x.
Proof. unfold nearest64, exponentOf. now rewrite Qabs_opp_eq. Qed.

Lemma exponentOf_comp x y : ~ x == 0 -> x == y -> exponentOf x = exponentOf y.
Proof.
  intros Hx E. unfold exponentOf. f_equal. f_equal.
  apply floorLog2_comp; [|now rewrite E].
  pose proof (Qabs_nonneg x) as H. apply Qle_lteq in H as [H|H]; [assumption|].
  exfalso. apply Hx. revert H. apply Qabs_case; intros; lra.
Qed.

Lemma nearest64_comp x y : ~ x == 0 -> x == y -> nearest64 x = nearest64 y.
Proof.
  intros Hx E. unfold nearest64. cbv zeta.
  rewrite (exponentOf_comp x y Hx E).
  f_equal. f_equal. apply roundHalfEven_comp. now rewrite E.
Qed.

(** The rounding of a positive number, with its exponent. *)
Lemma nearest64_pos x :
  0 < x ->
  let e := Z.max (floorLog2 x - 52) (-1074) in
  nearest64 x = inject_Z (roundHalfEven (x / pow2 e)) * pow2 e.
Proof.
  intros Hx. cbv zeta. unfold nearest64, exponentOf. cbv zeta.
  assert (Ea : Qabs x == x) by (apply Qabs_pos; now apply Qlt_le_weak).
  assert (El : floorLog2 (Qabs x) = floorLog2 x).
  { apply floorLog2_comp; [now rewrite Ea|assumption]. }
  rewrite El. f_equal. f_equal. apply roundHalfEven_comp. now rewrite Ea.
Qed.

Lemma nearest64_nonneg x : 0 <= nearest64 x.
Proof.
  unfold nearest64. cbv zeta. apply Qmult_le_0_compat.
  - change 0 with (inject_Z 0). rewrite <- Zle_Qle. apply roundHalfEven_nonneg.
    apply Qle_shift_div_l; [apply pow2_pos|]. rewrite Qmult_0_l. apply Qabs_nonneg.
  - apply Qlt_le_weak, pow2_pos.
Qed.

Lemma scaled_le x y e : x <= y -> x / pow2 e <= y / pow2 e.
Proof.
  intros L. apply Qmult_le_compat_r; [assumption|].
  apply Qlt_le_weak, Qinv_lt_0_compat, pow2_pos.
Qed.

Lemma scaled_pow2 a e : pow2 a / pow2 e == pow2 (a - e).
Proof.
  replace a with ((a - e) + e)%Z at 1 by lia. rewrite pow2_add. field.
  intros E. pose proof (pow2_pos e) as P. rewrite E in P. now apply Qlt_irrefl in P.
Qed.

(** A positive number rounds to no more than the next power of two. *)
Lemma nearest64_below_next x :
  0 < x -> nearest64 x <= pow2 (floorLog2 x + 1).
Proof.
  intros Hx. rewrite (nearest64_pos x Hx). cbv zeta.
  destruct (floorLog2_spec x Hx) as [_ Hi].
  set (L := floorLog2 x) in *. set (e := Z.max (L - 52) (-1074)).
  assert (S : x / pow2 e <= pow2 (L + 1 - e)).
  { rewrite <- scaled_pow2. apply scaled_le. now apply Qlt_le_weak. }
  destruct (Z.le_gt_cases 0 (L + 1 - e)) as [K|K].
  - apply Qle_trans with (pow2 (L + 1 - e) * pow2 e).
    + apply Qmult_le_compat_r; [|apply Qlt_le_weak, pow2_pos].
      pose proof (pow2_Z (L + 1 - e) K) as P. rewrite P. rewrite <- Zle_Qle.
      rewrite <- (roundHalfEven_Z (2 ^ (L + 1 - e))).
      apply roundHalfEven_mono. now rewrite <- P.
    + rewrite <- pow2_add. replace (L + 1 - e + e)%Z with (L + 1)%Z by lia.
      apply Qle_refl.
  - assert (Z0 : (roundHalfEven (x / pow2 e) <= 0)%Z).
    { change 0%Z with (roundHalfEven (1 # 2)). apply roundHalfEven_mono.
      apply Qle_trans with (pow2 (L + 1 - e)); [assumption|].
      change (1 # 2) with (pow2 (-1)). apply pow2_le. lia. }
    apply Qle_trans with 0; [|apply Qlt_le_weak, pow2_pos].
    setoid_replace 0 with (0 * pow2 e) by ring.
    apply Qmult_le_compat_r; [|apply Qlt_le_weak, pow2_pos].
    change 0 with (inject_Z 0). now rewrite <- Zle_Qle.
Qed.

(** A number in the normal range rounds to no less than the power of two
    below it. *)
Lemma nearest64_above_prev x :
  0 < x -> (-1022 <= floorLog2 x)%Z -> pow2 (floorLog2 x) <= nearest64 x.
Proof.
  intros Hx Hn. rewrite (nearest64_pos x Hx). cbv zeta.
  destruct (floorLog2_spec x Hx) as [Lo _].
  set (L := floorLog2 x) in *.
  replace (Z.max (L - 52) (-1074)) with (L - 52)%Z by lia.
  apply Qle_trans with (pow2 52 * pow2 (L - 52)).
  - rewrite <- pow2_add. replace (52 + (L - 52))%Z with L by lia. apply Qle_refl.
  - apply Qmult_le_compat_r; [|apply Qlt_le_weak, pow2_pos].
    change (pow2 52) with (inject_Z (2 ^ 52)). rewrite <- Zle_Qle.
    rewrite <- (roundHalfEven_Z (2 ^ 52)). apply roundHalfEven_mono.
    change (inject_Z (2 ^ 52)) with (pow2 52).
    setoid_replace (pow2 52) with (pow2 L / pow2 (L - 52)).
    + now apply scaled_le.
    + rewrite scaled_pow2. replace (L - (L - 52))%Z with 52%Z by lia. reflexivity.
Qed.

(** Rounding keeps the order. *)
Lemma nearest64_mono x y : 0 < x -> x <= y -> nearest64 x <= nearest64 y.
Proof.
  intros Hx L.
  assert (Hy : 0 < y) by now apply Qlt_le_trans with x.
  pose proof (floorLog2_mono x y Hx L) as M.
  destruct (Z.eq_dec (Z.max (floorLog2 x - 52) (-1074)) (Z.max (floorLog2 y - 52) (-1074)))
    as [E|N].
  - rewrite (nearest64_pos x Hx), (nearest64_pos y Hy). cbv zeta. rewrite E.
    apply Qmult_le_compat_r; [|apply Qlt_le_weak, pow2_pos].
    rewrite <- Zle_Qle. apply roundHalfEven_mono. now apply scaled_le.
  - apply Qle_trans with (pow2 (floorLog2 x + 1)); [now apply nearest64_below_next|].
    apply Qle_trans with (pow2 (floorLog2 y)).
    + apply pow2_le. lia.
    + apply nearest64_above_prev; [assumption|lia].
Qed.

(** In the normal range the rounding error is at most [2^-53] of the
    number. *)
Lemma nearest64_error x :
  pow2 (-1022) <= x ->
  x - x * pow2 (-53) <= nearest64 x /\ nearest64 x <= x + x * pow2 (-53).
Proof.
  intros Hn.
  assert (Hx : 0 < x) by (apply Qlt_le_trans with (pow2 (-1022)); [apply pow2_pos|assumption]).
  assert (HL : (-1022 <= floorLog2 x)%Z).
  { destruct (floorLog2_spec x Hx) as [_ Hi].
    assert (A : (-1022 < floorLog2 x + 1)%Z)
      by (apply pow2_lt_inv; now apply Qle_lt_trans with x).
    lia. }
  rewrite (nearest64_pos x Hx). cbv zeta.
  destruct (floorLog2_spec x Hx) as [Lo _].
  set (L := floorLog2 x) in *.
  replace (Z.max (L - 52) (-1074)) with (L - 52)%Z by lia.
  set (e := (L - 52)%Z).
  destruct (roundHalfEven_near (x / pow2 e)) as [N1 N2].
  set (m := inject_Z (roundHalfEven (x / pow2 e))) in *.
  pose proof (pow2_pos e) as Pe.
  assert (Ex : x == (x / pow2 e) * pow2 e) by (field; lra).
  assert (Half : pow2 e * (1 # 2) <= x * pow2 (-53)).
  { apply Qle_trans with (pow2 L * pow2 (-53)).
    - rewrite <- pow2_add. replace (L + -53)%Z with (e - 1)%Z by (unfold e; lia).
      rewrite pow2_pred. unfold Qdiv. apply Qle_refl.
    - apply Qmult_le_compat_r; [assumption|apply Qlt_le_weak, pow2_pos]. }
  set (s := x / pow2 e) in *. clearbody m s.
  set (p := pow2 e) in *. set (t := x * pow2 (-53)) in *. clearbody p t.
  assert (A : (s - (1 # 2)) * p <= m * p) by (apply Qmult_le_compat_r; lra).
  assert (B : m * p <= (s + (1 # 2)) * p) by (apply Qmult_le_compat_r; lra).
  split.
  - apply Qle_trans with ((s - (1 # 2)) * p); [|assumption].
    rewrite Ex at 1. ring_simplify. lra.
  - apply Qle_trans with ((s + (1 # 2)) * p); [assumption|].
    rewrite Ex at 1. ring_simplify. lra.
Qed.

(** A number with a mantissa of 53 bits is its own rounding. *)
Lemma nearest64_exact x (m k : Z) :
  (0 < m < 2 ^ 53)%Z -> (-1074 <= k)%Z -> x == inject_Z m * pow2 k ->
  nearest64 x == x.
Proof.
  intros Hm Hk E.
  assert (Hx : 0 < x).
  { rewrite E. apply Qmult_lt_0_compat; [|apply pow2_pos].
    change 0 with (inject_Z 0). rewrite <- Zlt_Qlt. lia. }
  rewrite (nearest64_pos x Hx). cbv zeta.
  destruct (floorLog2_spec x Hx) as [Lo _].
  set (L := floorLog2 x) in *.
  assert (HL : (L < 53 + k)%Z).
  { apply pow2_lt_inv. apply Qle_lt_trans with x; [assumption|].
    rewrite E, pow2_add. apply Qmult_lt_compat_r; [apply pow2_pos|].
    rewrite pow2_Z by lia. rewrite <- Zlt_Qlt. lia. }
  set (e := Z.max (L - 52) (-1074)).
  assert (He : (0 <= k - e)%Z) by (unfold e; lia).
  assert (Es : x / pow2 e == inject_Z (m * 2 ^ (k - e))).
  { rewrite E, inject_Z_mult, <- pow2_Z by assumption.
    rewrite <- scaled_pow2. field.
    intros Z. pose proof (pow2_pos e) as P. rewrite Z in P. now apply Qlt_irrefl in P. }
  rewrite (roundHalfEven_comp _ _ Es), roundHalfEven_Z.
  rewrite E, inject_Z_mult, <- pow2_Z by assumption.
  rewrite <- Qmult_assoc, <- pow2_add. replace (k - e + e)%Z with k by lia.
  reflexivity.
Qed.

(* ------------------------------------------------------------------ *)
(** ** The order of the numbers *)
(* ------------------------------------------------------------------ *)

Lemma leb_Finite a b : leb (Finite a) (Finite b) = true <-> a <= b.
Proof. apply Qle_bool_iff. Qed.

Lemma ltb_Finite a b : ltb (Finite a) (Finite b) = true <-> a < b.
Proof. apply Qlt_bool_iff. Qed.

Ltac order_cases :=
  repeat match goal with
         | x : number |- _ => destruct x as [|[]|?]
         end;
  cbn [leb ltb andb orb negb] in *;
  try reflexivity; try discriminate;
  repeat match goal with
         | H : Qle_bool _ _ = true |- _ => apply Qle_bool_iff in H
         | H : Qle_bool _ _ = false |- _ => apply Qle_bool_false_iff in H
         | H : Qlt_bool _ _ = true |- _ => apply Qlt_bool_iff in H
         | H : Qlt_bool _ _ = false |- _ => apply Qlt_bool_false_iff in H
         end;
  try match goal with
      | |- Qle_bool _ _ = true => apply Qle_bool_iff
      | |- Qle_bool _ _ = false => apply Qle_bool_false_iff
      | |- Qlt_bool _ _ = true => apply Qlt_bool_iff
      | |- Qlt_bool _ _ = false => apply Qlt_bool_false_iff
      end;
  try lra.

Lemma leb_trans x y z : leb x y = true -> leb y z = true -> leb x z = true.
Proof. intros A B. order_cases. Qed.

Lemma ltb_leb_trans x y z : ltb x y = true -> leb y z = true -> ltb x z = true.
Proof. intros A B. order_cases. Qed.

Lemma leb_ltb_trans x y z : leb x y = true -> ltb y z = true -> ltb x z = true.
Proof. intros A B. order_cases. Qed.

Lemma ltb_weaken x y : ltb x y = true -> leb x y = true.
Proof. intros A. order_cases. Qed.

Lemma leb_not_ltb x y : leb x y = true -> ltb y x = false.
Proof. intros A. order_cases. Qed.

Lemma ltb_not_leb x y : ltb x y = true -> leb y x = false.
Proof. intros A. order_cases. Qed.

Lemma leb_refl x : x <> NaN -> leb x x = true.
Proof. intros N. destruct x as [|[]|q]; try reflexivity; [contradiction|]. order_cases. Qed.

(** Numbers that can be compared are not [NaN]. *)
Lemma leb_not_NaN x y : leb x y = true -> x <> NaN /\ y <> NaN.
Proof. intros A. destruct x, y; cbn in A; try discriminate; split; discriminate. Qed.

Lemma leb_opp x y : leb (opp x) (opp y) = leb y x.
Proof.
  destruct x as [|[]|a], y as [|[]|b]; cbn [opp leb negb orb]; try reflexivity.
  assert (E : Qle_bool (Qred (- a)) (Qred (- b)) = Qle_bool (- a) (- b))
    by now rewrite !Qred_correct.
  rewrite E. destruct (Qle_bool b a) eqn:C.
  - apply Qle_bool_iff in C. apply Qle_bool_iff. lra.
  - apply Qle_bool_false_iff in C. apply Qle_bool_false_iff. lra.
Qed.

(* ------------------------------------------------------------------ *)
(** ** [round64] *)
(* ------------------------------------------------------------------ *)

Lemma round64_comp x y : x == y -> round64 x = round64 y.
Proof.
  intros E. unfold round64.
  assert (E0 : Qeq_bool x 0 = Qeq_bool y 0) by now rewrite E.
  rewrite <- E0. destruct (Qeq_bool x 0) eqn:Z; [reflexivity|].
  apply Qeq_bool_false_iff in Z. cbv zeta.
  rewrite (nearest64_comp x y Z E).
  now rewrite (Qlt_bool_comp x y E 0 0 (Qeq_refl 0)).
Qed.

Lemma round64_pos x :
  0 < x ->
  round64 x = if Qle_bool (pow2 1024) (nearest64 x) then Infinity false
              else Finite (Qred (nearest64 x)).
Proof.
  intros Hx. unfold round64.
  assert (Z : Qeq_bool x 0 = false) by (apply Qeq_bool_false_iff; lra).
  assert (S : Qlt_bool x 0 = false) by (apply Qlt_bool_false_iff; lra).
  now rewrite Z, S.
Qed.

Lemma round64_opp x : round64 (- x) = opp (round64 x).
Proof.
  unfold round64.
  assert (E0 : Qeq_bool (- x) 0 = Qeq_bool x 0).
  { destruct (Qeq_bool x 0) eqn:Z.
    - apply Qeq_bool_iff in Z. apply Qeq_bool_iff. lra.
    - apply Qeq_bool_false_iff in Z. apply Qeq_bool_false_iff. lra. }
  rewrite E0. destruct (Qeq_bool x 0) eqn:Z; [reflexivity|].
  apply Qeq_bool_false_iff in Z. cbv zeta. rewrite nearest64_opp.
  assert (S : Qlt_bool (- x) 0 = negb (Qlt_bool x 0)).
  { destruct (Qlt_bool x 0) eqn:C.
    - apply Qlt_bool_iff in C. apply Qlt_bool_false_iff. lra.
    - apply Qlt_bool_false_iff in C. apply Qlt_bool_iff. lra. }
  rewrite S. destruct (Qle_bool (pow2 1024) (nearest64 x)); [reflexivity|].
  cbn [opp]. f_equal. apply Qred_complete.
  destruct (Qlt_bool x 0); cbn [negb]; rewrite Qred_correct; ring.
Qed.

Lemma round64_not_NaN x : round64 x <> NaN.
Proof.
  unfold round64. destruct (Qeq_bool x 0); [discriminate|]. cbv zeta.
  destruct (Qle_bool _ _); discriminate.
Qed.

Lemma round64_nonneg x : 0 <= x -> leb (Finite 0) (round64 x) = true.
Proof.
  intros Hx. unfold round64. destruct (Qeq_bool x 0) eqn:Z; [reflexivity|].
  cbv zeta. apply Qeq_bool_false_iff in Z.
  assert (S : Qlt_bool x 0 = false) by now apply Qlt_bool_false_iff.
  rewrite S. destruct (Qle_bool _ _); [reflexivity|].
  apply leb_Finite. rewrite Qred_correct. apply nearest64_nonneg.
Qed.

Lemma round64_nonpos x : x <= 0 -> leb (round64 x) (Finite 0) = true.
Proof.
  intros Hx.
  assert (E : round64 x = opp (round64 (- x))).
  { rewrite <- round64_opp. apply round64_comp. ring. }
  rewrite E. change (Finite 0) with (opp (Finite 0)). rewrite leb_opp.
  apply round64_nonneg. lra.
Qed.

Lemma round64_mono_pos x y :
  0 < x -> x <= y -> leb (round64 x) (round64 y) = true.
Proof.
  intros Hx L.
  assert (Hy : 0 < y) by lra.
  rewrite (round64_pos x Hx), (round64_pos y Hy).
  pose proof (nearest64_mono x y Hx L) as M.
  destruct (Qle_bool (pow2 1024) (nearest64 x)) eqn:Ox.
  - apply Qle_bool_iff in Ox.
    assert (Oy : Qle_bool (pow2 1024) (nearest64 y) = true) by (apply Qle_bool_iff; lra).
    now rewrite Oy.
  - destruct (Qle_bool (pow2 1024) (nearest64 y)); [reflexivity|].
    apply leb_Finite. now rewrite !Qred_correct.
Qed.

(** Rounding keeps the order. *)
Lemma round64_mono x y : x <= y -> leb (round64 x) (round64 y) = true.
Proof.
  intros L.
  destruct (Qlt_le_dec 0 x) as [Hx|Hx]; [now apply round64_mono_pos|].
  destruct (Qlt_le_dec y 0) as [Hy|Hy].
  - assert (Ex : round64 x = opp (round64 (- x))).
    { rewrite <- round64_opp. apply round64_comp. ring. }
    assert (Ey : round64 y = opp (round64 (- y))).
    { rewrite <- round64_opp. apply round64_comp. ring. }
    rewrite Ex, Ey, leb_opp. apply round64_mono_pos; lra.
  - apply leb_trans with (Finite 0); [now apply round64_nonpos|now apply round64_nonneg].
Qed.

(** A number with a mantissa of 53 bits below [2^1024] is a binary64
    number. *)
Lemma round64_exact x (m k : Z) :
  (0 < m < 2 ^ 53)%Z -> (-1074 <= k <= 971)%Z -> x == inject_Z m * pow2 k ->
  round64 x = Finite (Qred x).
Proof.
  intros Hm Hk E.
  assert (Hx : 0 < x).
  { rewrite E. apply Qmult_lt_0_compat; [|apply pow2_pos].
    change 0 with (inject_Z 0). rewrite <- Zlt_Qlt. lia. }
  assert (N : nearest64 x == x) by (apply (nearest64_exact x m k); [assumption|lia|assumption]).
  rewrite (round64_pos x Hx).
  assert (O : Qle_bool (pow2 1024) (nearest64 x) = false).
  { apply Qle_bool_false_iff. rewrite N, E.
    apply Qlt_le_trans with (pow2 53 * pow2 k).
    - apply Qmult_lt_compat_r; [apply pow2_pos|].
      change (pow2 53) with (inject_Z (2 ^ 53)). rewrite <- Zlt_Qlt. lia.
    - rewrite <- pow2_add. apply pow2_le. lia. }
  rewrite O. f_equal. now apply Qred_complete.
Qed.

(** Whole numbers up to [2^53] are binary64 numbers. *)
Lemma round64_whole (z : Z) :
  (Z.abs z <= 2 ^ 53)%Z -> round64 (inject_Z z) = Finite (inject_Z z).
Proof.
  assert (P : forall p : Z, (0 < p <= 2 ^ 53)%Z -> round64 (inject_Z p) = Finite (inject_Z p)).
  { intros p Hp.
    assert (R : Qred (inject_Z p) = inject_Z p).
    { unfold inject_Z, Qred. cbn [Qnum Qden].
      pose proof (Z.ggcd_gcd p 1) as G. rewrite Z.gcd_1_r in G.
      pose proof (Z.ggcd_correct_divisors p 1) as D.
      destruct (Z.ggcd p 1) as [g [a b]]. cbn in G. subst g.
      destruct D as [Da Db]. rewrite Z.mul_1_l in Da, Db. subst a b. reflexivity. }
    destruct (Z.eq_dec p (2 ^ 53)) as [->|Np].
    - rewrite (round64_exact (inject_Z (2 ^ 53)) 1 53); [now rewrite R|lia|lia|].
      reflexivity.
    - rewrite (round64_exact (inject_Z p) p 0); [now rewrite R|lia|lia|].
      change (pow2 0) with 1. ring. }
  intros Hz. destruct (Z.lt_trichotomy z 0) as [Neg|[->|Pos]].
  - assert (E : round64 (inject_Z z) = opp (round64 (inject_Z (- z)))).
    { rewrite <- round64_opp. apply round64_comp. rewrite inject_Z_opp. ring. }
    rewrite E, P by lia. cbn [opp]. f_equal.
    rewrite inject_Z_opp.
    transitivity (Qred (inject_Z z)); [apply Qred_complete; ring|].
    unfold inject_Z, Qred. cbn [Qnum Qden].
    pose proof (Z.ggcd_gcd z 1) as G. rewrite Z.gcd_1_r in G.
    pose proof (Z.ggcd_correct_divisors z 1) as D.
    destruct (Z.ggcd z 1) as [g [a b]]. cbn in G. subst g.
    destruct D as [Da Db]. rewrite Z.mul_1_l in Da, Db. subst a b. reflexivity.
  - reflexivity.
  - apply P. lia.
Qed.

(* ------------------------------------------------------------------ *)
(** ** The operations *)
(* ------------------------------------------------------------------ *)

Lemma leb_top x : x <> NaN -> leb x (Infinity false) = true.
Proof. destruct x as [|[]|q]; intros N; try reflexivity; contradiction. Qed.

Lemma leb_bot x : x <> NaN -> leb (Infinity true) x = true.
Proof. destruct x as [|[]|q]; intros N; try reflexivity; contradiction. Qed.

Lemma mul_Infinity_pos s c : 0 < c -> mul (Infinity s) (Finite c) = Infinity s.
Proof.
  intros Hc. cbn [mul].
  assert (Z : Qeq_bool c 0 = false) by (apply Qeq_bool_false_iff; lra).
  assert (S : Qlt_bool c 0 = false) by (apply Qlt_bool_false_iff; lra).
  rewrite Z, S. now destruct s.
Qed.

(** A product with a positive constant keeps the order. *)
Lemma mul_pos_mono c a b :
  0 < c -> leb a b = true -> leb (mul a (Finite c)) (mul b (Finite c)) = true.
Proof.
  intros Hc L. destruct a as [|s|x], b as [|s'|y]; try discriminate.
  - now rewrite !mul_Infinity_pos.
  - rewrite mul_Infinity_pos by assumption. destruct s; [|discriminate].
    apply leb_bot. cbn [mul]. apply round64_not_NaN.
  - rewrite mul_Infinity_pos by assumption. destruct s'; [discriminate|].
    apply leb_top. cbn [mul]. apply round64_not_NaN.
  - cbn [mul]. apply round64_mono. apply leb_Finite in L.
    apply Qmult_le_compat_r; lra.
Qed.

Lemma mul_not_NaN a c : a <> NaN -> 0 < c -> mul a (Finite c) <> NaN.
Proof.
  intros Ha Hc. destruct a as [|s|x]; [contradiction| |].
  - rewrite mul_Infinity_pos by assumption. discriminate.
  - cbn [mul]. apply round64_not_NaN.
Qed.

Lemma ofCount_nonneg n : 0 <= inject_Z (Z.of_N n).
Proof. change 0 with (inject_Z 0). rewrite <- Zle_Qle. lia. Qed.

Lemma ofCount_pos n : (0 < n)%N -> 0 < inject_Z (Z.of_N n).
Proof. intros Hn. change 0 with (inject_Z 0). rewrite <- Zlt_Qlt. lia. Qed.

(** The quotient of two counts. *)
Lemma div_counts a b :
  (0 < b)%N ->
  div (num a) (num b) = round64 (inject_Z (Z.of_N a) / inject_Z (Z.of_N b)).
Proof.
  intros Hb. unfold num. cbn [div].
  assert (Z : Qeq_bool (inject_Z (Z.of_N b)) 0 = false).
  { apply Qeq_bool_false_iff. pose proof (ofCount_pos b Hb). lra. }
  now rewrite Z.
Qed.

(** A quotient of counts, in percent, is not negative and not [NaN]. *)
Lemma percent_nonneg a b :
  (0 < b)%N -> leb (Finite 0) (mul (div (num a) (num b)) (Finite 100)) = true.
Proof.
  intros Hb. rewrite (div_counts a b Hb).
  change (Finite 0) with (mul (Finite 0) (Finite 100)).
  apply mul_pos_mono; [reflexivity|].
  apply round64_nonneg.
  apply Qle_shift_div_l; [now apply ofCount_pos|]. rewrite Qmult_0_l. apply ofCount_nonneg.
Qed.

(** More of the same whole gives no smaller a percentage. *)
Lemma percent_mono a a' b :
  (0 < b)%N -> (a <= a')%N ->
  leb (mul (div (num a) (num b)) (Finite 100)) (mul (div (num a') (num b)) (Finite 100)) = true.
Proof.
  intros Hb L. rewrite !(div_counts _ b Hb).
  apply mul_pos_mono; [reflexivity|]. apply round64_mono.
  apply Qmult_le_compat_r.
  - rewrite <- Zle_Qle. lia.
  - apply Qlt_le_weak, Qinv_lt_0_compat. now apply ofCount_pos.
Qed.

(** A percentage between two anchors. *)
Lemma percent_above a b (q : Q) :
  (0 < b)%N -> q <= inject_Z (Z.of_N a) / inject_Z (Z.of_N b) ->
  leb (mul (round64 q) (Finite 100)) (mul (div (num a) (num b)) (Finite 100)) = true.
Proof.
  intros Hb L. rewrite (div_counts a b Hb).
  apply mul_pos_mono; [reflexivity|]. now apply round64_mono.
Qed.

Lemma percent_below a b (q : Q) :
  (0 < b)%N -> inject_Z (Z.of_N a) / inject_Z (Z.of_N b) <= q ->
  leb (mul (div (num a) (num b)) (Finite 100)) (mul (round64 q) (Finite 100)) = true.
Proof.
  intros Hb L. rewrite (div_counts a b Hb).
  apply mul_pos_mono; [reflexivity|]. now apply round64_mono.
Qed.

(** The sum of two whole numbers below [2^53]. *)
Lemma add_whole (a b : Z) :
  (Z.abs (a + b) <= 2 ^ 53)%Z ->
  add (Finite (inject_Z a)) (Finite (inject_Z b)) = Finite (inject_Z (a + b)).
Proof.
  intros Hs. cbn [add]. rewrite <- (round64_whole (a + b) Hs).
  apply round64_comp. now rewrite inject_Z_plus.
Qed.


(** In the normal range the rounded value is a finite number within
    [2^-53] of the exact one. *)
Lemma round64_error x :
  pow2 (-1022) <= x -> x <= pow2 1023 ->
  exists v, round64 x = Finite v
            /\ x - x * pow2 (-53) <= v /\ v <= x + x * pow2 (-53).
Proof.
  intros Lo Hi.
  assert (Hx : 0 < x) by (apply Qlt_le_trans with (pow2 (-1022)); [apply pow2_pos|assumption]).
  destruct (nearest64_error x Lo) as [E1 E2].
  rewrite (round64_pos x Hx).
  assert (O : Qle_bool (pow2 1024) (nearest64 x) = false).
  { apply Qle_bool_false_iff.
    apply Qle_lt_trans with (x + x * pow2 (-53)); [assumption|].
    apply Qle_lt_trans with (pow2 1023 + pow2 1023 * pow2 (-53)).
    - apply Qplus_le_compat; [assumption|].
      apply Qmult_le_compat_r; [assumption|apply Qlt_le_weak, pow2_pos].
    - vm_compute. reflexivity. }
  rewrite O. exists (Qred (nearest64 x)). split; [reflexivity|].
  now rewrite Qred_correct.
Qed.

(* ================================================================== *)
(** * The analysis engine: quotients of counts *)
(* ================================================================== *)

(** A quotient of counts below a fraction is below it by a margin that the
    size of the counts gives. *)
Lemma below_fraction (a b : N) (p q : positive) (B : Z) :
  (0 < b)%N -> (Z.of_N b <= B)%Z ->
  ofCount a / ofCount b < Zpos p # q ->
  ofCount a / ofCount b <= (Zpos p # q) - 1 / (inject_Z (Zpos q) * inject_Z B).
Proof.
  intros Hb HB L. unfold ofCount in *.
  assert (Pb : 0 < inject_Z (Z.of_N b)) by (change 0 with (inject_Z 0); rewrite <- Zlt_Qlt; lia).
  assert (PB : 0 < inject_Z B) by (change 0 with (inject_Z 0); rewrite <- Zlt_Qlt; lia).
  assert (Pq : 0 < inject_Z (Zpos q)) by reflexivity.
  assert (L' : inject_Z (Z.of_N a) < (Zpos p # q) * inject_Z (Z.of_N b)).
  { setoid_replace (inject_Z (Z.of_N a))
      with (inject_Z (Z.of_N a) / inject_Z (Z.of_N b) * inject_Z (Z.of_N b)) at 1
      by (field; lra).
    now apply Qmult_lt_compat_r. }
  assert (Lz : (Z.of_N a * Zpos q < Zpos p * Z.of_N b)%Z).
  { unfold Qlt in L'. cbn [Qnum Qden Qmult inject_Z] in L'.
    rewrite Pos.mul_1_r in L'. lia. }
  assert (Lz' : (Z.of_N a * Zpos q + 1 <= Zpos p * Z.of_N b)%Z) by lia.
  apply Qle_shift_div_r; [assumption|].
  rewrite (Qmake_Qdiv (Zpos p) q).
  apply Qle_trans
    with ((inject_Z (Zpos p) * inject_Z (Z.of_N b) - 1) / inject_Z (Zpos q)).
  - apply Qle_shift_div_l; [assumption|].
    apply Qle_trans with (inject_Z (Z.of_N a * Zpos q)); [rewrite inject_Z_mult; apply Qle_refl|].
    apply Qle_trans with (inject_Z (Zpos p * Z.of_N b - 1)); [rewrite <- Zle_Qle; lia|].
    unfold Zminus. rewrite inject_Z_plus, inject_Z_mult, inject_Z_opp. apply Qle_refl.
  - assert (E : (inject_Z (Zpos p) / inject_Z (Zpos q)
                 - 1 / (inject_Z (Zpos q) * inject_Z B)) * inject_Z (Z.of_N b)
                == (inject_Z (Zpos p) * inject_Z (Z.of_N b)
                    - inject_Z (Z.of_N b) / inject_Z B) / inject_Z (Zpos q))
      by (field; split; lra).
    rewrite E. apply Qmult_le_compat_r; [|apply Qlt_le_weak, Qinv_lt_0_compat; assumption].
    assert (F : inject_Z (Z.of_N b) / inject_Z B <= 1).
    { apply Qle_shift_div_r; [assumption|]. rewrite Qmult_1_l. now rewrite <- Zle_Qle. }
    lra.
Qed.

(** And a quotient above a fraction is above it by the same margin. *)
Lemma above_fraction (a b : N) (p q : positive) (B : Z) :
  (0 < b)%N -> (Z.of_N b <= B)%Z ->
  Zpos p # q < ofCount a / ofCount b ->
  (Zpos p # q) + 1 / (inject_Z (Zpos q) * inject_Z B) <= ofCount a / ofCount b.
Proof.
  intros Hb HB L. unfold ofCount in *.
  assert (Pb : 0 < inject_Z (Z.of_N b)) by (change 0 with (inject_Z 0); rewrite <- Zlt_Qlt; lia).
  assert (PB : 0 < inject_Z B) by (change 0 with (inject_Z 0); rewrite <- Zlt_Qlt; lia).
  assert (Pq : 0 < inject_Z (Zpos q)) by reflexivity.
  assert (L' : (Zpos p # q) * inject_Z (Z.of_N b) < inject_Z (Z.of_N a)).
  { setoid_replace (inject_Z (Z.of_N a))
      with (inject_Z (Z.of_N a) / inject_Z (Z.of_N b) * inject_Z (Z.of_N b)) at 1
      by (field; lra).
    now apply Qmult_lt_compat_r. }
  assert (Lz : (Zpos p * Z.of_N b < Z.of_N a * Zpos q)%Z).
  { unfold Qlt in L'. cbn [Qnum Qden Qmult inject_Z] in L'.
    rewrite Pos.mul_1_r in L'. lia. }
  apply Qle_shift_div_l; [assumption|].
  rewrite (Qmake_Qdiv (Zpos p) q).
  apply Qle_trans
    with ((inject_Z (Zpos p) * inject_Z (Z.of_N b) + 1) / inject_Z (Zpos q)).
  - assert (E : (inject_Z (Zpos p) / inject_Z (Zpos q)
                 + 1 / (inject_Z (Zpos q) * inject_Z B)) * inject_Z (Z.of_N b)
                == (inject_Z (Zpos p) * inject_Z (Z.of_N b)
                    + inject_Z (Z.of_N b) / inject_Z B) / inject_Z (Zpos q))
      by (field; split; lra).
    rewrite E. apply Qmult_le_compat_r; [|apply Qlt_le_weak, Qinv_lt_0_compat; assumption].
    assert (F : inject_Z (Z.of_N b) / inject_Z B <= 1).
    { apply Qle_shift_div_r; [assumption|]. rewrite Qmult_1_l. now rewrite <- Zle_Qle. }
    lra.
  - apply Qle_shift_div_r; [assumption|].
    apply Qle_trans with (inject_Z (Zpos p * Z.of_N b + 1));
      [rewrite inject_Z_plus, inject_Z_mult; apply Qle_refl|].
    apply Qle_trans with (inject_Z (Z.of_N a * Zpos q)); [rewrite <- Zle_Qle; lia|].
    rewrite inject_Z_mult. apply Qle_refl.
Qed.

(** Where a computation [g] that keeps the order puts a quotient of counts,
    from where it puts two anchors: the fraction and the fraction less the
    margin. *)
Lemma quotient_nonneg (a b : N) : (0 < b)%N -> 0 <= ofCount a / ofCount b.
Proof.
  intros Hb. apply Qle_shift_div_l; [now apply ofCount_pos|].
  rewrite Qmult_0_l. apply ofCount_nonneg.
Qed.

Lemma threshold_iff (g : number -> number) (a b : N) (p q : positive) (T : number) :
  (forall x y, leb (Finite 0) x = true -> leb x y = true -> leb (g x) (g y) = true) ->
  (0 < b)%N -> (b <= 2 ^ 40)%N ->
  leb T (g (round64 (Zpos p # q))) = true ->
  ltb (g (round64 ((Zpos p # q) - 1 / (inject_Z (Zpos q) * inject_Z (2 ^ 40))))) T = true ->
  leb T (g (div (num a) (num b))) = true <-> Zpos p # q <= ofCount a / ofCount b.
Proof.
  intros Hg Hb HB Hat Hbelow. rewrite (div_counts a b Hb).
  fold (ofCount a) (ofCount b).
  assert (HBz : (Z.of_N b <= 2 ^ 40)%Z) by (change (2 ^ 40)%Z with (Z.of_N (2 ^ 40)); lia).
  pose proof (@quotient_nonneg a b Hb) as Q0.
  split.
  - intros L. destruct (Qlt_le_dec (ofCount a / ofCount b) (Zpos p # q)) as [C|C];
      [|assumption].
    exfalso. apply (below_fraction a b p q (2 ^ 40) Hb HBz) in C.
    apply round64_mono, Hg in C; [|now apply round64_nonneg].
    pose proof (leb_ltb_trans _ _ _ C Hbelow) as F.
    apply ltb_not_leb in F. congruence.
  - intros L. apply round64_mono, Hg in L; [|apply round64_nonneg; discriminate].
    now apply leb_trans with (g (round64 (Zpos p # q))).
Qed.

Lemma threshold_iff_strict (g : number -> number) (a b : N) (p q : positive) (T : number) :
  (forall x y, leb (Finite 0) x = true -> leb x y = true -> leb (g x) (g y) = true) ->
  (0 < b)%N -> (b <= 2 ^ 40)%N ->
  leb T (g (round64 ((Zpos p # q) + 1 / (inject_Z (Zpos q) * inject_Z (2 ^ 40))))) = true ->
  ltb (g (round64 (Zpos p # q))) T = true ->
  leb T (g (div (num a) (num b))) = true <-> Zpos p # q < ofCount a / ofCount b.
Proof.
  intros Hg Hb HB Hat Hbelow. rewrite (div_counts a b Hb).
  fold (ofCount a) (ofCount b).
  assert (HBz : (Z.of_N b <= 2 ^ 40)%Z) by (change (2 ^ 40)%Z with (Z.of_N (2 ^ 40)); lia).
  pose proof (@quotient_nonneg a b Hb) as Q0.
  split.
  - intros L. destruct (Qlt_le_dec (Zpos p # q) (ofCount a / ofCount b)) as [C|C];
      [assumption|].
    exfalso. apply round64_mono, Hg in C; [|now apply round64_nonneg].
    pose proof (leb_ltb_trans _ _ _ C Hbelow) as F.
    apply ltb_not_leb in F. congruence.
  - intros L. apply (above_fraction a b p q (2 ^ 40) Hb HBz) in L.
    apply round64_mono, Hg in L.
    + now apply leb_trans
        with (g (round64 ((Zpos p # q) + 1 / (inject_Z (Zpos q) * inject_Z (2 ^ 40))))).
    + apply round64_nonneg.
      apply Qle_trans with (Zpos p # q); [discriminate|].
      assert (M : 0 <= 1 / (inject_Z (Zpos q) * inject_Z (2 ^ 40))).
      { apply Qle_shift_div_l; [reflexivity|]. rewrite Qmult_0_l. discriminate. }
      lra.
Qed.

(* ================================================================== *)
(** * The analysis engine: printing with [toFixed] *)
(* ================================================================== *)

Lemma toFixed_scaled_comp digits x y : x == y -> toFixed_scaled digits x = toFixed_scaled digits y.
Proof.
  intros E. unfold toFixed_scaled. cbv zeta.
  rewrite (Qlt_bool_comp x y E 0 0 (Qeq_refl 0)).
  assert (F : Qfloor (Qabs x * inject_Z (10 ^ Z.of_nat digits) + (1 # 2))
              = Qfloor (Qabs y * inject_Z (10 ^ Z.of_nat digits) + (1 # 2)))
    by (apply Qfloor_comp; now rewrite E).
  now rewrite F.
Qed.

Lemma toFixed_scaled_nonneg digits x :
  0 <= x -> toFixed_scaled digits x = Qfloor (x * inject_Z (10 ^ Z.of_nat digits) + (1 # 2)).
Proof.
  intros Hx. unfold toFixed_scaled. cbv zeta.
  assert (E : Qlt_bool x 0 = false) by now apply Qlt_bool_false_iff.
  rewrite E. apply Qfloor_comp. now rewrite (Qabs_pos x Hx).
Qed.

Lemma scale_pos digits : 0 < inject_Z (10 ^ Z.of_nat digits).
Proof.
  change 0 with (inject_Z 0). rewrite <- Zlt_Qlt. apply Z.pow_pos_nonneg; lia.
Qed.

(** Printing keeps the order. *)
Lemma toFixed_scaled_mono digits x y :
  0 <= x -> x <= y -> (toFixed_scaled digits x <= toFixed_scaled digits y)%Z.
Proof.
  intros Hx Hxy. rewrite !toFixed_scaled_nonneg by (try assumption; now apply Qle_trans with x).
  apply Qfloor_resp_le. apply Qplus_le_l. apply Qmult_le_compat_r; [assumption|].
  apply Qlt_le_weak, scale_pos.
Qed.

(** A whole number is printed as it is. *)
Lemma toFixed_scaled_whole digits (n : Z) :
  (0 <= n)%Z -> toFixed_scaled digits (inject_Z n) = (n * 10 ^ Z.of_nat digits)%Z.
Proof.
  intros Hn. rewrite toFixed_scaled_nonneg by (change 0 with (inject_Z 0); now rewrite <- Zle_Qle).
  rewrite <- inject_Z_mult.
  set (m := (n * 10 ^ Z.of_nat digits)%Z).
  apply Z.le_antisymm.
  - apply Z.lt_succ_r. rewrite Zlt_Qlt.
    apply Qle_lt_trans with (inject_Z m + (1 # 2)); [apply Qfloor_le|].
    unfold Z.succ. rewrite inject_Z_plus. apply Qplus_lt_r. reflexivity.
  - rewrite <- (Qfloor_Z m) at 1. apply Qfloor_resp_le.
    rewrite <- (Qplus_0_r (inject_Z m)) at 1. apply Qplus_le_r. discriminate.
Qed.



(* ================================================================== *)
(** * The analysis engine: satisfaction *)
(* ================================================================== *)

Section Satisfaction.
Import MunicipalAnalysisEngine.
Context `{NumberPrinter}.

(** The weight of a label that names no inherited member. *)
Lemma weightOf_own level :
  ownLabel level = true ->
  exists w : Z, (1 <= w <= 5)%Z /\ weightOf level = Finite (inject_Z w)
                /\ weightValue level = inject_Z w.
Proof.
  intros Ho. unfold weightValue, weightOf.
  destruct (find (fun p => jseqb (fst p) level) weights) as [[l w]|] eqn:E.
  - apply find_some in E as [Hin _]. unfold weights in Hin.
    destruct Hin as [[= _ <-]|[[= _ <-]|[[= _ <-]|[[= _ <-]|[[= _ <-]|[]]]]]];
      [exists 5%Z|exists 4%Z|exists 3%Z|exists 2%Z|exists 1%Z];
      (split; [lia|split; reflexivity]).
  - unfold ownLabel in Ho. apply negb_true_iff in Ho. rewrite Ho.
    exists 3%Z. split; [lia|split; reflexivity].
Qed.

(** A label that names an inherited member has no weight. *)
Lemma weightOf_inherited level : ownLabel level = false -> weightOf level = NaN.
Proof.
  unfold ownLabel. rewrite negb_false_iff. unfold mem, inheritedKeys.
  cbn [map existsb]. rewrite !orb_true_iff.
  intros Hm.
  repeat (destruct Hm as [Hm|Hm];
          [apply jseqb_eq in Hm; subst level; vm_compute; reflexivity|]).
  discriminate Hm.
Qed.














Lemma mul_100_mono x y :
  leb x y = true -> leb (x * Finite 100)%num (y * Finite 100)%num = true.
Proof. apply mul_pos_mono. reflexivity. Qed.







End Satisfaction.


(** With the weighted mean 151/40 = 3.775 the quotient of the code is just
    below it, and the average reads 3.77; with a label that names a member
    that objects inherit there is no number. *)
Lemma analyzeSatisfaction_edge_examples :
  weightedMean (MunicipalAnalysisEngine.breakdown tiedSatisfaction) == 3.775
  /\ MunicipalAnalysisEngine.averageScore
       (MunicipalAnalysisEngine.analyzeSatisfaction tiedSatisfaction) = literal 3.77
  /\ MunicipalAnalysisEngine.averageScore
       (MunicipalAnalysisEngine.analyzeSatisfaction inheritedSatisfaction) = NaN.
Proof. repeat split; vm_compute; reflexivity. Qed.

(** A response of a citizen who answers [constructor]: the average of the
    bracket is not a number. *)
Lemma analyzeSatisfactionByAge_inherited_example :
  map MunicipalAnalysisEngine.a_averageScore
      (MunicipalAnalysisEngine.a_brackets
         (MunicipalAnalysisEngine.analyzeSatisfactionByAge
            [respondent 41 "constructor"; respondent 43 "Satisfeito";
             respondent 20 "Satisfeito"]))
  = [Finite 4; NaN].
Proof. vm_compute. reflexivity. Qed.

(* ================================================================== *)
(** * The analysis engine: sums and sorting *)
(* ================================================================== *)

Lemma insertDesc_perm {A : Type} (key : A -> number) x l :
  Permutation (insertDesc key x l) (x :: l).
Proof.
  induction l as [|y l IH]; simpl.
  - reflexivity.
  - destruct (ltb (sub (key x) (key y)) (Finite 0)).
    + rewrite IH. apply perm_swap.
    + reflexivity.
Qed.

Lemma sortDesc_perm {A : Type} (key : A -> number) l :
  Permutation (sortDesc key l) l.
Proof.
  induction l as [|x l IH]; simpl.
  - reflexivity.
  - rewrite insertDesc_perm. now constructor.
Qed.

Lemma sortDesc_nil_iff {A : Type} (key : A -> number) l : sortDesc key l = [] <-> l = [].
Proof.
  split; intros E.
  - pose proof (sortDesc_perm key l) as P. rewrite E in P.
    now apply Permutation_nil in P.
  - now subst.
Qed.

(** The difference of two whole numbers is negative when the exact one
    is. *)
Lemma sub_negative_whole (a b : Z) :
  ltb (sub (Finite (inject_Z a)) (Finite (inject_Z b))) (Finite 0) = (a <? b)%Z.
Proof.
  cbn [sub]. destruct (a <? b)%Z eqn:E.
  - apply Z.ltb_lt in E.
    apply leb_ltb_trans with (Finite (inject_Z (-1))); [|reflexivity].
    rewrite <- (round64_whole (-1)) by (cbn; lia).
    apply round64_mono. unfold Qminus. rewrite <- inject_Z_opp, <- inject_Z_plus.
    rewrite <- Zle_Qle. lia.
  - apply Z.ltb_ge in E. apply leb_not_ltb.
    change (Finite 0) with (round64 0). apply round64_mono.
    unfold Qminus. rewrite <- inject_Z_opp, <- inject_Z_plus.
    change 0 with (inject_Z 0). rewrite <- Zle_Qle. lia.
Qed.

(** Sorting counts puts them in decreasing order. *)
Lemma insertDesc_decreasing {A : Type} (count : A -> N) x l :
  decreasing (fun e => ofCount (count e)) l ->
  decreasing (fun e => ofCount (count e)) (insertDesc (fun e => num (count e)) x l).
Proof.
  assert (C : forall u v, ltb (sub (num (count u)) (num (count v))) (Finite 0)
                          = (count u <? count v)%N).
  { intros u v. unfold num. rewrite sub_negative_whole.
    destruct (count u <? count v)%N eqn:E.
    - apply N.ltb_lt in E. apply Z.ltb_lt. lia.
    - apply N.ltb_ge in E. apply Z.ltb_ge. lia. }
  assert (L : forall u v, (count u <= count v)%N -> ofCount (count u) <= ofCount (count v)).
  { intros u v Le. unfold ofCount. rewrite <- Zle_Qle. lia. }
  induction 1 as [|y|y z l Hyz Hd IH]; cbn [insertDesc].
  - constructor.
  - rewrite C. destruct (count x <? count y)%N eqn:E.
    + apply N.ltb_lt in E. constructor; [apply L; lia|constructor].
    + apply N.ltb_ge in E. constructor; [now apply L|constructor].
  - rewrite C. destruct (count x <? count y)%N eqn:E.
    + cbn [insertDesc] in IH |- *. rewrite C in IH |- *.
      destruct (count x <? count z)%N eqn:E'.
      * constructor; assumption.
      * apply N.ltb_lt in E. constructor; [apply L; lia|assumption].
    + apply N.ltb_ge in E. constructor; [now apply L|].
      constructor; assumption.
Qed.

Lemma sortDesc_decreasing {A : Type} (count : A -> N) l :
  decreasing (fun e => ofCount (count e)) (sortDesc (fun e => num (count e)) l).
Proof.
  induction l as [|x l IH]; cbn [sortDesc fold_right].
  - constructor.
  - now apply insertDesc_decreasing.
Qed.

(* ================================================================== *)
(** * The analysis engine: neighborhoods *)
(* ================================================================== *)

Section Neighborhoods.
Import MunicipalAnalysisEngine.
Context `{NumberPrinter}.

(** Numbers that are not negative: sums and quotients of them are not
    either. *)
Lemma add_nonneg x y :
  leb (Finite 0) x = true -> leb (Finite 0) y = true -> leb (Finite 0) (add x y) = true.
Proof.
  intros Hx Hy. destruct x as [|[]|a], y as [|[]|b]; try discriminate; try reflexivity.
  cbn [add]. apply round64_nonneg. apply leb_Finite in Hx, Hy. lra.
Qed.

Lemma sumOf_nonneg {A : Type} (f : A -> number) xs :
  (forall x, In x xs -> leb (Finite 0) (f x) = true) ->
  leb (Finite 0) (sumOf f xs) = true.
Proof.
  unfold sumOf. assert (G : forall s, leb (Finite 0) s = true ->
                             (forall x, In x xs -> leb (Finite 0) (f x) = true) ->
                             leb (Finite 0) (fold_left (fun s x => (s + f x)%num) xs s) = true).
  { induction xs as [|x xs IH]; intros s Hs Hf; [exact Hs|].
    cbn [fold_left]. apply IH.
    - apply add_nonneg; [assumption|]. apply Hf. now left.
    - intros y Hy. apply Hf. now right. }
  intros Hf. now apply G.
Qed.

Lemma div_length_nonneg {A : Type} x (l : list A) :
  l <> [] -> leb (Finite 0) x = true -> leb (Finite 0) (div x (lengthOf l)) = true.
Proof.
  intros Hl Hx. unfold lengthOf, num.
  assert (P : 0 < inject_Z (Z.of_N (N.of_nat (List.length l)))).
  { apply ofCount_pos. destruct l; [contradiction|]. cbn [List.length]. lia. }
  destruct x as [|[]|a]; try discriminate.
  - cbn [div]. assert (S : Qlt_bool (inject_Z (Z.of_N (N.of_nat (List.length l)))) 0 = false)
      by (apply Qlt_bool_false_iff; lra).
    now rewrite S.
  - cbn [div].
    assert (Z : Qeq_bool (inject_Z (Z.of_N (N.of_nat (List.length l)))) 0 = false)
      by (apply Qeq_bool_false_iff; lra).
    rewrite Z. apply round64_nonneg. apply leb_Finite in Hx.
    apply Qle_shift_div_l; [assumption|]. lra.
Qed.

Lemma responseRate_nonneg entry : leb (Finite 0) (responseRate (neighborhoodRow entry)) = true.
Proof.
  destruct entry as [name stats]. unfold neighborhoodRow. cbn [responseRate].
  destruct (0 <? n_total stats)%N eqn:E; [|reflexivity].
  apply N.ltb_lt in E. now apply percent_nonneg.
Qed.

Lemma rows_nonneg raw n :
  In n (map neighborhoodRow raw) -> leb (Finite 0) (responseRate n) = true.
Proof.
  intros Hin. apply in_map_iff in Hin as (entry & <- & _). apply responseRate_nonneg.
Qed.

Lemma meanResponseRate_nonneg rows :
  rows <> [] -> (forall n, In n rows -> leb (Finite 0) (responseRate n) = true) ->
  leb (Finite 0) (meanResponseRate rows) = true.
Proof.
  intros Hne Hr. unfold meanResponseRate. apply div_length_nonneg; [assumption|].
  now apply sumOf_nonneg.
Qed.

(** The mean of the rows is not negative. *)
Lemma avgResponse_nonneg raw :
  leb (Finite 0) (avgResponse (map neighborhoodRow raw)) = true.
Proof.
  unfold avgResponse.
  destruct (sortDesc responseRate (map neighborhoodRow raw)) as [|n sorted] eqn:E;
    [reflexivity|].
  rewrite <- E. apply meanResponseRate_nonneg.
  - rewrite E. discriminate.
  - intros r Hr. apply (rows_nonneg raw).
    apply (Permutation_in _ (sortDesc_perm responseRate (map neighborhoodRow raw))). exact Hr.
Qed.

Lemma filter_perm {A : Type} (p : A -> bool) l l' :
  Permutation l l' -> Permutation (filter p l) (filter p l').
Proof.
  induction 1 as [|x l l' _ IH|x y l|l l' l'' _ IH1 _ IH2]; simpl.
  - constructor.
  - destruct (p x); [now constructor|assumption].
  - destruct (p x), (p y); try reflexivity. apply perm_swap.
  - now transitivity (filter p l').
Qed.

Lemma filter_none {A : Type} (p : A -> bool) l :
  (forall x, In x l -> p x = false) -> filter p l = [].
Proof.
  induction l as [|x l IH]; intros Hp; simpl; [reflexivity|].
  rewrite (Hp x (or_introl eq_refl)). apply IH. intros y Hy. apply Hp. now right.
Qed.

(** Below a clamped cutoff or below the cutoff itself: the same, for a rate
    that is not negative. *)
Lemma below_clamped rate c :
  leb (Finite 0) rate = true ->
  ltb rate (Math_max_number (Finite 0) c) = ltb rate c.
Proof.
  intros Hr. pose proof (leb_not_ltb _ _ Hr) as Hz.
  destruct c as [|[]|c]; cbn [Math_max_number].
  - now destruct rate.
  - change (ltb (Finite 0) (Infinity true)) with false. cbv iota. rewrite Hz.
    now destruct rate as [|[]|?].
  - reflexivity.
  - destruct (ltb (Finite 0) (Finite c)) eqn:E; [reflexivity|].
    rewrite Hz. symmetry.
    apply leb_not_ltb. apply leb_trans with (Finite 0); [|assumption].
    apply leb_Finite. apply Qlt_bool_false_iff in E. exact E.
Qed.

(** The rows flagged are the rows below the mean less 10. *)
Lemma needsAttention_belowMean raw :
  needsAttention (analyzeNeighborhoods raw)
  = map flag (belowMean (map neighborhoodRow raw)).
Proof.
  unfold analyzeNeighborhoods, belowMean, attentionCutoff. cbn [needsAttention]. f_equal.
  apply filter_ext_in. intros n Hin.
  apply below_clamped. now apply (rows_nonneg raw).
Qed.

(** The low-performing rows of the insights are the same rows, in the order
    of the sort. *)
Lemma lowPerforming_belowMean rows :
  Permutation (lowPerforming (sortDesc responseRate rows)) (belowMean rows).
Proof.
  unfold lowPerforming, belowMean, avgResponse.
  destruct (sortDesc responseRate rows) as [|n sorted] eqn:E.
  - apply sortDesc_nil_iff in E. subst. reflexivity.
  - rewrite <- E. apply filter_perm, sortDesc_perm.
Qed.

Lemma literal_04 : literal 0.4 = Finite (3602879701896397 # 9007199254740992).
Proof. vm_compute. reflexivity. Qed.

(** More than 40% of [a], for whole numbers that a length can be. *)
Lemma share_above_40 (a b : N) :
  (a < 2 ^ 32)%N -> (b <= a)%N ->
  gtb (num b) (mul (num a) (literal 0.4)) = true <-> (2 * a < 5 * b)%N.
Proof.
  intros Ha Hb. unfold gtb. rewrite literal_04. unfold num. cbn [mul].
  assert (Ba : inject_Z (Z.of_N a) < 4294967296).
  { change 4294967296 with (inject_Z (Z.of_N (2 ^ 32))). rewrite <- Zlt_Qlt. lia. }
  pose proof (ofCount_nonneg a) as A0.
  set (qa := inject_Z (Z.of_N a)) in *.
  split.
  - intros L. destruct (N.lt_ge_cases (2 * a) (5 * b)) as [C|C]; [assumption|].
    exfalso.
    assert (Lb : inject_Z (Z.of_N b) <= qa * (3602879701896397 # 9007199254740992)).
    { assert (Q : 5 * inject_Z (Z.of_N b) <= 2 * qa).
      { unfold qa. change 5 with (inject_Z 5). change 2 with (inject_Z 2).
        rewrite <- !inject_Z_mult, <- Zle_Qle. lia. }
      lra. }
    apply round64_mono in Lb. rewrite round64_whole in Lb.
    + apply leb_not_ltb in Lb. congruence.
    + assert (Z.of_N b < 2 ^ 32)%Z by (change (2 ^ 32)%Z with (Z.of_N (2 ^ 32)); lia). lia.
  - intros L.
    assert (Q : 2 * qa + 1 <= 5 * inject_Z (Z.of_N b)).
    { unfold qa. change 5 with (inject_Z 5). change 2 with (inject_Z 2).
      change 1 with (inject_Z 1).
      rewrite <- !inject_Z_mult, <- inject_Z_plus, <- Zle_Qle. lia. }
    destruct (N.eq_dec a 0) as [->|Na].
    + change (round64 (inject_Z (Z.of_N 0) * (3602879701896397 # 9007199254740992)))
        with (Finite 0).
      apply ltb_Finite. change qa with 0 in Q. lra.
    + assert (A1 : 1 <= qa).
      { unfold qa. change 1 with (inject_Z 1). rewrite <- Zle_Qle. lia. }
      destruct (round64_error (qa * (3602879701896397 # 9007199254740992)))
        as (v & Ev & _ & V2).
      * apply Qle_trans with (3602879701896397 # 9007199254740992); [discriminate|lra].
      * apply Qle_trans with 4294967296; [lra|discriminate].
      * rewrite Ev. apply ltb_Finite.
        change (pow2 (-53)) with (1 # 9007199254740992) in V2. lra.
Qed.

Lemma equity_names_differ :
  js "concern" <> js "moderate" /\ js "concern" <> js "excellent"
  /\ js "moderate" <> js "excellent" /\ js "unknown" <> js "excellent"
  /\ js "unknown" <> js "concern" /\ js "unknown" <> js "moderate".
Proof. repeat split; vm_compute; discriminate. Qed.

(** The assessment in terms of the rows below the mean less 10. *)
Lemma equityAssessment_belowMean raw :
  raw <> [] -> (N.of_nat (List.length raw) < 2 ^ 32)%N ->
  let rows := map neighborhoodRow raw in
  equityAssessment (analyzeNeighborhoods raw)
  = if (0 <? List.length (belowMean rows))%nat
    then if (2 * List.length rows <? 5 * List.length (belowMean rows))%nat
         then js "concern" else js "moderate"
    else js "excellent".
Proof.
  intros Hne Hlen rows. unfold analyzeNeighborhoods. cbn [equityAssessment]. fold rows.
  unfold generateNeighborhoodInsights.
  destruct (sortDesc responseRate rows) as [|n sorted] eqn:E.
  - apply sortDesc_nil_iff in E. unfold rows in E.
    apply map_eq_nil in E. contradiction.
  - rewrite <- E.
    rewrite (Permutation_length (lowPerforming_belowMean rows)).
    unfold lengthOf.
    rewrite (Permutation_length (lowPerforming_belowMean rows)).
    rewrite (Permutation_length (sortDesc_perm responseRate rows)).
    destruct (0 <? List.length (belowMean rows))%nat; [|reflexivity].
    assert (Hr : List.length rows = List.length raw) by (unfold rows; apply length_map).
    assert (Hb : (List.length (belowMean rows) <= List.length rows)%nat)
      by apply filter_length_le.
    assert (S : gtb (num (N.of_nat (List.length (belowMean rows))))
                    (mul (num (N.of_nat (List.length rows))) (literal 0.4)) = true
                <-> (2 * N.of_nat (List.length rows)
                     < 5 * N.of_nat (List.length (belowMean rows)))%N)
      by (apply share_above_40; lia).
    destruct (2 * List.length rows <? 5 * List.length (belowMean rows))%nat eqn:L.
    + apply Nat.ltb_lt in L.
      assert (G : gtb (num (N.of_nat (List.length (belowMean rows))))
                      (mul (num (N.of_nat (List.length rows))) (literal 0.4)) = true)
        by (apply S; lia).
      now rewrite G.
    + apply Nat.ltb_ge in L.
      destruct (gtb (num (N.of_nat (List.length (belowMean rows))))
                    (mul (num (N.of_nat (List.length rows))) (literal 0.4))) eqn:G;
        [|reflexivity].
      pose proof (proj1 S eq_refl). lia.
Qed.

(** With at least one neighborhood the assessment is [excellent] exactly
    when no row is below the mean less 10. *)
Lemma equityAssessment_excellent_iff raw :
  raw <> [] ->
  equityAssessment (analyzeNeighborhoods raw) = js "excellent"
  <-> belowMean (map neighborhoodRow raw) = [].
Proof.
  intros Hne. unfold analyzeNeighborhoods. cbn [equityAssessment].
  set (rows := map neighborhoodRow raw).
  unfold generateNeighborhoodInsights.
  destruct equity_names_differ as (N1 & N2 & N3 & _).
  destruct (sortDesc responseRate rows) as [|n sorted] eqn:E.
  - apply sortDesc_nil_iff in E. unfold rows in E.
    apply map_eq_nil in E. contradiction.
  - rewrite <- E. cbv zeta.
    rewrite (Permutation_length (lowPerforming_belowMean rows)).
    destruct (belowMean rows) as [|b l] eqn:B.
    + split; reflexivity.
    + change (0 <? List.length (b :: l))%nat with true. cbv iota.
      match goal with
      | |- context [if ?c then js "concern" else _] => destruct c
      end; split; intros E'; try discriminate; congruence.
Qed.

(** A mean of at most 10 leaves no row below the mean less 10. *)
Lemma belowMean_low_mean rows :
  (forall n, In n rows -> leb (Finite 0) (responseRate n) = true) ->
  leb (avgResponse rows) (Finite 10) = true -> belowMean rows = [].
Proof.
  intros Hnn Hm. unfold belowMean. apply filter_none.
  intros n Hin. specialize (Hnn n Hin).
  apply leb_not_ltb. apply leb_trans with (Finite 0); [|assumption].
  destruct (avgResponse rows) as [|[]|a]; try discriminate; try reflexivity.
  cbn [sub]. apply leb_Finite in Hm. change (Finite 0) with (round64 0).
  apply round64_mono. lra.
Qed.

Lemma attentionCutoff_nonneg raw :
  leb (Finite 0) (attentionCutoff (map neighborhoodRow raw)) = true.
Proof.
  unfold attentionCutoff. pose proof (avgResponse_nonneg raw) as A.
  destruct (avgResponse (map neighborhoodRow raw)) as [|[]|a]; try discriminate.
  - reflexivity.
  - cbn [sub]. pose proof (round64_not_NaN (a - 10)) as NN.
    destruct (round64 (a - 10)) as [|[]|c] eqn:E; try contradiction; try reflexivity.
    cbn [Math_max_number]. destruct (ltb (Finite 0) (Finite c)) eqn:L.
    + now apply ltb_weaken.
    + reflexivity.
Qed.

(** The worked example of the neighborhoods. *)
Lemma sampleNeighborhoods_rates :
  map responseRate (map neighborhoodRow sampleNeighborhoods)
  = [Finite 90; Finite 85; Finite 40; Finite 38].
Proof. vm_compute. reflexivity. Qed.

(** C7, as the code has it.  The response rate of a neighborhood, the mean
    and the mean less 10 are the binary64 numbers that the code computes:
    the rate is [answered / total * 100], the mean is the sum of the rates in
    the order of the sort by rate, divided by their number.
    [analyzeNeighborhoods] flags as needing attention exactly the
    neighborhoods whose rate is below that mean less 10.  With at least one
    neighborhood the equity assessment is [concern] when more than 40% of the
    neighborhoods are below that cutoff, [excellent] when none is, and
    [moderate] otherwise; with no neighborhood it is [unknown].  For the
    rates 90, 85, 40 and 38 the mean is 63.25, the cutoff 53.25, two
    neighborhoods are flagged and the assessment is [concern].  Rounding
    shows at a tie: with the rates 1/15 and 4/15 of a hundred the first rate
    is the exact mean less 10, and the code flags it. *)
Theorem analyzeNeighborhoods_attention_and_equity raw :
  let rows := map neighborhoodRow raw in
  let below := List.length (belowMean rows) in
  needsAttention (analyzeNeighborhoods raw) = map flag (belowMean rows)
  /\ (raw <> [] -> (N.of_nat (List.length raw) < 2 ^ 32)%N ->
      (equityAssessment (analyzeNeighborhoods raw) = js "concern"
       <-> (2 * List.length rows < 5 * below)%nat)
      /\ (equityAssessment (analyzeNeighborhoods raw) = js "excellent"
          <-> below = 0%nat)
      /\ (equityAssessment (analyzeNeighborhoods raw) = js "moderate"
          <-> (0 < below /\ 5 * below <= 2 * List.length rows)%nat))
  /\ (raw = [] -> equityAssessment (analyzeNeighborhoods raw) = js "unknown")
  /\ (let sample := map neighborhoodRow sampleNeighborhoods in
      map responseRate sample = [Finite 90; Finite 85; Finite 40; Finite 38]
      /\ avgResponse sample = literal 63.25
      /\ attentionCutoff sample = literal 53.25
      /\ map flagged_neighborhood (needsAttention (analyzeNeighborhoods sampleNeighborhoods))
         = [js "Vila Nova"; js "Lagoa"]
      /\ equityAssessment (analyzeNeighborhoods sampleNeighborhoods) = js "concern")
  /\ (exactRate 1 15 == exactMean tiedNeighborhoods - 10
      /\ map flagged_neighborhood (needsAttention (analyzeNeighborhoods tiedNeighborhoods))
         = [js "Centro"]).
Proof.
  intros rows below. split; [apply needsAttention_belowMean|].
  split; [|split; [|split]].
  - intros Hne Hlen. rewrite equityAssessment_belowMean by assumption. fold rows below.
    destruct equity_names_differ as (N1 & N2 & N3 & _).
    destruct (0 <? below)%nat eqn:E0;
      [destruct (2 * List.length rows <? 5 * below)%nat eqn:E1|].
    + apply Nat.ltb_lt in E0, E1.
      repeat split; intros; try reflexivity; try congruence; try lia.
    + apply Nat.ltb_lt in E0. apply Nat.ltb_ge in E1.
      repeat split; intros; try reflexivity; try congruence; try lia.
    + apply Nat.ltb_ge in E0.
      repeat split; intros; try reflexivity; try congruence; try lia.
  - intros ->. reflexivity.
  - repeat split; vm_compute; reflexivity.
  - split; [vm_compute; reflexivity|].
    rewrite needsAttention_belowMean. vm_compute. reflexivity.
Qed.

(** C10, as the code has it.  The cutoff of [analyzeNeighborhoods] is the
    mean response rate less 10, clamped at zero, so the list
    [needsAttention] is empty whenever the mean that the code computes, a
    binary64 number, is at most 10.  The equity assessment uses the mean less
    10 without the clamp; response rates are never negative, so both select
    the same neighborhoods: the list is empty exactly when no neighborhood is
    low-performing, and, with at least one neighborhood, exactly when the
    assessment is [excellent].  The mean is the computed one: the rates 5,
    55, 0, 0, 0 and 0 have the exact mean 10, their computed mean is above
    10, and four neighborhoods are flagged. *)
Theorem attention_cutoff_clamped_and_consistent raw :
  let rows := map neighborhoodRow raw in
  attentionCutoff rows = Math_max_number (Finite 0) (avgResponse rows - Finite 10)
  /\ (raw <> [] -> avgResponse rows = meanResponseRate (sortDesc responseRate rows))
  /\ leb (Finite 0) (attentionCutoff rows) = true
  /\ (leb (avgResponse rows) (Finite 10) = true
      -> needsAttention (analyzeNeighborhoods raw) = [])
  /\ Permutation (map flag (lowPerforming (sortDesc responseRate rows)))
                 (needsAttention (analyzeNeighborhoods raw))
  /\ (needsAttention (analyzeNeighborhoods raw) = []
      <-> lowPerforming (sortDesc responseRate rows) = [])
  /\ (raw <> [] ->
      (needsAttention (analyzeNeighborhoods raw) = []
       <-> equityAssessment (analyzeNeighborhoods raw) = js "excellent"))
  /\ (exactMean meanTenNeighborhoods == 10
      /\ ltb (Finite 10) (avgResponse (map neighborhoodRow meanTenNeighborhoods)) = true
      /\ map flagged_neighborhood
           (needsAttention (analyzeNeighborhoods meanTenNeighborhoods))
         = [js "Vila Nova"; js "Lagoa"; js "Horto"; js "Porto"]).
Proof.
  intros rows.
  pose proof (needsAttention_belowMean raw) as En. fold rows in En.
  pose proof (lowPerforming_belowMean rows) as Pl.
  split; [reflexivity|].
  split.
  { intros Hne. unfold avgResponse.
    destruct (sortDesc responseRate rows) as [|n sorted] eqn:E; [|reflexivity].
    apply sortDesc_nil_iff in E. unfold rows in E. apply map_eq_nil in E. contradiction. }
  split; [apply attentionCutoff_nonneg|].
  split.
  { intros Hm. rewrite En.
    rewrite (belowMean_low_mean rows (rows_nonneg raw) Hm). reflexivity. }
  split; [rewrite En; now apply Permutation_map|].
  assert (Hiff : needsAttention (analyzeNeighborhoods raw) = []
                 <-> belowMean rows = []).
  { rewrite En. split; intros E; [now apply map_eq_nil in E | now rewrite E]. }
  split; [|split].
  - rewrite Hiff. split; intros E.
    + rewrite E in Pl. now apply Permutation_nil, Permutation_sym.
    + rewrite E in Pl. now apply Permutation_nil.
  - intros Hne. rewrite Hiff. symmetry. now apply equityAssessment_excellent_iff.
  - split; [vm_compute; reflexivity|].
    split; [vm_compute; reflexivity|].
    rewrite (needsAttention_belowMean meanTenNeighborhoods). vm_compute. reflexivity.
Qed.

(** No record set has an empty list together with an assessment of
    [concern] or [moderate]. *)
Lemma outputs_agree raw :
  needsAttention (analyzeNeighborhoods raw) = [] ->
  equityAssessment (analyzeNeighborhoods raw) <> js "concern"
  /\ equityAssessment (analyzeNeighborhoods raw) <> js "moderate".
Proof.
  intros Hempty.
  destruct equity_names_differ as (N1 & N2 & N3 & N4 & N5 & N6).
  destruct raw as [|entry raw].
  - change (equityAssessment (analyzeNeighborhoods [])) with (js "unknown").
    split; assumption.
  - assert (Hne : entry :: raw <> []) by discriminate.
    rewrite needsAttention_belowMean in Hempty. apply map_eq_nil in Hempty.
    apply equityAssessment_excellent_iff in Hempty; [|exact Hne]. rewrite Hempty.
    split; intros E; symmetry in E; contradiction.
Qed.

End Neighborhoods.

(** The witness of C7: the four sample neighborhoods. *)
Lemma analyzeNeighborhoods_attention_and_equity_witness :
  sampleNeighborhoods <> []
  /\ (N.of_nat (List.length sampleNeighborhoods) < 2 ^ 32)%N
  /\ MunicipalAnalysisEngine.equityAssessment
       (MunicipalAnalysisEngine.analyzeNeighborhoods sampleNeighborhoods)
     = js "concern".
Proof.
  assert (Hne : sampleNeighborhoods <> []) by discriminate.
  assert (Hlen : (N.of_nat (List.length sampleNeighborhoods) < 2 ^ 32)%N) by reflexivity.
  split; [exact Hne|]. split; [exact Hlen|].
  apply (proj1 (proj1 (proj2 (analyzeNeighborhoods_attention_and_equity
                                sampleNeighborhoods)) Hne Hlen)).
  vm_compute. repeat constructor.
Defined.

(** The counterexamples of C7 as stated.  With no neighborhood none is below
    the cutoff, and the assessment is [unknown], not [excellent].  With the
    rates 1/15 and 4/15 of a hundred the first rate is the exact mean less
    10, not below it, yet the neighborhood is flagged and the assessment is
    [concern]. *)
Lemma no_neighborhood_counterexample :
  (belowMean (map MunicipalAnalysisEngine.neighborhoodRow []) = []
   /\ MunicipalAnalysisEngine.needsAttention
        (MunicipalAnalysisEngine.analyzeNeighborhoods []) = []
   /\ MunicipalAnalysisEngine.equityAssessment
        (MunicipalAnalysisEngine.analyzeNeighborhoods []) = js "unknown"
   /\ MunicipalAnalysisEngine.equityAssessment
        (MunicipalAnalysisEngine.analyzeNeighborhoods []) <> js "excellent")
  /\ ((exactRate 1 15 == exactMean tiedNeighborhoods - 10)%Q
      /\ map MunicipalAnalysisEngine.flagged_neighborhood
           (MunicipalAnalysisEngine.needsAttention
              (MunicipalAnalysisEngine.analyzeNeighborhoods tiedNeighborhoods))
         = [js "Centro"]
      /\ MunicipalAnalysisEngine.equityAssessment
           (MunicipalAnalysisEngine.analyzeNeighborhoods tiedNeighborhoods)
         = js "concern").
Proof.
  split.
  - repeat split; try reflexivity. vm_compute. discriminate.
  - split; [vm_compute; reflexivity|].
    split; vm_compute; reflexivity.
Qed.

(** The witness of C10: a mean response rate of 5. *)
Lemma attention_cutoff_clamped_and_consistent_witness :
  leb (MunicipalAnalysisEngine.avgResponse
         (map MunicipalAnalysisEngine.neighborhoodRow quietNeighborhoods))
      (Finite 10) = true
  /\ MunicipalAnalysisEngine.needsAttention
       (MunicipalAnalysisEngine.analyzeNeighborhoods quietNeighborhoods) = [].
Proof.
  assert (Hm : leb (MunicipalAnalysisEngine.avgResponse
                      (map MunicipalAnalysisEngine.neighborhoodRow quietNeighborhoods))
                   (Finite 10) = true)
    by (vm_compute; reflexivity).
  split; [exact Hm|].
  exact (proj1 (proj2 (proj2 (proj2 (attention_cutoff_clamped_and_consistent
                                       quietNeighborhoods)))) Hm).
Defined.

(** The counterexample of C10 as stated: where the mean is 5 and the list is
    empty the assessment is [excellent], and no record set has an empty list
    together with an assessment of [concern] or [moderate]. *)
Lemma outputs_never_disagree_counterexample :
  (MunicipalAnalysisEngine.needsAttention
     (MunicipalAnalysisEngine.analyzeNeighborhoods quietNeighborhoods) = []
   /\ MunicipalAnalysisEngine.equityAssessment
        (MunicipalAnalysisEngine.analyzeNeighborhoods quietNeighborhoods)
      = js "excellent")
  /\ ~ (exists raw,
           MunicipalAnalysisEngine.needsAttention
             (MunicipalAnalysisEngine.analyzeNeighborhoods raw) = []
           /\ (MunicipalAnalysisEngine.equityAssessment
                 (MunicipalAnalysisEngine.analyzeNeighborhoods raw) = js "concern"
               \/ MunicipalAnalysisEngine.equityAssessment
                    (MunicipalAnalysisEngine.analyzeNeighborhoods raw) = js "moderate")).
Proof.
  split; [split; vm_compute; reflexivity|].
  intros (raw & Hempty & Hbad).
  destruct (outputs_agree raw Hempty) as [Hc Hm].
  destruct Hbad; contradiction.
Qed.

(* ================================================================== *)
(** * The analysis engine: engagement *)
(* ================================================================== *)

(** Printing keeps the order, whatever the signs. *)
Lemma toFixed_scaled_opp digits x :
  ~ x == 0 -> toFixed_scaled digits (- x) = (- toFixed_scaled digits x)%Z.
Proof.
  intros Hx. unfold toFixed_scaled. cbv zeta.
  assert (F : Qfloor (Qabs (- x) * inject_Z (10 ^ Z.of_nat digits) + (1 # 2))
              = Qfloor (Qabs x * inject_Z (10 ^ Z.of_nat digits) + (1 # 2)))
    by (apply Qfloor_comp; now rewrite Qabs_opp).
  rewrite F.
  destruct (Qlt_bool x 0) eqn:E.
  - apply Qlt_bool_iff in E.
    assert (E' : Qlt_bool (- x) 0 = false) by (apply Qlt_bool_false_iff; lra).
    rewrite E'. lia.
  - apply Qlt_bool_false_iff in E.
    assert (E' : Qlt_bool (- x) 0 = true) by (apply Qlt_bool_iff; lra).
    now rewrite E'.
Qed.

Lemma toFixed_scaled_sign digits x : 0 <= x -> (0 <= toFixed_scaled digits x)%Z.
Proof.
  intros Hx. pose proof (toFixed_scaled_whole digits 0 (Z.le_refl 0)) as Z0.
  pose proof (toFixed_scaled_mono digits 0 x (Qle_refl 0) Hx) as M.
  change (inject_Z 0) with 0 in Z0. lia.
Qed.

Lemma toFixed_scaled_mono_all digits x y :
  x <= y -> (toFixed_scaled digits x <= toFixed_scaled digits y)%Z.
Proof.
  intros L. destruct (Qlt_le_dec x 0) as [Hx|Hx]; [|now apply toFixed_scaled_mono].
  assert (Ex : toFixed_scaled digits x = (- toFixed_scaled digits (- x))%Z).
  { rewrite <- toFixed_scaled_opp by lra. apply toFixed_scaled_comp. ring. }
  destruct (Qlt_le_dec y 0) as [Hy|Hy].
  - assert (Ey : toFixed_scaled digits y = (- toFixed_scaled digits (- y))%Z).
    { rewrite <- toFixed_scaled_opp by lra. apply toFixed_scaled_comp. ring. }
    rewrite Ex, Ey.
    assert (M : (toFixed_scaled digits (- y) <= toFixed_scaled digits (- x))%Z)
      by (apply toFixed_scaled_mono; lra).
    lia.
  - rewrite Ex.
    assert (A : (0 <= toFixed_scaled digits (- x))%Z) by (apply toFixed_scaled_sign; lra).
    assert (B : (0 <= toFixed_scaled digits y)%Z) by now apply toFixed_scaled_sign.
    lia.
Qed.

(** Below 10^21 what is printed is at most 10^21. *)
Lemma toFixed_scaled_bound digits x :
  0 <= x -> x < inject_Z (10 ^ 21) ->
  inject_Z (toFixed_scaled digits x) / inject_Z (10 ^ Z.of_nat digits) <= inject_Z (10 ^ 21).
Proof.
  intros Hx Hb. pose proof (scale_pos digits) as Sp.
  apply Qle_shift_div_r; [assumption|].
  rewrite <- inject_Z_mult, <- Zle_Qle.
  rewrite (toFixed_scaled_nonneg digits x Hx).
  set (S := (10 ^ Z.of_nat digits)%Z) in *.
  apply Z.lt_succ_r. rewrite Zlt_Qlt.
  apply Qle_lt_trans with (x * inject_Z S + (1 # 2)); [apply Qfloor_le|].
  unfold Z.succ. rewrite inject_Z_plus, inject_Z_mult.
  assert (M : x * inject_Z S < inject_Z (10 ^ 21) * inject_Z S)
    by now apply Qmult_lt_compat_r.
  change (inject_Z 1) with 1. lra.
Qed.

Lemma round64_10_21 : round64 (inject_Z (10 ^ 21)) = Finite (inject_Z (10 ^ 21)).
Proof. vm_compute. reflexivity. Qed.

Lemma Number_toFixed_mono_nonneg digits x y :
  0 <= x -> x <= y ->
  leb (Number_toFixed digits (Finite x)) (Number_toFixed digits (Finite y)) = true.
Proof.
  intros Hx L. unfold Number_toFixed.
  rewrite (Qabs_pos x Hx).
  assert (Hy : 0 <= y) by lra. 
  assert (Ay : Qle_bool (inject_Z (10 ^ 21)) (Qabs y) = Qle_bool (inject_Z (10 ^ 21)) y).
  { destruct (Qle_bool (inject_Z (10 ^ 21)) y) eqn:E.
    - apply Qle_bool_iff. apply Qle_bool_iff in E. now rewrite (Qabs_pos y Hy).
    - apply Qle_bool_false_iff. apply Qle_bool_false_iff in E. now rewrite (Qabs_pos y Hy). }
  rewrite Ay.
  destruct (Qle_bool (inject_Z (10 ^ 21)) x) eqn:Bx;
    destruct (Qle_bool (inject_Z (10 ^ 21)) y) eqn:By.
  - now apply leb_Finite.
  - apply Qle_bool_iff in Bx. apply Qle_bool_false_iff in By. lra.
  - apply Qle_bool_false_iff in Bx. apply Qle_bool_iff in By.
    apply leb_trans with (round64 (inject_Z (10 ^ 21))).
    + apply round64_mono. now apply toFixed_scaled_bound.
    + rewrite round64_10_21. now apply leb_Finite.
  - apply round64_mono. apply Qmult_le_compat_r.
    + rewrite <- Zle_Qle. now apply toFixed_scaled_mono_all.
    + apply Qlt_le_weak, Qinv_lt_0_compat, scale_pos.
Qed.

(** For numbers that are not negative. *)
Lemma Number_toFixed_mono digits x y :
  leb (Finite 0) x = true -> leb x y = true ->
  leb (Number_toFixed digits x) (Number_toFixed digits y) = true.
Proof.
  intros Hx L.
  destruct x as [|[]|a]; try discriminate.
  - destruct y as [|[]|b]; try discriminate. reflexivity.
  - destruct y as [|[]|b]; try discriminate.
    + apply leb_top. unfold Number_toFixed.
      destruct (Qle_bool _ _); [discriminate|apply round64_not_NaN].
    + apply leb_Finite in Hx, L. now apply Number_toFixed_mono_nonneg.
Qed.

Section Engagement.
Import MunicipalAnalysisEngine.
Context `{NumberPrinter}.

(** The rate that the level is read off, as a function of the quotient. *)
Lemma percentText_mono x y :
  leb (Finite 0) x = true -> leb x y = true ->
  leb (Number_toFixed 1 (x * Finite 100)%num) (Number_toFixed 1 (y * Finite 100)%num) = true.
Proof.
  intros Hx L. apply Number_toFixed_mono.
  - change (Finite 0) with (Finite 0 * Finite 100)%num. now apply mul_100_mono.
  - now apply mul_100_mono.
Qed.

Lemma rateNumber_mono part part' whole :
  (part <= part')%N -> leb (rateNumber part whole) (rateNumber part' whole) = true.
Proof.
  intros Hp. unfold rateNumber. destruct (0 <? whole)%N eqn:W; [|reflexivity].
  apply N.ltb_lt in W. apply Number_toFixed_mono.
  - now apply percent_nonneg.
  - now apply percent_mono.
Qed.

Lemma levelRank_mono x y :
  leb x y = true ->
  (levelRank (generateEngagementInsights x) <= levelRank (generateEngagementInsights y))%nat.
Proof.
  intros Hxy. unfold generateEngagementInsights, geb.
  destruct (leb (Finite 70) x) eqn:E70.
  { rewrite (leb_trans _ _ _ E70 Hxy). apply Nat.le_refl. }
  destruct (leb (Finite 50) x) eqn:E50.
  { rewrite (leb_trans _ _ _ E50 Hxy). destruct (leb (Finite 70) y); vm_compute; lia. }
  destruct (leb (Finite 30) x) eqn:E30.
  { rewrite (leb_trans _ _ _ E30 Hxy). destruct (leb (Finite 70) y); [vm_compute; lia|].
    destruct (leb (Finite 50) y); vm_compute; lia. }
  change (levelRank (js "poor")) with 0%nat. lia.
Qed.

(** The thresholds of the level on the exact quotient, for up to 2^40
    contacts. *)
Lemma level_70 (a b : N) :
  (0 < b)%N -> (b <= 2 ^ 40)%N ->
  leb (Finite 70) (rateNumber a b) = true <-> 1399 # 2000 <= ofCount a / ofCount b.
Proof.
  intros Hb HB. unfold rateNumber. rewrite (proj2 (N.ltb_lt 0 b) Hb).
  apply (threshold_iff (fun x => Number_toFixed 1 (x * Finite 100)%num) a b 1399 2000
           (Finite 70) percentText_mono Hb HB);
    vm_compute; reflexivity.
Qed.

Lemma level_50 (a b : N) :
  (0 < b)%N -> (b <= 2 ^ 40)%N ->
  leb (Finite 50) (rateNumber a b) = true <-> 999 # 2000 <= ofCount a / ofCount b.
Proof.
  intros Hb HB. unfold rateNumber. rewrite (proj2 (N.ltb_lt 0 b) Hb).
  apply (threshold_iff (fun x => Number_toFixed 1 (x * Finite 100)%num) a b 999 2000
           (Finite 50) percentText_mono Hb HB);
    vm_compute; reflexivity.
Qed.

Lemma level_30 (a b : N) :
  (0 < b)%N -> (b <= 2 ^ 40)%N ->
  leb (Finite 30) (rateNumber a b) = true <-> 599 # 2000 < ofCount a / ofCount b.
Proof.
  intros Hb HB. unfold rateNumber. rewrite (proj2 (N.ltb_lt 0 b) Hb).
  apply (threshold_iff_strict (fun x => Number_toFixed 1 (x * Finite 100)%num) a b 599 2000
           (Finite 30) percentText_mono Hb HB);
    vm_compute; reflexivity.
Qed.

Lemma level_names_differ :
  js "excellent" <> js "good" /\ js "excellent" <> js "fair" /\ js "excellent" <> js "poor"
  /\ js "good" <> js "fair" /\ js "good" <> js "poor" /\ js "fair" <> js "poor".
Proof. repeat split; vm_compute; discriminate. Qed.

Ltac level_case :=
  repeat split; intros;
  repeat match goal with H : _ /\ _ |- _ => destruct H end;
  first [reflexivity | congruence | lra | exfalso; congruence | exfalso; lra].

(** X19.  The engagement report.  The conversion rates of the funnel are
    the engagement and completion rates of [rates]; without contacts the
    response rate reads 0 and the level is poor.  The level is read off the
    response rate as the code computes and prints it: the binary64 quotient
    of the answers by the contacts, times 100, printed with one decimal.  For
    up to 2^40 contacts it is excellent exactly from 69.95 percent of answers
    on, good from 49.95 percent on, fair above 29.95 percent, and poor up to
    and including 29.95 percent: at 599 answers of 2000 contacts the product
    is just below 29.95, the text reads 29.9 and the level is poor.  With the
    same number of contacts, more answers never lower the level. *)
Theorem analyzeEngagement_level raw :
  let r := analyzeEngagement raw in
  let rate := exactRate (e_answered raw) (e_total raw) in
  (contactToEngage (engagementFunnel r) = rate_engagement (rates r)
   /\ engageToRespond (engagementFunnel r) = rate_completion (rates r))
  /\ (e_total raw = 0%N ->
      rate_response (rates r) = js "0" /\ performanceLevel r = js "poor")
  /\ ((0 < e_total raw)%N -> (e_total raw <= 2 ^ 40)%N ->
      (performanceLevel r = js "excellent" <-> 69.95 <= rate)
      /\ (performanceLevel r = js "good" <-> 49.95 <= rate /\ rate < 69.95)
      /\ (performanceLevel r = js "fair" <-> 29.95 < rate /\ rate < 49.95)
      /\ (performanceLevel r = js "poor" <-> rate <= 29.95))
  /\ (forall raw',
         e_total raw' = e_total raw -> (e_answered raw <= e_answered raw')%N ->
         (levelRank (performanceLevel r)
          <= levelRank (performanceLevel (analyzeEngagement raw')))%nat)
  /\ (exactRate (e_answered tiedEngagement) (e_total tiedEngagement) == 29.95
      /\ rate_response (rates (analyzeEngagement tiedEngagement)) = js "29.9"
      /\ performanceLevel (analyzeEngagement tiedEngagement) = js "poor").
Proof.
  cbv zeta. unfold analyzeEngagement.
  cbn [performanceLevel engagementFunnel rates rate_engagement rate_completion
       rate_response analyzeEngagementFunnel contactToEngage engageToRespond].
  split; [split; reflexivity|]. split; [|split; [|split]].
  - intros E. unfold rateText, rateNumber. rewrite E. split; reflexivity.
  - intros Hpos HB.
    pose proof (@level_70 (e_answered raw) (e_total raw) Hpos HB) as L70.
    pose proof (@level_50 (e_answered raw) (e_total raw) Hpos HB) as L50.
    pose proof (@level_30 (e_answered raw) (e_total raw) Hpos HB) as L30.
    unfold generateEngagementInsights, geb. unfold exactRate.
    set (x := ofCount (e_answered raw) / ofCount (e_total raw)) in *.
    destruct level_names_differ as (N1 & N2 & N3 & N4 & N5 & N6).
    assert (T70 : 69.95 <= x * 100 <-> 1399 # 2000 <= x) by (split; intros; lra).
    assert (T50 : 49.95 <= x * 100 <-> 999 # 2000 <= x) by (split; intros; lra).
    assert (T30 : 29.95 < x * 100 <-> 599 # 2000 < x) by (split; intros; lra).
    clearbody x.
    destruct (leb (Finite 70) (rateNumber (e_answered raw) (e_total raw))) eqn:E70.
    { assert (1399 # 2000 <= x) by now apply L70. level_case. }
    assert (G70 : ~ 1399 # 2000 <= x) by (intros C; apply L70 in C; discriminate).
    destruct (leb (Finite 50) (rateNumber (e_answered raw) (e_total raw))) eqn:E50.
    { assert (999 # 2000 <= x) by now apply L50.
      assert (x < 1399 # 2000) by lra. level_case. }
    assert (G50 : ~ 999 # 2000 <= x) by (intros C; apply L50 in C; discriminate).
    destruct (leb (Finite 30) (rateNumber (e_answered raw) (e_total raw))) eqn:E30.
    { assert (599 # 2000 < x) by now apply L30.
      assert (x < 999 # 2000) by lra. level_case. }
    assert (G30 : ~ 599 # 2000 < x) by (intros C; apply L30 in C; discriminate).
    assert (x <= 599 # 2000) by lra. level_case.
  - intros raw' Et Ha. rewrite Et.
    apply levelRank_mono. now apply rateNumber_mono.
  - split; [reflexivity|]. split; vm_compute; reflexivity.
Qed.

End Engagement.

(* ================================================================== *)
(** * The analysis engine: issues *)
(* ================================================================== *)

Section Issues.
Import MunicipalAnalysisEngine.
Context `{NumberPrinter}.
Open Scope Q_scope.

Lemma decreasing_head {A : Type} (key : A -> Q) x l :
  decreasing key (x :: l) -> forall y, In y l -> key y <= key x.
Proof.
  revert x. induction l as [|z l IH]; intros x Hd y Hin; [destruct Hin|].
  inversion Hd as [| |x' z' l' Hzx Hd']; subst.
  destruct Hin as [<-|Hin]; [assumption|].
  apply Qle_trans with (key z); [now apply IH|assumption].
Qed.

Lemma decreasing_tail {A : Type} (key : A -> Q) x l :
  decreasing key (x :: l) -> decreasing key l.
Proof. intros Hd. inversion Hd; subst; [constructor|assumption]. Qed.

(** In a decreasing list, what comes first has the larger keys. *)
Lemma decreasing_app {A : Type} (key : A -> Q) l1 l2 :
  decreasing key (l1 ++ l2) ->
  forall x y, In x l1 -> In y l2 -> key y <= key x.
Proof.
  induction l1 as [|z l1 IH]; intros Hd x y Hx Hy; [destruct Hx|].
  simpl in Hd. destruct Hx as [<-|Hx].
  - apply (decreasing_head key z (l1 ++ l2) Hd). apply in_or_app. now right.
  - apply IH; [now apply decreasing_tail in Hd|assumption|assumption].
Qed.

Lemma decreasing_map {A B : Type} (f : A -> B) (key : B -> Q) l :
  decreasing (fun a => key (f a)) l -> decreasing key (map f l).
Proof.
  induction 1; simpl; constructor; assumption.
Qed.

(** X20.  The issues report: with no response the breakdown is empty and
    there are no priority issues; otherwise the breakdown lists the issues
    of the raw data, each once with its count, in decreasing order of
    count, and the priority issues are its first three entries (all of them
    when there are fewer), so that no other issue has more reports than a
    priority issue. *)
Theorem analyzeIssues_priorities raw :
  let r := analyzeIssues raw in
  (issues_total raw = 0%N -> i_breakdown r = [] /\ priorityIssues r = None)
  /\ (issues_total raw <> 0%N ->
      Permutation (map (fun e => (i_issue e, i_count e)) (i_breakdown r))
                  (issues_breakdown raw)
      /\ decreasing (fun e => ofCount (i_count e)) (i_breakdown r)
      /\ exists top rest,
          priorityIssues r = Some top
          /\ i_breakdown r = top ++ rest
          /\ List.length top = Nat.min 3 (List.length (issues_breakdown raw))
          /\ forall e e', In e top -> In e' rest -> (i_count e' <= i_count e)%N).
Proof.
  cbv zeta. unfold analyzeIssues. split.
  - intros ->. split; reflexivity.
  - intros Hne. apply N.eqb_neq in Hne. rewrite Hne.
    cbn [i_breakdown priorityIssues].
    set (sorted := sortDesc (fun e => num (snd e)) (issues_breakdown raw)).
    set (entry := fun '(issue, count) =>
                    {| i_issue := issue; i_count := count;
                       i_percentage :=
                         toFixed 1 ((num count / num (issues_total raw)) * Finite 100)%num |}).
    assert (Hd : decreasing (fun e => ofCount (i_count e)) (map entry sorted)).
    { apply decreasing_map.
      assert (Hs : decreasing (fun e : jsstring * N => ofCount (snd e)) sorted)
        by apply sortDesc_decreasing.
      clear -Hs. induction Hs as [|[i c]|[i c] [i' c'] l Hle Hd IH]; constructor; assumption. }
    split; [|split; [exact Hd|]].
    + rewrite map_map.
      replace (map (fun x => (i_issue (entry x), i_count (entry x))) sorted) with sorted.
      * apply sortDesc_perm.
      * clear. induction sorted as [|[i c] l IH]; [reflexivity|]. simpl. now rewrite <- IH.
    + exists (firstn 3 (map entry sorted)), (skipn 3 (map entry sorted)).
      split; [reflexivity|]. split; [symmetry; apply firstn_skipn|]. split.
      * rewrite length_firstn, length_map. unfold sorted.
        now rewrite (Permutation_length (sortDesc_perm _ (issues_breakdown raw))).
      * intros e e' He He'.
        rewrite <- (firstn_skipn 3 (map entry sorted)) in Hd.
        pose proof (decreasing_app _ _ _ Hd e e' He He') as Hle.
        unfold ofCount in Hle. rewrite <- Zle_Qle in Hle. lia.
Qed.

End Issues.

(* ================================================================== *)
(** * The analysis engine: satisfaction by age *)
(* ================================================================== *)

Section Age.
Import MunicipalAnalysisEngine.
Open Scope Q_scope.

Lemma scoreOf_own r :
  ownAnswer r = true -> exists w : Z, (1 <= w <= 5)%Z /\ scoreOf r = Finite (inject_Z w).
Proof.
  unfold ownAnswer, scoreOf. intros Ho.
  destruct (survey (c_contact r)) as [s|]; [|exists 3%Z; split; [lia|reflexivity]].
  destruct (satisfaction s) as [level|]; [|exists 3%Z; split; [lia|reflexivity]].
  destruct (weightOf_own level Ho) as (w & Hw & E & _). now exists w.
Qed.

Lemma scoreOf_inherited r : ownAnswer r = false -> scoreOf r = NaN.
Proof.
  unfold ownAnswer, scoreOf. intros Ho.
  destruct (survey (c_contact r)) as [s|]; [|discriminate].
  destruct (satisfaction s) as [level|]; [|discriminate].
  now apply weightOf_inherited.
Qed.

Lemma addScores_NaN rs : addScores NaN rs = NaN.
Proof. induction rs as [|r rs IH]; [reflexivity|exact IH]. Qed.

(** One answer that names an inherited member leaves no number. *)
Lemma addScores_inherited rs : forall start,
  Exists (fun r => ownAnswer r = false) rs -> addScores start rs = NaN.
Proof.
  induction rs as [|r rs IH]; intros start Hex; [inversion Hex|].
  unfold addScores. cbn [fold_left]. fold (addScores (start + scoreOf r)%num rs).
  inversion Hex as [r' rs' Hr|r' rs' Hrs]; subst.
  - rewrite (scoreOf_inherited r Hr).
    replace (start + NaN)%num with NaN by now destruct start as [|[]|?].
    apply addScores_NaN.
  - now apply IH.
Qed.

(** The scores of own answers add up to a whole number, from the number of
    the answers to five times as much. *)
Lemma addScores_own rs : forall start : Z,
  Forall (fun r => ownAnswer r = true) rs ->
  (0 <= start)%Z -> (start + 5 * Z.of_nat (List.length rs) <= 2 ^ 53)%Z ->
  exists total : Z,
    addScores (Finite (inject_Z start)) rs = Finite (inject_Z total)
    /\ (start + Z.of_nat (List.length rs) <= total
        <= start + 5 * Z.of_nat (List.length rs))%Z.
Proof.
  induction rs as [|r rs IH]; intros start Hown H0 Hb.
  - exists start. split; [reflexivity|]. cbn [List.length]. lia.
  - unfold addScores. cbn [fold_left].
    fold (addScores (Finite (inject_Z start) + scoreOf r)%num rs).
    destruct (scoreOf_own r (Forall_inv Hown)) as (w & Hw & Ew).
    cbn [List.length] in Hb. rewrite Nat2Z.inj_succ in Hb.
    rewrite Ew, add_whole by lia.
    destruct (IH (start + w)%Z (Forall_inv_tail Hown)) as (total & Et & Ht); try lia.
    exists total. split; [exact Et|].
    cbn [List.length]. rewrite Nat2Z.inj_succ. lia.
Qed.

Lemma holds_aged b r a :
  c_age r = Some a -> aged (b_min b) (b_max b) [r] = if holds b a then [r] else [].
Proof. intros E. unfold aged, holds. cbn [filter]. now rewrite E. Qed.

Lemma counted_refl b : counted [] b b.
Proof.
  unfold counted. cbn [aged filter List.length addScores fold_left].
  repeat split; try reflexivity. lia.
Qed.

Lemma counted_skip r b :
  aged (b_min b) (b_max b) [r] = [] -> counted [r] b b.
Proof.
  intros E. unfold counted. rewrite E. cbn [List.length addScores fold_left].
  repeat split; try reflexivity. lia.
Qed.

Lemma counted_trans r rs b b1 b2 :
  counted [r] b b1 -> counted rs b1 b2 -> counted (r :: rs) b b2.
Proof.
  intros (Ek & Emin & Emax & Ec & Es) (Ek' & Emin' & Emax' & Ec' & Es').
  rewrite Emin, Emax in *.
  unfold counted. rewrite Ek', Ek, Emin', Emax', Ec', Ec, Es', Es.
  repeat split; try reflexivity.
  - unfold aged. cbn [filter].
    destruct (match c_age r with Some a => _ | None => false end); cbn [List.length]; lia.
  - unfold aged. cbn [filter].
    destruct (match c_age r with Some a => _ | None => false end); reflexivity.
Qed.

Lemma addToBracket_counted r a bs :
  c_age r = Some a -> ForallOrdPairs apart bs ->
  Forall2 (counted [r]) bs (addToBracket a (scoreOf r) bs).
Proof.
  intros Ea Hap. induction Hap as [|b rest Hb Hrest IH]; cbn [addToBracket]; [constructor|].
  destruct (holds b a) eqn:Eh.
  - constructor.
    + unfold counted. rewrite (holds_aged b r a Ea), Eh.
      cbn [b_key b_min b_max b_count b_totalScore List.length addScores fold_left].
      repeat split; try reflexivity; lia.
    + clear IH Hrest. induction rest as [|b' rest IH]; constructor.
      * apply counted_skip. rewrite (holds_aged b' r a Ea).
        apply Forall_inv in Hb. now rewrite (Hb a Eh).
      * apply IH. now apply Forall_inv_tail in Hb.
  - constructor; [|exact IH].
    apply counted_skip. now rewrite (holds_aged b r a Ea), Eh.
Qed.

Lemma Forall2_counted_refl bs : Forall2 (counted []) bs bs.
Proof. induction bs; constructor; [apply counted_refl|assumption]. Qed.

Lemma Forall2_counted_skip r bs :
  c_age r = None -> Forall2 (counted [r]) bs bs.
Proof.
  intros E. induction bs as [|b bs IH]; constructor; [|assumption].
  apply counted_skip. unfold aged. cbn [filter]. now rewrite E.
Qed.

Lemma Forall2_counted_trans r rs bs bs1 bs2 :
  Forall2 (counted [r]) bs bs1 -> Forall2 (counted rs) bs1 bs2 ->
  Forall2 (counted (r :: rs)) bs bs2.
Proof.
  intros H1. revert bs2. induction H1 as [|b b1 bs bs1 Hb H1 IH]; intros bs2 H2.
  - inversion H2. constructor.
  - inversion H2 as [|b1' b2 bs1' bs2' Hb2 H2']; subst.
    constructor; [now apply counted_trans with b1|now apply IH].
Qed.

Lemma apart_counted rs bs bs' :
  Forall2 (counted rs) bs bs' -> ForallOrdPairs apart bs -> ForallOrdPairs apart bs'.
Proof.
  intros H2 Hap. revert bs' H2.
  induction Hap as [|b rest Hb Hrest IH]; intros bs' H2.
  - inversion H2. constructor.
  - inversion H2 as [|b0 b' rest0 rest' Hbb' Hrr']; subst.
    constructor; [|now apply IH].
    destruct Hbb' as (_ & Emin & Emax & _).
    clear -Hb Hrr' Emin Emax.
    induction Hrr' as [|c c' rest rest' Hcc' Hrr' IH']; constructor.
    + destruct Hcc' as (_ & Emin' & Emax' & _).
      apply Forall_inv in Hb. intros a. unfold holds in *.
      rewrite Emin, Emax, Emin', Emax'. apply Hb.
    + apply IH'. now apply Forall_inv_tail in Hb.
Qed.

(** The loop counts, in every bracket, the responses of its ages. *)
Lemma countResponse_counted rs : forall bs,
  ForallOrdPairs apart bs ->
  Forall2 (counted rs) bs (fold_left countResponse rs bs).
Proof.
  induction rs as [|r rs IH]; intros bs Hap; cbn [fold_left].
  - apply Forall2_counted_refl.
  - assert (H1 : Forall2 (counted [r]) bs (countResponse bs r)).
    { unfold countResponse. destruct (c_age r) as [a|] eqn:Ea.
      - now apply addToBracket_counted.
      - now apply Forall2_counted_skip. }
    apply Forall2_counted_trans with (countResponse bs r); [exact H1|].
    apply IH. now apply apart_counted with (rs := [r]) (bs := bs).
Qed.

Lemma Forall2_in_r {A B : Type} (R : A -> B -> Prop) l l' y :
  Forall2 R l l' -> In y l' -> exists x, In x l /\ R x y.
Proof.
  induction 1 as [|x y' l l' Hxy H2 IH]; intros Hin; [destruct Hin|].
  destruct Hin as [<-|Hin].
  - exists x. split; [now left|assumption].
  - destruct (IH Hin) as (x' & Hx' & Hr). exists x'. split; [now right|assumption].
Qed.

Lemma bracketsDef_apart :
  ForallOrdPairs apart
    (map (fun '(key, min, max) =>
            {| b_key := key; b_min := min; b_max := max; b_count := 0;
               b_totalScore := Finite 0 |})
         bracketsDef).
Proof.
  cbn [map bracketsDef].
  repeat (constructor;
          [repeat (constructor;
                   [intros a; unfold holds; cbn [b_min b_max];
                    rewrite andb_true_iff, andb_false_iff, !N.leb_le, !N.leb_gt; lia|]);
           constructor|]).
  constructor.
Qed.

(** The brackets with no response take nothing from the sum of the counts. *)
Lemma bracketTotal_filter (toBracket : Bucket -> AgeBracket) fs :
  (forall f, a_count (toBracket f) = b_count f) ->
  bracketTotal (map toBracket (filter (fun b => (0 <? b_count b)%N) fs))
  = fold_right (fun f acc => (b_count f + acc)%N) 0%N fs.
Proof.
  intros Hc. induction fs as [|f fs IH]; [reflexivity|]. cbn [filter fold_right].
  destruct (0 <? b_count f)%N eqn:E.
  - cbn [map bracketTotal fold_right]. fold (bracketTotal (map toBracket
        (filter (fun b => (0 <? b_count b)%N) fs))). now rewrite IH, Hc.
  - rewrite IH. apply N.ltb_ge in E. lia.
Qed.

Lemma counted_total rs bs bs' :
  Forall2 (counted rs) bs bs' ->
  fold_right (fun f acc => (b_count f + acc)%N) 0%N bs'
  = fold_right (fun b acc =>
                  (b_count b + N.of_nat (List.length (aged (b_min b) (b_max b) rs)) + acc)%N)
               0%N bs.
Proof.
  induction 1 as [|b b' bs bs' (_ & _ & _ & Ec & _) H2 IH]; [reflexivity|].
  cbn [fold_right]. now rewrite IH, Ec.
Qed.

(** The six brackets cover the ages from 15 to 150, each age once. *)
Lemma six_brackets rs :
  (List.length (aged 15 24 rs) + List.length (aged 25 34 rs) + List.length (aged 35 44 rs)
   + List.length (aged 45 54 rs) + List.length (aged 55 64 rs)
   + List.length (aged 65 150 rs))%nat
  = List.length (aged 15 150 rs).
Proof.
  induction rs as [|r rs IH]; [reflexivity|].
  unfold aged in *. cbn [filter]. destruct (c_age r) as [a|]; [|exact IH].
  repeat match goal with
         | |- context [(?x <=? ?y)%N] =>
             let E := fresh "E" in
             destruct (N.leb_spec x y) as [E|E]; try (exfalso; lia)
         end; cbn [andb List.length]; lia.
Qed.

Lemma length_aged lo hi rs : (List.length (aged lo hi rs) <= List.length rs)%nat.
Proof. apply filter_length_le. Qed.

Lemma Number_toFixed_whole_1_5 :
  Number_toFixed 2 (Finite 1) = Finite 1 /\ Number_toFixed 2 (Finite 5) = Finite 5.
Proof. split; vm_compute; reflexivity. Qed.

(** The average of a whole total between the count and five times the
    count. *)
Lemma average_range (total : Z) (count : N) :
  (0 < count)%N -> (Z.of_N count <= total <= 5 * Z.of_N count)%Z ->
  between 1 5 (Number_toFixed 2 (Finite (inject_Z total) / num count)%num).
Proof.
  intros Hc Ht.
  assert (Pc : 0 < inject_Z (Z.of_N count)) by now apply ofCount_pos.
  assert (E : (Finite (inject_Z total) / num count)%num
              = round64 (inject_Z total / inject_Z (Z.of_N count))).
  { unfold num. cbn [div].
    assert (Z : Qeq_bool (inject_Z (Z.of_N count)) 0 = false)
      by (apply Qeq_bool_false_iff; lra).
    now rewrite Z. }
  rewrite E.
  assert (Lo : 1 <= inject_Z total / inject_Z (Z.of_N count)).
  { apply Qle_shift_div_l; [assumption|]. rewrite Qmult_1_l. rewrite <- Zle_Qle. lia. }
  assert (Hi : inject_Z total / inject_Z (Z.of_N count) <= 5).
  { apply Qle_shift_div_r; [assumption|]. change 5 with (inject_Z 5).
    rewrite <- inject_Z_mult, <- Zle_Qle. lia. }
  destruct Number_toFixed_whole_1_5 as [E1 E5].
  assert (A : leb (Finite 1) (Number_toFixed 2 (round64 (inject_Z total / inject_Z (Z.of_N count))))
              = true).
  { rewrite <- E1. apply Number_toFixed_mono; [reflexivity|].
    change (Finite 1) with (round64 1). now apply round64_mono. }
  assert (B : leb (Number_toFixed 2 (round64 (inject_Z total / inject_Z (Z.of_N count))))
                  (Finite 5) = true).
  { rewrite <- E5. apply Number_toFixed_mono.
    - apply round64_nonneg. lra.
    - change (Finite 5) with (round64 5). now apply round64_mono. }
  destruct (Number_toFixed 2 (round64 (inject_Z total / inject_Z (Z.of_N count))))
    as [|[]|v]; try discriminate.
  cbn [between]. apply leb_Finite in A, B. split; assumption.
Qed.

(** X21.  The age report counts in [totalResponses] every response with an
    age and a satisfaction answer.  Each bracket it lists is one of the six
    defined brackets, has at least one response and counts exactly the
    responses whose age lies in its range.  Its average score is a number
    between 1 and 5 when no answer of its responses names a member that
    objects inherit; one such answer, [constructor] say, and the average is
    not a number.  The counts of the brackets add up to the number of
    responses with an age from 15 to 150, which can be less than
    [totalResponses]: a response of a younger or older citizen is in the
    total and in no bracket. *)
Theorem analyzeSatisfactionByAge_brackets responses :
  let valid := filter hasAgeAndSatisfaction responses in
  let r := analyzeSatisfactionByAge responses in
  a_totalResponses r = List.length valid
  /\ (forall b, In b (a_brackets r) ->
        exists lo hi,
          In (a_key b, lo, hi) bracketsDef
          /\ a_label b = a_key b
          /\ (0 < a_count b)%N
          /\ a_count b = N.of_nat (List.length (aged lo hi valid))
          /\ ((N.of_nat (List.length responses) < 2 ^ 32)%N ->
              Forall (fun r => ownAnswer r = true) (aged lo hi valid) ->
              between 1 5 (a_averageScore b))
          /\ (Exists (fun r => ownAnswer r = false) (aged lo hi valid) ->
              a_averageScore b = NaN))
  /\ bracketTotal (a_brackets r) = N.of_nat (List.length (aged 15 150 valid))
  /\ (bracketTotal (a_brackets r) <= N.of_nat (a_totalResponses r))%N.
Proof.
  cbv zeta. unfold analyzeSatisfactionByAge.
  set (valid := filter hasAgeAndSatisfaction responses).
  destruct (List.length valid =? 0)%nat eqn:E0.
  - apply Nat.eqb_eq in E0. apply length_zero_iff_nil in E0. rewrite E0.
    cbn [a_totalResponses a_brackets List.length bracketTotal fold_right aged filter].
    split; [reflexivity|]. split; [intros b []|]. split; [reflexivity|lia].
  - cbn [a_totalResponses a_brackets].
    set (init := map (fun '(key, min, max) =>
                        {| b_key := key; b_min := min; b_max := max;
                           b_count := 0; b_totalScore := Finite 0 |}) bracketsDef).
    set (toBracket := fun b => {| a_key := b_key b; a_label := b_key b; a_count := b_count b;
                                  a_averageScore :=
                                    Number_toFixed 2 (b_totalScore b / num (b_count b))%num |}).
    pose proof (countResponse_counted valid init bracketsDef_apart) as Hc.
    set (final := fold_left countResponse valid init) in *.
    assert (Htotal : bracketTotal (map toBracket (filter (fun b => (0 <? b_count b)%N) final))
                     = N.of_nat (List.length (aged 15 150 valid))).
    { rewrite (bracketTotal_filter toBracket final) by reflexivity.
      rewrite (counted_total valid init final Hc).
      unfold init. cbn [map bracketsDef fold_right b_count b_min b_max].
      rewrite <- (six_brackets valid). lia. }
    split; [reflexivity|]. split; [|split; [exact Htotal|]].
    + intros b Hin. apply in_map_iff in Hin as (f & <- & Hf).
      apply filter_In in Hf as [Hf Hpos]. apply N.ltb_lt in Hpos.
      destruct (Forall2_in_r _ _ _ f Hc Hf) as (i & Hi & Ek & Emin & Emax & Ec & Es).
      apply in_map_iff in Hi as ([[key lo] hi] & <- & Hdef).
      cbn [b_key b_min b_max b_count b_totalScore] in *.
      exists lo, hi. cbn [toBracket a_key a_label a_count a_averageScore].
      rewrite Ek. split; [assumption|]. split; [reflexivity|]. split; [assumption|].
      rewrite N.add_0_l in Ec. split; [assumption|].
      set (members := aged lo hi valid) in *.
      split.
      * intros Hlen Hown.
        assert (Hm : (List.length members <= List.length responses)%nat).
        { apply Nat.le_trans with (List.length valid); [apply length_aged|].
          apply filter_length_le. }
        destruct (addScores_own members 0 Hown) as (total & Et & Ht); [lia| |].
        { assert (Z.of_nat (List.length responses) < 2 ^ 32)%Z
            by (change (2 ^ 32)%Z with (Z.of_N (2 ^ 32)); lia).
          lia. }
        change (inject_Z 0) with 0 in Et. rewrite Es, Et.
        apply average_range; [assumption|]. rewrite Ec. rewrite nat_N_Z. lia.
      * intros Hex. rewrite Es, (addScores_inherited members (Finite 0) Hex). reflexivity.
    + rewrite Htotal. pose proof (length_aged 15 150 valid). lia.
Qed.

End Age.

(** Two responses, one of a twelve-year-old: both are counted in
    [totalResponses], one of them in a bracket. *)
Lemma analyzeSatisfactionByAge_brackets_witness :
  let r := MunicipalAnalysisEngine.analyzeSatisfactionByAge
             [respondent 12 "Satisfeito"; respondent 41 "Insatisfeito"] in
  MunicipalAnalysisEngine.a_totalResponses r = 2%nat
  /\ bracketTotal (MunicipalAnalysisEngine.a_brackets r) = 1%N.
Proof.
  intros r.
  destruct (analyzeSatisfactionByAge_brackets
              [respondent 12 "Satisfeito"; respondent 41 "Insatisfeito"])
    as (Ht & _ & Hb & _).
  fold r in Ht, Hb. split; [exact Ht|exact Hb].
Defined.

(* ================================================================== *)
(** * The rounding against the primitive floats *)
(* ================================================================== *)

(** On the counts from 1 to 48, [round64] gives the quotients, percentages,
    sums and differences that the binary64 arithmetic of the processor
    gives. *)
Lemma round64_agrees_with_floats :
  forallb (fun a => forallb (Binary64.agree a) (Binary64.upTo 48)) (Binary64.upTo 48) = true.
Proof. vm_compute. reflexivity. Qed.

(** The literals of the engine and of the worked examples. *)
Lemma literals_agree_with_floats :
  map literal [0.4; 3.83; 12.5; 63.25; 53.25; 3.77; 6.7]
  = map Binary64.ofFloat [0.4; 3.83; 12.5; 63.25; 53.25; 3.77; 6.7]%float.
Proof. vm_compute. reflexivity. Qed.

(** Quotients that fall on a tie of the exact arithmetic: 151/40 is below
    3.775 in binary64, 599/2000 times 100 below 29.95. *)
Lemma ties_agree_with_floats :
  (num 151 / num 40)%num = Binary64.ofFloat (151 / 40)%float
  /\ ltb (num 151 / num 40)%num (Finite 3.775) = true
  /\ (num 599 / num 2000 * Finite 100)%num = Binary64.ofFloat (599 / 2000 * 100)%float
  /\ ltb (num 599 / num 2000 * Finite 100)%num (Finite 29.95) = true
  /\ (num 1 / num 15 * Finite 100)%num = Binary64.ofFloat (1 / 15 * 100)%float.
Proof. repeat split; vm_compute; reflexivity. Qed.

(* ================================================================== *)
(** * Substrings, words and joining *)
(* ================================================================== *)

Close Scope Q_scope.

Lemma startsWith_iff (s p : jsstring) :
  startsWith s p = true <-> exists b, s = p ++ b.
Proof.
  revert s; induction p as [|a p IH]; intros s; simpl.
  - split; [intros _; now exists s|intros _; now destruct s].
  - destruct s as [|c s].
    + simpl. split; [discriminate|]. intros (b & E). discriminate.
    + simpl. rewrite andb_true_iff, N.eqb_eq, IH. split.
      * intros (-> & b & ->). now exists b.
      * intros (b & E). injection E as -> ->. split; [reflexivity|now exists b].
Qed.

(** [s.includes(p)] holds exactly when [p] occurs in [s]. *)
Lemma includes_iff (s p : jsstring) :
  includes s p = true <-> exists a b, s = a ++ p ++ b.
Proof.
  induction s as [|c s IH].
  - cbn [includes]. rewrite orb_false_r, startsWith_iff. split.
    + intros (b & E). now exists [], b.
    + intros (a & b & E). destruct a; simpl in E.
      * now exists b.
      * discriminate.
  - cbn [includes]. rewrite orb_true_iff, startsWith_iff, IH. split.
    + intros [(b & E)|(a & b & E)].
      * now exists [], b.
      * exists (c :: a), b. simpl. now rewrite E.
    + intros (a & b & E). destruct a as [|x a]; simpl in E.
      * left. now exists b.
      * right. injection E as -> E. now exists a, b.
Qed.

Lemma includes_trans (s p q : jsstring) :
  includes s p = true -> includes p q = true -> includes s q = true.
Proof.
  rewrite !includes_iff. intros (a & b & ->) (a' & b' & ->).
  exists (a ++ a'), (b' ++ b). now rewrite <- !app_assoc.
Qed.

Lemma includes_refl (s : jsstring) : includes s s = true.
Proof. apply includes_iff. exists [], []. now rewrite app_nil_r. Qed.

(** The pieces of [split(/\s+/)] have no white space and occur in the
    string. *)
Lemma split_ws_from_pieces s : forall cur in_ws w,
  (in_ws = true -> cur = []) ->
  spaceFree cur = true ->
  In w (split_ws_from cur in_ws s) ->
  spaceFree w = true /\ exists a b, rev cur ++ s = a ++ w ++ b.
Proof.
  induction s as [|c s IH]; intros cur in_ws w Hinv Hcur Hin; simpl in Hin.
  - destruct Hin as [<-|[]]. split.
    + unfold spaceFree in *. rewrite forallb_forall in *. intros x Hx.
      apply Hcur. now apply in_rev.
    + exists [], []. now rewrite !app_nil_r.
  - destruct (isSpace c) eqn:Ec.
    + destruct in_ws.
      * rewrite (Hinv eq_refl) in *.
        destruct (IH [] true w (fun _ => eq_refl) eq_refl Hin) as (Hw & a & b & E).
        split; [assumption|]. simpl in *. exists (c :: a), b. simpl. now rewrite E.
      * destruct Hin as [<-|Hin].
        -- split.
           ++ unfold spaceFree in *. rewrite forallb_forall in *. intros x Hx.
              apply Hcur. now apply in_rev.
           ++ exists [], (c :: s). reflexivity.
        -- destruct (IH [] true w (fun _ => eq_refl) eq_refl Hin) as (Hw & a & b & E).
           split; [assumption|]. simpl in E. exists (rev cur ++ c :: a), b.
           rewrite E. now rewrite <- app_assoc.
    + assert (Hc : spaceFree (c :: cur) = true) by (simpl; now rewrite Ec).
      assert (Hi : false = true -> c :: cur = []) by discriminate.
      destruct (IH (c :: cur) false w Hi Hc Hin) as (Hw & a & b & E).
      split; [assumption|]. exists a, b. rewrite <- E. simpl. now rewrite <- app_assoc.
Qed.

Lemma split_ws_pieces s w :
  In w (split_ws s) -> spaceFree w = true /\ includes s w = true.
Proof.
  intros Hin.
  destruct (split_ws_from_pieces s [] false w (fun _ => eq_refl) eq_refl Hin)
    as (Hw & a & b & E).
  split; [assumption|]. apply includes_iff. now exists a, b.
Qed.

Lemma trimStart_spaceFree w : spaceFree w = true -> trimStart w = w.
Proof.
  destruct w as [|c w]; simpl; [reflexivity|].
  intros E. apply andb_true_iff in E as [Ec _].
  apply negb_true_iff in Ec. now rewrite Ec.
Qed.

Lemma trimStart_head c w : isSpace c = false -> trimStart (c :: w) = c :: w.
Proof. intros E. simpl. now rewrite E. Qed.

Lemma spaceFree_rev w : spaceFree (rev w) = spaceFree w.
Proof.
  unfold spaceFree. destruct (forallb _ w) eqn:E.
  - rewrite forallb_forall in *. intros x Hx. apply E. now apply in_rev.
  - destruct (forallb _ (rev w)) eqn:E'; [|reflexivity].
    rewrite forallb_forall in E'.
    assert (forallb (fun c => negb (isSpace c)) w = true).
    { apply forallb_forall. intros x Hx. apply E'. now apply in_rev in Hx. }
    congruence.
Qed.

Lemma trim_spaceFree w : spaceFree w = true -> trim w = w.
Proof.
  intros E. unfold trim. rewrite (trimStart_spaceFree w E).
  rewrite trimStart_spaceFree by now rewrite spaceFree_rev.
  apply rev_involutive.
Qed.

Lemma split_ws_from_word w : forall cur rest,
  spaceFree w = true ->
  split_ws_from cur false (w ++ rest) = split_ws_from (rev w ++ cur) false rest.
Proof.
  induction w as [|c w IH]; intros cur rest E; simpl; [reflexivity|].
  simpl in E. apply andb_true_iff in E as [Ec Ew].
  apply negb_true_iff in Ec. rewrite Ec.
  rewrite IH by assumption. now rewrite <- app_assoc.
Qed.

Lemma split_ws_from_after_space s :
  match s with c :: _ => isSpace c = false | [] => False end ->
  split_ws_from [] true s = split_ws_from [] false s.
Proof. destruct s as [|c s]; [intros []|]. intros E. simpl. now rewrite E. Qed.

Lemma join_head sep w ws :
  word w -> match join sep (w :: ws) with c :: _ => isSpace c = false | [] => False end.
Proof.
  intros [Hne Hs]. destruct w as [|c w]; [contradiction|].
  simpl in Hs. apply andb_true_iff in Hs as [Ec _]. apply negb_true_iff in Ec.
  simpl. destruct ws; simpl; assumption.
Qed.

(** Splitting a list of words joined by single spaces gives the words
    back. *)
Lemma split_join ws :
  Forall word ws -> ws <> [] -> split_ws (join (js " ") ws) = ws.
Proof.
  unfold split_ws. induction ws as [|w ws IH]; intros F Hne; [contradiction|].
  inversion F as [|? ? Hw F']; subst.
  destruct ws as [|w2 ws].
  - simpl. rewrite <- (app_nil_r w) at 1.
    rewrite split_ws_from_word by apply Hw. simpl. now rewrite app_nil_r, rev_involutive.
  - change (join (js " ") (w :: w2 :: ws)) with (w ++ js " " ++ join (js " ") (w2 :: ws)).
    rewrite split_ws_from_word by apply Hw.
    change (js " ") with [32%N]. cbn [app split_ws_from].
    change (isSpace 32) with true. cbv iota.
    rewrite app_nil_r, rev_involutive. f_equal.
    rewrite split_ws_from_after_space.
    + apply IH; [assumption|discriminate].
    + inversion F'; subst. now apply join_head.
Qed.

Lemma word_last_nonspace w :
  word w -> exists c w', rev w = c :: w' /\ isSpace c = false.
Proof.
  intros [Hne Hs]. destruct (rev w) as [|c w'] eqn:E.
  - apply (f_equal (@rev N)) in E. rewrite rev_involutive in E. simpl in E. contradiction.
  - exists c, w'. split; [reflexivity|].
    rewrite <- spaceFree_rev, E in Hs. simpl in Hs.
    apply andb_true_iff in Hs as [Ec _]. now apply negb_true_iff in Ec.
Qed.

Lemma join_last sep ws :
  Forall word ws -> ws <> [] ->
  exists c s', rev (join sep ws) = c :: s' /\ isSpace c = false.
Proof.
  induction ws as [|w ws IH]; intros F Hne; [contradiction|].
  inversion F as [|? ? Hw F']; subst.
  destruct ws as [|w2 ws].
  - simpl. now apply word_last_nonspace.
  - destruct IH as (c & s' & E & Ec); [assumption|discriminate|].
    change (join sep (w :: w2 :: ws)) with (w ++ sep ++ join sep (w2 :: ws)).
    rewrite !rev_app_distr, E. simpl. eexists c, _. split; [reflexivity|assumption].
Qed.

Lemma trim_join ws :
  Forall word ws -> ws <> [] -> trim (join (js " ") ws) = join (js " ") ws.
Proof.
  intros F Hne. unfold trim.
  destruct ws as [|w ws]; [contradiction|].
  pose proof (join_head (js " ") w ws) as Hh.
  inversion F as [|? ? Hw F']; subst. specialize (Hh Hw).
  destruct (join (js " ") (w :: ws)) as [|c s] eqn:E; [contradiction|].
  rewrite trimStart_head by assumption.
  destruct (join_last (js " ") (w :: ws) F Hne) as (c' & s' & E' & Ec').
  rewrite E in E'. rewrite E', trimStart_head by assumption.
  rewrite <- E'. apply rev_involutive.
Qed.

Lemma join_nonempty sep ws : Forall word ws -> ws <> [] -> join sep ws <> [].
Proof.
  intros F Hne. destruct ws as [|w ws]; [contradiction|].
  inversion F as [|? ? Hw _]; subst. pose proof (join_head sep w ws Hw) as Hh.
  destruct (join sep (w :: ws)); [contradiction|discriminate].
Qed.

(* ================================================================== *)
(** * ResidentFilterService: the name search *)
(* ================================================================== *)

Section NameSearch.
Context `{JsRuntime}.
Import ResidentFilterService.

Lemma nameWords_words cleaned w :
  In w (filter nameWord (map trim (split_ws cleaned))) ->
  word w /\ (2 <= List.length w)%nat /\ hasNameLetter w = true
  /\ mem (normalize w) commonWords = false.
Proof.
  intros Hin. apply filter_In in Hin as [Hin Hk].
  apply in_map_iff in Hin as (p & <- & Hp).
  apply split_ws_pieces in Hp as [Hs _].
  rewrite (trim_spaceFree p Hs) in *.
  unfold nameWord in Hk.
  apply andb_true_iff in Hk as [Hk Hletter].
  apply andb_true_iff in Hk as [Hk Hlen].
  apply andb_true_iff in Hk as [Hk _].
  apply andb_true_iff in Hk as [_ Hcommon].
  apply Nat.leb_le in Hlen. apply negb_true_iff in Hcommon.
  repeat split; try assumption.
  intros ->. simpl in Hlen. lia.
Qed.

Lemma extractNameFromQuery_words q n :
  extractNameFromQuery q = Some n ->
  exists words,
    words <> [] /\ Forall word words /\ n = join (js " ") words
    /\ Forall (fun w => (2 <= List.length w)%nat /\ hasNameLetter w = true
                        /\ mem (normalize w) commonWords = false) words.
Proof.
  unfold extractNameFromQuery.
  destruct (includesAny (normalize q) analysisKeywords); [discriminate|].
  set (cleaned := fold_left _ searchVerbs q).
  set (words := filter nameWord (map trim (split_ws cleaned))).
  destruct (0 <? List.length words)%nat eqn:El; [|discriminate].
  intros E.
  apply (f_equal (fun o => match o with Some x => x | None => n end)) in E.
  cbv beta iota in E. subst n.
  assert (Hw : forall w, In w words -> word w /\ (2 <= List.length w)%nat
                                        /\ hasNameLetter w = true
                                        /\ mem (normalize w) commonWords = false)
    by (intros w; apply nameWords_words).
  assert (Hne : words <> []).
  { intros E. rewrite E in El. discriminate. }
  assert (F : Forall word words).
  { apply Forall_forall. intros w Hin. apply (Hw w Hin). }
  exists words. repeat split; try assumption.
  - now apply trim_join.
  - apply Forall_forall. intros w Hin. apply (Hw w Hin).
Qed.

Lemma extractNameFromQuery_nonempty q n :
  extractNameFromQuery q = Some n -> truthy n = true.
Proof.
  intros E. destruct (extractNameFromQuery_words q n E) as (ws & Hne & F & -> & _).
  pose proof (join_nonempty (js " ") ws F Hne) as Hj.
  destruct (join (js " ") ws); [contradiction|reflexivity].
Qed.

(** X1.  [extractNameFromQuery] returns [null] for a query whose normalized
    text has an analysis keyword.  A name it returns is never empty and has
    no white space at its ends: it is a list of words joined by single
    spaces, which splitting gives back, and each word has no white space, at
    least two code units, a letter of the name alphabet, and is not a common
    word. *)
Theorem extractNameFromQuery_shape q :
  (includesAny (normalize q) analysisKeywords = true -> extractNameFromQuery q = None)
  /\ (forall n,
        extractNameFromQuery q = Some n ->
        n <> [] /\ trim n = n
        /\ exists words,
            words <> [] /\ n = join (js " ") words /\ split_ws n = words
            /\ Forall (fun w => spaceFree w = true /\ (2 <= List.length w)%nat
                                /\ hasNameLetter w = true
                                /\ mem (normalize w) commonWords = false) words).
Proof.
  split.
  - intros E. unfold extractNameFromQuery. now rewrite E.
  - intros n E.
    destruct (extractNameFromQuery_words q n E) as (ws & Hne & F & -> & G).
    split; [now apply join_nonempty|].
    split; [now apply trim_join|].
    exists ws. repeat split; try assumption.
    + now apply split_join.
    + rewrite Forall_forall in *. intros w Hin.
      destruct (G w Hin) as (G1 & G2 & G3). destruct (F w Hin) as [_ Fs]. auto.
Qed.

Lemma searchWords_included searchName w :
  In w (searchWordsOf searchName) -> includes searchName w = true.
Proof.
  unfold searchWordsOf. intros Hin. apply filter_In in Hin as [Hin _].
  now apply split_ws_pieces in Hin as [_ Hi].
Qed.

(** The test for the whole phrase adds nothing to the test for its words: a
    name that contains the phrase contains each of its words. *)
Lemma nameMatches_allWords searchName c :
  nameMatches searchName (searchWordsOf searchName) c =
  match name (c_contact c) with
  | Some n => truthy n
              && forallb (fun w => includes (normalize n) w) (searchWordsOf searchName)
  | None => false
  end.
Proof.
  unfold nameMatches. destruct (name (c_contact c)) as [n|]; [|reflexivity].
  destruct (truthy n); [|reflexivity]. simpl.
  destruct (includes (normalize n) searchName) eqn:Ei; [|reflexivity].
  simpl. symmetry. apply forallb_forall. intros w Hin.
  apply (includes_trans _ _ _ Ei). now apply searchWords_included.
Qed.

(** X2.  [filterByName] returns the name-search rows of exactly the records
    that have a non-empty name whose normalized text contains every word of
    the normalized extracted name; it returns nothing when no name is
    extracted or the normalized name has no word. *)
Theorem filterByName_all_words contacts q m :
  In m (filterByName contacts q) <->
  exists c n cn,
    In c contacts /\ extractNameFromQuery q = Some n
    /\ searchWordsOf (normalize n) <> []
    /\ name (c_contact c) = Some cn /\ cn <> []
    /\ (forall w, In w (searchWordsOf (normalize n)) -> includes (normalize cn) w = true)
    /\ m = nameMatch c.
Proof.
  unfold filterByName. split.
  - destruct (extractNameFromQuery q) as [n|] eqn:En; [|intros []].
    rewrite (extractNameFromQuery_nonempty q n En). cbn [negb].
    destruct (List.length (searchWordsOf (normalize n)) =? 0)%nat eqn:El; [intros []|].
    intros Hin. apply in_map_iff in Hin as (c & <- & Hc).
    apply filter_In in Hc as [Hc Hm]. rewrite nameMatches_allWords in Hm.
    destruct (name (c_contact c)) as [cn|] eqn:Ecn; [|discriminate].
    apply andb_true_iff in Hm as [Ht Hall].
    exists c, n, cn. repeat split; try assumption; try reflexivity.
    + intros E. rewrite E in El. discriminate.
    + intros ->. discriminate.
    + intros w Hw. rewrite forallb_forall in Hall. now apply Hall.
  - intros (c & n & cn & Hc & En & Hne & Ecn & Hcn & Hall & ->).
    rewrite En, (extractNameFromQuery_nonempty q n En). cbn [negb].
    destruct (List.length (searchWordsOf (normalize n)) =? 0)%nat eqn:El.
    + apply Nat.eqb_eq in El.
      destruct (searchWordsOf (normalize n)); [contradiction|discriminate].
    + apply in_map, filter_In. split; [assumption|].
      rewrite nameMatches_allWords, Ecn.
      destruct cn; [contradiction|]. simpl. now apply forallb_forall.
Qed.

End NameSearch.

(** "Encontre o João Silva": the name is "João Silva". *)
Lemma extractNameFromQuery_shape_witness :
  let q := js "Encontre o João Silva" in
  @ResidentFilterService.extractNameFromQuery Latin1_runtime q = Some (js "João Silva")
  /\ trim (js "João Silva") = js "João Silva".
Proof.
  intros q.
  assert (E : @ResidentFilterService.extractNameFromQuery Latin1_runtime q
              = Some (js "João Silva")) by (vm_compute; reflexivity).
  split; [exact E|].
  exact (proj1 (proj2 (proj2 (@extractNameFromQuery_shape Latin1_runtime q) _ E))).
Defined.

(** The record of "João da Silva" answers the search for "joão silva",
    although its name does not contain that phrase. *)
Lemma filterByName_all_words_witness :
  let q := js "Encontre o joão silva" in
  let c := citizenNamed "João da Silva" "Neutro" in
  In (@ResidentFilterService.nameMatch c)
     (@ResidentFilterService.filterByName Latin1_runtime [c; citizenNamed "Maria Souza" "Neutro"] q).
Proof.
  intros q c.
  apply (proj2 (@filterByName_all_words Latin1_runtime
                  [c; citizenNamed "Maria Souza" "Neutro"] q
                  (ResidentFilterService.nameMatch c))).
  exists c, (js "joão silva"), (js "João da Silva").
  split; [now left|].
  split; [vm_compute; reflexivity|].
  split; [vm_compute; discriminate|].
  split; [reflexivity|].
  split; [discriminate|].
  split; [|reflexivity].
  intros w Hw. vm_compute in Hw.
  destruct Hw as [<-|[<-|[]]]; vm_compute; reflexivity.
Defined.

(* ================================================================== *)
(** * ResidentFilterService: the segment filters *)
(* ================================================================== *)

Section Segments.
Context `{JsRuntime}.
Import ResidentFilterService.

Lemma in_segment keep p cs r :
  In r (segment keep p cs) <->
  exists c s, In c cs /\ keep c = true /\ survey c = Some s
              /\ r = segmentResident c s (p s).
Proof.
  unfold segment. rewrite in_flat_map. split.
  - intros (c & Hin & Hr). destruct (keep c) eqn:Ek; [|contradiction].
    destruct (survey c) as [s|] eqn:Es; [|contradiction].
    destruct Hr as [<-|[]]. now exists c, s.
  - intros (c & s & Hin & Ek & Es & ->). exists c. split; [assumption|].
    rewrite Ek, Es. now left.
Qed.

Lemma length_flat_map_le {A B : Type} (f : A -> list B) (l : list A) :
  (forall a, List.length (f a) <= 1)%nat ->
  (List.length (flat_map f l) <= List.length l)%nat.
Proof.
  intros Hf. induction l as [|a l IH]; simpl; [lia|].
  rewrite length_app. specialize (Hf a). lia.
Qed.

Lemma length_segment keep p cs :
  (List.length (segment keep p cs) <= List.length cs)%nat.
Proof.
  apply length_flat_map_le. intros c.
  destruct (keep c); [|simpl; lia]. destruct (survey c); simpl; lia.
Qed.

Lemma length_filter_map_survey keep p cs :
  (List.length (filter_map_survey keep p cs) <= List.length cs)%nat.
Proof.
  apply length_flat_map_le. intros c.
  destruct (keep c); [|simpl; lia]. destruct (survey c); simpl; lia.
Qed.

Lemma satisfactionIn_spec levels c :
  satisfactionIn levels c = true <->
  exists s v, survey c = Some s /\ satisfaction s = Some v /\ In v levels.
Proof.
  unfold satisfactionIn. destruct (survey c) as [s|] eqn:Es.
  - destruct (satisfaction s) as [v|] eqn:Ev.
    + unfold mem. rewrite existsb_exists. split.
      * intros (x & Hx & E). apply jseqb_eq in E. subst x.
        exists s, v. repeat split; assumption || reflexivity.
      * intros (s' & v' & [= <-] & Ev' & Hin). rewrite Ev in Ev'. injection Ev' as <-.
        exists v. split; [assumption|apply jseqb_refl].
    + split; [discriminate|]. intros (s' & v & [= <-] & E & _). congruence.
  - split; [discriminate|]. intros (s' & v & E & _). discriminate.
Qed.

(** No answer is both a dissatisfied and a satisfied one. *)
Lemma levels_disjoint c :
  satisfactionIn dissatisfiedLevels c && satisfactionIn satisfiedLevels c = false.
Proof.
  destruct (satisfactionIn dissatisfiedLevels c) eqn:Ed; [|reflexivity].
  destruct (satisfactionIn satisfiedLevels c) eqn:Es; [|reflexivity].
  apply satisfactionIn_spec in Ed as (s & v & E1 & E2 & Hd).
  apply satisfactionIn_spec in Es as (s' & v' & E1' & E2' & Hs).
  rewrite E1 in E1'. injection E1' as <-. rewrite E2 in E2'. injection E2' as <-.
  destruct Hd as [<-|[<-|[]]]; destruct Hs as [E|[E|[]]];
    apply jseqb_eq in E; vm_compute in E; discriminate.
Qed.

Lemma filterDissatisfied_spec cs r :
  In r (filterDissatisfied cs) <->
  exists c s,
    In c cs /\ survey c = Some s
    /\ ((satisfaction s = Some (js "Muito insatisfeito")
         /\ r = segmentResident c s (Some HIGH))
        \/ (satisfaction s = Some (js "Insatisfeito")
            /\ r = segmentResident c s (Some MEDIUM))).
Proof.
  unfold filterDissatisfied. rewrite in_segment. split.
  - intros (c & s & Hin & Hk & Es & ->). exists c, s. repeat split; try assumption.
    apply satisfactionIn_spec in Hk as (s' & v & Es' & Ev & Hv).
    rewrite Es in Es'. injection Es' as <-. unfold priorityBy. rewrite Ev.
    destruct Hv as [<-|[<-|[]]]; [left|right]; split; reflexivity.
  - intros (c & s & Hin & Es & [[Ev ->]|[Ev ->]]); exists c, s;
      (repeat split; try assumption;
       [apply satisfactionIn_spec; exists s; eexists; repeat split; try eassumption;
        simpl; auto
       |unfold priorityBy; rewrite Ev; reflexivity]).
Qed.

Lemma filterSatisfied_spec cs r :
  In r (filterSatisfied cs) <->
  exists c s,
    In c cs /\ survey c = Some s
    /\ ((satisfaction s = Some (js "Muito satisfeito")
         /\ r = segmentResident c s (Some ADVOCATE))
        \/ (satisfaction s = Some (js "Satisfeito")
            /\ r = segmentResident c s (Some POSITIVE))).
Proof.
  unfold filterSatisfied. rewrite in_segment. split.
  - intros (c & s & Hin & Hk & Es & ->). exists c, s. repeat split; try assumption.
    apply satisfactionIn_spec in Hk as (s' & v & Es' & Ev & Hv).
    rewrite Es in Es'. injection Es' as <-. unfold priorityBy. rewrite Ev.
    destruct Hv as [<-|[<-|[]]]; [left|right]; split; reflexivity.
  - intros (c & s & Hin & Es & [[Ev ->]|[Ev ->]]); exists c, s;
      (repeat split; try assumption;
       [apply satisfactionIn_spec; exists s; eexists; repeat split; try eassumption;
        simpl; auto
       |unfold priorityBy; rewrite Ev; reflexivity]).
Qed.

Lemma filterAllWithSurvey_spec cs r :
  In r (filterAllWithSurvey cs) <->
  exists c s, In c cs /\ survey c = Some s /\ r = segmentResident c s None.
Proof.
  unfold filterAllWithSurvey. rewrite in_segment. split.
  - intros (c & s & Hin & _ & Es & ->). now exists c, s.
  - intros (c & s & Hin & Es & ->). exists c, s. repeat split; try assumption.
    unfold hasSurvey. now rewrite Es.
Qed.

(** X3.  [filterDissatisfied] keeps exactly the records whose answer is the
    literal "Muito insatisfeito", with priority HIGH, or "Insatisfeito", with
    priority MEDIUM; [filterSatisfied] exactly those whose answer is "Muito
    satisfeito", with priority ADVOCATE, or "Satisfeito", with priority
    POSITIVE; [filterAllWithSurvey] every record that has a survey, without
    a priority.  The answers are compared as they are stored. *)
Theorem segment_filters_label :
  (forall cs r,
      In r (filterDissatisfied cs) <->
      exists c s,
        In c cs /\ survey c = Some s
        /\ ((satisfaction s = Some (js "Muito insatisfeito")
             /\ r = segmentResident c s (Some HIGH))
            \/ (satisfaction s = Some (js "Insatisfeito")
                /\ r = segmentResident c s (Some MEDIUM))))
  /\ (forall cs r,
         In r (filterSatisfied cs) <->
         exists c s,
           In c cs /\ survey c = Some s
           /\ ((satisfaction s = Some (js "Muito satisfeito")
                /\ r = segmentResident c s (Some ADVOCATE))
               \/ (satisfaction s = Some (js "Satisfeito")
                   /\ r = segmentResident c s (Some POSITIVE))))
  /\ (forall cs r,
         In r (filterAllWithSurvey cs) <->
         exists c s, In c cs /\ survey c = Some s /\ r = segmentResident c s None).
Proof.
  split; [exact filterDissatisfied_spec|].
  split; [exact filterSatisfied_spec|exact filterAllWithSurvey_spec].
Qed.

Lemma satisfactionIn_hasSurvey levels c :
  satisfactionIn levels c = true -> hasSurvey c = true.
Proof. unfold satisfactionIn, hasSurvey. now destruct (survey c). Qed.

(** X4.  The segments never count a record twice: the dissatisfied and the
    satisfied rows together are at most as many as the rows of
    [filterAllWithSurvey], these at most as many as the records, and no row
    of the dissatisfied list is a row of the satisfied list. *)
Theorem segment_filters_count cs :
  (List.length (filterDissatisfied cs) + List.length (filterSatisfied cs)
   <= List.length (filterAllWithSurvey cs))%nat
  /\ (List.length (filterAllWithSurvey cs) <= List.length cs)%nat
  /\ (forall r, In r (filterDissatisfied cs) -> ~ In r (filterSatisfied cs)).
Proof.
  split; [|split].
  - unfold filterDissatisfied, filterSatisfied, filterAllWithSurvey, segment.
    induction cs as [|c cs IH]; simpl; [lia|].
    rewrite !length_app.
    pose proof (levels_disjoint c) as D.
    pose proof (satisfactionIn_hasSurvey dissatisfiedLevels c) as Sd.
    pose proof (satisfactionIn_hasSurvey satisfiedLevels c) as Ss.
    destruct (satisfactionIn dissatisfiedLevels c), (satisfactionIn satisfiedLevels c);
      try discriminate;
      try (rewrite Sd by reflexivity); try (rewrite Ss by reflexivity);
      destruct (survey c) eqn:Es; simpl; try lia;
      destruct (hasSurvey c); simpl; lia.
  - apply length_segment.
  - intros r Hd Hs.
    apply filterDissatisfied_spec in Hd as (c & s & _ & _ & Hd).
    apply filterSatisfied_spec in Hs as (c' & s' & _ & _ & Hs).
    destruct Hd as [[_ ->]|[_ ->]], Hs as [[_ E]|[_ E]]; discriminate.
Qed.

End Segments.

(* ================================================================== *)
(** * The agents: the residents of a query *)
(* ================================================================== *)

Section ResidentData.
Context `{JsRuntime}.
Import ResidentFilterService KnowledgeAgent.

Lemma segmentRow_from (f : list Contact -> list Resident) cs row :
  (forall r, In r (f (map c_contact cs)) ->
             exists c, In c (map c_contact cs) /\ r_name r = name c
                       /\ r_neighborhood r = neighborhood c /\ r_whatsapp r = whatsapp c) ->
  In row (map SegmentRow (f (map c_contact cs))) ->
  exists c, In c cs /\ fromCitizen row c.
Proof.
  intros Hf Hin. apply in_map_iff in Hin as (r & <- & Hr).
  destruct (Hf r Hr) as (c & Hc & E1 & E2 & E3).
  apply in_map_iff in Hc as (z & <- & Hz). exists z. now repeat split.
Qed.

Lemma segment_from keep p cs r :
  In r (segment keep p cs) ->
  exists c, In c cs /\ r_name r = name c
            /\ r_neighborhood r = neighborhood c /\ r_whatsapp r = whatsapp c.
Proof.
  intros Hin. apply in_segment in Hin as (c & s & Hc & _ & _ & ->). now exists c.
Qed.

Lemma filter_map_survey_from keep p cs r :
  In r (filter_map_survey keep p cs) ->
  exists c, In c cs /\ r_name r = name c
            /\ r_neighborhood r = neighborhood c /\ r_whatsapp r = whatsapp c.
Proof.
  intros Hin. apply in_filter_map_survey in Hin as (c & s & Hc & _ & _ & ->). now exists c.
Qed.

Lemma filterResidents_from cs type query row :
  In row (filterResidents cs type query) -> exists c, In c cs /\ fromCitizen row c.
Proof.
  unfold filterResidents. destruct cs as [|c0 cs0] eqn:Ecs; [intros []|]. rewrite <- Ecs.
  destruct type as [[]|]; try (intros []).
  - intros Hin. apply in_map_iff in Hin as (m & <- & Hm).
    unfold filterByName in Hm.
    destruct (extractNameFromQuery _); [|destruct Hm].
    destruct (negb _); [destruct Hm|].
    destruct (_ =? 0)%nat; [destruct Hm|].
    apply in_map_iff in Hm as (c & <- & Hc). apply filter_In in Hc as [Hc _].
    exists c. now repeat split.
  - apply segmentRow_from. intros r. apply segment_from.
  - apply segmentRow_from. intros r. apply segment_from.
  - apply segmentRow_from. intros r. apply filter_map_survey_from.
  - apply segmentRow_from. intros r. apply filter_map_survey_from.
  - apply segmentRow_from. intros r. apply segment_from.
Qed.

Lemma length_filterResidents cs type query :
  (List.length (filterResidents cs type query) <= List.length cs)%nat.
Proof.
  unfold filterResidents. destruct cs as [|c0 cs0] eqn:Ecs; [simpl; lia|]. rewrite <- Ecs.
  destruct type as [[]|]; try (simpl; lia); rewrite length_map;
    try (rewrite <- (length_map c_contact cs);
         first [apply length_segment | apply length_filter_map_survey]).
  unfold filterByName.
  destruct (extractNameFromQuery _); [|simpl; lia].
  destruct (negb _); [simpl; lia|].
  destruct (_ =? 0)%nat; [simpl; lia|].
  rewrite length_map. apply filter_length_le.
Qed.

Lemma nameRow_filterResidents cs type query m :
  In (NameRow m) (filterResidents cs type query) -> type = Some name_search.
Proof.
  unfold filterResidents. destruct cs as [|c0 cs0]; [intros []|].
  destruct type as [[]|]; try reflexivity; try (intros []);
    intros Hin; apply in_map_iff in Hin as (r & E & _); discriminate.
Qed.

Lemma determineFilterType_name_search q :
  determineFilterType q = Some name_search ->
  isNameSearchQuery q = true /\ includesAny (normalize q) analysisKeywords = false.
Proof.
  unfold determineFilterType.
  destruct (notInterestedPattern _); [discriminate|].
  destruct (interestedPattern _); [discriminate|].
  destruct (isNameSearchQuery q) eqn:E.
  - intros _. split; [reflexivity|]. unfold isNameSearchQuery in E.
    now destruct (includesAny (normalize q) analysisKeywords).
  - destruct (dissatisfiedPattern _); [discriminate|].
    destruct (satisfiedPattern _); [discriminate|].
    destruct (listingPattern _); discriminate.
Qed.

(** X5.  The residents an agent extracts for a query are never more than the
    records of the context, and every row carries the name, the
    neighborhood and the WhatsApp number of one of these records; no filter
    kind gives no row; and a name-search row is returned only for a query
    that [isNameSearchQuery] accepts, and then the normalized text of the
    query, lower-case and without accents, contains none of the analysis
    keywords as the source lists them.  (A keyword that the source lists
    with an accent is never contained in a text without accents.) *)
Theorem extractResidentData_from_contacts q cs :
  (List.length (extractResidentData q cs) <= List.length cs)%nat
  /\ (forall row, In row (extractResidentData q cs) ->
                  exists c, In c cs /\ fromCitizen row c)
  /\ (determineFilterType q = None -> extractResidentData q cs = [])
  /\ (forall m, In (NameRow m) (extractResidentData q cs) ->
                isNameSearchQuery q = true
                /\ includesAny (normalize q) analysisKeywords = false).
Proof.
  unfold extractResidentData. split; [|split; [|split]].
  - destruct (_ =? 0)%nat; [simpl; lia|].
    destruct (determineFilterType q); [apply length_filterResidents|simpl; lia].
  - intros row. destruct (_ =? 0)%nat; [intros []|].
    destruct (determineFilterType q); [apply filterResidents_from|intros []].
  - intros ->. now destruct (_ =? 0)%nat.
  - intros m. destruct (_ =? 0)%nat; [intros []|].
    destruct (determineFilterType q) as [t|] eqn:Et; [|intros []].
    intros Hin. apply nameRow_filterResidents in Hin. injection Hin as ->.
    now apply determineFilterType_name_search.
Qed.

End ResidentData.

(** "Encontre Maria Souza" among two records: one row, Maria's. *)
Lemma extractResidentData_from_contacts_witness :
  let q := js "Encontre Maria Souza" in
  let cs := [citizenNamed "João da Silva" "Neutro"; citizenNamed "Maria Souza" "Satisfeito"] in
  map rowName (@KnowledgeAgent.extractResidentData Latin1_runtime q cs)
  = [Some (js "Maria Souza")]
  /\ @ResidentFilterService.isNameSearchQuery Latin1_runtime q = true.
Proof.
  intros q cs. split; [vm_compute; reflexivity|].
  apply (proj2 (proj2 (proj2 (@extractResidentData_from_contacts Latin1_runtime q cs)))
           (ResidentFilterService.nameMatch (citizenNamed "Maria Souza" "Satisfeito"))).
  vm_compute. left. reflexivity.
Defined.

(* ================================================================== *)
(** * Binary64: order and clamping *)
(* ================================================================== *)


(** Comparing the other way round gives the opposite answer. *)
Lemma SFcompare_antisym x y :
  SFcompare y x = option_map CompOpp (SFcompare x y).
Proof.
  destruct x as [sx|sx| |sx mx ex], y as [sy|sy| |sy my ey]; simpl; try reflexivity;
    try (destruct sx; reflexivity); try (destruct sy; reflexivity);
    try (destruct sx, sy; reflexivity).
  change (PosDef.Pos.compare_cont Eq my mx) with (Pos.compare my mx).
  change (PosDef.Pos.compare_cont Eq mx my) with (Pos.compare mx my).
  rewrite (Z.compare_antisym ex ey), (Pos.compare_antisym mx my).
  destruct sx, sy; try reflexivity;
    destruct (ex ?= ey)%Z; simpl; try reflexivity;
    now destruct (mx ?= my)%positive.
Qed.

Lemma ltb_leb (x y : float) : (x <? y)%float = true -> (x <=? y)%float = true.
Proof.
  rewrite ltb_spec, leb_spec. unfold SFltb, SFleb.
  now destruct (SFcompare (Prim2SF x) (Prim2SF y)) as [[]|].
Qed.

Lemma is_nan_compare (x : float) :
  PrimFloat.is_nan x = false -> SFcompare (Prim2SF x) (Prim2SF x) = Some Eq.
Proof.
  unfold PrimFloat.is_nan. rewrite negb_false_iff, eqb_spec. unfold SFeqb.
  now destruct (SFcompare (Prim2SF x) (Prim2SF x)) as [[]|].
Qed.

Lemma compare_defined (x y : float) :
  PrimFloat.is_nan x = false -> PrimFloat.is_nan y = false ->
  exists o, SFcompare (Prim2SF x) (Prim2SF y) = Some o.
Proof.
  intros Hx Hy. apply is_nan_compare in Hx, Hy.
  destruct (Prim2SF x) as [sx|sx| |sx mx ex], (Prim2SF y) as [sy|sy| |sy my ey];
    simpl in *; try discriminate; eauto.
Qed.

(** Two numbers, neither of them NaN, are in order one way or the other. *)
Lemma not_ltb_leb (x y : float) :
  PrimFloat.is_nan x = false -> PrimFloat.is_nan y = false ->
  (x <? y)%float = false -> (y <=? x)%float = true.
Proof.
  intros Hx Hy. rewrite ltb_spec, leb_spec. unfold SFltb, SFleb.
  rewrite (SFcompare_antisym (Prim2SF x) (Prim2SF y)).
  destruct (compare_defined x y Hx Hy) as (o & ->). now destruct o.
Qed.

Lemma SFcompare_refl x : x <> S754_nan -> SFcompare x x = Some Eq.
Proof.
  destruct x as [s|s| |s m e]; simpl; intros Hn; try reflexivity.
  - now destruct s.
  - contradiction.
  - change (PosDef.Pos.compare_cont Eq m m) with (Pos.compare m m).
    rewrite Z.compare_refl, Pos.compare_refl. now destruct s.
Qed.

Lemma is_nan_false_iff (x : float) :
  PrimFloat.is_nan x = false <-> Prim2SF x <> S754_nan.
Proof.
  unfold PrimFloat.is_nan. rewrite negb_false_iff, eqb_spec. unfold SFeqb. split.
  - intros E Hn. rewrite Hn in E. discriminate.
  - intros Hn. now rewrite SFcompare_refl.
Qed.

Lemma ltb_not_nan (x y : float) :
  (x <? y)%float = true -> PrimFloat.is_nan x = false /\ PrimFloat.is_nan y = false.
Proof.
  rewrite ltb_spec, !is_nan_false_iff. unfold SFltb.
  destruct (Prim2SF x), (Prim2SF y); simpl; try discriminate; intros _; split; discriminate.
Qed.

Lemma clamp01_cases (c : float) :
  clamp01 c =
  if PrimFloat.is_nan c then PrimFloat.nan
  else if (1 <? c)%float then 1%float
  else if (0 <? c)%float then c
  else 0%float.
Proof.
  unfold clamp01, Math_min, Math_max.
  change (PrimFloat.is_nan 1) with false. change (PrimFloat.is_nan 0) with false.
  change (PrimFloat.get_sign 1) with false. change (PrimFloat.get_sign 0) with false.
  cbn [orb].
  destruct (PrimFloat.is_nan c) eqn:En.
  - reflexivity.
  - destruct (1 <? c)%float eqn:E1.
    + reflexivity.
    + assert (Em : (if (c <? 1)%float then c else c) = c) by now destruct (c <? 1)%float.
      rewrite Em, En. destruct (0 <? c)%float; [reflexivity|].
      now destruct (c <? 0)%float.
Qed.

Lemma clamp01_range (c : float) :
  PrimFloat.is_nan (clamp01 c) = PrimFloat.is_nan c
  /\ (PrimFloat.is_nan c = false ->
      (0 <=? clamp01 c)%float = true /\ (clamp01 c <=? 1)%float = true).
Proof.
  rewrite clamp01_cases.
  destruct (PrimFloat.is_nan c) eqn:En; [split; [reflexivity|discriminate]|].
  destruct (1 <? c)%float eqn:E1; [repeat split; reflexivity|].
  destruct (0 <? c)%float eqn:E0; [|repeat split; reflexivity].
  split; [assumption|]. intros _. split.
  - now apply ltb_leb.
  - now apply not_ltb_leb.
Qed.

(** A number whose clamp is below 0.65 is below 0.65. *)
Lemma clamp01_below (c : float) :
  (clamp01 c <? 0.65)%float = true -> (c <? 0.65)%float = true.
Proof.
  rewrite clamp01_cases.
  destruct (PrimFloat.is_nan c) eqn:En; [discriminate|].
  destruct (1 <? c)%float eqn:E1; [discriminate|].
  destruct (0 <? c)%float eqn:E0; [trivial|].
  intros _. revert En E0. unfold PrimFloat.is_nan. rewrite !ltb_spec, eqb_spec.
  unfold SFltb, SFeqb.
  change (Prim2SF 0) with (S754_zero false).
  assert (E65 : exists m e, Prim2SF 0.65 = S754_finite false m e)
    by (vm_compute; eauto).
  destruct E65 as (m & e & ->).
  destruct (Prim2SF c) as [sx|sx| |sx mx ex]; simpl; try discriminate; try reflexivity.
  - destruct sx; simpl; intros; discriminate || reflexivity.
  - destruct sx; simpl; intros; discriminate || reflexivity.
Qed.


(* ================================================================== *)
(** * ScopeClassifier: the verdict *)
(* ================================================================== *)

Lemma indexOf_app c prefix rest :
  indexOf c prefix = None -> indexOf c (prefix ++ c :: rest) = Some (List.length prefix).
Proof.
  induction prefix as [|x prefix IH]; simpl.
  - intros _. now rewrite N.eqb_refl.
  - destruct (x =? c)%N; [discriminate|].
    destruct (indexOf c prefix); [discriminate|]. intros _. now rewrite IH.
Qed.

Lemma lastIndexOf_app c front suffix :
  lastIndexOf c suffix = None ->
  lastIndexOf c (front ++ c :: suffix) = Some (List.length front).
Proof.
  intros Hs. induction front as [|x front IH]; simpl.
  - rewrite Hs. now rewrite N.eqb_refl.
  - now rewrite IH.
Qed.

Lemma slice_middle (a b c : jsstring) :
  slice (List.length a) (List.length a + List.length b) (a ++ b ++ c) = b.
Proof.
  unfold slice. rewrite skipn_app, skipn_all, Nat.sub_diag. simpl.
  replace (List.length a + List.length b - List.length a)%nat with (List.length b) by lia.
  rewrite firstn_app, firstn_all, Nat.sub_diag. simpl. apply app_nil_r.
Qed.

Section Classifier.
Context `{JsRuntime}.
Variable key : option jsstring.
Variable w : World.
Import ScopeClassifier.

Lemma classify_blank query :
  nonblank query = false ->
  run w (classify key query)
  = ({| sr_inScope := false; sr_confidence := 0; sr_categories := [];
        sr_reason := JStr (js "Empty query"); sr_raw := None; sr_error := None |}, []).
Proof.
  unfold nonblank, classify. intros E.
  replace (negb (truthy query) || negb (trim_nonempty query)) with true; [reflexivity|].
  destruct (truthy query), (trim_nonempty query); simpl in *; congruence.
Qed.

Lemma classify_nonblank query :
  nonblank query = true ->
  classify key query =
  if negb (enabled key) then
    Done {| sr_inScope := true; sr_confidence := 0.5;
            sr_categories := [JStr (js "unknown")];
            sr_reason := JStr (js "LLM scope classifier disabled (no API key)");
            sr_raw := None; sr_error := None |}
  else
    Ask (ClassifierRequest query) (fun reply =>
      match reply with
      | Returned raw => Done (verdict query raw)
      | Thrown message =>
          Done {| sr_inScope := true; sr_confidence := 0.5;
                  sr_categories := [JStr (js "error-fallback")];
                  sr_reason := JStr (js "Classifier call failed");
                  sr_raw := None; sr_error := Some message |}
      end).
Proof.
  unfold nonblank, classify. intros E. apply andb_true_iff in E as [-> ->]. reflexivity.
Qed.

Lemma verdict_inScope query raw :
  sr_inScope (verdict query raw) = false <->
  json_truthy (safeParseJson raw) = true
  /\ (parsedInScope (safeParseJson raw) = false
      \/ ((parsedConfidence (safeParseJson raw) <? 0.65)%float = true
          /\ anchorMatches query = 0%nat)).
Proof.
  unfold verdict. destruct (json_truthy (safeParseJson raw)); cbn [negb].
  - cbn [sr_inScope]. destruct (parsedInScope (safeParseJson raw)); cbn [andb].
    + destruct (parsedConfidence (safeParseJson raw) <? 0.65)%float; cbn [andb].
      * rewrite <- Nat.eqb_eq. destruct (anchorMatches query =? 0)%nat; intuition congruence.
      * intuition congruence.
    + intuition congruence.
  - cbn [sr_inScope]. intuition congruence.
Qed.

(** X6.  [classify] reports a query out of scope in exactly two cases: the
    query is empty or blank; or the classifier is enabled, the provider
    returned a text that [safeParseJson] turns into a truthy value, and
    this value either does not say in-scope or carries a confidence below
    0.65 while the query has none of the anchor tokens.  So a disabled
    classifier, a failed call and an unparsable reply never put a query
    that is not blank out of scope. *)
Theorem classify_out_of_scope_iff query :
  sr_inScope (fst (run w (classify key query))) = false <->
  nonblank query = false
  \/ (nonblank query = true /\ enabled key = true
      /\ exists raw,
          w (ClassifierRequest query) = Returned raw
          /\ json_truthy (safeParseJson raw) = true
          /\ (parsedInScope (safeParseJson raw) = false
              \/ ((parsedConfidence (safeParseJson raw) <? 0.65)%float = true
                  /\ anchorMatches query = 0%nat))).
Proof.
  destruct (nonblank query) eqn:Eb.
  - rewrite (classify_nonblank query Eb).
    destruct (enabled key); cbn [negb].
    + rewrite run_Ask. cbn [fst].
      destruct (w (ClassifierRequest query)) as [raw|m] eqn:Ew.
      * cbn [run fst]. rewrite verdict_inScope. split.
        -- intros (Ht & Hv). right. repeat split. exists raw. now repeat split.
        -- intros [E|(_ & _ & raw' & E & Ht & Hv)]; [discriminate|].
           injection E as <-. now split.
      * cbn [run fst sr_inScope]. split; [discriminate|].
        intros [E|(_ & _ & raw & E & _)]; discriminate.
    + cbn [run fst sr_inScope]. split; [discriminate|].
      intros [E|(_ & E & _)]; discriminate.
  - rewrite (classify_blank query Eb). cbn [fst sr_inScope]. split; [now left|reflexivity].
Qed.

(** X7.  The confidence [classify] returns lies between 0 and 1, whatever
    the provider replied; the one exception is NaN, returned only when the
    parsed reply itself carries NaN as its confidence. *)
Theorem classify_confidence_clamped query :
  let c := sr_confidence (fst (run w (classify key query))) in
  (PrimFloat.is_nan c = true \/ ((0 <=? c)%float = true /\ (c <=? 1)%float = true))
  /\ (PrimFloat.is_nan c = true ->
      exists raw, w (ClassifierRequest query) = Returned raw
                  /\ PrimFloat.is_nan (parsedConfidence (safeParseJson raw)) = true).
Proof.
  cbv zeta. destruct (nonblank query) eqn:Eb.
  - rewrite (classify_nonblank query Eb).
    destruct (enabled key); cbn [negb].
    + rewrite run_Ask. cbn [fst].
      destruct (w (ClassifierRequest query)) as [raw|m] eqn:Ew.
      * cbn [run fst]. unfold verdict.
        destruct (json_truthy (safeParseJson raw)); cbn [negb sr_confidence].
        -- fold (clamp01 (parsedConfidence (safeParseJson raw))).
           destruct (clamp01_range (parsedConfidence (safeParseJson raw))) as [En Hr].
           rewrite En. split.
           ++ destruct (PrimFloat.is_nan (parsedConfidence (safeParseJson raw)));
                [now left|right; now apply Hr].
           ++ intros Hn. now exists raw.
        -- split; [right; split; reflexivity|discriminate].
      * cbn [run fst sr_confidence]. split; [right; split; reflexivity|discriminate].
    + cbn [run fst sr_confidence]. split; [right; split; reflexivity|discriminate].
  - rewrite (classify_blank query Eb). cbn [fst sr_confidence].
    split; [right; split; reflexivity|discriminate].
Qed.

(** X8.  [safeParseJson]: the empty text gives [null]; a text that parses
    is parsed as it stands; a text that does not parse and lacks an opening
    or a closing brace gives [null]; and a text that does not parse as it
    stands, made of an object between a prefix without opening brace and a
    suffix without closing brace, gives what the object alone parses to. *)
Theorem safeParseJson_extracts_object :
  safeParseJson [] = JNull
  /\ (forall text v, text <> [] -> JSON_parse text = Some v -> safeParseJson text = v)
  /\ (forall text, JSON_parse text = None ->
                   indexOf 123 text = None \/ lastIndexOf 125 text = None ->
                   safeParseJson text = JNull)
  /\ (forall prefix mid suffix v,
         JSON_parse (prefix ++ (123%N :: mid ++ [125%N]) ++ suffix) = None ->
         indexOf 123 prefix = None ->
         lastIndexOf 125 suffix = None ->
         JSON_parse (123%N :: mid ++ [125%N]) = Some v ->
         safeParseJson (prefix ++ (123%N :: mid ++ [125%N]) ++ suffix) = v).
Proof.
  split; [reflexivity|]. split; [|split].
  - intros text v Hne Hp. unfold safeParseJson.
    destruct text; [contradiction|]. cbn [truthy negb]. now rewrite Hp.
  - intros text Hp Hb. unfold safeParseJson. destruct (negb (truthy text)); [reflexivity|].
    rewrite Hp. destruct Hb as [-> | Hl]; [reflexivity|].
    rewrite Hl. now destruct (indexOf 123 text).
  - intros prefix mid suffix v Hwhole Hpre Hsuf Hbody. unfold safeParseJson.
    set (text := prefix ++ (123%N :: mid ++ [125%N]) ++ suffix) in *.
    assert (Ht : truthy text = true).
    { unfold text. destruct prefix; reflexivity. }
    rewrite Ht. cbn [negb]. rewrite Hwhole.
    assert (Ei : indexOf 123 text = Some (List.length prefix)).
    { unfold text. cbn [app]. now apply indexOf_app. }
    assert (El : lastIndexOf 125 text = Some (List.length prefix + S (List.length mid))).
    { unfold text.
      replace (prefix ++ (123%N :: mid ++ [125%N]) ++ suffix)
        with ((prefix ++ 123%N :: mid) ++ 125%N :: suffix).
      - rewrite (lastIndexOf_app 125 (prefix ++ 123%N :: mid) suffix Hsuf).
        rewrite length_app. reflexivity.
      - rewrite <- !app_assoc. cbn [app]. now rewrite <- app_assoc. }
    rewrite Ei, El.
    replace (List.length prefix <? List.length prefix + S (List.length mid))%nat with true
      by (symmetry; apply Nat.ltb_lt; lia).
    replace (List.length prefix + S (List.length mid) + 1)%nat
      with (List.length prefix + List.length (123%N :: mid ++ [125%N]))%nat
      by (cbn [List.length]; rewrite length_app; cbn [List.length]; lia).
    unfold text. rewrite slice_middle. now rewrite Hbody.
Qed.

End Classifier.

(** A reply that wraps its object in prose. *)
Lemma safeParseJson_extracts_object_witness :
  @ScopeClassifier.safeParseJson Latin1_runtime (jsonText "Claro! {'inScope': false} Fim.")
  = JObj [(js "inScope", JBool false)].
Proof.
  apply (proj2 (proj2 (proj2 (@safeParseJson_extracts_object Latin1_runtime)))
           (js "Claro! ") (jsonText "'inScope': false") (js " Fim.")
           (JObj [(js "inScope", JBool false)]));
    vm_compute; reflexivity.
Defined.

(* ================================================================== *)
(** * QueryAnalyzer: the analysis of a query *)
(* ================================================================== *)

Section Analyzer.
Context `{JsRuntime}.
Variable key : option jsstring.
Variable w : World.
Import ScopeClassifier QueryAnalyzer Orchestrator.

Lemma analyzeQuery_blank query :
  nonblank query = false ->
  analyzeQuery key query = Done (createDefaultAnalysis (js "Empty query")).
Proof.
  unfold nonblank, analyzeQuery. intros E.
  replace (negb (truthy query) || negb (trim_nonempty query)) with true; [reflexivity|].
  destruct (truthy query), (trim_nonempty query); simpl in *; congruence.
Qed.

Lemma analyzeQuery_prechecked query :
  nonblank query = true -> prechecked query = true ->
  analyzeQuery key query = Done (precheckAnalysis query).
Proof.
  unfold nonblank, prechecked, precheckAnalysis, analyzeQuery,
    analysisRequest, analysisPhrase, segmentRequest.
  intros E P. apply andb_true_iff in E as [-> ->]. cbn [negb orb].
  destruct (isStatisticalOrOperationalQuery query); [reflexivity|].
  destruct (hasAnalysisKeyword (normalize query) && hasDisplayVerb (normalize query));
    [reflexivity|].
  destruct (hasAnalysisKeyword (normalize query) && _); [reflexivity|].
  destruct (hasFilterKeyword (normalize query) && _); [reflexivity|].
  cbn [orb] in P. now rewrite P.
Qed.

Lemma analyzeQuery_classified query :
  nonblank query = true -> prechecked query = false ->
  analyzeQuery key query =
  (scope <- classify key query ;; Done (afterClassification query scope)).
Proof.
  unfold nonblank, prechecked, analyzeQuery, analysisRequest, analysisPhrase, segmentRequest.
  intros E P. apply andb_true_iff in E as [-> ->]. cbn [negb orb].
  destruct (isStatisticalOrOperationalQuery query); [discriminate|].
  destruct (hasAnalysisKeyword (normalize query) && hasDisplayVerb (normalize query));
    [discriminate|].
  destruct (hasAnalysisKeyword (normalize query) && _); [discriminate|].
  destruct (hasFilterKeyword (normalize query) && _); [discriminate|].
  cbn [orb] in P. now rewrite P.
Qed.

Lemma prechecked_false query :
  prechecked query = false ->
  isStatisticalOrOperationalQuery query = false /\ detectNameSearch query = false.
Proof.
  unfold prechecked. intros P.
  destruct (isStatisticalOrOperationalQuery query); [discriminate|].
  destruct (detectNameSearch query); [|auto].
  rewrite !orb_true_r in P. discriminate.
Qed.

(** What steps 2 to 5 make of the classifier's result when no pre-check
    matched: the overrides of step 4 cannot apply, and there is no canonical
    intent to map. *)
Lemma afterClassification_unchecked query scope :
  prechecked query = false ->
  afterClassification query scope =
  if negb (sr_inScope scope) then blockedAnalysis (sr_reason scope) (sr_confidence scope)
  else if (sr_confidence scope <? 0.65)%float && negb (hasMunicipalDomainTokens query)
  then blockedAnalysis
         (JStr (js "Low-confidence classification and no municipal domain tokens detected"))
         (sr_confidence scope)
  else
    let h := analyzeQueryHeuristically query in
    {| scope := {| inScope := true; confidence := sr_confidence scope;
                   categories := Some (sr_categories scope);
                   canonicalIntent := None;
                   reason := sr_reason scope |};
       intent := primaryIntent h; queryType := h_queryType h;
       dataNeeds := h_dataNeeds h; urgency := h_urgency h; blocked := false |}.
Proof.
  intros P. destruct (prechecked_false query P) as [Es Ed].
  unfold afterClassification. rewrite Es, Ed. reflexivity.
Qed.

(** The shapes of the heuristic analysis. *)
Lemma heuristic_shape query :
  let h := analyzeQueryHeuristically query in
  In (primaryIntent h) agentIntents
  /\ h_urgency h = js "normal"
  /\ truthy (primaryIntent h) = true
  /\ truthy (h_queryType h) = true
  /\ mem (js "name_search") (remove_first (js "name_search") (h_dataNeeds h)) = false.
Proof.
  cbv zeta. unfold analyzeQueryHeuristically.
  destruct (includesAny (normalize query) heuristicNameSearchVerbs && _).
  { repeat split; try reflexivity. now left. }
  destruct (includesAny (normalize query) listVerbs && _).
  { repeat split; try reflexivity. right. now left. }
  destruct ((includes (normalize query) (js "clicked") || _) && _).
  { repeat split; try reflexivity. right. now left. }
  cbn [primaryIntent h_urgency h_queryType h_dataNeeds].
  split; [|split; [reflexivity|split; [|split; [reflexivity|]]]].
  - destruct (includes (normalize query) (js "send") || _ || _ || _); [right; now left|].
    destruct (includes (normalize query) (js "system") || _ || _ || _);
      [right; right; now left|now left].
  - destruct (includes (normalize query) (js "send") || _ || _ || _); [reflexivity|].
    destruct (includes (normalize query) (js "system") || _ || _ || _); reflexivity.
  - unfold push.
    destruct (includes (normalize query) (js "total") || _ || _ || _ || _ || _ || _);
    destruct (includes (normalize query) (js "dissatisfied") || _ || _);
    destruct ((includes (normalize query) (js "satisfied") || _) && _);
    destruct (includes (normalize query) (js "particip") || _ || _);
    destruct (includes (normalize query) (js "neighborhood") || _ || _);
    vm_compute; reflexivity.
Qed.


Lemma agentIntents_in_scope i : In i agentIntents -> i <> js "out_of_scope".
Proof. intros [<-|[<-|[<-|[]]]]; vm_compute; discriminate. Qed.

Lemma coherent_inScope nb conf cats canonical why i t needs :
  In i agentIntents ->
  coherent nb (inScopeAnalysis conf cats canonical why i t needs (js "normal")).
Proof.
  intros Hi. unfold coherent, inScopeAnalysis.
  cbn [blocked scope inScope urgency intent dataNeeds negb].
  split; [reflexivity|]. split; [reflexivity|]. split; [now right|].
  split; [discriminate|]. split; [|intros _; assumption].
  split.
  - intros E. now apply agentIntents_in_scope in Hi.
  - intros [E _]. discriminate.
Qed.

Lemma coherent_blocked why conf : coherent true (blockedAnalysis why conf).
Proof.
  unfold coherent, blockedAnalysis.
  cbn [blocked scope inScope urgency intent dataNeeds negb].
  split; [reflexivity|]. split; [reflexivity|]. split; [now left|].
  split; [reflexivity|]. split; [|discriminate].
  split; [intros _; now split|reflexivity].
Qed.

Lemma coherent_precheck query : coherent true (precheckAnalysis query).
Proof.
  destruct (heuristic_shape query) as (Hi & Hu & Ht & Hq & _).
  unfold precheckAnalysis.
  destruct (isStatisticalOrOperationalQuery query).
  { unfold statisticalAnalysis. rewrite Ht, Hu. cbn [negb]. now apply coherent_inScope. }
  destruct (analysisRequest (normalize query)).
  { unfold displayedAnalysis. apply coherent_inScope. now left. }
  destruct (analysisPhrase (normalize query)).
  { unfold prepositionAnalysis. apply coherent_inScope. now left. }
  destruct (segmentRequest (normalize query)).
  { unfold filterAnalysis. rewrite Hu.
    destruct (includes (normalize query) (js "insatisf") || _).
    - destruct (hasFilterVerb (normalize query) && _); apply coherent_inScope;
        [right; now left|now left].
    - destruct (includes (normalize query) (js "particip") || _).
      + destruct (includes (normalize query) (js "nao") || _ || _);
          apply coherent_inScope; right; now left.
      + now apply coherent_inScope. }
  unfold nameSearchAnalysis. rewrite Hu. apply coherent_inScope.
  destruct (negb (truthy _) || negb (jseqb _ _)); [now left|assumption].
Qed.

Lemma coherent_classified query verdict :
  prechecked query = false -> coherent true (afterClassification query verdict).
Proof.
  intros P. rewrite (afterClassification_unchecked query verdict P).
  destruct (negb (sr_inScope verdict)); [apply coherent_blocked|].
  destruct ((sr_confidence verdict <? 0.65)%float && _); [apply coherent_blocked|].
  destruct (heuristic_shape query) as (Hi & Hu & _).
  cbv zeta. unfold coherent.
  cbn [blocked scope inScope urgency intent dataNeeds negb]. rewrite Hu.
  split; [reflexivity|]. split; [reflexivity|]. split; [now right|].
  split; [discriminate|]. split; [|intros _; assumption].
  split.
  - intros E. now apply agentIntents_in_scope in Hi.
  - intros [E _]. discriminate.
Qed.

(** X9.  Every analysis [analyzeQuery] returns is coherent: it is blocked
    exactly when its scope is out of scope; its urgency is normal; its
    intent is out_of_scope or names one of the three agents; a blocked
    analysis asks for no data; the intent is out_of_scope exactly for a
    blocked query that is not blank (an empty query is blocked with the
    default intent knowledge); and an analysis that is not blocked names
    an agent. *)
Theorem analyzeQuery_coherent query :
  let a := fst (run w (analyzeQuery key query)) in
  blocked a = negb (inScope (scope a))
  /\ urgency a = js "normal"
  /\ In (intent a) (js "out_of_scope" :: agentIntents)
  /\ (blocked a = true -> dataNeeds a = [])
  /\ (intent a = js "out_of_scope" <-> blocked a = true /\ nonblank query = true)
  /\ (blocked a = false -> In (intent a) agentIntents).
Proof.
  cbv zeta. change (coherent (nonblank query) (fst (run w (analyzeQuery key query)))).
  destruct (nonblank query) eqn:Eb.
  - destruct (prechecked query) eqn:Ep.
    + rewrite (analyzeQuery_prechecked query Eb Ep). apply coherent_precheck.
    + rewrite (analyzeQuery_classified query Eb Ep), run_bind. cbn [fst run].
      now apply coherent_classified.
  - rewrite (analyzeQuery_blank query Eb). cbn [fst run].
    unfold coherent, createDefaultAnalysis.
    cbn [blocked scope inScope urgency intent dataNeeds negb].
    rewrite jseqb_refl.
    split; [reflexivity|]. split; [reflexivity|]. split; [right; now left|].
    split; [reflexivity|]. split; [|discriminate].
    split; [intros E; vm_compute in E; discriminate|intros [_ E]; discriminate].
Qed.

(** X10.  [analyzeQuery] makes at most one external call: the classifier
    request for the query itself, made exactly when the query is not blank,
    none of the pre-checks of steps 0 to 0.5 catches it and an API key is
    configured. *)
Theorem analyzeQuery_consults_iff query :
  snd (run w (analyzeQuery key query)) =
  if nonblank query && negb (prechecked query) && enabled key
  then [ClassifierRequest query] else [].
Proof.
  destruct (nonblank query) eqn:Eb; cbn [andb].
  - destruct (prechecked query) eqn:Ep; cbn [negb andb].
    + now rewrite (analyzeQuery_prechecked query Eb Ep).
    + rewrite (analyzeQuery_classified query Eb Ep), run_bind. cbn [snd run].
      rewrite app_nil_r, (classify_nonblank key query Eb).
      destruct (enabled key); cbn [negb]; [|reflexivity].
      rewrite run_Ask. cbn [snd].
      now destruct (w (ClassifierRequest query)).
  - now rewrite (analyzeQuery_blank query Eb).
Qed.


Lemma anchors_are_domain_tokens query :
  anchorMatches query <> 0%nat -> hasMunicipalDomainTokens query = true.
Proof.
  unfold anchorMatches, hasMunicipalDomainTokens, includesAny. intros Hn.
  destruct (filter (fun t => includes (toLowerCase query) t) ScopeClassifier.municipalTokens)
    as [|t ts] eqn:Ef; [contradiction|].
  assert (Hin : In t (filter (fun t => includes (toLowerCase query) t)
                             ScopeClassifier.municipalTokens))
    by (rewrite Ef; now left).
  apply filter_In in Hin as [Hin Hi].
  apply existsb_exists. exists t. split; [|assumption].
  clear -Hin. unfold ScopeClassifier.municipalTokens in Hin.
  unfold QueryAnalyzer.municipalTokens.
  repeat (destruct Hin as [<-|Hin]; [vm_compute; tauto|]). destruct Hin.
Qed.

Lemma verdict_kept query raw :
  json_truthy (safeParseJson raw) = true ->
  sr_inScope (verdict query raw) = true ->
  sr_confidence (verdict query raw) = clamp01 (parsedConfidence (safeParseJson raw))
  /\ ((parsedConfidence (safeParseJson raw) <? 0.65)%float = true ->
      anchorMatches query <> 0%nat).
Proof.
  unfold verdict. intros ->. cbn [negb sr_inScope sr_confidence].
  destruct (parsedInScope (safeParseJson raw)); cbn [andb]; [|discriminate].
  destruct (parsedConfidence (safeParseJson raw) <? 0.65)%float; cbn [andb].
  - destruct (anchorMatches query =? 0)%nat eqn:Ea; [discriminate|].
    intros _. split; [reflexivity|]. intros _. now apply Nat.eqb_neq.
  - intros _. split; [reflexivity|discriminate].
Qed.

(** X11.  When a query that no pre-check catches gets no usable verdict (the
    classifier is disabled, its call fails or its reply cannot be parsed),
    the analysis is blocked exactly when the query has no municipal domain
    token; a blocked one has the intent out_of_scope, the others are in
    scope with the intent of the heuristic analysis. *)
Theorem unusable_verdict_blocks_without_tokens query :
  nonblank query = true -> prechecked query = false ->
  (enabled key = false
   \/ (exists m, w (ClassifierRequest query) = Thrown m)
   \/ (exists raw, w (ClassifierRequest query) = Returned raw
                   /\ json_truthy (safeParseJson raw) = false)) ->
  let a := fst (run w (analyzeQuery key query)) in
  blocked a = negb (hasMunicipalDomainTokens query)
  /\ (blocked a = true -> intent a = js "out_of_scope")
  /\ (blocked a = false ->
      intent a = primaryIntent (analyzeQueryHeuristically query)
      /\ inScope (scope a) = true).
Proof.
  intros Eb Ep Hno. cbv zeta.
  rewrite (analyzeQuery_classified query Eb Ep), run_bind. cbn [fst run].
  rewrite (afterClassification_unchecked query _ Ep).
  rewrite (classify_nonblank key query Eb).
  assert (Hs : exists s,
             fst (run w (if negb (enabled key)
                         then Done {| sr_inScope := true; sr_confidence := 0.5;
                                      sr_categories := [JStr (js "unknown")];
                                      sr_reason := JStr (js "LLM scope classifier disabled (no API key)");
                                      sr_raw := None; sr_error := None |}
                         else Ask (ClassifierRequest query) (fun reply =>
                                match reply with
                                | Returned raw => Done (verdict query raw)
                                | Thrown message =>
                                    Done {| sr_inScope := true; sr_confidence := 0.5;
                                            sr_categories := [JStr (js "error-fallback")];
                                            sr_reason := JStr (js "Classifier call failed");
                                            sr_raw := None; sr_error := Some message |}
                                end))) = s
             /\ sr_inScope s = true /\ (sr_confidence s <? 0.65)%float = true).
  { destruct (enabled key) eqn:Ee; cbn [negb].
    - rewrite run_Ask. cbn [fst].
      destruct Hno as [E|[(m & Ew)|(raw & Ew & Ht)]]; [discriminate| |]; rewrite Ew.
      + eexists. split; [reflexivity|]. split; reflexivity.
      + cbn [run fst]. unfold verdict. rewrite Ht. cbn [negb].
        eexists. split; [reflexivity|]. split; reflexivity.
    - eexists. split; [reflexivity|]. split; reflexivity. }
  destruct Hs as (s & -> & Hi & Hc). rewrite Hi, Hc. cbn [negb andb].
  destruct (hasMunicipalDomainTokens query); cbn [negb].
  - cbv zeta. cbn [blocked intent scope inScope]. repeat split; discriminate || reflexivity.
  - unfold blockedAnalysis. cbn [blocked intent]. repeat split; discriminate || reflexivity.
Qed.

(** X12.  When the reply of the classifier parses, the verdict of [classify]
    decides alone: the analysis is blocked exactly when that verdict is out
    of scope, so the second look of step 5 at low confidences never blocks
    what [classify] kept in scope; the confidence is the clamped one of the
    reply, and an unblocked analysis takes its intent and its data needs
    from the heuristic analysis. *)
Theorem parsed_verdict_decides query raw :
  nonblank query = true -> prechecked query = false -> enabled key = true ->
  w (ClassifierRequest query) = Returned raw ->
  json_truthy (safeParseJson raw) = true ->
  let a := fst (run w (analyzeQuery key query)) in
  blocked a = negb (sr_inScope (verdict query raw))
  /\ confidence (scope a) = clamp01 (parsedConfidence (safeParseJson raw))
  /\ (blocked a = false ->
      intent a = primaryIntent (analyzeQueryHeuristically query)
      /\ dataNeeds a = h_dataNeeds (analyzeQueryHeuristically query)).
Proof.
  intros Eb Ep Ee Ew Ht. cbv zeta.
  rewrite (analyzeQuery_classified query Eb Ep), run_bind. cbn [fst run].
  rewrite (afterClassification_unchecked query _ Ep).
  rewrite (classify_nonblank key query Eb), Ee. cbn [negb].
  rewrite run_Ask, Ew. cbn [fst run].
  assert (Hconf : sr_confidence (verdict query raw)
                  = clamp01 (parsedConfidence (safeParseJson raw))).
  { unfold verdict. rewrite Ht. reflexivity. }
  destruct (sr_inScope (verdict query raw)) eqn:Ei; cbn [negb].
  - destruct (verdict_kept query raw Ht Ei) as [_ Ha].
    destruct ((sr_confidence (verdict query raw) <? 0.65)%float) eqn:Ec; cbn [andb].
    + rewrite Hconf in Ec. apply clamp01_below in Ec.
      rewrite (anchors_are_domain_tokens query (Ha Ec)). cbn [negb].
      cbv zeta. cbn [blocked scope confidence intent dataNeeds].
      repeat split; assumption || reflexivity.
    + cbv zeta. cbn [blocked scope confidence intent dataNeeds].
      repeat split; assumption || reflexivity.
  - unfold blockedAnalysis. cbn [blocked scope confidence].
    repeat split; try assumption; discriminate.
Qed.

Lemma mem_push_new x xs t :
  jseqb x t = false -> mem x (push_new xs t) = mem x xs.
Proof.
  intros Ne. unfold push_new. destruct (mem t xs); [reflexivity|].
  unfold push, mem. rewrite existsb_app. simpl. now rewrite Ne, !orb_false_r.
Qed.

Lemma precheckAnalysis_unblocked query :
  blocked (precheckAnalysis query) = false
  /\ inScope (scope (precheckAnalysis query)) = true.
Proof.
  unfold precheckAnalysis, statisticalAnalysis, displayedAnalysis, prepositionAnalysis,
    filterAnalysis, nameSearchAnalysis.
  repeat match goal with
         | |- context [if ?c then _ else _] => destruct c
         end; split; reflexivity.
Qed.

(** X13.  A query that is not statistical and asks to display an analysis
    (an analysis keyword with a display verb), or that asks for a segment
    of residents without being an analysis phrase, is answered by the
    pre-checks: no classifier call, not blocked, and never a name search,
    whatever names it contains; a displayed analysis has the intent
    knowledge and the query type analysis. *)
Theorem requests_are_not_name_searches query :
  nonblank query = true ->
  isStatisticalOrOperationalQuery query = false ->
  analysisRequest (normalize query) = true
  \/ (analysisPhrase (normalize query) = false /\ segmentRequest (normalize query) = true) ->
  let a := fst (run w (analyzeQuery key query)) in
  isNameSearch a = false
  /\ blocked a = false
  /\ snd (run w (analyzeQuery key query)) = []
  /\ (analysisRequest (normalize query) = true ->
      intent a = js "knowledge" /\ queryType a = js "analysis").
Proof.
  intros Eb Es Hreq. cbv zeta.
  assert (Ep : prechecked query = true).
  { unfold prechecked. rewrite Es. cbn [orb].
    destruct Hreq as [->|[-> ->]]; [reflexivity|].
    now rewrite !orb_true_r. }
  rewrite (analyzeQuery_prechecked query Eb Ep). cbn [fst snd run].
  destruct (heuristic_shape query) as (_ & _ & _ & _ & Hns).
  destruct (precheckAnalysis_unblocked query) as [Hub _]. rewrite Hub.
  unfold precheckAnalysis. rewrite Es.
  assert (Hd : isNameSearch (displayedAnalysis query) = false).
  { unfold isNameSearch, displayedAnalysis, inScopeAnalysis. cbn [dataNeeds].
    repeat match goal with
           | |- context [if ?c then push_new _ _ else _] => destruct c
           end;
      rewrite ?mem_push_new by reflexivity; exact Hns. }
  assert (Hf : isNameSearch (filterAnalysis query) = false).
  { unfold isNameSearch, filterAnalysis.
    repeat match goal with
           | |- context [if ?c then _ else _] => destruct c
           end;
      unfold inScopeAnalysis; cbn [dataNeeds];
      rewrite ?mem_push_new by reflexivity; exact Hns. }
  destruct (analysisRequest (normalize query)) eqn:Ea.
  - split; [assumption|]. split; [reflexivity|]. split; [reflexivity|].
    intros _. split; reflexivity.
  - destruct Hreq as [E|[-> ->]]; [discriminate|].
    split; [assumption|]. split; [reflexivity|]. split; [reflexivity|].
    intros E. discriminate.
Qed.

End Analyzer.

(* ================================================================== *)
(** * The low-confidence safeguard, end to end *)
(* ================================================================== *)

Section LowConfidence.
Context `{JsRuntime}.
Variable key : option jsstring.
Variable w : World.
Import ScopeClassifier QueryAnalyzer Orchestrator.

(** With a key, the classifier asks the provider about every query that is
    not blank, and returns the verdict read off the reply. *)
Lemma classify_verdict query raw :
  nonblank query = true -> enabled key = true ->
  w (ClassifierRequest query) = Returned raw ->
  run w (classify key query) = (verdict query raw, [ClassifierRequest query]).
Proof.
  unfold nonblank, classify. intros E Hk Hw.
  apply andb_true_iff in E as [-> ->]. rewrite Hk. cbn [negb orb].
  rewrite run_Ask, Hw. reflexivity.
Qed.

(** C4, as the code has it.  Take a query that is not blank, a classifier
    with a key, and a verdict of the provider that parses as in-scope with a
    confidence below 0.65, on a query without a token of the anchor list.
    [classify] flips the verdict and returns [inScope = false].  End to end
    the query is blocked, with intent [out_of_scope], exactly when no
    pre-check of [analyzeQuery] matches it: how the request is then answered
    is the out-of-scope result of the orchestrator, after the one call of the
    classifier.  A query that a pre-check matches (a statistical or
    operational query, an analysis keyword with a display verb or a
    preposition, a resident filter, a name search) is answered by the
    pre-check, without a call of the classifier, and is not blocked. *)
Theorem low_confidence_verdict_blocks query raw :
  nonblank query = true -> enabled key = true ->
  w (ClassifierRequest query) = Returned raw ->
  json_truthy (safeParseJson raw) = true ->
  parsedInScope (safeParseJson raw) = true ->
  (parsedConfidence (safeParseJson raw) <? 0.65)%float = true ->
  anchorMatches query = 0%nat ->
  let analysis := fst (run w (analyzeQuery key query)) in
  sr_inScope (fst (run w (classify key query))) = false
  /\ (prechecked query = false ->
      blocked analysis = true
      /\ intent analysis = js "out_of_scope"
      /\ inScope (scope analysis) = false
      /\ snd (run w (analyzeQuery key query)) = [ClassifierRequest query]
      /\ exists sc,
          fst (run w (orchestrate key query))
          = OutOfScope query (js "out_of_scope") redirection true sc [])
  /\ (prechecked query = true ->
      blocked analysis = false
      /\ inScope (scope analysis) = true
      /\ snd (run w (analyzeQuery key query)) = [])
  /\ (blocked analysis = true <-> prechecked query = false).
Proof.
  intros Hn Hk Hw Ht Hin Hc Hm. cbv zeta.
  pose proof (classify_verdict query raw Hn Hk Hw) as Ec.
  destruct (verdict_flips query raw Ht Hin Hc Hm) as [Hflip _].
  assert (Hchecked : prechecked query = true ->
            blocked (fst (run w (analyzeQuery key query))) = false
            /\ inScope (scope (fst (run w (analyzeQuery key query)))) = true
            /\ snd (run w (analyzeQuery key query)) = []).
  { intros Hp. rewrite (analyzeQuery_prechecked key query Hn Hp). cbn [run fst snd].
    destruct (precheckAnalysis_unblocked query) as [Hb Hs]. auto. }
  assert (Hunchecked : prechecked query = false ->
            blocked (fst (run w (analyzeQuery key query))) = true
            /\ intent (fst (run w (analyzeQuery key query))) = js "out_of_scope"
            /\ inScope (scope (fst (run w (analyzeQuery key query)))) = false
            /\ snd (run w (analyzeQuery key query)) = [ClassifierRequest query]).
  { intros Hp. destruct (prechecked_false query Hp) as [Hs Hd].
    rewrite (analyzeQuery_classified key query Hn Hp), run_bind, Ec.
    cbn [run fst snd app].
    rewrite (afterClassification_blocks query (verdict query raw) Hflip Hs Hd).
    repeat split; reflexivity. }
  split; [rewrite Ec; exact Hflip|].
  split; [|split; [exact Hchecked|]].
  - intros Hp. destruct (Hunchecked Hp) as (Hb & Hi & Hs & Htr).
    repeat split; try assumption.
    eexists. rewrite (orchestrate_blocked key w query Hb). reflexivity.
  - destruct (prechecked query) eqn:Hp.
    + destruct (Hchecked eq_refl) as (Hb & _). rewrite Hb. split; discriminate.
    + destruct (Hunchecked eq_refl) as (Hb & _). rewrite Hb. split; reflexivity.
Qed.

End LowConfidence.

(** "Quero pedir uma pizza" with an uncertain verdict of the provider: the
    witness of C4. *)
Lemma low_confidence_verdict_blocks_witness :
  let q := js "Quero pedir uma pizza" in
  sr_inScope (fst (run uncertainWorld (@ScopeClassifier.classify Latin1_runtime testKey q)))
  = false
  /\ @prechecked Latin1_runtime q = false
  /\ blocked (fst (run uncertainWorld (@QueryAnalyzer.analyzeQuery Latin1_runtime testKey q)))
     = true
  /\ intent (fst (run uncertainWorld (@QueryAnalyzer.analyzeQuery Latin1_runtime testKey q)))
     = js "out_of_scope".
Proof.
  assert (Hp : @prechecked Latin1_runtime (js "Quero pedir uma pizza") = false)
    by (vm_compute; reflexivity).
  pose proof (@low_confidence_verdict_blocks Latin1_runtime testKey uncertainWorld
                (js "Quero pedir uma pizza") uncertainVerdict
                eq_refl eq_refl eq_refl) as T.
  destruct T as (Tc & Te & _); try (vm_compute; reflexivity).
  destruct (Te Hp) as (Hb & Hi & _).
  split; [exact Tc|]. split; [exact Hp|]. split; [exact Hb|exact Hi].
Defined.

(** The counterexample of C4 as stated: "Mostre uma pizza" is not blank, has
    no token of the anchor list, and the verdict of the provider parses as
    in-scope with the confidence 0.5, so that [classify] returns
    [inScope = false]; yet the name-search pre-check answers the query
    before the classifier is asked, and the analysis is not blocked: its
    intent is [knowledge]. *)
Lemma low_confidence_query_passes_counterexample :
  (nonblank pizzaRequest = true
   /\ ScopeClassifier.enabled testKey = true
   /\ uncertainWorld (ClassifierRequest pizzaRequest) = Returned uncertainVerdict
   /\ ScopeClassifier.parsedInScope (@ScopeClassifier.safeParseJson Latin1_runtime
                                      uncertainVerdict) = true
   /\ (ScopeClassifier.parsedConfidence (@ScopeClassifier.safeParseJson Latin1_runtime
                                           uncertainVerdict) <? 0.65)%float = true
   /\ @ScopeClassifier.anchorMatches Latin1_runtime pizzaRequest = 0%nat
   /\ sr_inScope (fst (run uncertainWorld
                         (@ScopeClassifier.classify Latin1_runtime testKey pizzaRequest)))
      = false)
  /\ @QueryAnalyzer.detectNameSearch Latin1_runtime pizzaRequest = true
  /\ snd (run uncertainWorld
            (@QueryAnalyzer.analyzeQuery Latin1_runtime testKey pizzaRequest)) = []
  /\ blocked (fst (run uncertainWorld
                     (@QueryAnalyzer.analyzeQuery Latin1_runtime testKey pizzaRequest)))
     = false
  /\ intent (fst (run uncertainWorld
                    (@QueryAnalyzer.analyzeQuery Latin1_runtime testKey pizzaRequest)))
     = js "knowledge".
Proof.
  repeat split; vm_compute; reflexivity.
Qed.

(** Without a key, "Quero pedir uma pizza" has no domain token and is
    blocked. *)
Lemma unusable_verdict_blocks_without_tokens_witness :
  let q := js "Quero pedir uma pizza" in
  let a := fst (run uncertainWorld (@QueryAnalyzer.analyzeQuery Latin1_runtime None q)) in
  blocked a = true /\ intent a = js "out_of_scope".
Proof.
  intros q a.
  assert (Eb : nonblank q = true) by (vm_compute; reflexivity).
  assert (Ep : @prechecked Latin1_runtime q = false) by (vm_compute; reflexivity).
  assert (Ee : ScopeClassifier.enabled None = false) by reflexivity.
  destruct (@unusable_verdict_blocks_without_tokens Latin1_runtime None uncertainWorld q
              Eb Ep (or_introl Ee)) as (Hb & Hi & _).
  assert (Et : @QueryAnalyzer.hasMunicipalDomainTokens Latin1_runtime q = false)
    by (vm_compute; reflexivity).
  fold a in Hb, Hi. rewrite Et in Hb. split; [exact Hb|exact (Hi Hb)].
Defined.

(** An uncertain verdict on a query with anchor tokens stays in scope, and
    step 5 does not block it. *)
Lemma parsed_verdict_decides_witness :
  let q := js "Como anda a taxa de resposta?" in
  let a := fst (run uncertainWorld (@QueryAnalyzer.analyzeQuery Latin1_runtime testKey q)) in
  blocked a = false /\ confidence (scope a) = 0.5%float /\ intent a = js "knowledge".
Proof.
  intros q a.
  assert (Eb : nonblank q = true) by (vm_compute; reflexivity).
  assert (Ep : @prechecked Latin1_runtime q = false) by (vm_compute; reflexivity).
  assert (Ee : ScopeClassifier.enabled testKey = true) by (vm_compute; reflexivity).
  assert (Ew : uncertainWorld (ClassifierRequest q) = Returned uncertainVerdict)
    by reflexivity.
  assert (Ht : json_truthy (@ScopeClassifier.safeParseJson Latin1_runtime uncertainVerdict)
               = true) by (vm_compute; reflexivity).
  destruct (@parsed_verdict_decides Latin1_runtime testKey uncertainWorld q uncertainVerdict
              Eb Ep Ee Ew Ht) as (Hb & Hc & Hi).
  fold a in Hb, Hc, Hi.
  assert (Ev : sr_inScope (@ScopeClassifier.verdict Latin1_runtime q uncertainVerdict) = true)
    by (vm_compute; reflexivity).
  rewrite Ev in Hb. split; [exact Hb|]. split.
  - rewrite Hc. vm_compute. reflexivity.
  - destruct (Hi Hb) as [-> _]. vm_compute. reflexivity.
Defined.

(** The first quick suggestion of the interface. *)
Lemma requests_are_not_name_searches_witness :
  let q := js "Mostrar análise de satisfação" in
  let a := fst (run uncertainWorld (@QueryAnalyzer.analyzeQuery Latin1_runtime testKey q)) in
  Orchestrator.isNameSearch a = false /\ blocked a = false /\ intent a = js "knowledge".
Proof.
  intros q a.
  assert (Eb : nonblank q = true) by (vm_compute; reflexivity).
  assert (Es : @QueryAnalyzer.isStatisticalOrOperationalQuery Latin1_runtime q = false)
    by (vm_compute; reflexivity).
  assert (Ea : @analysisRequest Latin1_runtime (@normalize Latin1_runtime q) = true)
    by (vm_compute; reflexivity).
  destruct (@requests_are_not_name_searches Latin1_runtime testKey uncertainWorld q
              Eb Es (or_introl Ea)) as (Hn & Hb & _ & Hi).
  fold a in Hn, Hb, Hi. split; [exact Hn|]. split; [exact Hb|]. exact (proj1 (Hi Ea)).
Defined.

(* ================================================================== *)
(** * The orchestrator: the final response *)
(* ================================================================== *)

Section FinalResponse.
Import Orchestrator.

Lemma deterministic_or_default ar :
  or_default (analysisField summary ar) (deterministicText ar) = deterministicText ar.
Proof.
  unfold deterministicText, or_default.
  destruct (analysisField summary ar) as [s|]; [|reflexivity].
  now destruct s.
Qed.

(** What [arbitrate] returns, case by case. *)
Lemma arbitrate_cases qa ar llm :
  (arbitrate qa ar llm = (analysisField summary ar, js "focused_search")
   /\ isNameSearch qa = true /\ hasNameSearchMarker ar = true)
  \/ (arbitrate qa ar llm = (Some (deterministicText ar), js "focused_search")
      /\ isNameSearch qa = true)
  \/ arbitrate qa ar llm = (Some (deterministicText ar), js "data-driven")
  \/ (exists l, llm = Some l
        /\ arbitrate qa ar llm = (Some (response l), js "llm-enhanced")
        /\ (isNameSearch qa && hasNameSearchMarker ar = false)
        /\ (if isNameSearch qa then (List.length (response l) <? 500)%nat
            else levelIs llm "excellent" || levelIs llm "good") = true).
Proof.
  unfold arbitrate.
  destruct (isNameSearch qa) eqn:En; cbn [andb].
  - destruct (hasNameSearchMarker ar) eqn:Em; [now left|].
    destruct (levelIs llm "excellent" || levelIs llm "good") eqn:Eq.
    + destruct llm as [l|]; [|right; right; now left].
      destruct (hasRealData ar (response l) && _) eqn:Ec.
      * right; right; right. exists l. apply andb_true_iff in Ec as [_ Ec].
        now repeat split.
      * right; left. now rewrite deterministic_or_default.
    + destruct llm as [l|]; [|right; right; now left].
      destruct (truthy (response l) && trim_nonempty (response l) && _) eqn:Ec.
      * right; right; right. exists l. apply andb_true_iff in Ec as [_ Ec].
        now repeat split.
      * right; right; now left.
  - destruct (levelIs llm "excellent" || levelIs llm "good") eqn:Eq.
    + destruct llm as [l|]; [|right; right; now left].
      destruct (hasRealData ar (response l) || _).
      * right; right; right. exists l. now repeat split.
      * right; right; now left.
    + destruct llm as [l|]; right; right; now left.
Qed.

(** X14.  Whatever the candidates are, the final response carries one of
    the three quality tags, and [llmEnhanced] and [provenance.llm.used] both
    say whether the tag is llm-enhanced.  An enhanced response is the text
    of an LLM result that exists; on a name search it is shorter than 500
    units and the agent result has no name-search marker, on any other
    query the LLM quality is excellent or good.  A response that is not
    enhanced is the deterministic text, or the summary as it stands on a
    name search with the marker.  The residents are always those of the
    agent, a name search carries no insights and no recommendations, and
    [success] is true. *)
Theorem final_response_provenance query qa ctx ar llm :
  let f := constructFinalResponse query qa ctx ar llm in
  In (f_responseQuality f) qualityTags
  /\ f_llmEnhanced f = jseqb (f_responseQuality f) (js "llm-enhanced")
  /\ f_llmUsed f = f_llmEnhanced f
  /\ (f_llmEnhanced f = true ->
      exists l, llm = Some l /\ f_response f = Some (response l)
                /\ (isNameSearch qa = true ->
                    hasNameSearchMarker ar = false
                    /\ (List.length (response l) < 500)%nat)
                /\ (isNameSearch qa = false ->
                    levelIs llm "excellent" || levelIs llm "good" = true))
  /\ (f_llmEnhanced f = false ->
      f_response f = Some (deterministicText ar)
      \/ (isNameSearch qa = true /\ hasNameSearchMarker ar = true
          /\ f_response f = analysisField summary ar))
  /\ f_residents f = list_or_empty (analysisField residents ar)
  /\ (isNameSearch qa = true -> f_insights f = [] /\ f_recommendations f = [])
  /\ f_success f = true.
Proof.
  cbv zeta. unfold constructFinalResponse.
  destruct (arbitrate_cases qa ar llm)
    as [(E & En & Em)|[(E & En)|[E|(l & El & E & Em & Ec)]]]; rewrite E;
    cbn [f_responseQuality f_llmEnhanced f_llmUsed f_response f_residents f_insights
         f_recommendations f_success].
  - rewrite tag_focused. split; [now left|]. split; [reflexivity|].
    split; [now destruct llm|]. split; [discriminate|].
    split; [intros _; right; now repeat split|]. split; [reflexivity|].
    split; [|reflexivity]. intros ->. now split.
  - rewrite tag_focused. split; [now left|]. split; [reflexivity|].
    split; [now destruct llm|]. split; [discriminate|].
    split; [intros _; now left|]. split; [reflexivity|].
    split; [|reflexivity]. intros ->. now split.
  - rewrite tag_data_driven. split; [right; right; now left|]. split; [reflexivity|].
    split; [now destruct llm|]. split; [discriminate|].
    split; [intros _; now left|]. split; [reflexivity|].
    split; [|reflexivity]. intros ->. now split.
  - rewrite tag_enhanced. split; [right; now left|]. split; [reflexivity|].
    split; [now rewrite El|]. split.
    + intros _. exists l. split; [assumption|]. split; [reflexivity|]. split.
      * intros En. rewrite En in Em, Ec. cbn [andb] in Em. split; [assumption|].
        now apply Nat.ltb_lt.
      * intros En. now rewrite En in Ec.
    + split; [discriminate|]. split; [reflexivity|].
      split; [|reflexivity]. intros ->. now split.
Qed.

(** X15.  When the quality of the LLM result is neither excellent nor good:
    a query that is not a name search gets the deterministic text, tagged
    data-driven; a name search without the marker gets the LLM text exactly
    when that text is not blank and shorter than 500 units, whether it
    names a resident or not, and the deterministic text, tagged
    data-driven, otherwise. *)
Theorem low_quality_arbitration query qa ctx ar l :
  levelIs (Some l) "excellent" = false -> levelIs (Some l) "good" = false ->
  let f := constructFinalResponse query qa ctx ar (Some l) in
  (isNameSearch qa = false ->
   f_response f = Some (deterministicText ar) /\ f_llmEnhanced f = false
   /\ f_responseQuality f = js "data-driven")
  /\ (isNameSearch qa = true -> hasNameSearchMarker ar = false ->
      (f_llmEnhanced f = true <->
       response l <> [] /\ trim_nonempty (response l) = true
       /\ (List.length (response l) < 500)%nat)
      /\ (f_llmEnhanced f = true -> f_response f = Some (response l))
      /\ (f_llmEnhanced f = false ->
          f_response f = Some (deterministicText ar)
          /\ f_responseQuality f = js "data-driven")).
Proof.
  intros Ee Eg. cbv zeta. unfold constructFinalResponse, arbitrate.
  rewrite Ee, Eg. cbn [orb]. split.
  - intros ->. cbn [andb f_response f_llmEnhanced f_responseQuality].
    rewrite tag_data_driven. now repeat split.
  - intros -> ->. cbn [andb].
    assert (Hiff : truthy (response l) && trim_nonempty (response l)
                   && (List.length (response l) <? 500)%nat = true
                   <-> response l <> [] /\ trim_nonempty (response l) = true
                       /\ (List.length (response l) < 500)%nat).
    { rewrite !andb_true_iff, Nat.ltb_lt. unfold truthy.
      destruct (response l); cbn [negb]; intuition congruence. }
    destruct (truthy (response l) && trim_nonempty (response l) && _);
      cbn [f_response f_llmEnhanced f_responseQuality].
    + rewrite tag_enhanced. split; [exact Hiff|]. split; [reflexivity|discriminate].
    + rewrite tag_data_driven. split; [exact Hiff|]. split; [discriminate|].
      intros _. now split.
Qed.

End FinalResponse.

(* ================================================================== *)
(** * The orchestrator: the pipeline *)
(* ================================================================== *)

Lemma constructFinalResponse_success query qa ctx ar llm :
  Orchestrator.f_success (Orchestrator.constructFinalResponse query qa ctx ar llm) = true.
Proof.
  unfold Orchestrator.constructFinalResponse.
  now destruct (Orchestrator.arbitrate qa ar llm).
Qed.

Section Pipeline.
Context `{JsRuntime}.
Variable key : option jsstring.
Variable w : World.
Import QueryAnalyzer Orchestrator.

(** The run of [orchestrate] on a query whose analysis is not blocked, one
    case for each way the pipeline can end. *)
Lemma orchestrate_pipeline query :
  let a := fst (run w (analyzeQuery key query)) in
  let t := snd (run w (analyzeQuery key query)) in
  let gc := GenerateContext a in
  blocked a = false ->
  (exists m, w gc = Thrown m
             /\ run w (orchestrate key query) = (createErrorResponse query m, t ++ [gc]))
  \/ (exists ctx, w gc = Returned ctx /\
        let ra := RunAgent (agentFor (intent a)) query a ctx in
        (exists m, w ra = Thrown m
                   /\ run w (orchestrate key query)
                      = (createErrorResponse query m, t ++ [gc; ra]))
        \/ (exists ar, w ra = Returned ar /\
              let en := EnhanceWithLLM query a ctx ar in
              if hasValidApiKey key && negb (jseqb (intent a) (js "ticket")) then
                run w (orchestrate key query)
                = (Final (constructFinalResponse query a ctx ar
                            match w en with Returned r => Some r | Thrown _ => None end),
                   t ++ [gc; ra; en])
              else
                run w (orchestrate key query)
                = (Final (constructFinalResponse query a ctx ar None), t ++ [gc; ra]))).
Proof.
  cbv zeta. intros Hb. unfold orchestrate. rewrite run_bind, Hb.
  rewrite run_Ask.
  destruct (w (GenerateContext (fst (run w (analyzeQuery key query))))) as [ctx|m] eqn:Ec.
  - right. exists ctx. split; [reflexivity|].
    rewrite run_Ask.
    destruct (w (RunAgent _ query _ ctx)) as [ar|m] eqn:Ea.
    + right. exists ar. split; [reflexivity|].
      destruct (hasValidApiKey key && _).
      * rewrite run_Ask. cbn [run fst snd].
        now destruct (w (EnhanceWithLLM query _ ctx ar)).
      * reflexivity.
    + left. exists m. split; reflexivity.
  - left. exists m. split; reflexivity.
Qed.

Lemma classifier_not_enhancement query c :
  In c (snd (run w (analyzeQuery key query))) -> c = ClassifierRequest query.
Proof.
  intros Hin.
  destruct (analyzeQuery_trace key w query) as [E|E]; rewrite E in Hin; [|destruct Hin].
  destruct (classify_trace key w query) as [E'|E']; rewrite E' in Hin.
  - destruct Hin.
  - destruct Hin as [<-|[]]. reflexivity.
Qed.

Lemma length_analysis_trace query :
  (List.length (snd (run w (analyzeQuery key query))) <= 1)%nat.
Proof.
  destruct (analyzeQuery_trace key w query) as [E|E]; rewrite E; [|simpl; lia].
  destruct (classify_trace key w query) as [E'|E']; rewrite E'; simpl; lia.
Qed.

(** X16.  A request makes at most four external calls.  The LLM enhancement
    is requested only for the query and the analysis of the request, when
    the analysis is not blocked, an API key is configured and the intent is
    not ticket, and only with the context and the agent result that the
    context builder and the agent returned.  An agent is run only for an
    unblocked analysis, with the context that was returned, and it is the
    agent of the intent. *)
Theorem enhancement_guard query :
  let a := fst (run w (analyzeQuery key query)) in
  let trace := snd (run w (orchestrate key query)) in
  (List.length trace <= 4)%nat
  /\ (forall query' a' ctx ar,
         In (EnhanceWithLLM query' a' ctx ar) trace ->
         query' = query /\ a' = a
         /\ blocked a = false
         /\ hasValidApiKey key = true
         /\ intent a <> js "ticket"
         /\ w (GenerateContext a) = Returned ctx
         /\ w (RunAgent (agentFor (intent a)) query a ctx) = Returned ar)
  /\ (forall g query' a' ctx,
         In (RunAgent g query' a' ctx) trace ->
         g = agentFor (intent a) /\ query' = query /\ a' = a
         /\ blocked a = false
         /\ w (GenerateContext a) = Returned ctx).
Proof.
  cbv zeta. pose proof (length_analysis_trace query) as Hlen.
  destruct (blocked (fst (run w (analyzeQuery key query)))) eqn:Hb.
  - rewrite (orchestrate_blocked key w query Hb). cbn [snd].
    split; [lia|]. split.
    + intros q' a' ctx ar Hin. apply classifier_not_enhancement in Hin. discriminate.
    + intros g q' a' ctx Hin. apply classifier_not_enhancement in Hin. discriminate.
  - assert (Hin_app : forall c l, In c (snd (run w (analyzeQuery key query)) ++ l) ->
                                  downstream c = true -> In c l).
    { intros c l Hin Hd. apply in_app_or in Hin as [Hin|Hin]; [|assumption].
      apply classifier_not_enhancement in Hin. subst c. discriminate. }
    destruct (orchestrate_pipeline query Hb)
      as [(m & Ec & ->)|(ctx & Ec & [(m & Ea & ->)|(ar & Ea & Hrun)])].
    + cbn [snd]. rewrite length_app. simpl. split; [lia|]. split.
      * intros q' a' ctx ar Hin. apply Hin_app in Hin; [|reflexivity].
        destruct Hin as [E|[]]. discriminate.
      * intros g q' a' ctx Hin. apply Hin_app in Hin; [|reflexivity].
        destruct Hin as [E|[]]. discriminate.
    + cbn [snd]. rewrite length_app. simpl. split; [lia|]. split.
      * intros q' a' ctx' ar Hin. apply Hin_app in Hin; [|reflexivity].
        destruct Hin as [E|[E|[]]]; discriminate.
      * intros g q' a' ctx' Hin. apply Hin_app in Hin; [|reflexivity].
        destruct Hin as [E|[E|[]]]; [discriminate|].
        injection E as <- <- <- <-. now repeat split.
    + cbv zeta in Hrun.
      destruct (hasValidApiKey key && negb (jseqb (intent _) (js "ticket"))) eqn:Eg;
        rewrite Hrun; cbn [snd]; rewrite length_app; simpl; (split; [lia|]); split.
      * intros q' a' ctx' ar' Hin. apply Hin_app in Hin; [|reflexivity].
        destruct Hin as [E|[E|[E|[]]]]; try discriminate.
        injection E as <- <- <- <-.
        apply andb_true_iff in Eg as [Ek Et]. apply negb_true_iff, jseqb_neq in Et.
        now repeat split.
      * intros g q' a' ctx' Hin. apply Hin_app in Hin; [|reflexivity].
        destruct Hin as [E|[E|[E|[]]]]; try discriminate.
        injection E as <- <- <- <-. now repeat split.
      * intros q' a' ctx' ar' Hin. apply Hin_app in Hin; [|reflexivity].
        destruct Hin as [E|[E|[]]]; discriminate.
      * intros g q' a' ctx' Hin. apply Hin_app in Hin; [|reflexivity].
        destruct Hin as [E|[E|[]]]; try discriminate.
        injection E as <- <- <- <-. now repeat split.
Qed.

(** X17.  [orchestrate] reports [success: false] exactly when the analysis
    is not blocked and the context builder or the agent throws; the result
    is then the error object with the message of the exception and no
    resident, and the LLM enhancement was not requested.  Every other
    request succeeds: a failure of the classifier or of the LLM enhancement
    never fails the request. *)
Theorem orchestrate_fails_iff query :
  let a := fst (run w (analyzeQuery key query)) in
  let r := fst (run w (orchestrate key query)) in
  (succeeded r = false <->
   blocked a = false
   /\ exists m,
       w (GenerateContext a) = Thrown m
       \/ exists ctx, w (GenerateContext a) = Returned ctx
                      /\ w (RunAgent (agentFor (intent a)) query a ctx) = Thrown m)
  /\ (succeeded r = false ->
      exists m, r = Failed query m
                      (js "Error processing query: " ++ m ++ js ". Please try again.")
                      [] false
                /\ existsb isEnhancement (snd (run w (orchestrate key query))) = false)
  /\ (succeeded r = true -> failed r = false).
Proof.
  cbv zeta.
  destruct (blocked (fst (run w (analyzeQuery key query)))) eqn:Hb.
  - rewrite (orchestrate_blocked key w query Hb). cbn [fst snd succeeded failed].
    split; [|split; [discriminate|reflexivity]].
    split; [discriminate|]. intros [E _]. discriminate.
  - assert (Hno : forall l, existsb isEnhancement l = false ->
                    existsb isEnhancement (snd (run w (analyzeQuery key query)) ++ l) = false).
    { intros l Hl. rewrite existsb_app, Hl, orb_false_r.
      destruct (existsb isEnhancement (snd (run w (analyzeQuery key query)))) eqn:E;
        [|reflexivity].
      apply existsb_exists in E as (c & Hin & Hc).
      apply classifier_not_enhancement in Hin. subst c. discriminate. }
    destruct (orchestrate_pipeline query Hb)
      as [(m & Ec & ->)|(ctx & Ec & [(m & Ea & ->)|(ar & Ea & Hrun)])].
    + cbn [fst snd succeeded failed createErrorResponse]. split; [|split].
      * split; [|reflexivity]. intros _. split; [reflexivity|]. exists m. now left.
      * intros _. exists m. split; [reflexivity|]. now apply Hno.
      * discriminate.
    + cbn [fst snd succeeded failed createErrorResponse]. split; [|split].
      * split; [|reflexivity]. intros _. split; [reflexivity|]. exists m. right.
        now exists ctx.
      * intros _. exists m. split; [reflexivity|]. now apply Hno.
      * discriminate.
    + cbv zeta in Hrun.
      assert (Hs : succeeded (fst (run w (orchestrate key query))) = true
                   /\ failed (fst (run w (orchestrate key query))) = false).
      { destruct (hasValidApiKey key && _); rewrite Hrun; cbn [fst succeeded failed];
          (split; [apply constructFinalResponse_success|reflexivity]). }
      destruct Hs as [Hs Hf]. rewrite Hs. split; [|split; [discriminate|now intros _]].
      split; [discriminate|].
      intros (_ & m & [E|(ctx' & E & E')]); [congruence|].
      rewrite Ec in E. injection E as <-. congruence.
Qed.

(** X18.  When the context builder and the agent answer and there is no LLM
    result (no API key, a ticket intent, or an LLM enhancement that
    throws), the request returns the final response built without LLM
    result: not enhanced, tagged focused_search or data-driven, with the
    deterministic text or the summary as it stands, and with confidence
    0.85 when the agent found a resident and 0.7 otherwise. *)
Theorem orchestrate_without_llm query ctx ar :
  let a := fst (run w (analyzeQuery key query)) in
  blocked a = false ->
  w (GenerateContext a) = Returned ctx ->
  w (RunAgent (agentFor (intent a)) query a ctx) = Returned ar ->
  hasValidApiKey key = false \/ intent a = js "ticket"
  \/ (exists m, w (EnhanceWithLLM query a ctx ar) = Thrown m) ->
  exists f,
    fst (run w (orchestrate key query)) = Final f
    /\ f = constructFinalResponse query a ctx ar None
    /\ f_llmEnhanced f = false
    /\ f_llmUsed f = false
    /\ In (f_responseQuality f) [js "focused_search"; js "data-driven"]
    /\ f_confidence f = (if hasResidents ar then 0.85 else 0.7)%float
    /\ (f_response f = Some (deterministicText ar)
        \/ f_response f = analysisField summary ar).
Proof.
  cbv zeta. intros Hb Ec Ea Hno.
  assert (Hf : fst (run w (orchestrate key query))
               = Final (constructFinalResponse query (fst (run w (analyzeQuery key query)))
                          ctx ar None)).
  { destruct (orchestrate_pipeline query Hb)
      as [(m & Ec' & _)|(ctx' & Ec' & [(m & Ea' & _)|(ar' & Ea' & Hrun)])];
      cbv zeta in *; [congruence| |];
      rewrite Ec in Ec'; injection Ec' as <-; [congruence|].
    rewrite Ea in Ea'. injection Ea' as <-.
    destruct (hasValidApiKey key && _) eqn:Eg; rewrite Hrun; cbn [fst]; [|reflexivity].
    apply andb_true_iff in Eg as [Ek Et].
    destruct Hno as [E|[E|(m & E)]].
    - congruence.
    - rewrite E, jseqb_refl in Et. discriminate.
    - now rewrite E. }
  eexists. split; [exact Hf|]. split; [reflexivity|].
  unfold constructFinalResponse, arbitrate.
  change (levelIs None "excellent") with false. change (levelIs None "good") with false.
  cbn [orb].
  destruct (isNameSearch _ && hasNameSearchMarker ar);
    cbn [f_llmEnhanced f_llmUsed f_responseQuality f_confidence f_response];
    rewrite ?tag_focused, ?tag_data_driven;
    (split; [reflexivity|]); (split; [reflexivity|]);
    (split; [simpl; tauto|]);
    (split; [|tauto]);
    rewrite calculateConfidence_values; unfold qualityRank;
    change (levelIs None "excellent") with false; change (levelIs None "good") with false;
    reflexivity.
Qed.

End Pipeline.

(** On a name search, a short LLM text of poor quality is returned although
    it names no resident. *)
Lemma low_quality_arbitration_witness :
  let ar := agentSaying "Encontrado: Maria Souza, Centro." [residentNamed "Maria Souza"] in
  let l := {| response := js "Nenhum registro."; quality_level := Some (js "poor") |} in
  let f := Orchestrator.constructFinalResponse (js "Encontre Maria Souza")
             (analysisWith ["name_search"]) emptyContext ar (Some l) in
  Orchestrator.hasRealData ar (response l) = false
  /\ Orchestrator.f_llmEnhanced f = true
  /\ Orchestrator.f_response f = Some (js "Nenhum registro.").
Proof.
  intros ar l f.
  assert (Ee : Orchestrator.levelIs (Some l) "excellent" = false) by (vm_compute; reflexivity).
  assert (Eg : Orchestrator.levelIs (Some l) "good" = false) by (vm_compute; reflexivity).
  assert (En : Orchestrator.isNameSearch (analysisWith ["name_search"]) = true)
    by (vm_compute; reflexivity).
  assert (Em : Orchestrator.hasNameSearchMarker ar = false) by (vm_compute; reflexivity).
  destruct (proj2 (low_quality_arbitration (js "Encontre Maria Souza")
                     (analysisWith ["name_search"]) emptyContext ar l Ee Eg) En Em)
    as (Hiff & Hr & _).
  fold f in Hiff, Hr.
  assert (He : Orchestrator.f_llmEnhanced f = true).
  { apply Hiff. split; [discriminate|]. split; [vm_compute; reflexivity|].
    vm_compute. repeat constructor. }
  split; [vm_compute; reflexivity|]. split; [exact He|exact (Hr He)].
Defined.

(** A request whose LLM enhancement times out is answered from the data. *)
Lemma orchestrate_without_llm_witness :
  let q := js "Mostrar análise de satisfação" in
  exists f,
    fst (run servingWorld (@Orchestrator.orchestrate Latin1_runtime testKey q))
    = Orchestrator.Final f
    /\ Orchestrator.f_llmEnhanced f = false
    /\ Orchestrator.f_confidence f = 0.85%float.
Proof.
  intros q.
  assert (Hb : blocked (fst (run servingWorld
                               (@QueryAnalyzer.analyzeQuery Latin1_runtime testKey q)))
               = false) by (vm_compute; reflexivity).
  destruct (@orchestrate_without_llm Latin1_runtime testKey servingWorld q emptyContext
              (agentSaying "Encontrado: Maria Souza, Centro." [residentNamed "Maria Souza"])
              Hb eq_refl eq_refl
              (or_intror (or_intror (ex_intro _ (js "timeout of 30000ms exceeded") eq_refl))))
    as (f & Hf & _ & He & _ & _ & Hc & _).
  exists f. split; [exact Hf|]. split; [exact He|exact Hc].
Defined.

(* ================================================================== *)
(** * MunicipalPromptEngine: the quality of a response *)
(* ================================================================== *)

Section ResponseQuality.
Context `{JsRuntime}.
Variable Number_toString : float -> jsstring.
Import MunicipalPromptEngine.

(** X22.  [validateResponseQuality] throws only when the profile lacks its
    population or its satisfaction summary.  Otherwise every one of the
    five checks files one strength or one issue, the score is at most 100,
    and the level is excellent exactly when the response is grounded in
    the key numbers, has actionable recommendations and passes two of the
    three other checks; a level of good or excellent needs one of the two
    25-point checks; without a statistical profile the level is never
    excellent; and a poor level means that one of the two 25-point checks
    failed. *)
Theorem validateResponseQuality_levels response profile :
  match validateResponseQuality Number_toString response profile with
  | None =>
      exists sp, profile = Some sp
                 /\ (sp_population sp = None \/ sp_satisfaction sp = None)
  | Some q =>
      let grounded := containsSpecificNumbers Number_toString response profile in
      let actionable := containsActionableRecommendations response in
      let others := [ containsStatisticalContext response;
                      followsStructuredFormat response;
                      demonstratesMunicipalExpertise response ] in
      (List.length (q_issues q) + List.length (q_strengths q) = 5)%nat
      /\ (q_score q <= 100)%N
      /\ (q_level q = js "excellent" <->
          grounded = Some true /\ actionable = true /\ (2 <= passes others)%nat)
      /\ (q_level q = js "excellent" \/ q_level q = js "good" ->
          grounded = Some true \/ actionable = true)
      /\ (profile = None -> q_level q <> js "excellent")
      /\ (q_level q = js "poor" -> grounded = Some false \/ actionable = false)
  end.
Proof.
  unfold validateResponseQuality.
  destruct (containsSpecificNumbers Number_toString response profile) as [g|] eqn:Eg.
  - assert (Hp : profile = None -> g = false).
    { intros ->. cbn in Eg. now injection Eg as <-. }
    cbv zeta.
    destruct g, (containsActionableRecommendations response),
      (containsStatisticalContext response), (followsStructuredFormat response),
      (demonstratesMunicipalExpertise response);
      cbn [check app N.add N.leb q_score q_issues q_strengths q_level passes filter
           List.length];
      (split; [reflexivity|]); (split; [vm_compute; discriminate|]);
      (split; [split; [intros E; try (vm_compute in E; discriminate);
                       repeat split; try reflexivity; vm_compute; lia
                      |intros (E1 & E2 & E3); try discriminate;
                       try (vm_compute in E3; lia); reflexivity]|]);
      (split; [intros [E|E]; try (vm_compute in E; discriminate); auto|]);
      (split; [intros Hn; try (specialize (Hp Hn); discriminate);
               intros E; vm_compute in E; discriminate|]);
      intros E; try (vm_compute in E; discriminate); auto.
  - unfold containsSpecificNumbers in Eg. destruct profile as [sp|]; [|discriminate].
    exists sp. split; [reflexivity|].
    destruct (sp_population sp); [|now left].
    destruct (sp_satisfaction sp); [discriminate|now right].
Qed.

End ResponseQuality.

(* ================================================================== *)
(** * The two detectors of a name search *)
(* ================================================================== *)

Section Detectors.
Context `{JsRuntime}.

Lemma existsb_includes_weaken s (l l' : list jsstring) :
  (forall v, In v l -> exists v', In v' l' /\ includes v v' = true) ->
  includesAny s l = true -> includesAny s l' = true.
Proof.
  unfold includesAny. intros Hsub E.
  apply existsb_exists in E as (v & Hv & Hi).
  destruct (Hsub v Hv) as (v' & Hv' & Hvv').
  apply existsb_exists. exists v'. split; [assumption|].
  now apply includes_trans with v.
Qed.

Lemma searchVerbs_cover v :
  In v ResidentFilterService.searchVerbs ->
  exists v', In v' QueryAnalyzer.nameSearchVerbs /\ includes v v' = true.
Proof.
  unfold ResidentFilterService.searchVerbs. cbn [map]. intros Hin.
  repeat (destruct Hin as [<-|Hin];
          [first [ eexists; split; [|apply includes_refl]; vm_compute; tauto
                 | exists (js "quem e"); split; [vm_compute; tauto|vm_compute; reflexivity]
                 | exists (js "quem eh"); split; [vm_compute; tauto|vm_compute; reflexivity] ]|]).
  destruct Hin.
Qed.

Lemma mem_nameSearchVerbs x :
  mem x ResidentFilterService.searchVerbs = false ->
  mem x analyzerOnlyVerbs = false ->
  mem x QueryAnalyzer.nameSearchVerbs = false.
Proof.
  unfold mem, ResidentFilterService.searchVerbs, QueryAnalyzer.nameSearchVerbs,
    analyzerOnlyVerbs.
  cbn [map existsb]. rewrite !orb_false_iff.
  intros H1 H2. repeat split; tauto.
Qed.

(** X23.  The two detectors agree in this direction: a query that the
    resident filter takes for a name search is a name search for the
    analyzer too, provided no word of it is, once normalized, one of the
    verbs that only the analyzer lists (quem é, localize, localizar); and the
    normalized text of such a query, lower-case and without accents,
    contains none of the analysis keywords as the source lists them.  (A
    keyword that the source lists with an accent is never contained in a
    text without accents.) *)
Theorem filter_name_search_is_detected query :
  ResidentFilterService.isNameSearchQuery query = true ->
  (forall w, In w (split_ws query) -> mem (normalize w) analyzerOnlyVerbs = false) ->
  QueryAnalyzer.detectNameSearch query = true
  /\ includesAny (normalize query) ResidentFilterService.analysisKeywords = false.
Proof.
  unfold ResidentFilterService.isNameSearchQuery, QueryAnalyzer.detectNameSearch.
  destruct (includesAny (normalize query) ResidentFilterService.analysisKeywords);
    [discriminate|].
  cbv zeta.
  destruct (includesAny (normalize query) ResidentFilterService.searchVerbs) eqn:Ev;
    [|discriminate].
  cbn [andb].
  destruct (1 <=? _)%nat; [|discriminate].
  intros Hname Hw. split; [|reflexivity].
  rewrite (existsb_includes_weaken _ _ _ searchVerbs_cover Ev). cbn [negb].
  apply Nat.leb_le in Hname. apply Nat.leb_le.
  match type of Hname with
  | (1 <= List.length ?l)%nat =>
      destruct l as [|w ws] eqn:Ef; [simpl in Hname; lia|];
      assert (Hin : In w l) by (rewrite Ef; now left)
  end.
  apply filter_In in Hin as [Hin Hlike]. apply filter_In in Hin as [Hin Hkeep].
  apply andb_true_iff in Hkeep as [Hkeep _]. apply andb_true_iff in Hkeep as [Hc Hv].
  apply negb_true_iff in Hv.
  assert (Hin' : In w (filter (fun w => (2 <=? List.length w)%nat && hasNameLetter w)
                         (filter (fun w =>
                                    negb (mem (normalize w) QueryAnalyzer.commonWords)
                                    && negb (mem (normalize w) QueryAnalyzer.nameSearchVerbs))
                                 (split_ws query)))).
  { apply filter_In. split; [|assumption]. apply filter_In. split; [assumption|].
    apply andb_true_iff. split; [exact Hc|].
    apply negb_true_iff. apply mem_nameSearchVerbs; [assumption|now apply Hw]. }
  match goal with
  | |- (1 <= List.length ?l)%nat => destruct l; [destruct Hin'|simpl; lia]
  end.
Qed.

End Detectors.

Lemma filter_name_search_is_detected_witness :
  let q := js "Encontre Maria Souza" in
  @QueryAnalyzer.detectNameSearch Latin1_runtime q = true.
Proof.
  intros q.
  assert (Hn : @ResidentFilterService.isNameSearchQuery Latin1_runtime q = true)
    by (vm_compute; reflexivity).
  assert (Hw : forall w, In w (split_ws q) ->
                         mem (@normalize Latin1_runtime w) analyzerOnlyVerbs = false).
  { intros w Hin. vm_compute in Hin.
    repeat (destruct Hin as [<-|Hin]; [vm_compute; reflexivity|]). destruct Hin. }
  exact (proj1 (@filter_name_search_is_detected Latin1_runtime q Hn Hw)).
Defined.

(* ================================================================== *)
(** * QueryProcessor: normalizing and validating a query *)
(* ================================================================== *)

Section Normalize.
Import QueryProcessor.

Lemma collapse_idem s : forall b, collapse_from b (collapse_from b s) = collapse_from b s.
Proof.
  induction s as [|c s IH]; intros b; [reflexivity|]. cbn [collapse_from].
  destruct (isSpace c) eqn:Ec.
  - destruct b; [apply IH|].
    cbn [collapse_from]. change (isSpace 32) with true. cbn iota. now rewrite IH.
  - cbn [collapse_from]. rewrite Ec. now rewrite IH.
Qed.

Lemma length_collapse s : forall b, (List.length (collapse_from b s) <= List.length s)%nat.
Proof.
  induction s as [|c s IH]; intros b; [reflexivity|]. cbn [collapse_from].
  pose proof (IH true). pose proof (IH false).
  destruct (isSpace c); [destruct b|]; cbn [List.length]; lia.
Qed.

Lemma length_trimStart s : (List.length (trimStart s) <= List.length s)%nat.
Proof.
  induction s as [|c s IH]; [reflexivity|]. cbn [trimStart].
  destruct (isSpace c); cbn [List.length]; lia.
Qed.

Lemma length_trim s : (List.length (trim s) <= List.length s)%nat.
Proof.
  unfold trim. rewrite length_rev.
  apply Nat.le_trans with (List.length (rev (trimStart s))); [apply length_trimStart|].
  rewrite length_rev. apply length_trimStart.
Qed.

Lemma trimStart_clean s : startsClean (trimStart s) = true.
Proof.
  induction s as [|c s IH]; [reflexivity|]. cbn [trimStart].
  destruct (isSpace c) eqn:E; [assumption|]. cbn [startsClean]. now rewrite E.
Qed.

Lemma trimStart_id s : startsClean s = true -> trimStart s = s.
Proof.
  destruct s as [|c s]; [reflexivity|]. cbn [startsClean trimStart].
  now destruct (isSpace c).
Qed.

(** What is left of a string after [trimStart] is the end of that string. *)
Lemma trimStart_suffix s : exists p, s = p ++ trimStart s.
Proof.
  induction s as [|c s (p & IH)]; [now exists []|]. cbn [trimStart].
  destruct (isSpace c); [|now exists []].
  exists (c :: p). cbn [app]. now rewrite <- IH.
Qed.

Lemma startsClean_rev_suffix p s :
  s <> [] -> startsClean (rev (p ++ s)) = startsClean (rev s).
Proof.
  intros Hne. rewrite rev_app_distr.
  destruct (rev s) as [|c r] eqn:E; [|reflexivity].
  apply (f_equal (@rev N)) in E. rewrite rev_involutive in E. contradiction.
Qed.

Lemma trim_clean s : startsClean (trim s) = true /\ startsClean (rev (trim s)) = true.
Proof.
  unfold trim. rewrite rev_involutive. split; [|apply trimStart_clean].
  set (t := trimStart s).
  destruct (trimStart_suffix (rev t)) as (p & Ep).
  destruct (trimStart (rev t)) as [|c u] eqn:Eu; [reflexivity|].
  assert (Ht : t = rev (c :: u) ++ rev p).
  { rewrite <- rev_app_distr, <- Ep. now rewrite rev_involutive. }
  pose proof (trimStart_clean s) as Hc. fold t in Hc. rewrite Ht in Hc.
  destruct (rev (c :: u)) as [|d v] eqn:Ed.
  - apply (f_equal (@rev N)) in Ed. rewrite rev_involutive in Ed. discriminate.
  - exact Hc.
Qed.

Lemma trim_id s :
  startsClean s = true -> startsClean (rev s) = true -> trim s = s.
Proof.
  intros H1 H2. unfold trim. rewrite (trimStart_id s H1), (trimStart_id _ H2).
  apply rev_involutive.
Qed.

Lemma collapse_clean s :
  startsClean s = true -> startsClean (collapse_from false s) = true.
Proof.
  destruct s as [|c s]; [reflexivity|]. cbn [startsClean collapse_from].
  destruct (isSpace c) eqn:E; [discriminate|]. intros _. cbn [startsClean]. now rewrite E.
Qed.

Lemma collapse_snoc s c : forall b,
  isSpace c = false -> collapse_from b (s ++ [c]) = collapse_from b s ++ [c].
Proof.
  induction s as [|d s IH]; intros b Ec; cbn [app collapse_from].
  - now rewrite Ec.
  - destruct (isSpace d); [destruct b|]; cbn [app]; now rewrite IH.
Qed.

Lemma ends_clean_cases s :
  startsClean (rev s) = true ->
  s = [] \/ exists s' c, s = s' ++ [c] /\ isSpace c = false.
Proof.
  destruct (rev s) as [|c r] eqn:E; intros Hc.
  - left. apply (f_equal (@rev N)) in E. now rewrite rev_involutive in E.
  - right. exists (rev r), c. split.
    + apply (f_equal (@rev N)) in E. now rewrite rev_involutive in E.
    + cbn [startsClean] in Hc. now apply negb_true_iff in Hc.
Qed.

Lemma collapse_ends_clean s b :
  startsClean (rev s) = true -> startsClean (rev (collapse_from b s)) = true.
Proof.
  intros Hc. destruct (ends_clean_cases s Hc) as [->|(s' & c & -> & Ec)]; [reflexivity|].
  rewrite (collapse_snoc s' c b Ec), rev_app_distr. cbn [rev app startsClean].
  now rewrite Ec.
Qed.

Lemma ends_clean_tail c s :
  s <> [] -> startsClean (rev (c :: s)) = true -> startsClean (rev s) = true.
Proof.
  intros Hne Hc. cbn [rev] in Hc.
  destruct (rev s) as [|x r] eqn:Er; [|exact Hc].
  apply (f_equal (@rev N)) in Er. rewrite rev_involutive in Er. contradiction.
Qed.

(** After white space, the rest of a string that does not end with white
    space begins with another unit. *)
Lemma collapse_true_head s :
  s <> [] -> startsClean (rev s) = true ->
  match collapse_from true s with c :: _ => isSpace c = false | [] => False end.
Proof.
  induction s as [|c s IH]; intros Hne Hc; [contradiction|]. cbn [collapse_from].
  destruct (isSpace c) eqn:E; [|exact E].
  destruct s as [|d s'].
  - cbn in Hc. rewrite E in Hc. discriminate.
  - apply IH; [discriminate|]. apply (ends_clean_tail c); [discriminate|assumption].
Qed.

Lemma collapse_singleSpaced s : forall b,
  startsClean (rev s) = true -> singleSpaced (collapse_from b s) = true.
Proof.
  induction s as [|c s IH]; intros b Hc; [reflexivity|]. cbn [collapse_from].
  destruct (isSpace c) eqn:E.
  - destruct s as [|d s'].
    + cbn in Hc. rewrite E in Hc. discriminate.
    + assert (Hs : startsClean (rev (d :: s')) = true)
        by (apply (ends_clean_tail c); [discriminate|assumption]).
      destruct b; [now apply IH|].
      cbn [singleSpaced]. change (isSpace 32) with true. cbn iota.
      rewrite (IH true Hs), andb_true_r. change (32 =? 32)%N with true. cbn [andb].
      pose proof (collapse_true_head (d :: s') ltac:(discriminate) Hs) as Hh.
      destruct (collapse_from true (d :: s')) as [|x r]; [contradiction|].
      now rewrite Hh.
  - cbn [singleSpaced]. rewrite E. cbn [andb].
    destruct s as [|d s']; [reflexivity|].
    apply IH. apply (ends_clean_tail c); [discriminate|assumption].
Qed.

Lemma collapse_nil s b : collapse_from b s = [] -> startsClean s = true -> s = [].
Proof.
  destruct s as [|c s]; [reflexivity|]. cbn [collapse_from startsClean].
  destruct (isSpace c); [discriminate|]. discriminate.
Qed.

Lemma trimStart_nil s : trimStart s = [] <-> trim_nonempty s = false.
Proof.
  unfold trim_nonempty. induction s as [|c s IH]; [now split|]. cbn [trimStart existsb].
  destruct (isSpace c); cbn [negb orb]; [exact IH|]. split; discriminate.
Qed.

Lemma trim_nonempty_rev s : trim_nonempty (rev s) = trim_nonempty s.
Proof.
  unfold trim_nonempty. destruct (existsb _ s) eqn:E.
  - apply existsb_exists in E as (c & Hin & Hc). apply existsb_exists.
    exists c. split; [now apply in_rev in Hin|assumption].
  - destruct (existsb _ (rev s)) eqn:E'; [|reflexivity].
    apply existsb_exists in E' as (c & Hin & Hc). apply in_rev in Hin.
    assert (existsb (fun c => negb (isSpace c)) s = true)
      by (apply existsb_exists; now exists c).
    congruence.
Qed.

Lemma trim_nonempty_trimStart s : trim_nonempty (trimStart s) = trim_nonempty s.
Proof.
  unfold trim_nonempty. induction s as [|c s IH]; [reflexivity|]. cbn [trimStart].
  destruct (isSpace c) eqn:E; [|reflexivity]. cbn [existsb]. now rewrite E, IH.
Qed.

Lemma trim_nil s : trim s = [] <-> trim_nonempty s = false.
Proof.
  unfold trim. rewrite <- trim_nonempty_trimStart, <- trim_nonempty_rev, <- trimStart_nil.
  split.
  - intros E. apply (f_equal (@rev N)) in E. now rewrite rev_involutive in E.
  - intros ->. reflexivity.
Qed.

Lemma normalize_nil query : normalize query = [] <-> trim_nonempty query = false.
Proof.
  unfold normalize. destruct query as [|c q]; [now split|]. cbn [truthy negb].
  rewrite <- trim_nil. split.
  - intros E. apply (collapse_nil _ false E). apply trim_clean.
  - intros ->. reflexivity.
Qed.

Lemma normalize_shape query :
  startsClean (normalize query) = true
  /\ startsClean (rev (normalize query)) = true
  /\ singleSpaced (normalize query) = true.
Proof.
  unfold normalize. destruct (negb (truthy query)); [repeat split|].
  destruct (trim_clean query) as [H1 H2].
  split; [now apply collapse_clean|]. split; [now apply collapse_ends_clean|].
  now apply collapse_singleSpaced.
Qed.

Lemma normalize_idem query : normalize (normalize query) = normalize query.
Proof.
  destruct (normalize_shape query) as (H1 & H2 & _).
  unfold normalize at 1. destruct (normalize query) as [|c n] eqn:En; [reflexivity|].
  cbn [truthy negb]. rewrite (trim_id _ H1 H2). rewrite <- En.
  unfold normalize. destruct (negb (truthy query)); [reflexivity|].
  apply collapse_idem.
Qed.

Lemma length_normalize query : (List.length (normalize query) <= List.length query)%nat.
Proof.
  unfold normalize. destruct (negb (truthy query)); [simpl; lia|].
  apply Nat.le_trans with (List.length (trim query)); [apply length_collapse|apply length_trim].
Qed.

Lemma valid_iff query :
  valid (validate query) = true <->
  trim_nonempty query = true /\ (List.length (normalize query) <= 500)%nat.
Proof.
  unfold validate. cbv zeta.
  destruct (normalize query) as [|c n] eqn:En.
  - cbn [truthy negb orb valid]. apply normalize_nil in En. rewrite En.
    split; [discriminate|intros [E _]; discriminate].
  - cbn [truthy negb orb List.length Nat.eqb].
    assert (Ht : trim_nonempty query = true).
    { destruct (trim_nonempty query) eqn:E; [reflexivity|].
      apply normalize_nil in E. congruence. }
    rewrite Ht. destruct (500 <? S (List.length n))%nat eqn:El; cbn [valid].
    + apply Nat.ltb_lt in El. split; [discriminate|]. intros [_ Hl]. lia.
    + apply Nat.ltb_ge in El. split; [now split|reflexivity].
Qed.

(** X24.  [QueryProcessor.normalize] gives a canonical text: normalizing
    twice changes nothing; the result neither begins nor ends with white
    space, and each white space in it is a single U+0020; it is never
    longer than the query; a text already in this form is left as it is;
    validating the normalized query, as [process] does, is validating the
    query; and a query is valid exactly when it has a unit that is not
    white space and its normalized text has at most 500 units. *)
Theorem normalize_canonical query :
  normalize (normalize query) = normalize query
  /\ tidy (normalize query) = true
  /\ startsClean (rev (normalize query)) = true
  /\ (List.length (normalize query) <= List.length query)%nat
  /\ (tidy query = true -> startsClean (rev query) = true -> normalize query = query)
  /\ validate (normalize query) = validate query
  /\ (valid (validate query) = true <->
      trim_nonempty query = true /\ (List.length (normalize query) <= 500)%nat).
Proof.
  destruct (normalize_shape query) as (H1 & H2 & H3).
  split; [apply normalize_idem|]. split; [unfold tidy; now rewrite H1, H3|].
  split; [assumption|]. split; [apply length_normalize|].
  split; [|split; [|apply valid_iff]].
  - intros Ht He. apply andb_true_iff in Ht as [Hs Hss].
    unfold normalize. destruct query as [|c q]; [reflexivity|]. cbn [truthy negb].
    rewrite (trim_id _ Hs He).
    clear Hs He H1 H2 H3. revert Hss. generalize (c :: q). clear c q.
    intros s. induction s as [|c s IH]; [reflexivity|].
    cbn [singleSpaced collapse_from]. intros Hss.
    apply andb_true_iff in Hss as [Hc Hss].
    destruct (isSpace c) eqn:E.
    + apply andb_true_iff in Hc as [Hc Hn]. apply N.eqb_eq in Hc. subst c.
      destruct s as [|d s']; [discriminate|]. apply negb_true_iff in Hn.
      f_equal. cbn [collapse_from]. rewrite Hn.
      specialize (IH Hss). cbn [collapse_from] in IH. rewrite Hn in IH. exact IH.
    + f_equal. now apply IH.
  - unfold validate. now rewrite normalize_idem.
Qed.

Lemma template_found query template :
  getQueryTemplateByQuery query = Some template ->
  In template QUERY_TEMPLATES /\ t_query template = query.
Proof.
  unfold getQueryTemplateByQuery. intros E. apply find_some in E as [Hin Hq].
  split; [assumption|]. now apply jseqb_eq.
Qed.

Lemma template_with_handler template :
  In template QUERY_TEMPLATES -> truthy_opt (t_handler template) = true ->
  t_query template = js "Relatório: Satisfação por idade"
  /\ t_handler template = Some (js "age_report").
Proof.
  unfold QUERY_TEMPLATES. intros Hin.
  repeat (destruct Hin as [<-|Hin]; [cbn [t_handler truthy_opt]; try discriminate|]).
  - intros _. split; reflexivity.
  - destruct Hin.
Qed.

Lemma age_report_template :
  getQueryTemplateByQuery (js "Relatório: Satisfação por idade")
  = Some {| t_key := js "age-satisfaction-report";
            t_label := js "Relatório: Satisfação por idade";
            t_query := js "Relatório: Satisfação por idade";
            t_handler := Some (js "age_report");
            t_category := js "knowledge" |}.
Proof. vm_compute. reflexivity. Qed.

(** X25.  [process] returns the query and its normalized text; it reports
    no error exactly for a valid query, and an invalid query has no special
    handler.  A handler type is returned exactly when the query is valid
    and its normalized text is the text of the age report template, and it
    is age_report, whatever white space surrounds or separates the words.
    [hasSpecialHandler] is [undefined], not [false], exactly for a valid
    query that is the text of no template. *)
Theorem process_handler query :
  let r := process query in
  p_query r = query /\ p_normalized r = normalize query
  /\ (p_error r = None <-> valid (validate query) = true)
  /\ (p_error r <> None -> p_hasSpecialHandler r = Some false /\ p_handlerType r = None)
  /\ (p_handlerType r <> None <->
      valid (validate query) = true
      /\ normalize query = js "Relatório: Satisfação por idade")
  /\ (p_handlerType r <> None ->
      p_handlerType r = Some (js "age_report") /\ p_hasSpecialHandler r = Some true)
  /\ (p_hasSpecialHandler r = None <->
      valid (validate query) = true
      /\ getQueryTemplateByQuery (normalize query) = None).
Proof.
  cbv zeta. unfold process.
  replace (validate (normalize query)) with (validate query)
    by (unfold validate; now rewrite normalize_idem).
  destruct (valid (validate query)) eqn:Ev; cbn [negb].
  - cbn [p_query p_normalized p_error p_hasSpecialHandler p_handlerType].
    split; [reflexivity|]. split; [reflexivity|]. split; [now split|].
    split; [intros E; now contradiction E|].
    unfold hasSpecialHandler, getSpecialHandler.
    destruct (getQueryTemplateByQuery (normalize query)) as [t|] eqn:Et.
    + destruct (template_found _ _ Et) as [Hin Hq].
      destruct (truthy_opt (t_handler t)) eqn:Eh.
      * destruct (template_with_handler t Hin Eh) as [Hq' Hh].
        rewrite Hh. split; [|split].
        -- split; [intros _; split; [reflexivity|congruence]|discriminate].
        -- intros _. now split.
        -- split; [discriminate|intros [_ E]; discriminate].
      * split; [|split].
        -- split; [intros E; now contradiction E|].
           intros [_ Hn]. rewrite Hn, age_report_template in Et.
           injection Et as <-. discriminate.
        -- intros E; now contradiction E.
        -- split; [discriminate|intros [_ E]; discriminate].
    + split; [|split].
      * split; [intros E; now contradiction E|].
        intros [_ Hn]. rewrite Hn, age_report_template in Et. discriminate.
      * intros E; now contradiction E.
      * split; [intros _; now split|reflexivity].
  - cbn [p_query p_normalized p_error p_hasSpecialHandler p_handlerType].
    split; [reflexivity|]. split; [reflexivity|]. split.
    { unfold validate in *. cbv zeta in *.
      destruct (negb (truthy (normalize query)) || _); cbn [v_error];
        [split; discriminate|].
      destruct (500 <? _)%nat; cbn [v_error valid] in *; [split; discriminate|discriminate]. }
    split; [intros _; now split|].
    split; [split; [intros E; now contradiction E|intros [E _]; discriminate]|].
    split; [intros E; now contradiction E|].
    split; [discriminate|intros [E _]; discriminate].
Qed.

End Normalize.

(** The age report, typed with stray white space, keeps its handler. *)
Lemma process_handler_witness :
  QueryProcessor.p_handlerType
    (QueryProcessor.process (js "  Relatório:   Satisfação por idade "))
  = Some (js "age_report").
Proof.
  destruct (process_handler (js "  Relatório:   Satisfação por idade "))
    as (_ & _ & _ & _ & Hiff & Hh & _).
  apply Hh. apply Hiff. split; vm_compute; reflexivity.
Defined.

(* ================================================================== *)
(** * The notification agent: the segment report *)
(* ================================================================== *)

Section Counters.

Lemma jseqb_sym a b : jseqb a b = jseqb b a.
Proof.
  destruct (jseqb a b) eqn:E.
  - apply jseqb_eq in E. subst. symmetry. apply jseqb_refl.
  - destruct (jseqb b a) eqn:E'; [|reflexivity].
    apply jseqb_eq in E'. subst. now rewrite jseqb_refl in E.
Qed.

Lemma times_snoc k ks k0 :
  times k (ks ++ [k0]) = (times k ks + if jseqb k0 k then 1 else 0)%nat.
Proof.
  unfold times. rewrite filter_app, length_app. cbn [filter].
  destruct (jseqb k0 k); reflexivity.
Qed.

Lemma times_pos k ks : (1 <= times k ks)%nat <-> In k ks.
Proof.
  unfold times. induction ks as [|k' ks IH]; cbn [filter List.length In]; [lia|].
  destruct (jseqb k' k) eqn:E.
  - apply jseqb_eq in E. subst. cbn [List.length]. split; [now left|lia].
  - rewrite IH. split; [now right|]. intros [->|Hin]; [|assumption].
    now rewrite jseqb_refl in E.
Qed.

(** The keys of a counter after [store]. *)
Lemma store_keys k m x :
  In x (map fst (store k m)) <-> x = k \/ In x (map fst m).
Proof.
  induction m as [|[k0 v] m IH]; cbn [store map fst In].
  - split; [intros [<-|[]]; now left|intros [->|[]]; now left].
  - destruct (jseqb k0 k) eqn:E; cbn [map fst In].
    + apply jseqb_eq in E. subst k0. intuition (subst; auto).
    + rewrite IH. intuition (subst; auto).
Qed.

Lemma NoDup_store k m : NoDup (map fst m) -> NoDup (map fst (store k m)).
Proof.
  induction m as [|[k0 v] m IH]; cbn [store map fst]; intros Hnd.
  - constructor; [intros []|constructor].
  - inversion Hnd as [|? ? Hnot Hnd']; subst.
    destruct (jseqb k0 k) eqn:E; cbn [map fst].
    + now constructor.
    + constructor; [|now apply IH].
      intros Hin. apply store_keys in Hin as [->|Hin]; [|contradiction].
      now rewrite jseqb_refl in E.
Qed.

(** The entries of a counter after [store]. *)
Lemma store_entry k m x v :
  NoDup (map fst m) -> In (x, v) (store k m) ->
  (x <> k /\ In (x, v) m)
  \/ (x = k /\ ((exists v0, In (k, v0) m /\ v = plusOne v0)
                \/ (~ In k (map fst m)
                    /\ v = if mem k inheritedKeys then Text else Count 1))).
Proof.
  induction m as [|[k0 v0] m IH]; cbn [store map fst]; intros Hnd Hin.
  - destruct Hin as [[= <- <-]|[]]. right. split; [reflexivity|]. right.
    split; [intros []|reflexivity].
  - inversion Hnd as [|? ? Hnot Hnd']; subst.
    destruct (jseqb k0 k) eqn:E.
    + apply jseqb_eq in E. subst k0. destruct Hin as [[= <- <-]|Hin].
      * right. split; [reflexivity|]. left. exists v0. split; [now left|reflexivity].
      * left. split; [|now right]. intros ->. apply Hnot.
        apply in_map_iff. now exists (k, v).
    + destruct Hin as [[= <- <-]|Hin].
      * left. split; [|now left]. intros ->. now rewrite jseqb_refl in E.
      * destruct (IH Hnd' Hin) as [[Hx Hin']|[-> [(v1 & Hin' & Ev)|[Hnot' Ev]]]].
        -- left. split; [assumption|now right].
        -- right. split; [reflexivity|]. left. exists v1. split; [now right|assumption].
        -- right. split; [reflexivity|]. right. split; [|assumption].
           cbn [In]. intros [->|Hin']; [|contradiction].
           now rewrite jseqb_refl in E.
Qed.

Lemma countKeys_snoc ks k : countKeys (ks ++ [k]) = increment k (countKeys ks).
Proof. unfold countKeys. now rewrite fold_left_app. Qed.

Lemma entry_unique (m : Counter) k v v' :
  NoDup (map fst m) -> In (k, v) m -> In (k, v') m -> v = v'.
Proof.
  induction m as [|[k0 v0] m IH]; intros Hnd H1 H2; [destruct H1|].
  inversion Hnd as [|? ? Hnot Hnd']; subst.
  assert (Hk : forall w, In (k, w) m -> k0 <> k).
  { intros w Hin ->. apply Hnot. apply in_map_iff. now exists (k, w). }
  destruct H1 as [E1|H1], H2 as [E2|H2].
  - congruence.
  - exfalso. apply (Hk v' H2). congruence.
  - exfalso. apply (Hk v H1). congruence.
  - now apply IH.
Qed.

(** What the counter holds after the keys [ks]: every key other than
    [__proto__] once, with a text if it names an inherited member and with
    the number of its occurrences otherwise. *)
Lemma countKeys_spec ks :
  NoDup (map fst (countKeys ks))
  /\ (forall k v, In (k, v) (countKeys ks) ->
        jseqb k (js "__proto__") = false /\ (1 <= times k ks)%nat
        /\ v = if mem k inheritedKeys then Text else Count (times k ks))
  /\ (forall k, In k ks -> jseqb k (js "__proto__") = false ->
        In k (map fst (countKeys ks))).
Proof.
  induction ks as [|k0 ks (Hnd & Hval & Hkey)] using rev_ind.
  - split; [constructor|]. split; [intros k v []|intros k []].
  - rewrite countKeys_snoc. unfold increment.
    destruct (jseqb k0 (js "__proto__")) eqn:Ep.
    + apply jseqb_eq in Ep. subst k0.
      split; [assumption|]. split.
      * intros k v Hin. destruct (Hval k v Hin) as (Hk & Ht & Ev).
        rewrite times_snoc, (jseqb_sym (js "__proto__") k), Hk, Nat.add_0_r.
        repeat split; assumption.
      * intros k Hin Hk. apply in_app_or in Hin as [Hin|[<-|[]]]; [now apply Hkey|].
        now rewrite jseqb_refl in Hk.
    + split; [now apply NoDup_store|]. split.
      * intros k v Hin. rewrite times_snoc.
        destruct (store_entry k0 _ k v Hnd Hin)
          as [[Hx Hin']|[-> [(v0 & Hin' & Ev)|[Hnot Ev]]]].
        -- destruct (Hval k v Hin') as (Hk & Ht & Ev).
           rewrite (proj2 (jseqb_neq k0 k)) by congruence. rewrite Nat.add_0_r.
           repeat split; assumption.
        -- destruct (Hval k0 v0 Hin') as (Hk & Ht & Ev0). rewrite jseqb_refl.
           split; [assumption|]. split; [lia|]. subst v v0.
           destruct (mem k0 inheritedKeys); cbn [plusOne]; [reflexivity|].
           f_equal. lia.
        -- rewrite jseqb_refl. split; [assumption|].
           assert (T0 : times k0 ks = 0%nat).
           { destruct (times k0 ks) as [|n] eqn:T; [reflexivity|]. exfalso. apply Hnot.
             apply Hkey; [|assumption]. apply times_pos. lia. }
           rewrite T0. split; [lia|]. exact Ev.
      * intros k Hin Hk. apply store_keys.
        apply in_app_or in Hin as [Hin|[<-|[]]]; [right; now apply Hkey|now left].
Qed.

(** The counts of entries: there are some exactly when no value is a
    text. *)
Lemma counts_spec entries :
  match counts entries with
  | Some l => entries = map (fun e => (fst e, Count (snd e))) l
  | None => exists k, In (k, Text) entries
  end.
Proof.
  induction entries as [|[k [n|]] entries IH]; cbn [counts].
  - reflexivity.
  - destruct (counts entries) as [l|]; cbn [option_map].
    + cbn [map fst snd]. now rewrite <- IH.
    + destruct IH as (k' & Hin). exists k'. now right.
  - exists k. now left.
Qed.

Lemma insertIndexed_perm {V : Type} (e : N * (jsstring * V)) l :
  Permutation (insertIndexed e l) (e :: l).
Proof.
  induction l as [|e' l IH]; cbn [insertIndexed]; [reflexivity|].
  destruct (fst e <=? fst e')%N; [reflexivity|].
  rewrite IH. apply perm_swap.
Qed.

Lemma Object_entries_perm {V : Type} (m : list (jsstring * V)) :
  Permutation (Object_entries m) m.
Proof.
  unfold Object_entries.
  set (indexed := flat_map _ m).
  assert (Hs : Permutation (map snd (fold_right insertIndexed [] indexed)) (map snd indexed)).
  { apply Permutation_map. clear. induction indexed as [|e l IH]; [reflexivity|].
    cbn [fold_right]. rewrite insertIndexed_perm. now constructor. }
  rewrite Hs. unfold indexed. clear.
  induction m as [|e m IH]; [reflexivity|]. cbn [flat_map filter].
  destruct (arrayIndex (fst e)); cbn [app map snd].
  - now constructor.
  - rewrite <- Permutation_middle. now constructor.
Qed.

Lemma countTotal_perm l l' : Permutation l l' -> countTotal l = countTotal l'.
Proof.
  unfold countTotal. induction 1; cbn [fold_right]; lia.
Qed.

Lemma valueTotal_perm m m' : Permutation m m' -> valueTotal m = valueTotal m'.
Proof.
  unfold valueTotal. induction 1 as [|[k v] l l' _ IH|[k v] [k' v'] l|l l' l'' _ IH1 _ IH2];
    cbn [fold_right snd].
  - reflexivity.
  - destruct v; lia.
  - destruct v, v'; lia.
  - lia.
Qed.

Lemma valueTotal_counts l :
  valueTotal (map (fun e : jsstring * nat => (fst e, Count (snd e))) l) = countTotal l.
Proof.
  unfold valueTotal, countTotal. induction l as [|e l IH]; cbn [map fold_right snd];
    [reflexivity|]. now rewrite IH.
Qed.

(** [store] adds one to the sum of the counts, for a key that names no
    inherited member and holds no text. *)
Lemma valueTotal_store k m :
  mem k inheritedKeys = false ->
  (forall v, In (k, v) m -> v <> Text) ->
  valueTotal (store k m) = S (valueTotal m).
Proof.
  intros Hk. unfold valueTotal.
  induction m as [|[k0 v0] m IH]; intros Hv; cbn [store].
  - rewrite Hk. reflexivity.
  - destruct (jseqb k0 k) eqn:E; cbn [fold_right snd].
    + apply jseqb_eq in E. subst k0.
      destruct v0 as [n|]; [cbn [plusOne]; lia|].
      exfalso. apply (Hv Text); [now left|reflexivity].
    + rewrite IH by (intros v Hin; apply Hv; now right).
      destruct v0; lia.
Qed.

Lemma valueTotal_store_text k m :
  mem k inheritedKeys = true ->
  (forall v, In (k, v) m -> v = Text) ->
  valueTotal (store k m) = valueTotal m.
Proof.
  intros Hk. unfold valueTotal.
  induction m as [|[k0 v0] m IH]; intros Hv; cbn [store].
  - rewrite Hk. reflexivity.
  - destruct (jseqb k0 k) eqn:E; cbn [fold_right snd].
    + apply jseqb_eq in E. subst k0.
      rewrite (Hv v0 (or_introl eq_refl)). reflexivity.
    + rewrite IH by (intros v Hin; apply Hv; now right). reflexivity.
Qed.

(** The sum of the counts after the keys [ks]: the number of the keys that
    name no inherited member. *)
Lemma valueTotal_countKeys ks :
  valueTotal (countKeys ks)
  = List.length (filter (fun k => negb (mem k inheritedKeys)) ks).
Proof.
  induction ks as [|k0 ks IH] using rev_ind; [reflexivity|].
  rewrite countKeys_snoc, filter_app, length_app. cbn [filter].
  destruct (countKeys_spec ks) as (Hnd & Hval & Hkey).
  unfold increment. destruct (jseqb k0 (js "__proto__")) eqn:Ep.
  - apply jseqb_eq in Ep. subst k0. rewrite IH.
    change (mem (js "__proto__") inheritedKeys) with true. cbn [negb List.length]. lia.
  - destruct (mem k0 inheritedKeys) eqn:Em; cbn [negb List.length].
    + rewrite valueTotal_store_text; [lia|assumption|].
      intros v Hin. destruct (Hval k0 v Hin) as (_ & _ & Ev). now rewrite Em in Ev.
    + rewrite valueTotal_store; [lia|assumption|].
      intros v Hin. destruct (Hval k0 v Hin) as (_ & _ & Ev). rewrite Em in Ev.
      subst v. discriminate.
Qed.

End Counters.

Section SegmentReport.
Import NotificationAgent.
Context `{JsRuntime} `{NumberPrinter}.

Lemma length_filter_cons {A : Type} (p : A -> bool) x l :
  List.length (filter p (x :: l)) = bump (p x) (List.length (filter p l)).
Proof. cbn [filter]. now destruct (p x). Qed.

(** What the loop has counted after the rows [rs]. *)
Lemma tally_counts rs : forall t,
  let t' := fold_left tallyResident rs t in
  advocates t' = (advocates t + List.length (filter (hasPriority ADVOCATE) rs))%nat
  /\ positives t' = (positives t + List.length (filter (hasPriority POSITIVE) rs))%nat
  /\ high t' = (high t + List.length (filter (hasPriority HIGH) rs))%nat
  /\ medium t' = (medium t + List.length (filter (hasPriority MEDIUM) rs))%nat
  /\ participateYes t' = (participateYes t + List.length (filter row_participates rs))%nat
  /\ tally_withWhatsApp t'
     = (tally_withWhatsApp t
        + List.length (filter (fun r => truthy_opt (row_whatsapp r)) rs))%nat.
Proof.
  induction rs as [|r rs IH]; intros t; cbn [fold_left].
  - cbn [filter List.length]. repeat split; lia.
  - cbv zeta in *. destruct (IH (tallyResident t r)) as (E1 & E2 & E3 & E4 & E5 & E6).
    rewrite E1, E2, E3, E4, E5, E6, !length_filter_cons.
    cbn [tallyResident advocates positives high medium participateYes tally_withWhatsApp].
    unfold bump.
    destruct (hasPriority ADVOCATE r), (hasPriority POSITIVE r), (hasPriority HIGH r),
      (hasPriority MEDIUM r), (row_participates r), (truthy_opt (row_whatsapp r));
      repeat split; lia.
Qed.

(** A counter of the loop, after the rows [rs], is the counter of their
    keys. *)
Lemma counter_keys (key : Row -> jsstring) (counter : Tally -> Counter) :
  (forall t r, counter (tallyResident t r) = increment (key r) (counter t)) ->
  forall rs t,
    counter (fold_left tallyResident rs t)
    = fold_left (fun m k => increment k m) (map key rs) (counter t).
Proof.
  intros Hstep. induction rs as [|r rs IH]; intros t; cbn [fold_left map]; [reflexivity|].
  now rewrite IH, Hstep.
Qed.

Lemma times_map (key : Row -> jsstring) k rs : times k (map key rs) = occurrences key k rs.
Proof.
  unfold times, occurrences. induction rs as [|r rs IH]; cbn [map filter]; [reflexivity|].
  destruct (jseqb (key r) k); cbn [List.length]; now rewrite IH.
Qed.

Lemma length_filter_map {A B : Type} (f : A -> B) (p : B -> bool) l :
  List.length (filter p (map f l)) = List.length (filter (fun x => p (f x)) l).
Proof.
  induction l as [|x l IH]; cbn [map filter]; [reflexivity|].
  destruct (p (f x)); cbn [List.length]; now rewrite IH.
Qed.

Lemma NoDup_keys_perm {V : Type} (l l' : list (jsstring * V)) :
  Permutation l l' -> NoDup (map fst l') -> NoDup (map fst l).
Proof.
  intros Hp Hnd. apply (Permutation_NoDup (l := map fst l')); [|assumption].
  apply Permutation_map. now symmetry.
Qed.

(** The sorted entries of the counter of the keys of the rows. *)
Lemma byCount_rows (key : Row -> jsstring) rs :
  countsRows key rs (byCount (countKeys (map key rs))).
Proof.
  destruct (countKeys_spec (map key rs)) as (Hnd & Hval & Hkey).
  pose proof (valueTotal_countKeys (map key rs)) as Htot.
  set (m := countKeys (map key rs)) in *.
  pose proof (Object_entries_perm m) as Hperm.
  assert (Htext : forall k, In (k, Text) m ->
                    exists r, In r rs /\ inheritedMethod (key r) = true).
  { intros k Hin. destruct (Hval k Text Hin) as (Hk & Ht & Ev).
    apply times_pos, in_map_iff in Ht as (r & Er & Hr).
    exists r. split; [assumption|]. unfold inheritedMethod. rewrite Er, Hk.
    destruct (mem k inheritedKeys); [reflexivity|discriminate]. }
  assert (Hmethod : forall r, In r rs -> inheritedMethod (key r) = true ->
                      In (key r, Text) m).
  { intros r Hr Hi. unfold inheritedMethod in Hi. apply andb_true_iff in Hi as [Hm Hp].
    apply negb_true_iff in Hp.
    assert (Hin : In (key r) (map fst m)) by (apply Hkey; [now apply in_map|assumption]).
    apply in_map_iff in Hin as ([k v] & Ek & Hin). cbn [fst] in Ek. subst k.
    destruct (Hval (key r) v Hin) as (_ & _ & Ev). rewrite Hm in Ev. now subst v. }
  unfold byCount, countsRows. pose proof (counts_spec (Object_entries m)) as Hc.
  destruct (counts (Object_entries m)) as [l|]; cbn [option_map].
  - split.
    + split; [discriminate|]. intros (r & Hr & Hi). exfalso.
      pose proof (Hmethod r Hr Hi) as Hin.
      apply (Permutation_in _ (Permutation_sym Hperm)) in Hin. rewrite Hc in Hin.
      apply in_map_iff in Hin as (e & Ee & _). discriminate.
    + intros entries [= <-].
      set (sorted := sortDesc (fun e : jsstring * nat => num (N.of_nat (snd e))) l).
      pose proof (sortDesc_perm (fun e : jsstring * nat => num (N.of_nat (snd e))) l) as Hs.
      fold sorted in Hs.
      assert (Hl : forall k n, In (k, n) sorted -> In (k, Count n) m).
      { intros k n Hin. apply (Permutation_in _ Hs) in Hin.
        apply (Permutation_in _ Hperm). rewrite Hc.
        apply in_map_iff. now exists (k, n). }
      assert (Hfst : Permutation (map fst sorted) (map fst m)).
      { transitivity (map fst l); [now apply Permutation_map|].
        transitivity (map fst (Object_entries m)); [|now apply Permutation_map].
        rewrite Hc, map_map. cbn [fst]. reflexivity. }
      split; [apply (Permutation_NoDup (Permutation_sym Hfst) Hnd)|].
      split.
      { intros k n Hin. destruct (Hval k (Count n) (Hl k n Hin)) as (_ & Ht & Ev).
        rewrite times_map in Ht, Ev.
        destruct (mem k inheritedKeys); [discriminate|]. injection Ev as ->.
        split; [reflexivity|assumption]. }
      split.
      { intros r Hr. unfold keyed in Hr. apply filter_In in Hr as [Hr Hp].
        apply negb_true_iff in Hp.
        apply (Permutation_in _ (Permutation_sym Hfst)).
        apply Hkey; [now apply in_map|assumption]. }
      split.
      { rewrite (countTotal_perm _ _ Hs), <- valueTotal_counts, <- Hc.
        rewrite (valueTotal_perm _ _ Hperm), Htot, length_filter_map.
        unfold keyed. f_equal. apply filter_ext_in. intros r Hr.
        destruct (mem (key r) inheritedKeys) eqn:Em.
        - destruct (jseqb (key r) (js "__proto__")) eqn:Ep; [reflexivity|].
          exfalso. assert (Hi : inheritedMethod (key r) = true)
            by (unfold inheritedMethod; now rewrite Em, Ep).
          pose proof (Hmethod r Hr Hi) as Hin.
          apply (Permutation_in _ (Permutation_sym Hperm)) in Hin. rewrite Hc in Hin.
          apply in_map_iff in Hin as (e & Ee & _). discriminate.
        - destruct (jseqb (key r) (js "__proto__")) eqn:Ep; [|reflexivity].
          apply jseqb_eq in Ep. rewrite Ep in Em. discriminate. }
      apply (sortDesc_decreasing (fun e : jsstring * nat => N.of_nat (snd e))).
  - split.
    + split; [|reflexivity]. intros _. destruct Hc as (k & Hin).
      apply Htext with k. now apply (Permutation_in _ Hperm).
    + intros entries [=].
Qed.

(** The three sorted lists of the report, from the counters of the loop. *)
Lemma byCount_entries (key : Row -> jsstring) (counter : Tally -> Counter) rs :
  (forall t r, counter (tallyResident t r) = increment (key r) (counter t)) ->
  counter emptyTally = [] ->
  countsRows key rs (byCount (counter (fold_left tallyResident rs emptyTally))).
Proof.
  intros Hstep Hempty. rewrite (counter_keys key counter Hstep rs emptyTally), Hempty.
  apply byCount_rows.
Qed.

(** X26.  [buildSegmentReport] returns [null] exactly for no resident.
    Otherwise its metrics are consistent with the rows: [total] is their
    number; the residents with WhatsApp, the four priority counts together,
    and the residents interested in participating are each at most [total].
    The counters are plain objects.  A key that names a function that
    objects inherit, [constructor] say, gets a text for a count, and the order
    of the sorted list is then left to the implementation; the key
    [__proto__] is never stored.  Without a key that names an inherited
    function the satisfaction breakdown lists each level that occurs once,
    with the number of its rows, in decreasing order of count, and its counts
    add up to the number of rows with a level other than [__proto__]; the
    top neighborhoods and the top issues are the first five entries of such
    lists. *)
Theorem buildSegmentReport_metrics residents segment :
  (buildSegmentReport residents segment = None <-> residents = [])
  /\ forall report, buildSegmentReport residents segment = Some report ->
       let m := metrics report in
       total m = List.length residents
       /\ (withWhatsApp m <= total m)%nat
       /\ (priorities_high m + priorities_medium m
           + satisfaction_advocates m + satisfaction_positives m <= total m)%nat
       /\ (participationInterested m <= total m)%nat
       /\ countsRows satisfactionKey residents (satisfactionBreakdown m)
       /\ (exists sorted,
              countsRows neighborhoodKey residents sorted
              /\ topNeighborhoods m = option_map (firstn 5) sorted)
       /\ (exists sorted,
              countsRows issueKey residents sorted
              /\ topIssues m = option_map (firstn 5) sorted).
Proof.
  split.
  - unfold buildSegmentReport. destruct residents; split; congruence.
  - intros report. unfold buildSegmentReport.
    destruct residents as [|r0 rs0] eqn:Er; [discriminate|]. rewrite <- Er.
    intros E.
    apply (f_equal (fun o => match o with Some x => x | None => report end)) in E.
    cbv beta iota in E. subst report.
    cbv beta iota zeta delta
        [metrics total withWhatsApp priorities_high priorities_medium
         satisfaction_advocates satisfaction_positives participationInterested
         topNeighborhoods topIssues satisfactionBreakdown].
    destruct (tally_counts residents emptyTally) as (E1 & E2 & E3 & E4 & E5 & E6).
    cbv zeta in *. cbn [emptyTally advocates positives high medium participateYes
                        tally_withWhatsApp Nat.add] in E1, E2, E3, E4, E5, E6.
    split; [reflexivity|]. split; [rewrite E6; apply filter_length_le|].
    split.
    { rewrite E1, E2, E3, E4. clear. induction residents as [|r rs IH]; [simpl; lia|].
      rewrite !length_filter_cons. cbn [List.length].
      set (a := List.length (filter (hasPriority ADVOCATE) rs)) in *.
      set (p := List.length (filter (hasPriority POSITIVE) rs)) in *.
      set (h := List.length (filter (hasPriority HIGH) rs)) in *.
      set (m := List.length (filter (hasPriority MEDIUM) rs)) in *.
      unfold bump, hasPriority. destruct (row_priority r) as [[]|]; lia. }
    split; [rewrite E5; apply filter_length_le|].
    split; [apply (byCount_entries satisfactionKey bySatisfaction residents
                     (fun _ _ => eq_refl) eq_refl)|].
    split.
    + exists (byCount (byNeighborhood (fold_left tallyResident residents emptyTally))).
      split; [|reflexivity].
      apply (byCount_entries neighborhoodKey byNeighborhood residents
               (fun _ _ => eq_refl) eq_refl).
    + exists (byCount (byIssue (fold_left tallyResident residents emptyTally))).
      split; [|reflexivity].
      apply (byCount_entries issueKey byIssue residents (fun _ _ => eq_refl) eq_refl).
Qed.

Lemma hasPriority_unique p q row :
  hasPriority p row = true -> hasPriority q row = true -> p = q.
Proof.
  unfold hasPriority. destruct (row_priority row) as [[]|], p, q; congruence.
Qed.

(** The counters of a report. *)
Lemma report_counts rows segment report :
  buildSegmentReport rows segment = Some report ->
  let m := metrics report in
  total m = List.length rows
  /\ priorities_high m = List.length (filter (hasPriority HIGH) rows)
  /\ priorities_medium m = List.length (filter (hasPriority MEDIUM) rows)
  /\ satisfaction_advocates m = List.length (filter (hasPriority ADVOCATE) rows)
  /\ satisfaction_positives m = List.length (filter (hasPriority POSITIVE) rows).
Proof.
  unfold buildSegmentReport.
  destruct rows as [|r0 rs0] eqn:Er; [discriminate|]. rewrite <- Er in *.
  intros E.
  apply (f_equal (fun o => match o with Some x => x | None => report end)) in E.
  cbv beta iota in E. subst report.
  cbv beta iota zeta delta [metrics total priorities_high priorities_medium
                            satisfaction_advocates satisfaction_positives].
  destruct (tally_counts rows emptyTally) as (E1 & E2 & E3 & E4 & _).
  cbv zeta in *. cbn [emptyTally advocates positives high medium Nat.add] in E1, E2, E3, E4.
  repeat split; assumption.
Qed.

(** The report of rows that carry one of two priorities, each with its own
    satisfaction level. *)
Lemma two_priorities (p q : Priority) (lp lq : string) rows segment report :
  p <> q -> js lp <> js lq ->
  inheritedMethod (js lp) = false -> inheritedMethod (js lq) = false ->
  (forall row, In row rows -> tells p lp row \/ tells q lq row) ->
  buildSegmentReport rows segment = Some report ->
  (List.length (filter (hasPriority p) rows) + List.length (filter (hasPriority q) rows)
   = total (metrics report))%nat
  /\ (forall x, x <> p -> x <> q -> List.length (filter (hasPriority x) rows) = 0%nat)
  /\ (exists entries,
         satisfactionBreakdown (metrics report) = Some entries
         /\ forall level n, In (level, n) entries ->
              (level = js lp /\ n = List.length (filter (hasPriority p) rows))
              \/ (level = js lq /\ n = List.length (filter (hasPriority q) rows))).
Proof.
  intros Hpq Hl Hip Hiq Hrows. unfold buildSegmentReport.
  destruct rows as [|r0 rs0] eqn:Er; [discriminate|]. rewrite <- Er in *.
  intros E.
  apply (f_equal (fun o => match o with Some x => x | None => report end)) in E.
  cbv beta iota in E. subst report.
  cbv beta iota zeta delta [metrics total satisfactionBreakdown].
  clear Er r0 rs0.
  assert (Hkey : forall x lx y ly, x <> y -> js lx <> js ly ->
            (forall row, In row rows -> tells x lx row \/ tells y ly row) ->
            occurrences satisfactionKey (js lx) rows
            = List.length (filter (hasPriority x) rows)).
  { intros x lx y ly Hxy Hlxy Hr. unfold occurrences. f_equal. apply filter_ext_in.
    intros row Hin. destruct (Hr row Hin) as [[Hp Hk]|[Hp Hk]]; rewrite Hk.
    - now rewrite jseqb_refl, Hp.
    - destruct (hasPriority x row) eqn:Hx.
      + exfalso. apply Hxy. now apply (hasPriority_unique x y row).
      + apply jseqb_neq. congruence. }
  split; [|split].
  - clear Hkey. induction rows as [|r rs IH]; [reflexivity|].
    rewrite !length_filter_cons. cbn [List.length].
    rewrite <- IH by (intros row Hin; apply Hrows; now right).
    destruct (Hrows r (or_introl eq_refl)) as [[Hp _]|[Hq _]].
    + rewrite Hp. destruct (hasPriority q r) eqn:Hq; [|unfold bump; lia].
      exfalso. apply Hpq. now apply (hasPriority_unique p q r).
    + rewrite Hq. destruct (hasPriority p r) eqn:Hp; [|unfold bump; lia].
      exfalso. apply Hpq. now apply (hasPriority_unique p q r).
  - intros x Hxp Hxq. clear Hkey. induction rows as [|r rs IH]; [reflexivity|].
    rewrite length_filter_cons, IH by (intros row Hin; apply Hrows; now right).
    destruct (hasPriority x r) eqn:Hx; [|reflexivity].
    exfalso. destruct (Hrows r (or_introl eq_refl)) as [[Hp _]|[Hq _]].
    + apply Hxp. now apply (hasPriority_unique x p r).
    + apply Hxq. now apply (hasPriority_unique x q r).
  - destruct (byCount_entries satisfactionKey bySatisfaction rows
                (fun _ _ => eq_refl) eq_refl) as (Hnone & Hsome).
    destruct (byCount (bySatisfaction (fold_left tallyResident rows emptyTally)))
      as [entries|] eqn:Eb.
    + exists entries. split; [reflexivity|]. intros level n Hin.
      destruct (Hsome entries eq_refl) as (_ & Hs1 & _).
      destruct (Hs1 level n Hin) as [Hn Hpos].
      assert (Hex : exists row, In row rows /\ satisfactionKey row = level).
      { unfold occurrences in Hn.
        destruct (filter (fun r => jseqb (satisfactionKey r) level) rows) as [|row l] eqn:Ef;
          [simpl in Hn; lia|].
        assert (Hrow : In row (filter (fun r => jseqb (satisfactionKey r) level) rows))
          by (rewrite Ef; now left).
        apply filter_In in Hrow as [Hrow Hk]. apply jseqb_eq in Hk. now exists row. }
      destruct Hex as (row & Hrow & Hk).
      destruct (Hrows row Hrow) as [[_ Hk']|[_ Hk']]; rewrite Hk' in Hk; subst level.
      * left. split; [reflexivity|]. rewrite Hn. now apply (Hkey p lp q lq).
      * right. split; [reflexivity|]. rewrite Hn. apply (Hkey q lq p lp); auto.
        intros r Hr. destruct (Hrows r Hr); tauto.
    + exfalso. destruct (proj1 Hnone eq_refl) as (row & Hrow & Hi).
      destruct (Hrows row Hrow) as [[_ Hk]|[_ Hk]]; rewrite Hk in Hi; congruence.
Qed.

Lemma dissatisfied_rows cs row :
  In row (map SegmentRow (ResidentFilterService.filterDissatisfied cs)) ->
  tells HIGH "Muito insatisfeito" row \/ tells MEDIUM "Insatisfeito" row.
Proof.
  intros Hin. apply in_map_iff in Hin as (r & <- & Hr).
  apply filterDissatisfied_spec in Hr as (c & s & _ & _ & [[Ev ->]|[Ev ->]]);
    [left|right]; unfold tells, hasPriority, satisfactionKey;
    cbn [row_priority row_satisfaction ResidentFilterService.segmentResident
         r_priority r_satisfaction];
    rewrite Ev; split; reflexivity.
Qed.

Lemma satisfied_rows cs row :
  In row (map SegmentRow (ResidentFilterService.filterSatisfied cs)) ->
  tells ADVOCATE "Muito satisfeito" row \/ tells POSITIVE "Satisfeito" row.
Proof.
  intros Hin. apply in_map_iff in Hin as (r & <- & Hr).
  apply filterSatisfied_spec in Hr as (c & s & _ & _ & [[Ev ->]|[Ev ->]]);
    [left|right]; unfold tells, hasPriority, satisfactionKey;
    cbn [row_priority row_satisfaction ResidentFilterService.segmentResident
         r_priority r_satisfaction];
    rewrite Ev; split; reflexivity.
Qed.

(** X27.  The report of the rows of [filterDissatisfied]: every resident has
    the high or the medium priority, so the two counts add up to [total],
    there is no advocate and no positive, and the satisfaction breakdown
    has at most the two dissatisfied levels, with the high and the medium
    count as their counts.  The report of the rows of [filterSatisfied]
    has the advocates and the positives in their place. *)
Theorem segment_report_priorities contacts segment :
  (forall report,
      buildSegmentReport (map SegmentRow (ResidentFilterService.filterDissatisfied contacts))
                         segment = Some report ->
      let m := metrics report in
      (priorities_high m + priorities_medium m = total m)%nat
      /\ satisfaction_advocates m = 0%nat /\ satisfaction_positives m = 0%nat
      /\ exists entries,
           satisfactionBreakdown m = Some entries
           /\ forall level n, In (level, n) entries ->
                (level = js "Muito insatisfeito" /\ n = priorities_high m)
                \/ (level = js "Insatisfeito" /\ n = priorities_medium m))
  /\ (forall report,
         buildSegmentReport (map SegmentRow (ResidentFilterService.filterSatisfied contacts))
                            segment = Some report ->
         let m := metrics report in
         (satisfaction_advocates m + satisfaction_positives m = total m)%nat
         /\ priorities_high m = 0%nat /\ priorities_medium m = 0%nat
         /\ exists entries,
              satisfactionBreakdown m = Some entries
              /\ forall level n, In (level, n) entries ->
                   (level = js "Muito satisfeito" /\ n = satisfaction_advocates m)
                   \/ (level = js "Satisfeito" /\ n = satisfaction_positives m)).
Proof.
  split; intros report Hr; cbv zeta.
  - destruct (two_priorities HIGH MEDIUM "Muito insatisfeito" "Insatisfeito" _ segment report
                ltac:(discriminate) ltac:(vm_compute; discriminate)
                ltac:(vm_compute; reflexivity) ltac:(vm_compute; reflexivity)
                (dissatisfied_rows contacts) Hr) as (Hsum & Hzero & Hlev).
    destruct (report_counts _ segment report Hr) as (_ & Eh & Em & Ea & Ep).
    cbv zeta in *. rewrite Eh, Em, Ea, Ep.
    split; [exact Hsum|]. split; [apply Hzero; discriminate|].
    split; [apply Hzero; discriminate|exact Hlev].
  - destruct (two_priorities ADVOCATE POSITIVE "Muito satisfeito" "Satisfeito" _ segment report
                ltac:(discriminate) ltac:(vm_compute; discriminate)
                ltac:(vm_compute; reflexivity) ltac:(vm_compute; reflexivity)
                (satisfied_rows contacts) Hr) as (Hsum & Hzero & Hlev).
    destruct (report_counts _ segment report Hr) as (_ & Eh & Em & Ea & Ep).
    cbv zeta in *. rewrite Eh, Em, Ea, Ep.
    split; [exact Hsum|]. split; [apply Hzero; discriminate|].
    split; [apply Hzero; discriminate|exact Hlev].
Qed.

End SegmentReport.

(** Three contacts, two of them dissatisfied: the report of the segment
    counts one high and one medium priority. *)
Lemma segment_report_priorities_witness :
  let contacts :=
    [ c_contact (citizenNamed "Maria Souza" "Muito insatisfeito");
      c_contact (citizenNamed "João da Silva" "Insatisfeito");
      c_contact (citizenNamed "Ana Lima" "Satisfeito") ] in
  match NotificationAgent.buildSegmentReport
          (map SegmentRow (ResidentFilterService.filterDissatisfied contacts))
          (js "dissatisfied") with
  | Some report =>
      let m := NotificationAgent.metrics report in
      (NotificationAgent.priorities_high m + NotificationAgent.priorities_medium m
       = NotificationAgent.total m)%nat
      /\ NotificationAgent.total m = 2%nat
  | None => False
  end.
Proof.
  intros contacts.
  assert (Et : option_map (fun r => NotificationAgent.total (NotificationAgent.metrics r))
                 (NotificationAgent.buildSegmentReport
                    (map SegmentRow (ResidentFilterService.filterDissatisfied contacts))
                    (js "dissatisfied")) = Some 2%nat) by (vm_compute; reflexivity).
  destruct (NotificationAgent.buildSegmentReport _ _) as [report|] eqn:E; [|discriminate].
  split.
  - exact (proj1 (proj1 (segment_report_priorities contacts (js "dissatisfied")) report E)).
  - cbn [option_map] in Et. now injection Et.
Defined.

(** A counter under keys that objects inherit: two rows of the neighborhood
    [constructor] leave a text, and no sorted list; a row of the neighborhood
    [__proto__] leaves nothing. *)
Lemma inherited_keys_example :
  countKeys [js "constructor"; js "Centro"; js "constructor"]
  = [(js "constructor", Text); (js "Centro", Count 1)]
  /\ byCount (countKeys [js "constructor"; js "Centro"; js "constructor"]) = None
  /\ countKeys [js "__proto__"; js "Centro"] = [(js "Centro", Count 1)]
  /\ byCount (countKeys [js "Centro"; js "Lagoa"; js "__proto__"; js "Lagoa"])
     = Some [(js "Lagoa", 2%nat); (js "Centro", 1%nat)].
Proof. repeat split; vm_compute; reflexivity. Qed.
